(** * RGUI software renderer: rectangle compositor, pixel formats, particles

    A shallow embedding of the rectangle-fill primitives, the pixel format
    converters and the snow/rain particle effects of the RGUI menu driver,
    with the properties its design document states about them.

    Conventions of the embedding:
    - [unsigned], [int], [uint16_t] and [uint32_t] values are [Z]; unsigned
      arithmetic is reduced with [wrap32], conversions to [int] go through
      [to_int] (two's complement).
    - A frame buffer is the row-major list of its texels.  Every store into
      it goes through [poke] or [memcpy_row], which fail ([None]) exactly
      when the texel addressed is not a texel of the [fb_width] x
      [fb_height] grid or lies outside the allocation: [None] stands for
      an out-of-bounds access of the C code.
    - [float] is IEEE-754 binary32 and [double] binary64, both as
      [spec_float] with the operations of [SpecFloat] at the corresponding
      precision (every expression evaluated in the format of its C type);
      a conversion to an integer type of a value that the type cannot
      hold is undefined in C and is [None] here.  Bounds on the values of
      binary32 results are stated over the rationals ([Q]). *)

From Stdlib Require Import ZArith Bool Lia QArith Qpower Lqa.
From Stdlib Require Import Floats.SpecFloat.
From stdpp Require Import base option list.

Local Open Scope Z_scope.

(** ** Machine integers *)

Definition wrap32 (n : Z) : Z := n mod 2 ^ 32.

Definition wrap64 (n : Z) : Z := n mod 2 ^ 64.

(** Conversion of an unsigned (or wider) value to [int]. *)
Definition to_int (n : Z) : Z :=
  let u := wrap32 n in if u <? 2 ^ 31 then u else u - 2 ^ 32.

Definition INT_MAX : Z := 2 ^ 31 - 1.
Definition INT_MIN : Z := - 2 ^ 31.
Definition UINT_MAX : Z := 2 ^ 32 - 1.

Definition sizeof_uint16_t : Z := 2.

Definition RGUI_MIN_FB_HEIGHT : Z := 192.
Definition RGUI_MIN_FB_WIDTH : Z := 256.
Definition RGUI_MAX_FB_WIDTH : Z := 426.
Definition RGUI_NUM_PARTICLES : Z := 256.

(** ** Counted loops

    [for (i = start; i < stop; i += step) body] with [0 < step]: the body
    runs [trip_count start stop step] times, on [start], [start + step],
    ...  The indices of every loop modelled here stay below a frame buffer
    dimension or an array length, so the increment never wraps. *)

Definition trip_count (start stop step : Z) : nat :=
  Z.to_nat ((stop - start + step - 1) / step).

Fixpoint iterate {S : Type} (n : nat) (i step : Z)
    (body : Z -> S -> option S) (s : S) : option S :=
  match n with
  | O => Some s
  | Datatypes.S n' =>
      match body i s with
      | Some s' => iterate n' (i + step) step body s'
      | None => None
      end
  end.

Definition for_loop {S : Type} (start stop step : Z)
    (body : Z -> S -> option S) (s : S) : option S :=
  iterate (trip_count start stop step) start step body s.

(** ** Frame buffer accesses *)

(** [data + (row * fb_width) + col], the product in unsigned arithmetic. *)
Definition texel_offset (fb_width row col : Z) : Z :=
  wrap32 (row * fb_width) + col.

Definition in_frame (fb_width fb_height row col : Z) : bool :=
  (0 <=? row) && (row <? fb_height) && (0 <=? col) && (col <? fb_width).

(** [*(data + (row * fb_width) + col) = v]. *)
Definition poke (data : list Z) (fb_width fb_height row col v : Z)
    : option (list Z) :=
  let off := texel_offset fb_width row col in
  if in_frame fb_width fb_height row col && (off <? Z.of_nat (length data))
  then Some (<[Z.to_nat off := v]> data)
  else None.

(** [array[i] = v] on a local array. *)
Definition array_store (a : list Z) (i v : Z) : option (list Z) :=
  if (0 <=? i) && (i <? Z.of_nat (length a))
  then Some (<[Z.to_nat i := v]> a)
  else None.

(** [memcpy(data + col + (row * fb_width), src + src_off, x_size)]:
    [x_size / sizeof(uint16_t)] texels of row [row], from column [col] on,
    are overwritten with the entries of [src] from [src_off] on. *)
Definition memcpy_row (data : list Z) (fb_width fb_height row col : Z)
    (src : list Z) (src_off x_size : Z) : option (list Z) :=
  let n := x_size / sizeof_uint16_t in
  let off := texel_offset fb_width row col in
  if (0 <=? row) && (row <? fb_height) && (0 <=? col) && (col + n <=? fb_width)
     && (off + n <=? Z.of_nat (length data))
     && (0 <=? src_off) && (src_off + n <=? Z.of_nat (length src))
  then Some (take (Z.to_nat off) data
             ++ take (Z.to_nat n) (drop (Z.to_nat src_off) src)
             ++ drop (Z.to_nat (off + n)) data)
  else None.

(** The texel at [(row, col)] of a buffer with stride [fb_width]. *)
Definition texel (data : list Z) (fb_width row col : Z) : option Z :=
  data !! Z.to_nat (row * fb_width + col).

(** ** Rectangle primitives *)

Definition rgui_color_rect (data : list Z) (fb_width fb_height : Z)
    (x y width height color : Z) : option (list Z) :=
  let x_start := if x <=? fb_width then x else fb_width in
  let y_start := if y <=? fb_height then y else fb_height in
  let x_end := wrap32 (x + width) in
  let y_end := wrap32 (y + height) in
  let x_end := if x_end <=? fb_width then x_end else fb_width in
  let y_end := if y_end <=? fb_height then y_end else fb_height in
  for_loop y_start y_end 1 (fun y_index data =>
    for_loop x_start x_end 1 (fun x_index data =>
      poke data fb_width fb_height y_index x_index color) data) data.

(** Returns the buffer and whether the particle is on screen. *)
Definition rgui_draw_particle (data : list Z) (fb_width fb_height : Z)
    (x y width height color : Z) : option (list Z * bool) :=
  let x_start := if x >? 0 then x else 0 in
  let y_start := if y >? 0 then y else 0 in
  let x_end := to_int (x + width) in
  let y_end := to_int (y + height) in
  let x_start :=
    if x_start <=? to_int fb_width then x_start else to_int fb_width in
  let y_start :=
    if y_start <=? to_int fb_height then y_start else to_int fb_height in
  let x_end := if x_end >? 0 then x_end else 0 in
  let x_end := if x_end <=? to_int fb_width then x_end else to_int fb_width in
  let y_end := if y_end >? 0 then y_end else 0 in
  let y_end := if y_end <=? to_int fb_height then y_end else to_int fb_height in
  data' ← for_loop (wrap32 y_start) (wrap32 y_end) 1 (fun y_index data =>
    for_loop (wrap32 x_start) (wrap32 x_end) 1 (fun x_index data =>
      poke data fb_width fb_height y_index x_index color) data) data;
  Some (data', (x_end >? x_start) && (y_end >? y_start)).

(** The two scanline templates of [rgui_fill_rect]. *)
Inductive scanline := scanline_even | scanline_odd.

Definition rgui_fill_rect (data : list Z) (fb_width fb_height : Z)
    (x y width height dark_color light_color : Z) (thickness : bool)
    : option (list Z) :=
  let x_start := if x <=? fb_width then x else fb_width in
  let y_start := if y <=? fb_height then y else fb_height in
  let x_end := wrap32 (x + width) in
  let y_end := wrap32 (y + height) in
  let even0 := replicate (Z.to_nat RGUI_MAX_FB_WIDTH) 0 in
  let odd0 := replicate (Z.to_nat RGUI_MAX_FB_WIDTH) 0 in
  let x_end := if x_end <=? fb_width then x_end else fb_width in
  let y_end := if y_end <=? fb_height then y_end else fb_height in
  let x_size := wrap64 (wrap32 (x_end - x_start) * sizeof_uint16_t) in
  let copy (src : list Z) := fun y_index data =>
    memcpy_row data fb_width fb_height y_index x_start src x_start x_size in
  if x_size =? 0 then Some data
  else if dark_color =? light_color then
    even ← for_loop x_start x_end 1 (fun x_index even =>
      array_store even x_index dark_color) even0;
    for_loop y_start y_end 1 (copy even) data
  else if thickness then
    let '(src_a, src_b, src_c, src_d) :=
      match Z.land y_start 3 with
      | 1 => (scanline_even, scanline_odd, scanline_odd, scanline_even)
      | 2 => (scanline_odd, scanline_odd, scanline_even, scanline_even)
      | 3 => (scanline_odd, scanline_even, scanline_even, scanline_odd)
      | _ => (scanline_even, scanline_even, scanline_odd, scanline_odd)
      end in
    lines ← for_loop x_start x_end 1 (fun x_index (lines : list Z * list Z) =>
      let x_is_even := Z.land (Z.shiftr x_index 1) 1 =? 0 in
      even ← array_store lines.1 x_index
                (if x_is_even then dark_color else light_color);
      odd ← array_store lines.2 x_index
               (if x_is_even then light_color else dark_color);
      Some (even, odd)) (even0, odd0);
    let deref (p : scanline) :=
      match p with scanline_even => lines.1 | scanline_odd => lines.2 end in
    data ← for_loop y_start y_end 4 (copy (deref src_a)) data;
    data ← for_loop (wrap32 (y_start + 1)) y_end 4 (copy (deref src_b)) data;
    data ← for_loop (wrap32 (y_start + 2)) y_end 4 (copy (deref src_c)) data;
    for_loop (wrap32 (y_start + 3)) y_end 4 (copy (deref src_d)) data
  else
    let '(src_a, src_b) :=
      if Z.land y_start 1 =? 0
      then (scanline_even, scanline_odd)
      else (scanline_odd, scanline_even) in
    lines ← for_loop x_start x_end 1 (fun x_index (lines : list Z * list Z) =>
      let x_is_even := Z.land x_index 1 =? 0 in
      even ← array_store lines.1 x_index
                (if x_is_even then dark_color else light_color);
      odd ← array_store lines.2 x_index
               (if x_is_even then light_color else dark_color);
      Some (even, odd)) (even0, odd0);
    let deref (p : scanline) :=
      match p with scanline_even => lines.1 | scanline_odd => lines.2 end in
    data ← for_loop y_start y_end 2 (copy (deref src_a)) data;
    for_loop (wrap32 (y_start + 1)) y_end 2 (copy (deref src_b)) data.

(** ** Floating point

    [float] values are binary32, [double] values binary64. *)

Definition f32_add := SFadd 24 128.
Definition f32_mul := SFmul 24 128.
Definition f32_div := SFdiv 24 128.
Definition f64_add := SFadd 53 1024.
Definition f64_mul := SFmul 53 1024.
Definition f64_div := SFdiv 53 1024.

(** [(float)n] and [(double)n] for an integer [n]. *)
Definition f32_of_Z (n : Z) : spec_float := binary_normalize 24 128 n 0 false.
Definition f64_of_Z (n : Z) : spec_float := binary_normalize 53 1024 n 0 false.

(** The implicit promotion of a [float] to [double] (exact) and the
    conversion of a [double] to [float] (rounding to nearest even). *)
Definition f64_of_f32 (x : spec_float) : spec_float :=
  match x with
  | S754_finite s m e => binary_round 53 1024 s m e
  | _ => x
  end.

Definition f32_of_f64 (x : spec_float) : spec_float :=
  match x with
  | S754_finite s m e => binary_round 24 128 s m e
  | _ => x
  end.

(** A decimal literal [n / d] ([d] a power of ten): the quotient of two
    exactly representable integers, correctly rounded. *)
Definition f32_lit (n d : Z) : spec_float := f32_div (f32_of_Z n) (f32_of_Z d).
Definition f64_lit (n d : Z) : spec_float := f64_div (f64_of_Z n) (f64_of_Z d).

(** The integral part of a finite value (rounding toward zero). *)
Definition SFtrunc (x : spec_float) : option Z :=
  match x with
  | S754_zero _ => Some 0
  | S754_finite s m e => Some (cond_Zopp s (Z.shiftl (Z.pos m) e))
  | _ => None
  end.

(** [(unsigned)x] and [(int)x]: undefined unless the integral part fits. *)
Definition to_unsigned (x : spec_float) : option Z :=
  v ← SFtrunc x;
  if (0 <=? v) && (v <=? UINT_MAX) then Some v else None.

Definition to_signed (x : spec_float) : option Z :=
  v ← SFtrunc x;
  if (INT_MIN <=? v) && (v <=? INT_MAX) then Some v else None.

Definition is_zero (x : spec_float) : bool :=
  match x with S754_zero _ => true | _ => false end.

Definition is_nan (x : spec_float) : bool :=
  match x with S754_nan => true | _ => false end.

(** A [double] division whose divisor must not be zero: [None] stands for
    a division by zero. *)
Definition f64_div_checked (x y : spec_float) : option spec_float :=
  if is_zero y then None else Some (f64_div x y).

(** [fmod] of the C library on [double]: [x - n * y] for the integer [n]
    that gives a result with the sign of [x] and magnitude below that of
    [y]; the result is exact. *)
Definition fmod (x y : spec_float) : spec_float :=
  match x, y with
  | S754_nan, _ | _, S754_nan => S754_nan
  | S754_infinity _, _ => S754_nan
  | _, S754_zero _ => S754_nan
  | S754_zero _, _ => x
  | S754_finite _ _ _, S754_infinity _ => x
  | S754_finite sx mx ex, S754_finite _ my ey =>
      let e := Z.min ex ey in
      let r := Z.rem (Z.shiftl (Z.pos mx) (ex - e)) (Z.shiftl (Z.pos my) (ey - e)) in
      binary_normalize 53 1024 (cond_Zopp sx r) e sx
  end.

(** ** Pixel format conversion *)

Definition wrap16 (n : Z) : Z := n mod 2 ^ 16.

(** PS2 *)
Definition argb32_to_abgr1555 (col : Z) : option Z :=
  let a := Z.land (Z.shiftr col 24) 255 in
  let r := Z.land (Z.shiftr col 16) 255 in
  let g := Z.land (Z.shiftr col 8) 255 in
  let b := Z.land col 255 in
  '(r, g, b) ←
    (if a <? 255 then
       let a_factor :=
         f32_of_f64 (f64_mul (f64_of_f32 (f32_of_Z a)) (f64_lit 1 255)) in
       let darken (v : Z) :=
         u ← to_unsigned
               (f64_add (f64_of_f32 (f32_mul (f32_of_Z v) a_factor))
                        (f64_lit 5 10));
         Some (Z.land u 255) in
       r ← darken r; g ← darken g; b ← darken b; Some (r, g, b)
     else Some (r, g, b));
  let r := Z.shiftr r 3 in
  let g := Z.shiftr g 3 in
  let b := Z.shiftr b 3 in
  Some (wrap16 (Z.lor (Z.lor (Z.lor (Z.shiftl 1 15) (Z.shiftl b 10))
                             (Z.shiftl g 5)) r)).

(** The correction factor of [argb32_to_rgb5a3] for the alpha values
    [a3 = a >> 5] and [a4 = a >> 4]. *)
Definition rgb5a3_a_factor (a3 a4 : Z) : option spec_float :=
  if a3 >? 0 then
    q ← f64_div_checked
          (f64_mul (f64_of_f32 (f32_of_Z a4)) (f64_lit 1 15))
          (f64_mul (f64_of_f32 (f32_of_Z a3)) (f64_lit 1 7));
    Some (f32_of_f64 q)
  else Some (f32_of_Z 1).

(** One colour component of [argb32_to_rgb5a3] scaled by [a_factor]. *)
Definition rgb5a3_scale (a_factor : spec_float) (v : Z) : option Z :=
  u ← to_unsigned
        (f64_add (f64_of_f32 (f32_mul (f32_of_Z v) a_factor)) (f64_lit 5 10));
  Some (if u <=? 255 then u else 255).

(** GEKKO *)
Definition argb32_to_rgb5a3 (col : Z) : option Z :=
  let a := Z.land (Z.shiftr col 24) 255 in
  let r := Z.land (Z.shiftr col 16) 255 in
  let g := Z.land (Z.shiftr col 8) 255 in
  let b := Z.land col 255 in
  let a3 := Z.shiftr a 5 in
  '(r, g, b) ←
    (if a <? 255 then
       let a4 := Z.shiftr a 4 in
       a_factor ← rgb5a3_a_factor a3 a4;
       r ← rgb5a3_scale a_factor r;
       g ← rgb5a3_scale a_factor g;
       b ← rgb5a3_scale a_factor b;
       Some (r, g, b)
     else Some (r, g, b));
  let r := Z.shiftr r 4 in
  let g := Z.shiftr g 4 in
  let b := Z.shiftr b 4 in
  Some (wrap16 (Z.lor (Z.lor (Z.lor (Z.shiftl a3 12) (Z.shiftl r 8))
                             (Z.shiftl g 4)) b)).

(** PSP *)
Definition argb32_to_abgr4444 (col : Z) : Z :=
  let a := Z.shiftr (Z.land (Z.shiftr col 24) 255) 4 in
  let r := Z.shiftr (Z.land (Z.shiftr col 16) 255) 4 in
  let g := Z.shiftr (Z.land (Z.shiftr col 8) 255) 4 in
  let b := Z.shiftr (Z.land col 255) 4 in
  wrap16 (Z.lor (Z.lor (Z.lor (Z.shiftl a 12) (Z.shiftl b 8)) (Z.shiftl g 4)) r).

(** D3D10/11/12 *)
Definition argb32_to_bgra4444 (col : Z) : Z :=
  let a := Z.shiftr (Z.land (Z.shiftr col 24) 255) 4 in
  let r := Z.shiftr (Z.land (Z.shiftr col 16) 255) 4 in
  let g := Z.shiftr (Z.land (Z.shiftr col 8) 255) 4 in
  let b := Z.shiftr (Z.land col 255) 4 in
  wrap16 (Z.lor (Z.lor (Z.lor (Z.shiftl b 12) (Z.shiftl g 8)) (Z.shiftl r 4)) a).

(** All other platforms *)
Definition argb32_to_rgba4444 (col : Z) : Z :=
  let a := Z.shiftr (Z.land (Z.shiftr col 24) 255) 4 in
  let r := Z.shiftr (Z.land (Z.shiftr col 16) 255) 4 in
  let g := Z.shiftr (Z.land (Z.shiftr col 8) 255) 4 in
  let b := Z.shiftr (Z.land col 255) 4 in
  wrap16 (Z.lor (Z.lor (Z.lor (Z.shiftl r 12) (Z.shiftl g 8)) (Z.shiftl b 4)) a).

(** ** Particle effects *)

Module rgui_particle.
Record t : Type := mk { a : spec_float; b : spec_float; c : spec_float; d : spec_float }.
End rgui_particle.

Abbreviation rgui_particle_t := rgui_particle.t.

(** Modelled from the spec: the enumeration of the particle effects, whose
    declaration is not part of the source file ("a configuration enum
    {None, Snow, SnowBig/Alt, Rain, Vortex, Starfield}"). *)
Inductive rgui_particle_effect :=
  | RGUI_PARTICLE_EFFECT_NONE
  | RGUI_PARTICLE_EFFECT_SNOW
  | RGUI_PARTICLE_EFFECT_SNOW_ALT
  | RGUI_PARTICLE_EFFECT_RAIN
  | RGUI_PARTICLE_EFFECT_VORTEX
  | RGUI_PARTICLE_EFFECT_STARFIELD.

(** [rand()]: the generator is the sequence of the values it will return,
    each a non-negative [int]. *)
Definition rng : Type := nat -> N.

Definition rand (g : rng) : Z * rng := (Z.of_N (g O), fun k => g (S k)).

(** The state the particle loops run on: the particle array of [rgui_t],
    the texels of [rgui_frame_buf] and the random generator. *)
Definition effect_state : Type := list rgui_particle_t * list Z * rng.

(** [(1.0f / 60.0f) * 1000.0f] *)
Definition particle_effect_period : spec_float :=
  f32_mul (f32_div (f32_of_Z 1) (f32_of_Z 60)) (f32_of_Z 1000).

(** The speed factor of [rgui_render_particle_effect], from the configured
    speed multiplier and the frame's delta time. *)
Definition global_speed_factor (particle_effect_speed delta_time : spec_float)
    : spec_float :=
  let global_speed_factor := f32_of_Z 1 in
  let global_speed_factor :=
    if SFltb (f32_lit 1 10000) particle_effect_speed
    then particle_effect_speed else global_speed_factor in
  f32_mul global_speed_factor (f32_div delta_time particle_effect_period).

(** *** Snow *)

(** "Update particle 'speed'": the random walk of the velocity and its
    clamp, for the two values [r1], [r2] drawn from [rand()]. *)
Definition snow_update_speed (particle : rgui_particle_t) (r1 r2 : Z)
    : rgui_particle_t :=
  let c := f32_add (rgui_particle.c particle)
             (f32_mul (f32_of_Z (Z.rem r1 16 - 9)) (f32_lit 1 100)) in
  let d := f32_add (rgui_particle.d particle)
             (f32_mul (f32_of_Z (Z.rem r2 16 - 7)) (f32_lit 1 100)) in
  let c := if SFltb c (SFopp (f32_lit 4 10)) then SFopp (f32_lit 4 10) else c in
  let c := if SFltb (f32_lit 1 10) c then f32_lit 1 10 else c in
  let d := if SFltb d (SFopp (f32_lit 1 10)) then SFopp (f32_lit 1 10) else d in
  let d := if SFltb (f32_lit 4 10) d then f32_lit 4 10 else d in
  rgui_particle.mk (rgui_particle.a particle) (rgui_particle.b particle) c d.

(** "Update particle location" *)
Definition snow_update_location (fb_width fb_height : Z)
    (global_speed_factor : spec_float) (particle : rgui_particle_t)
    : rgui_particle_t :=
  let '(rgui_particle.mk a b c d) := particle in
  let a := f32_of_f64 (fmod (f64_of_f32 (f32_add a (f32_mul global_speed_factor c)))
                            (f64_of_Z fb_width)) in
  let b := f32_of_f64 (fmod (f64_of_f32 (f32_add b (f32_mul global_speed_factor d)))
                            (f64_of_Z fb_height)) in
  rgui_particle.mk a b c d.

(** "Get particle size" *)
Definition snow_particle_size (effect : rgui_particle_effect) (i : Z) : Z :=
  match effect with
  | RGUI_PARTICLE_EFFECT_SNOW_ALT =>
      if Z.land i 2 =? 0 then 2
      else if Z.land i 7 =? 7 then 3
      else 1
  | _ => 1
  end.

(** "Reset particle if it has fallen off screen" *)
Definition snow_reset (fb_width fb_height : Z) (particle : rgui_particle_t)
    : rgui_particle_t :=
  let '(rgui_particle.mk a b c d) := particle in
  let a := if SFltb a (f32_of_Z 0) then f32_add a (f32_of_Z fb_width) else a in
  let b := if SFltb b (f32_of_Z 0) then f32_add b (f32_of_Z fb_height) else b in
  rgui_particle.mk a b c d.

(** One iteration of the snow loop on the particle of index [i]: the
    particle after the iteration, the frame buffer, and [on_screen]. *)
Definition snow_particle_step (effect : rgui_particle_effect)
    (fb_width fb_height : Z) (global_speed_factor : spec_float)
    (particle_color i : Z) (particle : rgui_particle_t) (r1 r2 : Z)
    (data : list Z) : option (rgui_particle_t * list Z * bool) :=
  let particle := snow_update_speed particle r1 r2 in
  let particle := snow_update_location fb_width fb_height global_speed_factor particle in
  let particle_size := snow_particle_size effect i in
  x ← to_signed (rgui_particle.a particle);
  y ← to_signed (rgui_particle.b particle);
  '(data, on_screen) ← rgui_draw_particle data fb_width fb_height x y
                          particle_size particle_size particle_color;
  let particle :=
    if (on_screen : bool) then particle else snow_reset fb_width fb_height particle in
  Some (particle, data, on_screen).

(** The [RGUI_PARTICLE_EFFECT_SNOW] / [RGUI_PARTICLE_EFFECT_SNOW_ALT] case
    of [rgui_render_particle_effect]. *)
Definition rgui_render_particle_effect_snow (effect : rgui_particle_effect)
    (fb_width fb_height : Z) (global_speed_factor : spec_float)
    (particle_color : Z) (st : effect_state) : option effect_state :=
  for_loop 0 RGUI_NUM_PARTICLES 1 (fun i (st : effect_state) =>
    let '(particles, data, rnd) := st in
    particle ← particles !! Z.to_nat i;
    let '(r1, rnd) := rand rnd in
    let '(r2, rnd) := rand rnd in
    '(particle, data, on_screen) ← snow_particle_step effect fb_width fb_height
        global_speed_factor particle_color i particle r1 r2 data;
    Some (<[Z.to_nat i := particle]> particles, data, rnd)) st.

(** The snow case of [rgui_init_particle_effect]; [rand() % fb_width] is an
    unsigned remainder, undefined for a zero divisor. *)
Definition rgui_init_particle_effect_snow (fb_width fb_height : Z)
    (st : list rgui_particle_t * rng) : option (list rgui_particle_t * rng) :=
  for_loop 0 RGUI_NUM_PARTICLES 1 (fun i (st : list rgui_particle_t * rng) =>
    let '(particles, rnd) := st in
    particle ← particles !! Z.to_nat i;
    let '(r1, rnd) := rand rnd in
    let '(r2, rnd) := rand rnd in
    let '(r3, rnd) := rand rnd in
    let '(r4, rnd) := rand rnd in
    if (fb_width =? 0) || (fb_height =? 0) then None else
    let a := f32_of_Z (r1 mod fb_width) in
    let b := f32_of_Z (r2 mod fb_height) in
    let c := f32_mul (f32_of_Z (Z.rem r3 64 - 16)) (f32_lit 1 10) in
    let d := f32_mul (f32_of_Z (Z.rem r4 64 - 48)) (f32_lit 1 10) in
    Some (<[Z.to_nat i := rgui_particle.mk a b c d]> particles, rnd)) st.

(** *** Rain *)

Definition weights : list Z :=
  [ 2; 2; 2; 2; 2; 2; 2; 2; 2; 2; 2; 2; 2;
    3; 3; 3; 3; 3; 3; 3; 3; 3; 3; 3; 3;
    4; 4; 4; 4; 4; 4; 4; 4; 4; 4; 4;
    5; 5; 5; 5; 5; 5; 5; 5;
    6; 6; 6; 6; 6; 6;
    7; 7; 7; 7;
    8; 8; 8;
    9; 9;
    10 ].

(** [num_drops] of the rain case, before and after the cap. *)
Definition rain_num_drops (fb_width : Z) : option Z :=
  num_drops ← to_unsigned
    (f32_mul (f32_mul (f32_lit 85 100)
                      (f32_div (f32_of_Z fb_width) (f32_of_Z RGUI_MAX_FB_WIDTH)))
             (f32_of_Z RGUI_NUM_PARTICLES));
  Some (if num_drops <? RGUI_NUM_PARTICLES then num_drops else RGUI_NUM_PARTICLES).

(** A fresh drop: x pos, drop length and drop speed from three values of
    [rand()]; the y pos is set by the caller. *)
Definition rain_new_drop (fb_width : Z) (b : spec_float) (r1 r2 r3 : Z)
    : option rgui_particle_t :=
  if fb_width / 3 =? 0 then None else
  let a := f32_mul (f32_of_Z (r1 mod (fb_width / 3))) (f32_of_Z 3) in
  w ← weights !! Z.to_nat (wrap32 (Z.rem r2 60));
  let c := f32_of_Z w in
  let d := f32_mul (f32_div c (f32_of_Z 12))
             (f32_add (f32_lit 5 10)
                      (f32_div (f32_of_Z (Z.rem r3 150)) (f32_of_Z 200))) in
  Some (rgui_particle.mk a b c d).

(** The [RGUI_PARTICLE_EFFECT_RAIN] case of [rgui_render_particle_effect]. *)
Definition rgui_render_particle_effect_rain (fb_width fb_height : Z)
    (global_speed_factor : spec_float) (particle_color : Z)
    (st : effect_state) : option effect_state :=
  num_drops ← rain_num_drops fb_width;
  for_loop 0 num_drops 1 (fun i (st : effect_state) =>
    let '(particles, data, rnd) := st in
    particle ← particles !! Z.to_nat i;
    let '(rgui_particle.mk a b c d) := particle in
    x ← to_signed a;
    y ← to_signed b;
    height ← to_unsigned c;
    '(data, on_screen) ← rgui_draw_particle data fb_width fb_height x y
                            2 height particle_color;
    let b := f32_add b (f32_mul d global_speed_factor) in
    if (on_screen : bool) then
      Some (<[Z.to_nat i := rgui_particle.mk a b c d]> particles, data, rnd)
    else
      let '(r1, rnd) := rand rnd in
      let '(r2, rnd) := rand rnd in
      let '(r3, rnd) := rand rnd in
      particle ← rain_new_drop fb_width (f32_of_Z 0) r1 r2 r3;
      Some (<[Z.to_nat i := particle]> particles, data, rnd)) st.

(** The rain case of [rgui_init_particle_effect]. *)
Definition rgui_init_particle_effect_rain (fb_width fb_height : Z)
    (st : list rgui_particle_t * rng) : option (list rgui_particle_t * rng) :=
  num_drops ← rain_num_drops fb_width;
  for_loop 0 num_drops 1 (fun i (st : list rgui_particle_t * rng) =>
    let '(particles, rnd) := st in
    particle ← particles !! Z.to_nat i;
    let '(r1, rnd) := rand rnd in
    let '(r2, rnd) := rand rnd in
    let '(r3, rnd) := rand rnd in
    let '(r4, rnd) := rand rnd in
    if fb_height =? 0 then None else
    particle ← rain_new_drop fb_width (f32_of_Z (r2 mod fb_height)) r1 r3 r4;
    Some (<[Z.to_nat i := particle]> particles, rnd)) st.

(** ** Vocabulary of the statements *)

(** A frame buffer as the renderer allocates it: [fb_width * fb_height]
    texels, both dimensions representable as [int] and the texel count as
    [unsigned]. *)
Definition frame_buf_ok (data : list Z) (fb_width fb_height : Z) : Prop :=
  0 <= fb_width <= INT_MAX /\ 0 <= fb_height <= INT_MAX /\
  fb_width * fb_height <= UINT_MAX /\
  Z.of_nat (length data) = fb_width * fb_height.

(** [data'] is [data] with the texels selected by [inside] set to
    [colour], every other texel of the grid unchanged. *)
Definition painted (fb_width fb_height : Z) (data data' : list Z)
    (inside : Z -> Z -> bool) (colour : Z -> Z -> Z) : Prop :=
  length data' = length data /\
  forall row col, 0 <= row < fb_height -> 0 <= col < fb_width ->
    texel data' fb_width row col =
      if inside row col then Some (colour row col) else texel data fb_width row col.

(** The texel [(row, col)] lies in the rectangle with corner [(x, y)]. *)
Definition in_rect (x y width height row col : Z) : bool :=
  (x <=? col) && (col <? x + width) && (y <=? row) && (row <? y + height).

(** [row] is one of [y0], [y0 + step], ... below [y1]. *)
Definition on_rows (y0 y1 step row : Z) : bool :=
  (y0 <=? row) && (row <? y1) && ((row - y0) mod step =? 0).

(** The checkerboard: 1x1 texels, or 2x2 blocks when [thickness] is set,
    anchored at the origin of the buffer. *)
Definition checker_colour (dark_color light_color : Z) (thickness : bool)
    (row col : Z) : Z :=
  if thickness
  then if Z.even (Z.shiftr col 1 + Z.shiftr row 1) then dark_color else light_color
  else if Z.even (col + row) then dark_color else light_color.


(** The 8-bit channel of an ARGB colour that starts at bit [shift]
    (24: alpha, 16: red, 8: green, 0: blue). *)
Definition channel (col shift : Z) : Z := Z.land (Z.shiftr col shift) 255.

(** The [width]-bit field of a packed pixel that starts at bit [pos]. *)
Definition field (v pos width : Z) : Z := Z.land (Z.shiftr v pos) (Z.ones width).

(** Two colours agree on bits 7-4 of each of their four channels. *)
Definition high_nibbles_agree (c1 c2 : Z) : Prop :=
  forall k i, k = 0 \/ k = 8 \/ k = 16 \/ k = 24 -> 4 <= i <= 7 ->
    Z.testbit c1 (k + i) = Z.testbit c2 (k + i).

(** [P] holds of [0], ..., [n - 1] (checked by evaluation). *)
Fixpoint all_below (n : nat) (P : Z -> bool) : bool :=
  match n with
  | O => true
  | S k => P (Z.of_nat k) && all_below k P
  end.

Definition is_finite (x : spec_float) : bool :=
  match x with S754_zero _ | S754_finite _ _ _ => true | _ => false end.

(** The velocity of a snow particle lies in [-0.4f, 0.1f] x [-0.1f, 0.4f]. *)
Definition snow_speed_in_range (particle : rgui_particle_t) : bool :=
  SFleb (SFopp (f32_lit 4 10)) (rgui_particle.c particle)
  && SFleb (rgui_particle.c particle) (f32_lit 1 10)
  && SFleb (SFopp (f32_lit 1 10)) (rgui_particle.d particle)
  && SFleb (rgui_particle.d particle) (f32_lit 4 10).

(** [snow_pool effect n particles]: [particles] is the particle array after
    [rgui_init_particle_effect] and [n] calls of
    [rgui_render_particle_effect] for a snow effect, whatever [rand()]
    returned, and whatever the speed factor, the colour and the frame
    buffer of each call were. *)
Inductive snow_pool (effect : rgui_particle_effect)
    : nat -> list rgui_particle_t -> Prop :=
  | snow_pool_init fb_width fb_height particles rnd particles' rnd' :
      rgui_init_particle_effect_snow fb_width fb_height (particles, rnd)
        = Some (particles', rnd') ->
      snow_pool effect O particles'
  | snow_pool_render n fb_width fb_height global_speed_factor particle_color
      particles data rnd particles' data' rnd' :
      snow_pool effect n particles ->
      rgui_render_particle_effect_snow effect fb_width fb_height
        global_speed_factor particle_color (particles, data, rnd)
        = Some (particles', data', rnd') ->
      snow_pool effect (S n) particles'.

(** A particle at rest in the top left corner, and a generator that
    returns 0 forever: inputs of the worked examples. *)
Definition still_particle : rgui_particle_t :=
  rgui_particle.mk (f32_of_Z 0) (f32_of_Z 0) (f32_of_Z 0) (f32_of_Z 0).

Definition zero_rng : rng := fun _ => 0%N.

(** A generator under which [rgui_init_particle_effect] puts every snow
    particle at rest in the top left corner: it returns 0, 0, 16, 48, 0, 0,
    16, 48, ... *)
Definition corner_rng : rng :=
  fun k => match Nat.modulo k 4 with
           | 2%nat => 16%N
           | 3%nat => 48%N
           | _ => 0%N
           end.

(** [min(256, trunc(0.85 * (fb_width / 426) * 256))] in exact arithmetic,
    as the specification words the number of active drops. *)
Definition spec_num_drops (fb_width : Z) : Z :=
  Z.min RGUI_NUM_PARTICLES
    ((85 * fb_width * RGUI_NUM_PARTICLES) / (100 * RGUI_MAX_FB_WIDTH)).

(** Two particle pools hold the same particles at the indices below [n]. *)
Definition agree_below (n : Z) (particles others : list rgui_particle_t)
    : Prop :=
  forall i, 0 <= i < n -> others !! Z.to_nat i = particles !! Z.to_nat i.

(** The rational value [m * 2 ^ e] of a mantissa and an exponent. *)
Definition Qval (m e : Z) : Q := (inject_Z m * 2 ^ e)%Q.

(** The relative error allowed for one binary32 operation: [2 ^ -23], the
    largest gap between neighbouring normal values relative to their size. *)
Definition eps : Q := 1 # 8388608.

(** [x] is a positive normal binary32 value with its exponent in
    [elo, ehi] and its value in [vlo, vhi]. *)
Definition pos32 (x : spec_float) (elo ehi : Z) (vlo vhi : Q) : Prop :=
  exists m e,
    x = S754_finite false m e /\ 2 ^ 23 <= Z.pos m < 2 ^ 24 /\
    elo <= e <= ehi /\ (vlo <= Qval (Z.pos m) e <= vhi)%Q.

(** ** The menu state and its buffers *)

(** [rgui_colors_t]: the theme colours in the pixel format of the platform. *)
Module rgui_colors.
Record t : Type := mk {
  hover_color : Z;
  normal_color : Z;
  title_color : Z;
  bg_dark_color : Z;
  bg_light_color : Z;
  border_dark_color : Z;
  border_light_color : Z;
  shadow_color : Z;
  particle_color : Z }.
End rgui_colors.

Abbreviation rgui_colors_t := rgui_colors.t.

(** [video_viewport_t] of the video driver. *)
Module video_viewport.
Record t : Type := mk {
  x : Z;
  y : Z;
  width : Z;
  height : Z;
  full_width : Z;
  full_height : Z }.
End video_viewport.

Abbreviation video_viewport_t := video_viewport.t.

(** [rgui_video_settings_t]. *)
Module rgui_video_settings.
Record t : Type := mk { aspect_ratio_idx : Z; viewport : video_viewport_t }.
End rgui_video_settings.

Abbreviation rgui_video_settings_t := rgui_video_settings.t.

(** The menu aspect ratios of the settings.  Their declaration is not part
    of the source file, which names all but the first; [4:3] is the one the
    [default] branches handle. *)
Inductive rgui_aspect_ratio :=
  | RGUI_ASPECT_RATIO_4_3
  | RGUI_ASPECT_RATIO_16_9
  | RGUI_ASPECT_RATIO_16_9_CENTRE
  | RGUI_ASPECT_RATIO_16_10
  | RGUI_ASPECT_RATIO_16_10_CENTRE.

(** The fields of [rgui_t] that the functions below read or write, with a
    function [set_f v] for the assignment [rgui->f = v] of each, and the
    state [zeroed] in which [calloc] hands out the structure. *)
Module rgui.
Record t : Type := mk {
  menu_video_settings : rgui_video_settings_t;
  mini_thumbnail_max_width : Z;
  mini_thumbnail_max_height : Z;
  menu_aspect_ratio : rgui_aspect_ratio;
  thumbnail_queue_size : Z;
  left_thumbnail_queue_size : Z;
  colors : rgui_colors_t;
  pointer_x : Z;
  pointer_y : Z;
  bg_modified : bool;
  force_redraw : bool;
  ignore_resize_events : bool;
  bg_thickness : bool;
  border_thickness : bool;
  border_enable : bool;
  shadow_enable : bool;
  show_fs_thumbnail : bool;
  show_wallpaper : bool;
  aspect_update_pending : bool }.

Definition set_menu_video_settings (v : rgui_video_settings_t) (r : t) : t :=
  mk v (mini_thumbnail_max_width r) (mini_thumbnail_max_height r)
    (menu_aspect_ratio r) (thumbnail_queue_size r)
    (left_thumbnail_queue_size r) (colors r) (pointer_x r) (pointer_y r)
    (bg_modified r) (force_redraw r) (ignore_resize_events r) (bg_thickness r)
    (border_thickness r) (border_enable r) (shadow_enable r)
    (show_fs_thumbnail r) (show_wallpaper r) (aspect_update_pending r).
Definition set_mini_thumbnail_max_width (v : Z) (r : t) : t :=
  mk (menu_video_settings r) v (mini_thumbnail_max_height r)
    (menu_aspect_ratio r) (thumbnail_queue_size r)
    (left_thumbnail_queue_size r) (colors r) (pointer_x r) (pointer_y r)
    (bg_modified r) (force_redraw r) (ignore_resize_events r) (bg_thickness r)
    (border_thickness r) (border_enable r) (shadow_enable r)
    (show_fs_thumbnail r) (show_wallpaper r) (aspect_update_pending r).
Definition set_mini_thumbnail_max_height (v : Z) (r : t) : t :=
  mk (menu_video_settings r) (mini_thumbnail_max_width r) v
    (menu_aspect_ratio r) (thumbnail_queue_size r)
    (left_thumbnail_queue_size r) (colors r) (pointer_x r) (pointer_y r)
    (bg_modified r) (force_redraw r) (ignore_resize_events r) (bg_thickness r)
    (border_thickness r) (border_enable r) (shadow_enable r)
    (show_fs_thumbnail r) (show_wallpaper r) (aspect_update_pending r).
Definition set_menu_aspect_ratio (v : rgui_aspect_ratio) (r : t) : t :=
  mk (menu_video_settings r) (mini_thumbnail_max_width r)
    (mini_thumbnail_max_height r) v (thumbnail_queue_size r)
    (left_thumbnail_queue_size r) (colors r) (pointer_x r) (pointer_y r)
    (bg_modified r) (force_redraw r) (ignore_resize_events r) (bg_thickness r)
    (border_thickness r) (border_enable r) (shadow_enable r)
    (show_fs_thumbnail r) (show_wallpaper r) (aspect_update_pending r).
Definition set_thumbnail_queue_size (v : Z) (r : t) : t :=
  mk (menu_video_settings r) (mini_thumbnail_max_width r)
    (mini_thumbnail_max_height r) (menu_aspect_ratio r) v
    (left_thumbnail_queue_size r) (colors r) (pointer_x r) (pointer_y r)
    (bg_modified r) (force_redraw r) (ignore_resize_events r) (bg_thickness r)
    (border_thickness r) (border_enable r) (shadow_enable r)
    (show_fs_thumbnail r) (show_wallpaper r) (aspect_update_pending r).
Definition set_left_thumbnail_queue_size (v : Z) (r : t) : t :=
  mk (menu_video_settings r) (mini_thumbnail_max_width r)
    (mini_thumbnail_max_height r) (menu_aspect_ratio r)
    (thumbnail_queue_size r) v (colors r) (pointer_x r) (pointer_y r)
    (bg_modified r) (force_redraw r) (ignore_resize_events r) (bg_thickness r)
    (border_thickness r) (border_enable r) (shadow_enable r)
    (show_fs_thumbnail r) (show_wallpaper r) (aspect_update_pending r).
Definition set_colors (v : rgui_colors_t) (r : t) : t :=
  mk (menu_video_settings r) (mini_thumbnail_max_width r)
    (mini_thumbnail_max_height r) (menu_aspect_ratio r)
    (thumbnail_queue_size r) (left_thumbnail_queue_size r) v (pointer_x r)
    (pointer_y r) (bg_modified r) (force_redraw r) (ignore_resize_events r)
    (bg_thickness r) (border_thickness r) (border_enable r) (shadow_enable r)
    (show_fs_thumbnail r) (show_wallpaper r) (aspect_update_pending r).
Definition set_pointer_x (v : Z) (r : t) : t :=
  mk (menu_video_settings r) (mini_thumbnail_max_width r)
    (mini_thumbnail_max_height r) (menu_aspect_ratio r)
    (thumbnail_queue_size r) (left_thumbnail_queue_size r) (colors r) v
    (pointer_y r) (bg_modified r) (force_redraw r) (ignore_resize_events r)
    (bg_thickness r) (border_thickness r) (border_enable r) (shadow_enable r)
    (show_fs_thumbnail r) (show_wallpaper r) (aspect_update_pending r).
Definition set_pointer_y (v : Z) (r : t) : t :=
  mk (menu_video_settings r) (mini_thumbnail_max_width r)
    (mini_thumbnail_max_height r) (menu_aspect_ratio r)
    (thumbnail_queue_size r) (left_thumbnail_queue_size r) (colors r)
    (pointer_x r) v (bg_modified r) (force_redraw r) (ignore_resize_events r)
    (bg_thickness r) (border_thickness r) (border_enable r) (shadow_enable r)
    (show_fs_thumbnail r) (show_wallpaper r) (aspect_update_pending r).
Definition set_bg_modified (v : bool) (r : t) : t :=
  mk (menu_video_settings r) (mini_thumbnail_max_width r)
    (mini_thumbnail_max_height r) (menu_aspect_ratio r)
    (thumbnail_queue_size r) (left_thumbnail_queue_size r) (colors r)
    (pointer_x r) (pointer_y r) v (force_redraw r) (ignore_resize_events r)
    (bg_thickness r) (border_thickness r) (border_enable r) (shadow_enable r)
    (show_fs_thumbnail r) (show_wallpaper r) (aspect_update_pending r).
Definition set_force_redraw (v : bool) (r : t) : t :=
  mk (menu_video_settings r) (mini_thumbnail_max_width r)
    (mini_thumbnail_max_height r) (menu_aspect_ratio r)
    (thumbnail_queue_size r) (left_thumbnail_queue_size r) (colors r)
    (pointer_x r) (pointer_y r) (bg_modified r) v (ignore_resize_events r)
    (bg_thickness r) (border_thickness r) (border_enable r) (shadow_enable r)
    (show_fs_thumbnail r) (show_wallpaper r) (aspect_update_pending r).
Definition set_ignore_resize_events (v : bool) (r : t) : t :=
  mk (menu_video_settings r) (mini_thumbnail_max_width r)
    (mini_thumbnail_max_height r) (menu_aspect_ratio r)
    (thumbnail_queue_size r) (left_thumbnail_queue_size r) (colors r)
    (pointer_x r) (pointer_y r) (bg_modified r) (force_redraw r) v
    (bg_thickness r) (border_thickness r) (border_enable r) (shadow_enable r)
    (show_fs_thumbnail r) (show_wallpaper r) (aspect_update_pending r).
Definition set_bg_thickness (v : bool) (r : t) : t :=
  mk (menu_video_settings r) (mini_thumbnail_max_width r)
    (mini_thumbnail_max_height r) (menu_aspect_ratio r)
    (thumbnail_queue_size r) (left_thumbnail_queue_size r) (colors r)
    (pointer_x r) (pointer_y r) (bg_modified r) (force_redraw r)
    (ignore_resize_events r) v (border_thickness r) (border_enable r)
    (shadow_enable r) (show_fs_thumbnail r) (show_wallpaper r)
    (aspect_update_pending r).
Definition set_border_thickness (v : bool) (r : t) : t :=
  mk (menu_video_settings r) (mini_thumbnail_max_width r)
    (mini_thumbnail_max_height r) (menu_aspect_ratio r)
    (thumbnail_queue_size r) (left_thumbnail_queue_size r) (colors r)
    (pointer_x r) (pointer_y r) (bg_modified r) (force_redraw r)
    (ignore_resize_events r) (bg_thickness r) v (border_enable r)
    (shadow_enable r) (show_fs_thumbnail r) (show_wallpaper r)
    (aspect_update_pending r).
Definition set_border_enable (v : bool) (r : t) : t :=
  mk (menu_video_settings r) (mini_thumbnail_max_width r)
    (mini_thumbnail_max_height r) (menu_aspect_ratio r)
    (thumbnail_queue_size r) (left_thumbnail_queue_size r) (colors r)
    (pointer_x r) (pointer_y r) (bg_modified r) (force_redraw r)
    (ignore_resize_events r) (bg_thickness r) (border_thickness r) v
    (shadow_enable r) (show_fs_thumbnail r) (show_wallpaper r)
    (aspect_update_pending r).
Definition set_shadow_enable (v : bool) (r : t) : t :=
  mk (menu_video_settings r) (mini_thumbnail_max_width r)
    (mini_thumbnail_max_height r) (menu_aspect_ratio r)
    (thumbnail_queue_size r) (left_thumbnail_queue_size r) (colors r)
    (pointer_x r) (pointer_y r) (bg_modified r) (force_redraw r)
    (ignore_resize_events r) (bg_thickness r) (border_thickness r)
    (border_enable r) v (show_fs_thumbnail r) (show_wallpaper r)
    (aspect_update_pending r).
Definition set_show_fs_thumbnail (v : bool) (r : t) : t :=
  mk (menu_video_settings r) (mini_thumbnail_max_width r)
    (mini_thumbnail_max_height r) (menu_aspect_ratio r)
    (thumbnail_queue_size r) (left_thumbnail_queue_size r) (colors r)
    (pointer_x r) (pointer_y r) (bg_modified r) (force_redraw r)
    (ignore_resize_events r) (bg_thickness r) (border_thickness r)
    (border_enable r) (shadow_enable r) v (show_wallpaper r)
    (aspect_update_pending r).
Definition set_show_wallpaper (v : bool) (r : t) : t :=
  mk (menu_video_settings r) (mini_thumbnail_max_width r)
    (mini_thumbnail_max_height r) (menu_aspect_ratio r)
    (thumbnail_queue_size r) (left_thumbnail_queue_size r) (colors r)
    (pointer_x r) (pointer_y r) (bg_modified r) (force_redraw r)
    (ignore_resize_events r) (bg_thickness r) (border_thickness r)
    (border_enable r) (shadow_enable r) (show_fs_thumbnail r) v
    (aspect_update_pending r).
Definition set_aspect_update_pending (v : bool) (r : t) : t :=
  mk (menu_video_settings r) (mini_thumbnail_max_width r)
    (mini_thumbnail_max_height r) (menu_aspect_ratio r)
    (thumbnail_queue_size r) (left_thumbnail_queue_size r) (colors r)
    (pointer_x r) (pointer_y r) (bg_modified r) (force_redraw r)
    (ignore_resize_events r) (bg_thickness r) (border_thickness r)
    (border_enable r) (shadow_enable r) (show_fs_thumbnail r)
    (show_wallpaper r) v.

Definition zeroed : t :=
  mk (rgui_video_settings.mk 0 (video_viewport.mk 0 0 0 0 0 0))
    0
    0
    RGUI_ASPECT_RATIO_4_3
    0
    0
    (rgui_colors.mk 0 0 0 0 0 0 0 0 0)
    0
    0
    false
    false
    false
    false
    false
    false
    false
    false
    false
    false.
End rgui.

Abbreviation rgui_t := rgui.t.

(** [frame_buf_t]; [data] is [None] for a [NULL] pointer. *)
Module frame_buf.
Record t : Type := mk { data : option (list Z); width : Z; height : Z }.
End frame_buf.

Abbreviation frame_buf_t := frame_buf.t.

(** ** Border, background and cursor *)

(** [rgui_render_border] on a buffer that is there: a record and a list
    are never [NULL], so the sanity check has no counterpart. *)
Definition rgui_render_border (rgui : rgui_t) (data : list Z)
    (fb_width fb_height : Z) : option (list Z) :=
  let dark_color := rgui_colors.border_dark_color (rgui.colors rgui) in
  let light_color := rgui_colors.border_light_color (rgui.colors rgui) in
  let thickness := rgui.border_thickness rgui in
  data ← rgui_fill_rect data fb_width fb_height
            5 5 (wrap32 (fb_width - 10)) 5 dark_color light_color thickness;
  data ← rgui_fill_rect data fb_width fb_height
            5 (wrap32 (fb_height - 10)) (wrap32 (fb_width - 10)) 5
            dark_color light_color thickness;
  data ← rgui_fill_rect data fb_width fb_height
            5 5 5 (wrap32 (fb_height - 10)) dark_color light_color thickness;
  data ← rgui_fill_rect data fb_width fb_height
            (wrap32 (fb_width - 10)) 5 5 (wrap32 (fb_height - 10))
            dark_color light_color thickness;
  if rgui.shadow_enable rgui then
    let shadow_color := rgui_colors.shadow_color (rgui.colors rgui) in
    data ← rgui_color_rect data fb_width fb_height
              10 10 1 (wrap32 (fb_height - 20)) shadow_color;
    data ← rgui_color_rect data fb_width fb_height
              10 10 (wrap32 (fb_width - 20)) 1 shadow_color;
    data ← rgui_color_rect data fb_width fb_height
              (wrap32 (fb_width - 5)) 6 1 (wrap32 (fb_height - 10)) shadow_color;
    rgui_color_rect data fb_width fb_height
      6 (wrap32 (fb_height - 5)) (wrap32 (fb_width - 10)) 1 shadow_color
  else Some data.

(** [rgui_cache_background]; [fb_width], [fb_height] and [fb_pitch] are what
    [gfx_display_get_fb_size] reports.  Returns the background buffer. *)
Definition rgui_cache_background (rgui : rgui_t)
    (fb_width fb_height fb_pitch : Z) (rgui_background_buf : frame_buf_t)
    : option frame_buf_t :=
  if rgui.show_wallpaper rgui then Some rgui_background_buf else
  match frame_buf.data rgui_background_buf with
  | None => Some rgui_background_buf
  | Some data =>
      if negb (fb_width =? frame_buf.width rgui_background_buf)
         || negb (fb_height =? frame_buf.height rgui_background_buf)
         || negb (fb_pitch =? wrap32 (Z.shiftl (frame_buf.width rgui_background_buf) 1))
      then Some rgui_background_buf
      else
        data ← rgui_fill_rect data fb_width fb_height 0 0 fb_width fb_height
                  (rgui_colors.bg_dark_color (rgui.colors rgui))
                  (rgui_colors.bg_light_color (rgui.colors rgui))
                  (rgui.bg_thickness rgui);
        data ← (if rgui.border_enable rgui
                then rgui_render_border rgui data fb_width fb_height
                else Some data);
        Some (frame_buf.mk (Some data) (frame_buf.width rgui_background_buf)
                (frame_buf.height rgui_background_buf))
  end.

(** [rgui_blit_cursor] on the frame buffer; the [int] coordinates of the
    pointer are converted to [unsigned] where they are passed on. *)
Definition rgui_blit_cursor (rgui : rgui_t) (fb_width fb_height : Z)
    (rgui_frame_buf : frame_buf_t) : option frame_buf_t :=
  match frame_buf.data rgui_frame_buf with
  | None => Some rgui_frame_buf
  | Some data =>
      let normal_color := rgui_colors.normal_color (rgui.colors rgui) in
      data ← rgui_color_rect data fb_width fb_height
                (wrap32 (rgui.pointer_x rgui)) (wrap32 (rgui.pointer_y rgui - 5))
                1 11 normal_color;
      data ← rgui_color_rect data fb_width fb_height
                (wrap32 (rgui.pointer_x rgui - 5)) (wrap32 (rgui.pointer_y rgui))
                11 1 normal_color;
      Some (frame_buf.mk (Some data) (frame_buf.width rgui_frame_buf)
              (frame_buf.height rgui_frame_buf))
  end.

(** The texels of the border: four bars, five texels wide, five texels
    from the edges. *)
Definition border_bars (fb_width fb_height row col : Z) : bool :=
  in_rect 5 5 (fb_width - 10) 5 row col
  || in_rect 5 (fb_height - 10) (fb_width - 10) 5 row col
  || in_rect 5 5 5 (fb_height - 10) row col
  || in_rect (fb_width - 10) 5 5 (fb_height - 10) row col.

(** The texels of the drop shadow of the border. *)
Definition border_shadow (fb_width fb_height row col : Z) : bool :=
  in_rect 10 10 1 (fb_height - 20) row col
  || in_rect 10 10 (fb_width - 20) 1 row col
  || in_rect (fb_width - 5) 6 1 (fb_height - 10) row col
  || in_rect 6 (fb_height - 5) (fb_width - 10) 1 row col.

(** The texels [rgui_render_border] sets, and what it sets them to. *)
Definition border_texels (rgui : rgui_t) (fb_width fb_height row col : Z) : bool :=
  border_bars fb_width fb_height row col
  || (rgui.shadow_enable rgui && border_shadow fb_width fb_height row col).

Definition border_colour (rgui : rgui_t) (fb_width fb_height row col : Z) : Z :=
  if rgui.shadow_enable rgui && border_shadow fb_width fb_height row col
  then rgui_colors.shadow_color (rgui.colors rgui)
  else checker_colour (rgui_colors.border_dark_color (rgui.colors rgui))
         (rgui_colors.border_light_color (rgui.colors rgui))
         (rgui.border_thickness rgui) row col.

(** The background: the chequer pattern under the border. *)
Definition background_colour (rgui : rgui_t) (fb_width fb_height row col : Z) : Z :=
  if rgui.border_enable rgui && border_texels rgui fb_width fb_height row col
  then border_colour rgui fb_width fb_height row col
  else checker_colour (rgui_colors.bg_dark_color (rgui.colors rgui))
         (rgui_colors.bg_light_color (rgui.colors rgui))
         (rgui.bg_thickness rgui) row col.

(** Nine distinct colours, for the examples. *)
Definition example_colors : rgui_colors_t := rgui_colors.mk 1 2 3 4 5 6 7 8 9.

(** The two bars of the pointer. *)
Definition cursor_texels (x y row col : Z) : bool :=
  ((0 <=? x) && (5 <=? y) && in_rect x (y - 5) 1 11 row col)
  || ((5 <=? x) && (0 <=? y) && in_rect (x - 5) y 11 1 row col).

(** ** Wallpaper and thumbnails *)

(** [struct texture_image]: ARGB pixels, row by row; [pixels] is [None]
    for a [NULL] pointer. *)
Module texture_image.
Record t : Type := mk { width : Z; height : Z; pixels : option (list Z) }.
End texture_image.

Abbreviation texture_image_t := texture_image.t.

(** [thumbnail_t] without its path. *)
Module thumbnail.
Record t : Type := mk {
  data : option (list Z);
  max_width : Z;
  max_height : Z;
  width : Z;
  height : Z;
  is_valid : bool }.
End thumbnail.

Abbreviation thumbnail_t := thumbnail.t.

(** [process_wallpaper]; [argb32_to_pixel_platform_format] is the converter
    the function pointer of that name holds.  Returns the menu state and the
    background buffer. *)
Definition process_wallpaper (argb32_to_pixel_platform_format : Z -> option Z)
    (rgui : rgui_t) (image : texture_image_t) (rgui_background_buf : frame_buf_t)
    : option (rgui_t * frame_buf_t) :=
  match texture_image.pixels image, frame_buf.data rgui_background_buf with
  | Some pixels, Some data =>
      let width := frame_buf.width rgui_background_buf in
      let height := frame_buf.height rgui_background_buf in
      if (texture_image.width image <? width)
         || (texture_image.height image <? height)
      then Some (rgui, rgui_background_buf)
      else
        let x_crop_offset := Z.shiftr (wrap32 (texture_image.width image - width)) 1 in
        let y_crop_offset := Z.shiftr (wrap32 (texture_image.height image - height)) 1 in
        data ← for_loop 0 width 1 (fun x data =>
          for_loop 0 height 1 (fun y data =>
            pixel ← pixels !! Z.to_nat
                       (wrap32 (wrap32 (x + x_crop_offset)
                                + wrap32 (wrap32 (y + y_crop_offset)
                                          * texture_image.width image)));
            texel ← argb32_to_pixel_platform_format pixel;
            array_store data (wrap32 (x + wrap32 (y * width))) texel) data) data;
        let rgui := rgui.set_show_wallpaper true rgui in
        let rgui := rgui.set_force_redraw true rgui in
        Some (rgui, frame_buf.mk (Some data) width height)
  | _, _ => Some (rgui, rgui_background_buf)
  end.

(** The thumbnail downscalers of the settings; their declaration is not
    part of the source file, which names them. *)
Inductive rgui_thumb_scale :=
  | RGUI_THUMB_SCALE_POINT
  | RGUI_THUMB_SCALE_BILINEAR
  | RGUI_THUMB_SCALE_SINC.

(** [downscale_thumbnail].  [calloc_ok] says whether the pixel buffer can be
    allocated; [scaler] stands for the scaler of libretro-common
    ([scaler_ctx_gen_filter] followed by [scaler_ctx_scale]): it returns the
    scaled pixels, or [None] if no filter can be generated.  The result is
    the value returned and [image_dst]; an integer division by zero is
    [None]. *)
Definition downscale_thumbnail (thumbnail_downscaler : rgui_thumb_scale)
    (calloc_ok : bool)
    (scaler : rgui_thumb_scale -> texture_image_t -> Z -> Z -> option (list Z))
    (max_width max_height : Z) (image_src : texture_image_t)
    : option (bool * texture_image_t) :=
  let display_aspect_ratio := f32_div (f32_of_Z max_width) (f32_of_Z max_height) in
  let aspect_ratio :=
    f32_div (f32_of_Z (texture_image.width image_src))
            (f32_of_Z (texture_image.height image_src)) in
  dims ←
    (if SFltb display_aspect_ratio aspect_ratio then
       if texture_image.width image_src =? 0 then None else
       let height := wrap32 (texture_image.height image_src * max_width)
                     / texture_image.width image_src in
       let height := if height <? 1 then 1 else height in
       let height := if height >? max_height then max_height else height in
       Some (max_width, height)
     else
       if texture_image.height image_src =? 0 then None else
       let width := wrap32 (texture_image.width image_src * max_height)
                    / texture_image.height image_src in
       let width := if width <? 1 then 1 else width in
       let width := if width >? max_width then max_width else width in
       Some (width, max_height));
  let width : Z := dims.1 in
  let height : Z := dims.2 in
  if negb calloc_ok then Some (false, texture_image.mk width height None) else
  let pixels0 := replicate (Z.to_nat (wrap32 (width * height))) 0 in
  match thumbnail_downscaler with
  | RGUI_THUMB_SCALE_POINT =>
      if (width =? 0) || (height =? 0) then None else
      let x_ratio := wrap32 (Z.shiftl (texture_image.width image_src) 16) / width in
      let y_ratio := wrap32 (Z.shiftl (texture_image.height image_src) 16) / height in
      src ← texture_image.pixels image_src;
      pixels ← for_loop 0 height 1 (fun y_dst pixels =>
        let y_src := Z.shiftr (wrap32 (y_dst * y_ratio)) 16 in
        for_loop 0 width 1 (fun x_dst pixels =>
          let x_src := Z.shiftr (wrap32 (x_dst * x_ratio)) 16 in
          pixel ← src !! Z.to_nat
                     (wrap32 (wrap32 (y_src * texture_image.width image_src) + x_src));
          array_store pixels (wrap32 (wrap32 (y_dst * width) + x_dst)) pixel)
          pixels) pixels0;
      Some (true, texture_image.mk width height (Some pixels))
  | _ =>
      match scaler thumbnail_downscaler image_src width height with
      | None => Some (false, texture_image.mk width height (Some pixels0))
      | Some pixels => Some (true, texture_image.mk width height (Some pixels))
      end
  end.

(** [process_thumbnail]; [queue_size] is the counter the pointer of that
    name refers to.  Returns the menu state, the thumbnail and the counter. *)
Definition process_thumbnail (argb32_to_pixel_platform_format : Z -> option Z)
    (thumbnail_downscaler : rgui_thumb_scale) (calloc_ok : bool)
    (scaler : rgui_thumb_scale -> texture_image_t -> Z -> Z -> option (list Z))
    (rgui : rgui_t) (thumbnail : thumbnail_t) (queue_size : Z)
    (image_src : texture_image_t) : option (rgui_t * thumbnail_t * Z) :=
  let queue_size := if queue_size >? 0 then queue_size - 1 else queue_size in
  if queue_size >? 0 then Some (rgui, thumbnail, queue_size) else
  match texture_image.pixels image_src, thumbnail.data thumbnail with
  | Some _, Some data =>
      if (texture_image.width image_src <? 1) || (texture_image.height image_src <? 1)
      then Some (rgui, thumbnail, queue_size) else
      image ←
        (if (texture_image.width image_src >? thumbnail.max_width thumbnail)
            || (texture_image.height image_src >? thumbnail.max_height thumbnail)
         then
           match downscale_thumbnail thumbnail_downscaler calloc_ok scaler
                   (thumbnail.max_width thumbnail) (thumbnail.max_height thumbnail)
                   image_src with
           | Some (true, image_resampled) => Some (Some image_resampled)
           | Some (false, _) => Some None
           | None => None
           end
         else Some (Some image_src));
      match image with
      | None => Some (rgui, thumbnail, queue_size)
      | Some image =>
          let width := texture_image.width image in
          let height := texture_image.height image in
          pixels ← texture_image.pixels image;
          data ← for_loop 0 width 1 (fun x data =>
            for_loop 0 height 1 (fun y data =>
              pixel ← pixels !! Z.to_nat (wrap32 (x + wrap32 (y * width)));
              texel ← argb32_to_pixel_platform_format pixel;
              array_store data (wrap32 (x + wrap32 (y * width))) texel) data) data;
          Some (rgui.set_force_redraw true rgui,
                thumbnail.mk (Some data) (thumbnail.max_width thumbnail)
                  (thumbnail.max_height thumbnail) width height true,
                queue_size)
      end
  | _, _ => Some (rgui, thumbnail, queue_size)
  end.

(** The entry of a pixel array at [(x, y)], for rows of [width] entries. *)
Definition pixel_at (pixels : list Z) (width x y : Z) : option Z :=
  pixels !! Z.to_nat (y * width + x).

(** ** Background and fullscreen thumbnail *)

(** [memcpy(dst + dst_off, src + src_off, size)] on arrays of [uint16_t]:
    defined when both ranges lie in their arrays. *)
Definition memcpy (dst : list Z) (dst_off : Z) (src : list Z) (src_off size : Z)
    : option (list Z) :=
  let n := size / sizeof_uint16_t in
  if (0 <=? dst_off) && (dst_off + n <=? Z.of_nat (length dst))
     && (0 <=? src_off) && (src_off + n <=? Z.of_nat (length src))
  then Some (take (Z.to_nat dst_off) dst
             ++ take (Z.to_nat n) (drop (Z.to_nat src_off) src)
             ++ drop (Z.to_nat (dst_off + n)) dst)
  else None.

(** [rgui_render_background]; [fb_width], [fb_height] and [fb_pitch] are
    what [gfx_display_get_fb_size] reports.  Returns the frame buffer. *)
Definition rgui_render_background (fb_width fb_height fb_pitch : Z)
    (rgui_frame_buf rgui_background_buf : frame_buf_t) : option frame_buf_t :=
  match frame_buf.data rgui_frame_buf, frame_buf.data rgui_background_buf with
  | Some data, Some background =>
      let width := frame_buf.width rgui_frame_buf in
      let height := frame_buf.height rgui_frame_buf in
      if negb (fb_width =? width) || negb (fb_height =? height)
         || negb (fb_pitch =? wrap32 (Z.shiftl width 1))
      then Some rgui_frame_buf
      else
        data ← memcpy data 0 background 0
                  (wrap64 (wrap32 (width * height) * sizeof_uint16_t));
        Some (frame_buf.mk (Some data) width height)
  | _, _ => Some rgui_frame_buf
  end.

(** [rgui_render_fs_thumbnail]; [src] and [dst] are the offsets of the
    pointers of these names into the thumbnail and the frame buffer.
    Returns the frame buffer. *)
Definition rgui_render_fs_thumbnail (rgui : rgui_t) (fb_width fb_height fb_pitch : Z)
    (fs_thumbnail : thumbnail_t) (rgui_frame_buf : frame_buf_t)
    : option frame_buf_t :=
  match thumbnail.is_valid fs_thumbnail, frame_buf.data rgui_frame_buf,
        thumbnail.data fs_thumbnail with
  | true, Some data, Some thumb =>
      let t_width := thumbnail.width fs_thumbnail in
      let t_height := thumbnail.height fs_thumbnail in
      let '(thumb_x_offset, fb_x_offset, width) :=
        if t_width <=? fb_width
        then (0, Z.shiftr (wrap32 (fb_width - t_width)) 1, t_width)
        else (Z.shiftr (wrap32 (t_width - fb_width)) 1, 0, fb_width) in
      let '(thumb_y_offset, fb_y_offset, height) :=
        if t_height <=? fb_height
        then (0, Z.shiftr (wrap32 (fb_height - t_height)) 1, t_height)
        else (Z.shiftr (wrap32 (t_height - fb_height)) 1, 0, fb_height) in
      data ← for_loop 0 height 1 (fun y data =>
        let src := thumb_x_offset + wrap32 (wrap32 (y + thumb_y_offset) * t_width) in
        let dst := wrap64 (wrap32 (y + fb_y_offset) * Z.shiftr fb_pitch 1)
                   + fb_x_offset in
        memcpy data dst thumb src (wrap64 (width * sizeof_uint16_t))) data;
      data ←
        (if rgui.shadow_enable rgui then
           let shadow_color := rgui_colors.shadow_color (rgui.colors rgui) in
           data ←
             (if t_width <? fb_width then
                let shadow_width := wrap32 (fb_width - t_width) in
                let shadow_width := if shadow_width >? 2 then 2 else shadow_width in
                let shadow_height :=
                  if wrap32 (t_height + 2) <? fb_height then t_height
                  else wrap32 (fb_height - 2) in
                let shadow_x := wrap32 (fb_x_offset + t_width) in
                let shadow_y := wrap32 (fb_y_offset + 2) in
                rgui_color_rect data fb_width fb_height
                  shadow_x shadow_y shadow_width shadow_height shadow_color
              else Some data);
           (if t_height <? fb_height then
              let shadow_height := wrap32 (fb_height - t_height) in
              let shadow_height := if shadow_height >? 2 then 2 else shadow_height in
              let shadow_width :=
                if wrap32 (t_width + 2) <? fb_width then t_width
                else wrap32 (fb_width - 2) in
              let shadow_x := wrap32 (fb_x_offset + 2) in
              let shadow_y := wrap32 (fb_y_offset + t_height) in
              rgui_color_rect data fb_width fb_height
                shadow_x shadow_y shadow_width shadow_height shadow_color
            else Some data)
         else Some data);
      Some (frame_buf.mk (Some data) (frame_buf.width rgui_frame_buf)
              (frame_buf.height rgui_frame_buf))
  | _, _, _ => Some rgui_frame_buf
  end.

(** Where an image of [size] texels starts in a buffer of [fb_size] when it
    is centred, and which of its texels comes first when it is cropped. *)
Definition centred_offset (size fb_size : Z) : Z := Z.max 0 (fb_size - size) / 2.
Definition cropped_offset (size fb_size : Z) : Z := Z.max 0 (size - fb_size) / 2.

(** The texels of the fullscreen thumbnail in the frame buffer. *)
Definition fs_thumbnail_texels (fb_width fb_height t_width t_height row col : Z)
    : bool :=
  in_rect (centred_offset t_width fb_width) (centred_offset t_height fb_height)
    (Z.min t_width fb_width) (Z.min t_height fb_height) row col.

(** The texels of its drop shadow: at most two columns to its right and at
    most two rows below it, each shifted by two texels. *)
Definition fs_thumbnail_shadow (fb_width fb_height t_width t_height row col : Z)
    : bool :=
  let fb_x_offset := centred_offset t_width fb_width in
  let fb_y_offset := centred_offset t_height fb_height in
  ((t_width <? fb_width)
   && in_rect (fb_x_offset + t_width) (fb_y_offset + 2)
        (Z.min 2 (fb_width - t_width))
        (if t_height + 2 <? fb_height then t_height else fb_height - 2) row col)
  || ((t_height <? fb_height)
      && in_rect (fb_x_offset + 2) (fb_y_offset + t_height)
           (if t_width + 2 <? fb_width then t_width else fb_width - 2)
           (Z.min 2 (fb_height - t_height)) row col).

(** ** Aspect ratio and viewport

    The build for platforms other than the Wii ([GEKKO] not defined); the
    settings ([config_get_ptr]) are there. *)

(** The aspect ratio locks of the settings; their declaration is not part
    of the source file, which names all but [FIT_SCREEN]. *)
Inductive rgui_aspect_ratio_lock :=
  | RGUI_ASPECT_RATIO_LOCK_NONE
  | RGUI_ASPECT_RATIO_LOCK_FIT_SCREEN
  | RGUI_ASPECT_RATIO_LOCK_INTEGER
  | RGUI_ASPECT_RATIO_LOCK_FILL_SCREEN.

(** [rgui_update_menu_viewport]; [ASPECT_RATIO_CUSTOM] is the index of that
    name, [fb_width] and [fb_height] are what [gfx_display_get_fb_size]
    reports and [vp] what [video_driver_get_viewport_info] reports. *)
Definition rgui_update_menu_viewport (ASPECT_RATIO_CUSTOM : Z)
    (aspect_ratio_lock : rgui_aspect_ratio_lock) (fb_width fb_height : Z)
    (vp : video_viewport_t) (rgui : rgui_t) : rgui_t :=
  let full_width := video_viewport.full_width vp in
  let full_height := video_viewport.full_height vp in
  let viewport := rgui_video_settings.viewport (rgui.menu_video_settings rgui) in
  let '(width, height) :=
    if (fb_width >? 0) && (fb_height >? 0) && (full_width >? 0) && (full_height >? 0)
    then
      let do_integer_scaling :=
        match aspect_ratio_lock with
        | RGUI_ASPECT_RATIO_LOCK_INTEGER => true
        | _ => false
        end in
      let '(do_integer_scaling, width, height) :=
        if do_integer_scaling then
          let width_scale := full_width / fb_width in
          let height_scale := full_height / fb_height in
          let scale :=
            if width_scale <=? height_scale then width_scale else height_scale in
          if scale >? 0
          then (true, wrap32 (scale * fb_width), wrap32 (scale * fb_height))
          else (false, video_viewport.width viewport, video_viewport.height viewport)
        else (false, video_viewport.width viewport, video_viewport.height viewport) in
      let '(width, height) :=
        match aspect_ratio_lock with
        | RGUI_ASPECT_RATIO_LOCK_FILL_SCREEN => (full_width, full_height)
        | _ =>
            if negb do_integer_scaling then
              let display_aspect_ratio :=
                f32_div (f32_of_Z full_width) (f32_of_Z full_height) in
              let aspect_ratio := f32_div (f32_of_Z fb_width) (f32_of_Z fb_height) in
              if SFltb display_aspect_ratio aspect_ratio
              then (full_width, wrap32 (fb_height * full_width) / fb_width)
              else (wrap32 (fb_width * full_height) / fb_height, full_height)
            else (width, height)
        end in
      (if width <? 1 then 1 else width, if height <? 1 then 1 else height)
    else (1, 1) in
  let x := to_int (wrap32 (full_width - width) / 2) in
  let y := to_int (wrap32 (full_height - height) / 2) in
  rgui.set_menu_video_settings
    (rgui_video_settings.mk ASPECT_RATIO_CUSTOM
       (video_viewport.mk x y width height
          (video_viewport.full_width viewport)
          (video_viewport.full_height viewport))) rgui.

(** The viewport lies in the screen of the video driver. *)
Definition viewport_in_screen (viewport vp : video_viewport_t) : Prop :=
  1 <= video_viewport.width viewport <= video_viewport.full_width vp /\
  1 <= video_viewport.height viewport <= video_viewport.full_height vp /\
  0 <= video_viewport.x viewport /\
  video_viewport.x viewport + video_viewport.width viewport
    <= video_viewport.full_width vp /\
  0 <= video_viewport.y viewport /\
  video_viewport.y viewport + video_viewport.height viewport
    <= video_viewport.full_height vp.

(** The texels a rain drop covers when it is drawn: two texels wide and
    [c] texels high, from the integral parts of its position. *)
Definition rain_drop_covers (p : rgui_particle_t) (row col : Z) : bool :=
  match to_signed (rgui_particle.a p), to_signed (rgui_particle.b p),
        to_unsigned (rgui_particle.c p) with
  | Some x, Some y, Some height => in_rect x y 2 height row col
  | _, _, _ => false
  end.

(** Some texel of the drop lies in the buffer. *)
Definition rain_drop_on_screen (fb_width fb_height : Z) (p : rgui_particle_t)
    : bool :=
  match to_signed (rgui_particle.a p), to_signed (rgui_particle.b p),
        to_unsigned (rgui_particle.c p) with
  | Some x, Some y, Some height =>
      (Z.max x 0 <? Z.min (x + 2) fb_width)
      && (Z.max y 0 <? Z.min (y + height) fb_height)
  | _, _, _ => false
  end.

(** The position and the length of the drop convert to integers, and the
    far corner of its rectangle is an [int]. *)
Definition rain_drop_drawable (p : rgui_particle_t) : bool :=
  match to_signed (rgui_particle.a p), to_signed (rgui_particle.b p),
        to_unsigned (rgui_particle.c p) with
  | Some x, Some y, Some height =>
      (x + 2 <=? INT_MAX) && (y + height <=? INT_MAX)
  | _, _, _ => false
  end.

(** The number of drops of a list that are off screen. *)
Fixpoint rain_resets (fb_width fb_height : Z) (ps : list rgui_particle_t)
    : nat :=
  match ps with
  | [] => O
  | p :: ps =>
      ((if rain_drop_on_screen fb_width fb_height p then 0 else 1)
       + rain_resets fb_width fb_height ps)%nat
  end.

(** What an update step makes of the drop [p] that comes after the drops
    [before]: a drop on screen falls by its speed, a drop off screen is
    replaced by a fresh one at the top, from the next three values of
    [rand()] that the drops before it have left. *)
Definition rain_drop_after (fb_width fb_height : Z)
    (global_speed_factor : spec_float) (rnd : rng)
    (before : list rgui_particle_t) (p : rgui_particle_t)
    : option rgui_particle_t :=
  if rain_drop_on_screen fb_width fb_height p then
    Some (rgui_particle.mk (rgui_particle.a p)
            (f32_add (rgui_particle.b p)
               (f32_mul (rgui_particle.d p) global_speed_factor))
            (rgui_particle.c p) (rgui_particle.d p))
  else
    let k := (3 * rain_resets fb_width fb_height before)%nat in
    rain_new_drop fb_width (f32_of_Z 0)
      (Z.of_N (rnd k)) (Z.of_N (rnd (S k))) (Z.of_N (rnd (S (S k)))).

(** The drop that the initialisation puts at index [i]. *)
Definition rain_drop_initial (fb_width fb_height : Z) (rnd : rng) (i : nat)
    : option rgui_particle_t :=
  let k := (4 * i)%nat in
  rain_new_drop fb_width
    (f32_of_Z (Z.of_N (rnd (S k)) mod fb_height))
    (Z.of_N (rnd k)) (Z.of_N (rnd (S (S k)))) (Z.of_N (rnd (S (S (S k))))).

(** A drop of length 2 at (3, 1) that falls one texel per frame: an input
    of the worked examples. *)
Definition falling_drop : rgui_particle_t :=
  rgui_particle.mk (f32_of_Z 3) (f32_of_Z 1) (f32_of_Z 2) (f32_of_Z 1).

(** ** Values of floating-point numbers *)

(** The value of a finite floating-point number, and its magnitude. *)
Definition SF2Q (x : spec_float) : Q :=
  match x with
  | S754_finite s m e => Qval (cond_Zopp s (Z.pos m)) e
  | _ => 0%Q
  end.

Definition SFmag (x : spec_float) : Q :=
  match x with
  | S754_finite _ m e => Qval (Z.pos m) e
  | _ => 0%Q
  end.

(** A finite number of the format [prec], [emax]: a zero, or a mantissa
    below [2 ^ prec] with an exponent in the range of the format. *)
Definition format_finite (prec emax : Z) (x : spec_float) : bool :=
  match x with
  | S754_zero _ => true
  | S754_finite _ m e =>
      (Z.pos m <? 2 ^ prec) && (emin prec emax <=? e) && (e <=? emax - prec)
  | _ => false
  end.

(** A finite [float]. *)
Definition finite32 : spec_float -> bool := format_finite 24 128.

(** A snow particle between two update steps: its four fields are finite
    [float]s and its position is at most [2 ^ 24] away from the origin in
    either direction. *)
Definition snow_particle_ok (p : rgui_particle_t) : Prop :=
  finite32 (rgui_particle.a p) = true /\ finite32 (rgui_particle.b p) = true /\
  finite32 (rgui_particle.c p) = true /\ finite32 (rgui_particle.d p) = true /\
  (SFmag (rgui_particle.a p) <= inject_Z (2 ^ 24))%Q /\
  (SFmag (rgui_particle.b p) <= inject_Z (2 ^ 24))%Q.

(** A finite [float] of magnitude at most 0.4f, which is
    13421773 * 2 ^ -25. *)
Definition slow32 (x : spec_float) : Prop :=
  finite32 x = true /\ (SFmag x <= Qval 13421773 (-25))%Q.

(** Where a snow particle of [size] texels is after an update step on a
    buffer of [fb_width] x [fb_height] texels: above [-size] and at most
    the size of the buffer in either coordinate, and with a negative
    coordinate only while the texel it is drawn at, its position
    truncated toward zero, is less than [size] outside the buffer. *)
Definition snow_position_bounded (fb_width fb_height size : Z)
    (p : rgui_particle_t) : Prop :=
  (- inject_Z size < SF2Q (rgui_particle.a p) <= inject_Z fb_width)%Q /\
  (- inject_Z size < SF2Q (rgui_particle.b p) <= inject_Z fb_height)%Q /\
  ((0 <= SF2Q (rgui_particle.a p))%Q /\ (0 <= SF2Q (rgui_particle.b p))%Q \/
   exists x y,
     to_signed (rgui_particle.a p) = Some x /\
     to_signed (rgui_particle.b p) = Some y /\
     - size < x < fb_width /\ - size < y < fb_height).

(** * Proofs *)

Example color_rect_small :
  rgui_color_rect (replicate 12 0) 4 3 1 1 2 5 7
  = Some [0;0;0;0; 0;7;7;0; 0;7;7;0].
Proof. reflexivity. Qed.

Example fill_rect_small :
  rgui_fill_rect (replicate 16 0) 4 4 1 1 3 3 8 9 false
  = Some [0;0;0;0; 0;8;9;8; 0;9;8;9; 0;8;9;8].
Proof. vm_compute. reflexivity. Qed.

(** ** Loops and frame buffer accesses *)

Lemma iterate_inv {S : Type} (Inv : nat -> S -> Prop) (body : Z -> S -> option S) step :
  forall n i s,
    Inv O s ->
    (forall k s, (k < n)%nat -> Inv k s ->
       exists s', body (i + Z.of_nat k * step) s = Some s' /\ Inv (Datatypes.S k) s') ->
    exists s', iterate n i step body s = Some s' /\ Inv n s'.
Proof.
  induction n as [|n IH] in Inv |- *; intros i s H0 Hstep; simpl.
  - eauto.
  - destruct (Hstep O s) as (s1 & Hb & H1); [lia | done |].
    replace (i + Z.of_nat 0 * step) with i in Hb by lia. rewrite Hb.
    apply (IH (fun k => Inv (Datatypes.S k))); [done |].
    intros k s2 Hk Hinv.
    destruct (Hstep (Datatypes.S k) s2) as (s3 & Hb3 & H3); [lia | done |].
    exists s3. split; [| done].
    replace (i + step + Z.of_nat k * step) with (i + Z.of_nat (Datatypes.S k) * step) by (rewrite Nat2Z.inj_succ; ring).
    done.
Qed.


Ltac zmod := Z.div_mod_to_equations; lia.

Lemma frame_buf_ok_length d d' W H :
  frame_buf_ok d W H -> length d' = length d -> frame_buf_ok d' W H.
Proof. unfold frame_buf_ok. intros (? & ? & ? & ?) ->. auto. Qed.

Lemma row_offset_small W H row :
  0 <= W -> W * H <= UINT_MAX -> 0 <= row < H -> wrap32 (row * W) = row * W.
Proof.
  intros HW HWH Hrow. unfold wrap32, UINT_MAX in *. apply Z.mod_small. nia.
Qed.

Lemma offset_inj W r c r' c' :
  0 <= c < W -> 0 <= c' < W -> r * W + c = r' * W + c' -> r = r' /\ c = c'.
Proof.
  intros Hc Hc' Heq.
  assert (r = r'); [| subst; lia].
  destruct (Z.lt_trichotomy r r') as [Hlt | [-> | Hlt]]; [| done |].
  - assert (0 <= (r' - r - 1) * W) by (apply Z.mul_nonneg_nonneg; lia). lia.
  - assert (0 <= (r - r' - 1) * W) by (apply Z.mul_nonneg_nonneg; lia). lia.
Qed.

Lemma poke_painted d W H row col v :
  frame_buf_ok d W H -> 0 <= row < H -> 0 <= col < W ->
  exists d', poke d W H row col v = Some d' /\
    painted W H d d' (fun r c => (r =? row) && (c =? col)) (fun _ _ => v).
Proof.
  intros (HW & HH & HWH & Hlen) Hrow Hcol.
  unfold poke, texel_offset, in_frame.
  rewrite (row_offset_small W H) by lia.
  assert (row * W + col < W * H) by nia.
  assert (0 <= row * W) by nia.
  replace ((0 <=? row) && (row <? H) && (0 <=? col) && (col <? W)
           && (row * W + col <? Z.of_nat (length d))) with true
    by (symmetry; repeat (apply andb_true_intro; split); lia).
  eexists; split; [reflexivity |].
  split; [apply length_insert |].
  intros r c Hr Hc. unfold texel.
  destruct (Z.eqb_spec r row) as [-> | Hne]; simpl.
  - destruct (Z.eqb_spec c col) as [-> | Hne].
    + apply list_lookup_insert_eq. lia.
    + apply list_lookup_insert_ne. lia.
  - apply list_lookup_insert_ne.
    intros Heq. apply Hne.
    assert (row * W + col = r * W + c) by lia.
    destruct (offset_inj W row col r c); lia.
Qed.

Lemma painted_refl W H d : painted W H d d (fun _ _ => false) (fun _ _ => 0).
Proof. split; auto. Qed.

Lemma painted_ext W H d d' P P' f f' :
  painted W H d d' P f ->
  (forall r c, 0 <= r < H -> 0 <= c < W -> P' r c = P r c) ->
  (forall r c, 0 <= r < H -> 0 <= c < W -> P r c = true -> f' r c = f r c) ->
  painted W H d d' P' f'.
Proof.
  intros [Hl Hp] HP Hf. split; [done |].
  intros r c Hr Hc. rewrite Hp, HP by done.
  destruct (P r c) eqn:E; [| done]. by rewrite Hf.
Qed.

Lemma painted_trans W H d d' d'' P1 f1 P2 f2 :
  painted W H d d' P1 f1 -> painted W H d' d'' P2 f2 ->
  painted W H d d'' (fun r c => P1 r c || P2 r c)
    (fun r c => if P2 r c then f2 r c else f1 r c).
Proof.
  intros [Hl1 Hp1] [Hl2 Hp2]. split; [congruence |].
  intros r c Hr Hc. rewrite Hp2, Hp1 by done.
  destruct (P1 r c), (P2 r c); done.
Qed.

(** The inner loop of [rgui_color_rect] and [rgui_draw_particle]. *)
Lemma poke_row_painted d W H row x0 x1 v :
  frame_buf_ok d W H -> 0 <= row < H -> 0 <= x0 -> x1 <= W ->
  exists d', for_loop x0 x1 1 (fun x_index data => poke data W H row x_index v) d = Some d' /\
    painted W H d d' (fun r c => (r =? row) && (x0 <=? c) && (c <? x1)) (fun _ _ => v).
Proof.
  intros Hok Hrow Hx0 Hx1. unfold for_loop.
  set (n := trip_count x0 x1 1).
  assert (Hn : Z.of_nat n = Z.max 0 (x1 - x0)).
  { unfold n, trip_count. rewrite Z.div_1_r. lia. }
  destruct (iterate_inv
    (fun k d' => painted W H d d'
       (fun r c => (r =? row) && (x0 <=? c) && (c <? x0 + Z.of_nat k)) (fun _ _ => v))
    (fun x_index data => poke data W H row x_index v) 1 n x0 d) as (d' & Hit & Hinv).
  - eapply painted_ext; [apply painted_refl | | done].
    intros r c _ _. simpl. destruct (r =? row), (Z.leb_spec x0 c), (Z.ltb_spec c (x0 + Z.of_nat 0)); simpl; lia.
  - intros k s Hk Hinv.
    destruct (poke_painted s W H row (x0 + Z.of_nat k * 1) v) as (s' & Hs' & Hp); try lia.
    { eapply frame_buf_ok_length; [done | apply Hinv]. }
    exists s'. split; [done |].
    eapply painted_ext; [eapply painted_trans; [apply Hinv | apply Hp] | |].
    + intros r c _ _. simpl.
      destruct (Z.eqb_spec r row), (Z.leb_spec x0 c), (Z.ltb_spec c (x0 + Z.of_nat k)),
        (Z.ltb_spec c (x0 + Z.of_nat (Datatypes.S k))), (Z.eqb_spec c (x0 + Z.of_nat k * 1)); simpl; lia.
    + intros r c _ _ _. simpl. by destruct (_ && _).
  - exists d'. split; [done |].
    eapply painted_ext; [apply Hinv | | done].
    intros r c _ _. simpl.
    destruct (Z.eqb_spec r row), (Z.leb_spec x0 c), (Z.ltb_spec c (x0 + Z.of_nat n)),
      (Z.ltb_spec c x1); simpl; lia.
Qed.

(** Both loops of [rgui_color_rect] and [rgui_draw_particle]. *)
Lemma poke_rect_painted d W H x0 x1 y0 y1 v :
  frame_buf_ok d W H -> 0 <= x0 -> x1 <= W -> 0 <= y0 -> y1 <= H ->
  exists d',
    for_loop y0 y1 1 (fun y_index data =>
      for_loop x0 x1 1 (fun x_index data => poke data W H y_index x_index v) data) d
    = Some d' /\
    painted W H d d' (in_rect x0 y0 (x1 - x0) (y1 - y0)) (fun _ _ => v).
Proof.
  intros Hok Hx0 Hx1 Hy0 Hy1. unfold for_loop at 1.
  set (n := trip_count y0 y1 1).
  assert (Hn : Z.of_nat n = Z.max 0 (y1 - y0)).
  { unfold n, trip_count. rewrite Z.div_1_r. lia. }
  destruct (iterate_inv
    (fun k d' => painted W H d d'
       (in_rect x0 y0 (x1 - x0) (Z.of_nat k)) (fun _ _ => v))
    (fun y_index data =>
       for_loop x0 x1 1 (fun x_index data => poke data W H y_index x_index v) data)
    1 n y0 d) as (d' & Hit & Hinv).
  - eapply painted_ext; [apply painted_refl | | done].
    intros r c _ _. unfold in_rect.
    destruct (Z.leb_spec y0 r), (Z.ltb_spec r (y0 + Z.of_nat 0)); rewrite ?andb_false_r; simpl; lia.
  - intros k s Hk Hinv.
    destruct (poke_row_painted s W H (y0 + Z.of_nat k * 1) x0 x1 v) as (s' & Hs' & Hp); try lia.
    { eapply frame_buf_ok_length; [done | apply Hinv]. }
    exists s'. split; [done |].
    eapply painted_ext; [eapply painted_trans; [apply Hinv | apply Hp] | |].
    + intros r c _ _. unfold in_rect.
      destruct (Z.leb_spec x0 c), (Z.ltb_spec c (x0 + (x1 - x0))), (Z.ltb_spec c x1),
        (Z.leb_spec y0 r), (Z.ltb_spec r (y0 + Z.of_nat k)),
        (Z.ltb_spec r (y0 + Z.of_nat (Datatypes.S k))), (Z.eqb_spec r (y0 + Z.of_nat k * 1));
        simpl; lia.
    + intros r c _ _ _. simpl. by destruct (_ && _).
  - exists d'. split; [done |].
    eapply painted_ext; [apply Hinv | | done].
    intros r c _ _. unfold in_rect.
    destruct (Z.leb_spec x0 c), (Z.ltb_spec c (x0 + (x1 - x0))),
      (Z.leb_spec y0 r), (Z.ltb_spec r (y0 + Z.of_nat n)),
      (Z.ltb_spec r (y0 + (y1 - y0))); simpl; lia.
Qed.

Lemma to_int_small n : INT_MIN <= n <= INT_MAX -> to_int n = n.
Proof.
  unfold to_int, wrap32, INT_MIN, INT_MAX. intros Hn.
  destruct (Z.ltb_spec (n mod 2 ^ 32) (2 ^ 31)); zmod.
Qed.

Lemma wrap32_small n : 0 <= n <= UINT_MAX -> wrap32 n = n.
Proof. unfold wrap32, UINT_MAX. intros. apply Z.mod_small. lia. Qed.

Lemma clamp_min_max a W :
  (if (if a >? 0 then a else 0) <=? W then (if a >? 0 then a else 0) else W)
  = Z.min (Z.max a 0) W.
Proof.
  destruct (Z.gtb_spec a 0); [destruct (Z.leb_spec a W) | destruct (Z.leb_spec 0 W)]; lia.
Qed.

(** C4: [rgui_draw_particle] with signed [x], [y] whose sums with [width],
    [height] fit in [int]: [color] is written to exactly the texels of
    [x, x + width) x [y, y + height) that lie in the buffer, every other
    texel is unchanged, and the result is [true] exactly when there is such
    a texel. *)
Theorem rgui_draw_particle_spec data fb_width fb_height x y width height color :
  frame_buf_ok data fb_width fb_height ->
  INT_MIN <= x <= INT_MAX -> INT_MIN <= y <= INT_MAX ->
  0 <= width <= UINT_MAX -> 0 <= height <= UINT_MAX ->
  x + width <= INT_MAX -> y + height <= INT_MAX ->
  exists data' on_screen,
    rgui_draw_particle data fb_width fb_height x y width height color
      = Some (data', on_screen) /\
    painted fb_width fb_height data data' (in_rect x y width height) (fun _ _ => color) /\
    (on_screen = true <->
     exists row col, 0 <= row < fb_height /\ 0 <= col < fb_width /\
       in_rect x y width height row col = true).
Proof.
  intros Hok Hx Hy Hw Hh Hxw Hyh.
  pose proof Hok as (HW & HH & HWH & Hlen).
  unfold rgui_draw_particle.
  rewrite (to_int_small fb_width), (to_int_small fb_height),
    (to_int_small (x + width)), (to_int_small (y + height))
    by (unfold INT_MIN, INT_MAX in *; lia).
  rewrite !clamp_min_max.
  set (x_start := Z.min (Z.max x 0) fb_width).
  set (y_start := Z.min (Z.max y 0) fb_height).
  set (x_end := Z.min (Z.max (x + width) 0) fb_width).
  set (y_end := Z.min (Z.max (y + height) 0) fb_height).
  rewrite !wrap32_small
    by (subst x_start y_start x_end y_end; unfold UINT_MAX, INT_MAX in *; lia).
  destruct (poke_rect_painted data fb_width fb_height x_start x_end y_start y_end color)
    as (d' & Hd' & Hp);
    [done | subst x_start; lia | subst x_end; lia | subst y_start; lia | subst y_end; lia |].
  assert (Hxs : x_start = Z.min (Z.max x 0) fb_width) by done.
  assert (Hys : y_start = Z.min (Z.max y 0) fb_height) by done.
  assert (Hxe : x_end = Z.min (Z.max (x + width) 0) fb_width) by done.
  assert (Hye : y_end = Z.min (Z.max (y + height) 0) fb_height) by done.
  clearbody x_start y_start x_end y_end.
  rewrite Hd'. simpl.
  exists d', ((x_end >? x_start) && (y_end >? y_start)).
  split; [done |]. split.
  - eapply painted_ext; [apply Hp | | done].
    intros r c Hr Hc. unfold in_rect.
    destruct (Z.leb_spec x c), (Z.ltb_spec c (x + width)), (Z.leb_spec y r),
      (Z.ltb_spec r (y + height)), (Z.leb_spec x_start c),
      (Z.ltb_spec c (x_start + (x_end - x_start))), (Z.leb_spec y_start r),
      (Z.ltb_spec r (y_start + (y_end - y_start))); simpl; lia.
  - rewrite andb_true_iff, !Z.gtb_ltb, !Z.ltb_lt. split.
    + intros [Hxlt Hylt]. exists y_start, x_start. unfold in_rect.
      rewrite !andb_true_iff, !Z.leb_le, !Z.ltb_lt. lia.
    + intros (r & c & Hr & Hc & Hin). unfold in_rect in Hin.
      rewrite !andb_true_iff, !Z.leb_le, !Z.ltb_lt in Hin. lia.
Qed.

Lemma rgui_draw_particle_spec_witness :
  exists data' on_screen,
    rgui_draw_particle (replicate 12 0) 4 3 (-1) 2 3 5 7 = Some (data', on_screen) /\
    painted 4 3 (replicate 12 0) data' (in_rect (-1) 2 3 5) (fun _ _ => 7) /\
    (on_screen = true <->
     exists row col, 0 <= row < 3 /\ 0 <= col < 4 /\ in_rect (-1) 2 3 5 row col = true).
Proof.
  apply (rgui_draw_particle_spec (replicate 12 0) 4 3 (-1) 2 3 5 7);
    unfold frame_buf_ok, INT_MIN, INT_MAX, UINT_MAX; simpl; lia.
Defined.

Lemma memcpy_row_painted d W H row col src src_off n (f : Z -> Z) :
  frame_buf_ok d W H -> 0 <= row < H -> 0 <= col -> 0 <= n -> col + n <= W ->
  0 <= src_off -> src_off + n <= Z.of_nat (length src) ->
  (forall c, col <= c < col + n -> src !! Z.to_nat (c - col + src_off) = Some (f c)) ->
  exists d', memcpy_row d W H row col src src_off (n * sizeof_uint16_t) = Some d' /\
    painted W H d d' (fun r c => (r =? row) && (col <=? c) && (c <? col + n))
      (fun _ c => f c).
Proof.
  intros (HW & HH & HWH & Hlen) Hrow Hcol Hn Hcn Hso Hsn Hsrc.
  unfold memcpy_row, texel_offset.
  rewrite (row_offset_small W H) by lia.
  rewrite Z.div_mul by done.
  assert (0 <= row * W) by nia.
  assert (row * W + W <= W * H) by nia.
  set (off := row * W + col).
  replace ((0 <=? row) && (row <? H) && (0 <=? col) && (col + n <=? W)
           && (off + n <=? Z.of_nat (length d)) && (0 <=? src_off)
           && (src_off + n <=? Z.of_nat (length src))) with true
    by (symmetry; repeat (apply andb_true_intro; split); lia).
  eexists; split; [reflexivity |].
  split.
  - rewrite !length_app, !length_take, !length_drop. lia.
  - intros r c Hr Hc. unfold texel.
    set (j := r * W + c).
    assert (Hj : 0 <= j) by (unfold j; nia).
    destruct (Z.eqb_spec r row) as [-> | Hne]; simpl.
    + destruct (Z.leb_spec col c), (Z.ltb_spec c (col + n)); simpl.
      * rewrite lookup_app_r by (rewrite length_take; lia).
        rewrite lookup_app_l by (rewrite !length_take, length_drop; lia).
        rewrite lookup_take_lt by (rewrite length_take; lia).
        rewrite lookup_drop, <- (Hsrc c) by lia.
        f_equal. rewrite length_take. lia.
      * rewrite lookup_app_r by (rewrite length_take; lia).
        rewrite lookup_app_r by (rewrite !length_take, length_drop; lia).
        rewrite lookup_drop. f_equal.
        rewrite !length_take, length_drop. lia.
      * rewrite lookup_app_l by (rewrite length_take; lia).
        apply lookup_take_lt. lia.
      * lia.
    + assert (Hout : j < off \/ off + n <= j).
      { destruct (Z.lt_ge_cases j off) as [|Hge]; [by left | right].
        destruct (Z.lt_ge_cases j (off + n)) as [Hlt|]; [| done].
        destruct (offset_inj W r c row (j - row * W)); lia. }
      destruct Hout.
      * rewrite lookup_app_l by (rewrite length_take; lia).
        apply lookup_take_lt. lia.
      * assert (j < W * H) by (unfold j; nia).
        rewrite lookup_app_r by (rewrite length_take; lia).
        rewrite lookup_app_r by (rewrite !length_take, length_drop; lia).
        rewrite lookup_drop. f_equal.
        rewrite !length_take, length_drop. lia.
Qed.

(** A row-copying loop of [rgui_fill_rect]: every [step]-th row from [y0]
    on receives columns [x0 .. x1 - 1] of the scanline [src]. *)
Lemma copy_rows_painted d W H x0 x1 y0 y1 step src (f : Z -> Z) :
  frame_buf_ok d W H -> 0 <= x0 <= x1 -> x1 <= W -> 0 <= y0 -> y1 <= H -> 0 < step ->
  x1 <= Z.of_nat (length src) ->
  (forall c, x0 <= c < x1 -> src !! Z.to_nat c = Some (f c)) ->
  exists d',
    for_loop y0 y1 step (fun y_index data =>
      memcpy_row data W H y_index x0 src x0 ((x1 - x0) * sizeof_uint16_t)) d = Some d' /\
    painted W H d d'
      (fun r c => on_rows y0 y1 step r && (x0 <=? c) && (c <? x1)) (fun _ c => f c).
Proof.
  intros Hok Hx Hx1 Hy0 Hy1 Hstep Hlen Hsrc. unfold for_loop.
  set (n := trip_count y0 y1 step).
  assert (Hn : y1 <= y0 + Z.of_nat n * step /\
               (forall k, (k < n)%nat -> y0 + Z.of_nat k * step < y1)).
  { assert (Hq : Z.of_nat n = Z.max 0 ((y1 - y0 + step - 1) / step))
      by (unfold n, trip_count; lia).
    split.
    - rewrite Hq.
      destruct (Z.le_gt_cases ((y1 - y0 + step - 1) / step) 0);
        [rewrite Z.max_l by done | rewrite Z.max_r by lia]; zmod.
    - intros k Hk.
      assert (Z.of_nat k + 1 <= (y1 - y0 + step - 1) / step) by lia.
      assert ((Z.of_nat k + 1) * step <= (y1 - y0 + step - 1) / step * step) by nia.
      zmod. }
  destruct Hn as [Hn1 Hn2].
  destruct (iterate_inv
    (fun k d' => painted W H d d'
       (fun r c => on_rows y0 (Z.min y1 (y0 + Z.of_nat k * step)) step r
                   && (x0 <=? c) && (c <? x1)) (fun _ c => f c))
    (fun y_index data =>
       memcpy_row data W H y_index x0 src x0 ((x1 - x0) * sizeof_uint16_t))
    step n y0 d) as (d' & Hit & Hinv).
  - eapply painted_ext; [apply painted_refl | | done].
    intros r c _ _. unfold on_rows.
    destruct (Z.leb_spec y0 r), (Z.ltb_spec r (Z.min y1 (y0 + Z.of_nat 0 * step)));
      simpl; lia.
  - intros k s Hk Hinv.
    specialize (Hn2 k Hk).
    destruct (memcpy_row_painted s W H (y0 + Z.of_nat k * step) x0 src x0 (x1 - x0) f)
      as (s' & Hs' & Hp); try lia.
    { eapply frame_buf_ok_length; [done | apply Hinv]. }
    { intros c Hc. rewrite <- Hsrc by lia. f_equal. lia. }
    exists s'. split; [done |].
    eapply painted_ext; [eapply painted_trans; [apply Hinv | apply Hp] | |].
    + intros r c _ _. unfold on_rows.
      replace (x0 + (x1 - x0)) with x1 by lia.
      rewrite Nat2Z.inj_succ.
      destruct (Z.leb_spec x0 c), (Z.ltb_spec c x1); rewrite ?andb_false_r; simpl; try done.
      rewrite !andb_true_r.
      destruct (Z.eqb_spec r (y0 + Z.of_nat k * step)) as [-> | Hne].
      * rewrite orb_true_r.
        replace (y0 + Z.of_nat k * step - y0) with (Z.of_nat k * step) by lia.
        rewrite Z.mod_mul by lia.
        destruct (Z.leb_spec y0 (y0 + Z.of_nat k * step)),
          (Z.ltb_spec (y0 + Z.of_nat k * step)
             (Z.min y1 (y0 + Z.succ (Z.of_nat k) * step))); simpl; nia.
      * rewrite orb_false_r.
        destruct (Z.leb_spec y0 r); simpl; [| done].
        destruct (Z.eqb_spec ((r - y0) mod step) 0) as [Hm | Hm];
          rewrite ?andb_false_r; [| done].
        rewrite !andb_true_r.
        apply Z.mod_divide in Hm; [| lia]. destruct Hm as [q Hq].
        assert (q <> Z.of_nat k) by nia.
        destruct (Z.ltb_spec r (Z.min y1 (y0 + Z.succ (Z.of_nat k) * step))),
          (Z.ltb_spec r (Z.min y1 (y0 + Z.of_nat k * step))); try done; nia.
    + intros r c _ _ _. simpl. by destruct (_ && _).
  - exists d'. split; [done |].
    eapply painted_ext; [apply Hinv | | done].
    intros r c _ _. by rewrite Z.min_l by lia.
Qed.

Lemma array_store_lookup a i v :
  0 <= i < Z.of_nat (length a) ->
  exists a', array_store a i v = Some a' /\ length a' = length a /\
    a' !! Z.to_nat i = Some v /\
    forall j, j <> Z.to_nat i -> a' !! j = a !! j.
Proof.
  intros Hi. unfold array_store.
  replace ((0 <=? i) && (i <? Z.of_nat (length a))) with true
    by (symmetry; apply andb_true_intro; split; lia).
  eexists; split; [reflexivity |]. split; [apply length_insert |]. split.
  - apply list_lookup_insert_eq. lia.
  - intros j Hj. apply list_lookup_insert_ne. lia.
Qed.

(** "Populate source array" of the solid fill. *)
Lemma populate_solid x0 x1 v a0 :
  0 <= x0 -> x1 <= Z.of_nat (length a0) ->
  exists a, for_loop x0 x1 1 (fun x_index a => array_store a x_index v) a0 = Some a /\
    length a = length a0 /\
    forall c, x0 <= c < x1 -> a !! Z.to_nat c = Some v.
Proof.
  intros Hx0 Hx1. unfold for_loop.
  set (n := trip_count x0 x1 1).
  assert (Hn : Z.of_nat n = Z.max 0 (x1 - x0)).
  { unfold n, trip_count. rewrite Z.div_1_r. lia. }
  destruct (iterate_inv
    (fun k a => length a = length a0 /\
       forall c, x0 <= c < x0 + Z.of_nat k -> a !! Z.to_nat c = Some v)
    (fun x_index a => array_store a x_index v) 1 n x0 a0) as (a & Hit & Hlen & Hinv).
  - split; [done |]. intros c Hc. lia.
  - intros k s Hk [Hlen Hinv].
    destruct (array_store_lookup s (x0 + Z.of_nat k * 1) v) as (s' & Hs' & Hl' & Hhit & Hmiss);
      [lia |].
    exists s'. split; [done |]. split; [congruence |].
    intros c Hc.
    destruct (Z.eq_dec c (x0 + Z.of_nat k * 1)) as [-> | Hne]; [done |].
    rewrite Hmiss by lia. apply Hinv. lia.
  - exists a. split; [done |]. split; [done |]. intros c Hc. apply Hinv. lia.
Qed.

(** "Populate source arrays" of the dithered fills. *)
Lemma populate_dither (g_even g_odd : Z -> Z) x0 x1 e0 o0 :
  0 <= x0 -> x1 <= Z.of_nat (length e0) -> length o0 = length e0 ->
  exists e o,
    for_loop x0 x1 1 (fun x_index (lines : list Z * list Z) =>
      even ← array_store lines.1 x_index (g_even x_index);
      odd ← array_store lines.2 x_index (g_odd x_index);
      Some (even, odd)) (e0, o0) = Some (e, o) /\
    length e = length e0 /\ length o = length e0 /\
    forall c, x0 <= c < x1 ->
      e !! Z.to_nat c = Some (g_even c) /\ o !! Z.to_nat c = Some (g_odd c).
Proof.
  intros Hx0 Hx1 Hlo. unfold for_loop.
  set (n := trip_count x0 x1 1).
  assert (Hn : Z.of_nat n = Z.max 0 (x1 - x0)).
  { unfold n, trip_count. rewrite Z.div_1_r. lia. }
  destruct (iterate_inv
    (fun k (lines : list Z * list Z) =>
       length lines.1 = length e0 /\ length lines.2 = length e0 /\
       forall c, x0 <= c < x0 + Z.of_nat k ->
         lines.1 !! Z.to_nat c = Some (g_even c) /\ lines.2 !! Z.to_nat c = Some (g_odd c))
    (fun x_index (lines : list Z * list Z) =>
      even ← array_store lines.1 x_index (g_even x_index);
      odd ← array_store lines.2 x_index (g_odd x_index);
      Some (even, odd)) 1 n x0 (e0, o0)) as ([e o] & Hit & Hle & Hlo' & Hinv).
  - simpl. split; [done |]. split; [done |]. intros c Hc. lia.
  - intros k [e o] Hk (Hle & Hlo' & Hinv). simpl in *.
    destruct (array_store_lookup e (x0 + Z.of_nat k * 1) (g_even (x0 + Z.of_nat k * 1)))
      as (e' & He' & Hle' & Hehit & Hemiss); [lia |].
    destruct (array_store_lookup o (x0 + Z.of_nat k * 1) (g_odd (x0 + Z.of_nat k * 1)))
      as (o' & Ho' & Hlo'' & Hohit & Homiss); [lia |].
    exists (e', o'). rewrite He'. simpl. rewrite Ho'. simpl.
    split; [done |]. split; [congruence |]. split; [congruence |].
    intros c Hc.
    destruct (Z.eq_dec c (x0 + Z.of_nat k * 1)) as [-> | Hne]; [done |].
    rewrite Hemiss, Homiss by lia. apply Hinv. lia.
  - exists e, o. simpl in *. split; [done |]. split; [done |]. split; [done |].
    intros c Hc. apply Hinv. lia.
Qed.

Lemma on_rows_shift y0 y1 r k :
  0 <= k < 4 ->
  on_rows (y0 + k) y1 4 r = (y0 <=? r) && (r <? y1) && ((r - y0) mod 4 =? k).
Proof.
  intros Hk. unfold on_rows.
  destruct (Z.leb_spec (y0 + k) r), (Z.leb_spec y0 r), (Z.ltb_spec r y1),
    (Z.eqb_spec ((r - (y0 + k)) mod 4) 0), (Z.eqb_spec ((r - y0) mod 4) k);
    simpl; try done; zmod.
Qed.

Lemma on_rows_shift2 y0 y1 r k :
  0 <= k < 2 ->
  on_rows (y0 + k) y1 2 r = (y0 <=? r) && (r <? y1) && ((r - y0) mod 2 =? k).
Proof.
  intros Hk. unfold on_rows.
  destruct (Z.leb_spec (y0 + k) r), (Z.leb_spec y0 r), (Z.ltb_spec r y1),
    (Z.eqb_spec ((r - (y0 + k)) mod 2) 0), (Z.eqb_spec ((r - y0) mod 2) k);
    simpl; try done; zmod.
Qed.

Lemma on_rows_1 y0 y1 r : on_rows y0 y1 1 r = (y0 <=? r) && (r <? y1).
Proof. unfold on_rows. rewrite Z.mod_1_r. simpl. by rewrite andb_true_r. Qed.

Lemma land_1_even n : (Z.land n 1 =? 0) = Z.even n.
Proof.
  change 1 with (Z.ones 1). rewrite Z.land_ones by lia.
  destruct (Z.even n) eqn:E.
  - apply Z.even_spec in E. destruct E as [k ->]. apply Z.eqb_eq. zmod.
  - apply (f_equal negb) in E. rewrite Z.negb_even in E. simpl in E.
    apply Z.odd_spec in E. destruct E as [k ->]. apply Z.eqb_neq. zmod.
Qed.

Lemma even_mod2 n : Z.even n = (n mod 2 =? 0).
Proof.
  destruct (Z.even n) eqn:E.
  - apply Z.even_spec in E. destruct E as [k ->]. symmetry. apply Z.eqb_eq. zmod.
  - apply (f_equal negb) in E. rewrite Z.negb_even in E. simpl in E.
    apply Z.odd_spec in E. destruct E as [k ->]. symmetry. apply Z.eqb_neq. zmod.
Qed.


Lemma land_3_mod4 n : Z.land n 3 = n mod 4.
Proof. change 3 with (Z.ones 2). by rewrite Z.land_ones. Qed.

Lemma shiftr_1_half n : Z.shiftr n 1 = n / 2.
Proof. by rewrite Z.shiftr_div_pow2. Qed.

(** Rewrites the colour tests of the scanlines and of [checker_colour]
    into remainders and settles the goal by arithmetic. *)
Ltac colour_cases :=
  unfold checker_colour;
  rewrite ?land_1_even, ?shiftr_1_half, !even_mod2;
  repeat match goal with
         | |- context [?a mod 2 =? 0] => destruct (Z.eqb_spec (a mod 2) 0)
         end;
  try done; exfalso; zmod.


Lemma mod4_cases n : n mod 4 = 0 \/ n mod 4 = 1 \/ n mod 4 = 2 \/ n mod 4 = 3.
Proof. zmod. Qed.

Lemma mod2_cases n : n mod 2 = 0 \/ n mod 2 = 1.
Proof. zmod. Qed.

(** The four row loops of the thick dither, each with its own scanline. *)
Lemma copy_rows4_painted d W H x0 x1 y0 y1 s0 s1 s2 s3 (f0 f1 f2 f3 : Z -> Z) :
  frame_buf_ok d W H -> 0 <= x0 <= x1 -> x1 <= W -> 0 <= y0 -> y1 <= H ->
  x1 <= Z.of_nat (length s0) -> x1 <= Z.of_nat (length s1) ->
  x1 <= Z.of_nat (length s2) -> x1 <= Z.of_nat (length s3) ->
  (forall c, x0 <= c < x1 -> s0 !! Z.to_nat c = Some (f0 c)) ->
  (forall c, x0 <= c < x1 -> s1 !! Z.to_nat c = Some (f1 c)) ->
  (forall c, x0 <= c < x1 -> s2 !! Z.to_nat c = Some (f2 c)) ->
  (forall c, x0 <= c < x1 -> s3 !! Z.to_nat c = Some (f3 c)) ->
  let copy (src : list Z) := fun y_index data =>
    memcpy_row data W H y_index x0 src x0 ((x1 - x0) * sizeof_uint16_t) in
  exists d',
    (d ← for_loop y0 y1 4 (copy s0) d;
     d ← for_loop (y0 + 1) y1 4 (copy s1) d;
     d ← for_loop (y0 + 2) y1 4 (copy s2) d;
     for_loop (y0 + 3) y1 4 (copy s3) d) = Some d' /\
    painted W H d d'
      (fun r c => (y0 <=? r) && (r <? y1) && (x0 <=? c) && (c <? x1))
      (fun r c => if (r - y0) mod 4 =? 0 then f0 c
                  else if (r - y0) mod 4 =? 1 then f1 c
                  else if (r - y0) mod 4 =? 2 then f2 c
                  else f3 c).
Proof.
  intros Hok Hx Hx1 Hy0 Hy1 Hl0 Hl1 Hl2 Hl3 Hf0 Hf1 Hf2 Hf3 copy. subst copy.
  destruct (copy_rows_painted d W H x0 x1 (y0 + 0) y1 4 s0 f0)
    as (d0 & Hd0 & Hp0); try lia; try done.
  rewrite Z.add_0_r in Hd0. rewrite Hd0. simpl.
  destruct (copy_rows_painted d0 W H x0 x1 (y0 + 1) y1 4 s1 f1)
    as (d1 & Hd1 & Hp1); try lia; try done.
  { eapply frame_buf_ok_length; [done | apply Hp0]. }
  rewrite Hd1. simpl.
  destruct (copy_rows_painted d1 W H x0 x1 (y0 + 2) y1 4 s2 f2)
    as (d2 & Hd2 & Hp2); try lia; try done.
  { eapply frame_buf_ok_length; [done | etrans; [apply Hp1 | apply Hp0]]. }
  rewrite Hd2. simpl.
  destruct (copy_rows_painted d2 W H x0 x1 (y0 + 3) y1 4 s3 f3)
    as (d3 & Hd3 & Hp3); try lia; try done.
  { eapply frame_buf_ok_length; [done |].
    etrans; [apply Hp2 |]. etrans; [apply Hp1 | apply Hp0]. }
  exists d3. split; [done |].
  pose proof (painted_trans _ _ _ _ _ _ _ _ _
                (painted_trans _ _ _ _ _ _ _ _ _
                   (painted_trans _ _ _ _ _ _ _ _ _ Hp0 Hp1) Hp2) Hp3) as Hp.
  eapply painted_ext; [apply Hp | |]; clear Hp Hp0 Hp1 Hp2 Hp3.
  - intros r c _ _. simpl. rewrite !on_rows_shift by lia.
    destruct (Z.leb_spec y0 r), (Z.ltb_spec r y1), (Z.leb_spec x0 c), (Z.ltb_spec c x1);
      simpl; rewrite ?andb_false_r; try done.
    destruct (mod4_cases (r - y0)) as [Hm | [Hm | [Hm | Hm]]]; rewrite Hm; done.
  - intros r c _ _ Hin. simpl in *. rewrite !on_rows_shift in * by lia.
    destruct (Z.leb_spec y0 r), (Z.ltb_spec r y1), (Z.leb_spec x0 c), (Z.ltb_spec c x1);
      simpl in *; rewrite ?andb_false_r in *; try done;
    destruct (mod4_cases (r - y0)) as [Hm | [Hm | [Hm | Hm]]]; rewrite Hm; done.
Qed.

(** The two row loops of the thin dither. *)
Lemma copy_rows2_painted d W H x0 x1 y0 y1 s0 s1 (f0 f1 : Z -> Z) :
  frame_buf_ok d W H -> 0 <= x0 <= x1 -> x1 <= W -> 0 <= y0 -> y1 <= H ->
  x1 <= Z.of_nat (length s0) -> x1 <= Z.of_nat (length s1) ->
  (forall c, x0 <= c < x1 -> s0 !! Z.to_nat c = Some (f0 c)) ->
  (forall c, x0 <= c < x1 -> s1 !! Z.to_nat c = Some (f1 c)) ->
  let copy (src : list Z) := fun y_index data =>
    memcpy_row data W H y_index x0 src x0 ((x1 - x0) * sizeof_uint16_t) in
  exists d',
    (d ← for_loop y0 y1 2 (copy s0) d;
     for_loop (y0 + 1) y1 2 (copy s1) d) = Some d' /\
    painted W H d d'
      (fun r c => (y0 <=? r) && (r <? y1) && (x0 <=? c) && (c <? x1))
      (fun r c => if (r - y0) mod 2 =? 0 then f0 c else f1 c).
Proof.
  intros Hok Hx Hx1 Hy0 Hy1 Hl0 Hl1 Hf0 Hf1 copy. subst copy.
  destruct (copy_rows_painted d W H x0 x1 (y0 + 0) y1 2 s0 f0)
    as (d0 & Hd0 & Hp0); try lia; try done.
  rewrite Z.add_0_r in Hd0. rewrite Hd0. simpl.
  destruct (copy_rows_painted d0 W H x0 x1 (y0 + 1) y1 2 s1 f1)
    as (d1 & Hd1 & Hp1); try lia; try done.
  { eapply frame_buf_ok_length; [done | apply Hp0]. }
  exists d1. split; [done |].
  pose proof (painted_trans _ _ _ _ _ _ _ _ _ Hp0 Hp1) as Hp.
  eapply painted_ext; [apply Hp | |]; clear Hp Hp0 Hp1.
  - intros r c _ _. simpl. rewrite !on_rows_shift2 by lia.
    destruct (Z.leb_spec y0 r), (Z.ltb_spec r y1), (Z.leb_spec x0 c), (Z.ltb_spec c x1);
      simpl; rewrite ?andb_false_r; try done.
    destruct (mod2_cases (r - y0)) as [Hm | Hm]; rewrite Hm; done.
  - intros r c _ _ Hin. simpl in *. rewrite !on_rows_shift2 in * by lia.
    destruct (Z.leb_spec y0 r), (Z.ltb_spec r y1), (Z.leb_spec x0 c), (Z.ltb_spec c x1);
      simpl in *; rewrite ?andb_false_r in *; try done;
    destruct (mod2_cases (r - y0)) as [Hm | Hm]; rewrite Hm; done.
Qed.

Ltac dither_finish :=
  match goal with
  | Hd : _ = Some ?d, Hp : painted _ _ _ ?d _ _,
    Hrect : forall r c, _ -> _ -> in_rect _ _ _ _ r c = _,
    Hs : ?ys mod _ = _ |- _ =>
      let r := fresh "r" in
      let c := fresh "c" in
      let Hm := fresh "Hm" in
      exists d; split; [exact Hd |];
      eapply painted_ext; [apply Hp | intros r c ? ?; by rewrite Hrect |];
      intros r c ? ? ?; clear Hp Hd;
      first
        [ destruct (mod4_cases (r - ys)) as [Hm | [Hm | [Hm | Hm]]]; rewrite Hm
        | destruct (mod2_cases (r - ys)) as [Hm | Hm]; rewrite Hm ];
      cbv iota beta; simpl; colour_cases
  end.

Lemma rgui_fill_rect_painted data fb_width fb_height x y width height
    dark_color light_color thickness :
  frame_buf_ok data fb_width fb_height -> fb_width <= RGUI_MAX_FB_WIDTH ->
  0 <= x -> 0 <= y -> 0 <= width -> 0 <= height ->
  x + width <= UINT_MAX -> y + height <= UINT_MAX ->
  exists data',
    rgui_fill_rect data fb_width fb_height x y width height
      dark_color light_color thickness = Some data' /\
    painted fb_width fb_height data data' (in_rect x y width height)
      (checker_colour dark_color light_color thickness).
Proof.
  intros Hok HWmax Hx Hy Hw Hh Hxw Hyh.
  pose proof Hok as (HW & HH & HWH & Hlen).
  unfold rgui_fill_rect.
  rewrite (wrap32_small (x + width)), (wrap32_small (y + height)) by lia.
  set (x_start := if x <=? fb_width then x else fb_width).
  set (y_start := if y <=? fb_height then y else fb_height).
  set (x_end := if x + width <=? fb_width then x + width else fb_width).
  set (y_end := if y + height <=? fb_height then y + height else fb_height).
  assert (Hxs : x_start = Z.min x fb_width)
    by (unfold x_start; destruct (Z.leb_spec x fb_width); lia).
  assert (Hys : y_start = Z.min y fb_height)
    by (unfold y_start; destruct (Z.leb_spec y fb_height); lia).
  assert (Hxe : x_end = Z.min (x + width) fb_width)
    by (unfold x_end; destruct (Z.leb_spec (x + width) fb_width); lia).
  assert (Hye : y_end = Z.min (y + height) fb_height)
    by (unfold y_end; destruct (Z.leb_spec (y + height) fb_height); lia).
  clearbody x_start y_start x_end y_end.
  assert (Hsize : wrap64 (wrap32 (x_end - x_start) * sizeof_uint16_t)
                  = (x_end - x_start) * sizeof_uint16_t).
  { unfold INT_MAX, UINT_MAX in *.
    rewrite wrap32_small by (unfold UINT_MAX; lia).
    unfold wrap64, sizeof_uint16_t. apply Z.mod_small. lia. }
  rewrite Hsize. clear Hsize.
  set (even0 := replicate (Z.to_nat RGUI_MAX_FB_WIDTH) 0).
  assert (Hlen0 : Z.of_nat (length even0) = RGUI_MAX_FB_WIDTH).
  { unfold even0. rewrite length_replicate. unfold RGUI_MAX_FB_WIDTH. lia. }
  assert (Hrect : forall r c, 0 <= r < fb_height -> 0 <= c < fb_width ->
            in_rect x y width height r c
            = (y_start <=? r) && (r <? y_end) && (x_start <=? c) && (c <? x_end)).
  { intros r c Hr Hc. unfold in_rect.
    destruct (Z.leb_spec x c), (Z.ltb_spec c (x + width)), (Z.leb_spec y r),
      (Z.ltb_spec r (y + height)), (Z.leb_spec y_start r), (Z.ltb_spec r y_end),
      (Z.leb_spec x_start c), (Z.ltb_spec c x_end); simpl; lia. }
  destruct (Z.eqb_spec ((x_end - x_start) * sizeof_uint16_t) 0) as [Hz | Hnz].
  { exists data. split; [done |].
    eapply painted_ext; [apply painted_refl | | done].
    intros r c Hr Hc. rewrite Hrect by done. unfold sizeof_uint16_t in Hz.
    destruct (Z.leb_spec x_start c), (Z.ltb_spec c x_end);
      rewrite ?andb_false_r; simpl; try done; lia. }
  assert (Hlt : x_start < x_end) by (unfold sizeof_uint16_t in Hnz; lia).
  destruct (Z.eqb_spec dark_color light_color) as [Heq | Hneq].
  { (* solid fill *)
    destruct (populate_solid x_start x_end dark_color even0) as (even & Hpop & Hle & Hev);
      [lia | lia |].
    rewrite Hpop. simpl.
    destruct (copy_rows_painted data fb_width fb_height x_start x_end y_start y_end 1
                even (fun _ => dark_color)) as (d' & Hd' & Hp); try lia; [done | done |].
    exists d'. split; [done |].
    eapply painted_ext; [apply Hp | |].
    - intros r c Hr Hc. rewrite Hrect, on_rows_1 by done. done.
    - intros r c _ _ _. unfold checker_colour. subst light_color.
      by destruct thickness, (Z.even _). }
  set (cols := fun c => (x_start <=? c) && (c <? x_end)).
  destruct thickness.
  - (* 2x2 blocks *)
    destruct (populate_dither
      (fun c => if Z.land (Z.shiftr c 1) 1 =? 0 then dark_color else light_color)
      (fun c => if Z.land (Z.shiftr c 1) 1 =? 0 then light_color else dark_color)
      x_start x_end even0 even0) as (e & o & Hpop & Hle & Hlo & Hlines); [lia | lia | done |].
    assert (He : forall c, x_start <= c < x_end -> e !! Z.to_nat c =
              Some (if Z.land (Z.shiftr c 1) 1 =? 0 then dark_color else light_color))
      by (intros; by apply Hlines).
    assert (Ho : forall c, x_start <= c < x_end -> o !! Z.to_nat c =
              Some (if Z.land (Z.shiftr c 1) 1 =? 0 then light_color else dark_color))
      by (intros; by apply Hlines).
    rewrite !wrap32_small by (unfold UINT_MAX, INT_MAX in *; lia).
    rewrite land_3_mod4.
    assert (Hs : y_start mod 4 = 0 \/ y_start mod 4 = 1 \/ y_start mod 4 = 2
                 \/ y_start mod 4 = 3) by zmod.
    destruct Hs as [Hs | [Hs | [Hs | Hs]]]; rewrite Hs; cbv iota beta;
      rewrite Hpop; simpl.
    + edestruct (copy_rows4_painted data fb_width fb_height x_start x_end
                  y_start y_end e e o o) as (d' & Hd' & Hp);
        [done | lia | lia | lia | lia | lia | lia | lia | lia
         | first [exact He | exact Ho] | first [exact He | exact Ho]
         | first [exact He | exact Ho] | first [exact He | exact Ho] |].
      dither_finish.
    + edestruct (copy_rows4_painted data fb_width fb_height x_start x_end
                  y_start y_end e o o e) as (d' & Hd' & Hp);
        [done | lia | lia | lia | lia | lia | lia | lia | lia
         | first [exact He | exact Ho] | first [exact He | exact Ho]
         | first [exact He | exact Ho] | first [exact He | exact Ho] |].
      dither_finish.
    + edestruct (copy_rows4_painted data fb_width fb_height x_start x_end
                  y_start y_end o o e e) as (d' & Hd' & Hp);
        [done | lia | lia | lia | lia | lia | lia | lia | lia
         | first [exact He | exact Ho] | first [exact He | exact Ho]
         | first [exact He | exact Ho] | first [exact He | exact Ho] |].
      dither_finish.
    + edestruct (copy_rows4_painted data fb_width fb_height x_start x_end
                  y_start y_end o e e o) as (d' & Hd' & Hp);
        [done | lia | lia | lia | lia | lia | lia | lia | lia
         | first [exact He | exact Ho] | first [exact He | exact Ho]
         | first [exact He | exact Ho] | first [exact He | exact Ho] |].
      dither_finish.
  - (* 1x1 texels *)
    destruct (populate_dither
      (fun c => if Z.land c 1 =? 0 then dark_color else light_color)
      (fun c => if Z.land c 1 =? 0 then light_color else dark_color)
      x_start x_end even0 even0) as (e & o & Hpop & Hle & Hlo & Hlines); [lia | lia | done |].
    assert (He : forall c, x_start <= c < x_end -> e !! Z.to_nat c =
              Some (if Z.land c 1 =? 0 then dark_color else light_color))
      by (intros; by apply Hlines).
    assert (Ho : forall c, x_start <= c < x_end -> o !! Z.to_nat c =
              Some (if Z.land c 1 =? 0 then light_color else dark_color))
      by (intros; by apply Hlines).
    rewrite !wrap32_small by (unfold UINT_MAX, INT_MAX in *; lia).
    rewrite (land_1_even y_start), (even_mod2 y_start).
    destruct (mod2_cases y_start) as [Hs | Hs]; rewrite Hs; cbv iota beta;
      rewrite Hpop; simpl.
    + edestruct (copy_rows2_painted data fb_width fb_height x_start x_end
                  y_start y_end e o) as (d' & Hd' & Hp);
        [done | lia | lia | lia | lia | lia | lia | exact He | exact Ho |].
      dither_finish.
    + edestruct (copy_rows2_painted data fb_width fb_height x_start x_end
                  y_start y_end o e) as (d' & Hd' & Hp);
        [done | lia | lia | lia | lia | lia | lia | exact Ho | exact He |].
      dither_finish.
Qed.




(** Both loops of [rgui_color_rect] never leave the buffer, whatever the
    rectangle: its clamped part is set to [color], everything else is left
    as it was. *)
Lemma rgui_color_rect_painted data fb_width fb_height x y width height color :
  frame_buf_ok data fb_width fb_height -> 0 <= x -> 0 <= y ->
  let x_start := Z.min x fb_width in
  let y_start := Z.min y fb_height in
  let x_end := Z.min (wrap32 (x + width)) fb_width in
  let y_end := Z.min (wrap32 (y + height)) fb_height in
  exists data',
    rgui_color_rect data fb_width fb_height x y width height color = Some data' /\
    painted fb_width fb_height data data'
      (in_rect x_start y_start (x_end - x_start) (y_end - y_start)) (fun _ _ => color).
Proof.
  intros Hok Hx Hy x_start y_start x_end y_end.
  unfold rgui_color_rect.
  replace (if x <=? fb_width then x else fb_width) with x_start
    by (unfold x_start; destruct (Z.leb_spec x fb_width); lia).
  replace (if y <=? fb_height then y else fb_height) with y_start
    by (unfold y_start; destruct (Z.leb_spec y fb_height); lia).
  replace (if wrap32 (x + width) <=? fb_width then wrap32 (x + width) else fb_width)
    with x_end by (unfold x_end; destruct (Z.leb_spec (wrap32 (x + width)) fb_width); lia).
  replace (if wrap32 (y + height) <=? fb_height then wrap32 (y + height) else fb_height)
    with y_end by (unfold y_end; destruct (Z.leb_spec (wrap32 (y + height)) fb_height); lia).
  destruct Hok as (HW & HH & ?).
  apply poke_rect_painted; unfold x_start, y_start, x_end, y_end; try lia.
  done.
Qed.

(** A buffer on which nothing was painted is the buffer itself. *)
Lemma painted_nothing W H d d' P f :
  frame_buf_ok d W H -> painted W H d d' P f ->
  (forall r c, 0 <= r < H -> 0 <= c < W -> P r c = false) -> d' = d.
Proof.
  intros (HW & HH & HWH & Hlen) [Hl Hp] Hnone.
  apply list_eq. intros i.
  destruct (decide (i < length d)%nat) as [Hi | Hi].
  - assert (0 < W) by nia.
    specialize (Hp (Z.of_nat i / W) (Z.of_nat i mod W)).
    unfold texel in Hp.
    replace (Z.of_nat i / W * W + Z.of_nat i mod W) with (Z.of_nat i) in Hp
      by (rewrite Z.mul_comm; apply Z.div_mod; lia).
    rewrite Nat2Z.id in Hp.
    assert (0 <= Z.of_nat i / W < H).
    { split; [apply Z.div_pos; lia | apply Z.div_lt_upper_bound; lia]. }
    assert (0 <= Z.of_nat i mod W < W) by (apply Z.mod_pos_bound; lia).
    by rewrite Hp, Hnone.
  - rewrite !lookup_ge_None_2; [done | lia | lia].
Qed.








(** The part of C1 that holds of [rgui_color_rect]: for all unsigned [x],
    [y], [width] and [height], also when [x + width] or [y + height] wraps
    around, the call completes without an access outside the buffer, sets
    exactly the texels of the clamped rectangle, and changes nothing when
    the clamped rectangle is empty. *)
Theorem rgui_color_rect_in_bounds data fb_width fb_height x y width height color :
  frame_buf_ok data fb_width fb_height -> 0 <= x -> 0 <= y ->
  let x_start := Z.min x fb_width in
  let y_start := Z.min y fb_height in
  let x_end := Z.min (wrap32 (x + width)) fb_width in
  let y_end := Z.min (wrap32 (y + height)) fb_height in
  exists data',
    rgui_color_rect data fb_width fb_height x y width height color = Some data' /\
    painted fb_width fb_height data data'
      (in_rect x_start y_start (x_end - x_start) (y_end - y_start))
      (fun _ _ => color) /\
    (x_end <= x_start \/ y_end <= y_start -> data' = data).
Proof.
  intros Hok Hx Hy x_start y_start x_end y_end.
  destruct (rgui_color_rect_painted data fb_width fb_height x y width height color
              Hok Hx Hy) as (data' & Hcall & Hp).
  exists data'. split; [done |]. split; [done |].
  intros Hempty. eapply painted_nothing; [done | exact Hp |].
  intros r c Hr Hc. fold x_start y_start x_end y_end. unfold in_rect.
  destruct (Z.leb_spec x_start c), (Z.ltb_spec c (x_start + (x_end - x_start))),
    (Z.leb_spec y_start r), (Z.ltb_spec r (y_start + (y_end - y_start)));
    simpl; try done; lia.
Qed.

Lemma rgui_color_rect_in_bounds_witness :
  exists data',
    rgui_color_rect (replicate 64 0) 8 8 5 5 4294967294 5 1 = Some data' /\
    painted 8 8 (replicate 64 0) data'
      (in_rect (Z.min 5 8) (Z.min 5 8)
         (Z.min (wrap32 (5 + 4294967294)) 8 - Z.min 5 8)
         (Z.min (wrap32 (5 + 5)) 8 - Z.min 5 8))
      (fun _ _ => 1) /\
    (Z.min (wrap32 (5 + 4294967294)) 8 <= Z.min 5 8 \/
     Z.min (wrap32 (5 + 5)) 8 <= Z.min 5 8 -> data' = replicate 64 0).
Proof.
  apply (rgui_color_rect_in_bounds (replicate 64 0) 8 8 5 5 4294967294 5 1);
    unfold frame_buf_ok, INT_MAX, UINT_MAX; simpl; lia.
Defined.

(** The part of C1 that holds of [rgui_fill_rect]: when neither [x + width]
    nor [y + height] exceeds [UINT_MAX], for a rectangle that may extend
    beyond any edge of the buffer, the call completes without an access
    outside the buffer or the scanlines, sets exactly the texels of the
    rectangle that lie in the buffer -- to the fill colour or the dither
    pattern -- and changes nothing when the clamped rectangle is empty. *)
Theorem rgui_fill_rect_in_bounds data fb_width fb_height x y width height
    dark_color light_color thickness :
  frame_buf_ok data fb_width fb_height -> fb_width <= RGUI_MAX_FB_WIDTH ->
  0 <= x -> 0 <= y -> 0 <= width -> 0 <= height ->
  x + width <= UINT_MAX -> y + height <= UINT_MAX ->
  exists data',
    rgui_fill_rect data fb_width fb_height x y width height
      dark_color light_color thickness = Some data' /\
    painted fb_width fb_height data data' (in_rect x y width height)
      (checker_colour dark_color light_color thickness) /\
    (Z.min (x + width) fb_width <= Z.min x fb_width \/
     Z.min (y + height) fb_height <= Z.min y fb_height -> data' = data).
Proof.
  intros Hok HWmax Hx Hy Hw Hh Hxw Hyh.
  destruct (rgui_fill_rect_painted data fb_width fb_height x y width height
              dark_color light_color thickness Hok HWmax Hx Hy Hw Hh Hxw Hyh)
    as (data' & Hcall & Hp).
  exists data'. split; [done |]. split; [done |].
  intros Hempty. eapply painted_nothing; [done | exact Hp |].
  intros r c Hr Hc. unfold in_rect.
  destruct (Z.leb_spec x c), (Z.ltb_spec c (x + width)),
    (Z.leb_spec y r), (Z.ltb_spec r (y + height)); simpl; try done; lia.
Qed.

Lemma rgui_fill_rect_in_bounds_witness :
  exists data',
    rgui_fill_rect (replicate 64 0) 8 8 5 6 20 30 1 2 true = Some data' /\
    painted 8 8 (replicate 64 0) data' (in_rect 5 6 20 30)
      (checker_colour 1 2 true) /\
    (Z.min (5 + 20) 8 <= Z.min 5 8 \/ Z.min (6 + 30) 8 <= Z.min 6 8 ->
     data' = replicate 64 0).
Proof.
  apply (rgui_fill_rect_in_bounds (replicate 64 0) 8 8 5 6 20 30 1 2 true);
    unfold frame_buf_ok, INT_MAX, UINT_MAX, RGUI_MAX_FB_WIDTH; simpl; lia.
Defined.

(** ** The rectangle fills *)

Lemma painted_inside W H d d' x y width height f row col :
  painted W H d d' (in_rect x y width height) f ->
  0 <= row < H -> 0 <= col < W ->
  (x <= col < x + width /\ y <= row < y + height ->
     texel d' W row col = Some (f row col)) /\
  (~ (x <= col < x + width /\ y <= row < y + height) ->
     texel d' W row col = texel d W row col).
Proof.
  intros [_ Hp] Hr Hc. rewrite (Hp row col Hr Hc). unfold in_rect.
  destruct (Z.leb_spec x col), (Z.ltb_spec col (x + width)), (Z.leb_spec y row),
    (Z.ltb_spec row (y + height)); simpl; split; intros; try done; lia.
Qed.

(** C2: a rectangle inside the buffer, filled with [dark_color =
    light_color]: every texel of the rectangle is set to that colour, and
    every other texel of the buffer is unchanged. *)
Theorem rgui_fill_rect_solid data fb_width fb_height x y width height color thickness :
  frame_buf_ok data fb_width fb_height -> fb_width <= RGUI_MAX_FB_WIDTH ->
  0 <= x -> 0 <= y -> 0 <= width -> 0 <= height ->
  x + width <= fb_width -> y + height <= fb_height ->
  exists data',
    rgui_fill_rect data fb_width fb_height x y width height color color thickness
      = Some data' /\
    length data' = length data /\
    forall i j, 0 <= i < fb_width -> 0 <= j < fb_height ->
      (x <= i < x + width /\ y <= j < y + height ->
         texel data' fb_width j i = Some color) /\
      (~ (x <= i < x + width /\ y <= j < y + height) ->
         texel data' fb_width j i = texel data fb_width j i).
Proof.
  intros Hok HW Hx Hy Hw Hh Hxw Hyh.
  pose proof Hok as (HW' & HH' & _).
  destruct (rgui_fill_rect_painted data fb_width fb_height x y width height
              color color thickness) as (data' & Hfill & Hp); try done;
    try (unfold UINT_MAX, INT_MAX in *; lia).
  exists data'. split; [done |]. split; [apply Hp |].
  intros i j Hi Hj.
  destruct (painted_inside _ _ _ _ _ _ _ _ _ j i Hp Hj Hi) as [Hin Hout].
  split; [| done].
  intros Hrect. rewrite (Hin Hrect). f_equal.
  unfold checker_colour. by destruct thickness, (Z.even _).
Qed.

Lemma rgui_fill_rect_solid_witness :
  exists data',
    rgui_fill_rect (replicate 12 0) 4 3 1 1 2 2 7 7 false = Some data' /\
    length data' = length (replicate 12 0) /\
    forall i j, 0 <= i < 4 -> 0 <= j < 3 ->
      (1 <= i < 1 + 2 /\ 1 <= j < 1 + 2 -> texel data' 4 j i = Some 7) /\
      (~ (1 <= i < 1 + 2 /\ 1 <= j < 1 + 2) ->
         texel data' 4 j i = texel (replicate 12 0) 4 j i).
Proof.
  apply (rgui_fill_rect_solid (replicate 12 0) 4 3 1 1 2 2 7 false);
    unfold frame_buf_ok, INT_MAX, UINT_MAX, RGUI_MAX_FB_WIDTH; simpl; lia.
Defined.

(** C3: a rectangle inside the buffer, filled with two different colours:
    without [thickness] the texel at absolute position [(i, j)] is
    [dark_color] exactly when [i + j] is even, with [thickness] exactly when
    [(i >> 1) + (j >> 1)] is even, and [light_color] otherwise, wherever the
    rectangle starts; so the thick pattern consists of 2x2 blocks at even
    coordinates, changes colour every 2 columns and repeats every 4 rows. *)
Theorem rgui_fill_rect_checkerboard data fb_width fb_height x y width height
    dark_color light_color thickness :
  frame_buf_ok data fb_width fb_height -> fb_width <= RGUI_MAX_FB_WIDTH ->
  0 <= x -> 0 <= y -> 0 <= width -> 0 <= height ->
  x + width <= fb_width -> y + height <= fb_height ->
  dark_color <> light_color ->
  exists data',
    rgui_fill_rect data fb_width fb_height x y width height
      dark_color light_color thickness = Some data' /\
    (forall i j, x <= i < x + width -> y <= j < y + height ->
       let dark := if thickness
                   then Z.even (Z.shiftr i 1 + Z.shiftr j 1)
                   else Z.even (i + j) in
       (texel data' fb_width j i = Some dark_color <-> dark = true) /\
       (texel data' fb_width j i = Some light_color <-> dark = false)) /\
    (thickness = true ->
     forall i j, x <= i < x + width -> y <= j < y + height ->
       (texel data' fb_width j i
        = Some (checker_colour dark_color light_color true (2 * (j / 2)) (2 * (i / 2)))) /\
       (x <= i + 2 < x + width ->
          texel data' fb_width j (i + 2) <> texel data' fb_width j i) /\
       (y <= j + 4 < y + height ->
          texel data' fb_width (j + 4) i = texel data' fb_width j i)).
Proof.
  intros Hok HW Hx Hy Hw Hh Hxw Hyh Hneq.
  pose proof Hok as (HW' & HH' & _).
  destruct (rgui_fill_rect_painted data fb_width fb_height x y width height
              dark_color light_color thickness) as (data' & Hfill & Hp); try done;
    try (unfold UINT_MAX, INT_MAX in *; lia).
  exists data'. split; [done |].
  assert (Htex : forall i j, x <= i < x + width -> y <= j < y + height ->
            texel data' fb_width j i
            = Some (checker_colour dark_color light_color thickness j i)).
  { intros i j Hi Hj.
    destruct (painted_inside _ _ _ _ _ _ _ _ _ j i Hp) as [Hin _]; [lia | lia |].
    by apply Hin. }
  split.
  - intros i j Hi Hj dark. rewrite (Htex i j Hi Hj).
    unfold checker_colour. subst dark.
    destruct thickness, (Z.even _); split; split; intros; try done; congruence.
  - intros ->. intros i j Hi Hj. rewrite (Htex i j Hi Hj). split; [| split].
    + f_equal. unfold checker_colour. rewrite !shiftr_1_half.
      replace (2 * (i / 2) / 2) with (i / 2) by zmod.
      by replace (2 * (j / 2) / 2) with (j / 2) by zmod.
    + intros Hi2. rewrite (Htex (i + 2) j Hi2 Hj).
      unfold checker_colour. rewrite !shiftr_1_half, !even_mod2.
      destruct (Z.eqb_spec ((i / 2 + j / 2) mod 2) 0),
        (Z.eqb_spec (((i + 2) / 2 + j / 2) mod 2) 0); try congruence; exfalso; zmod.
    + intros Hj4. rewrite (Htex i (j + 4) Hi Hj4). f_equal.
      unfold checker_colour. rewrite !shiftr_1_half, !even_mod2.
      destruct (Z.eqb_spec ((i / 2 + j / 2) mod 2) 0),
        (Z.eqb_spec ((i / 2 + (j + 4) / 2) mod 2) 0); try done; exfalso; zmod.
Qed.

Lemma rgui_fill_rect_checkerboard_witness :
  exists data',
    rgui_fill_rect (replicate 48 0) 8 6 1 1 6 5 8 9 true = Some data' /\
    (forall i j, 1 <= i < 1 + 6 -> 1 <= j < 1 + 5 ->
       let dark := if true
                   then Z.even (Z.shiftr i 1 + Z.shiftr j 1)
                   else Z.even (i + j) in
       (texel data' 8 j i = Some 8 <-> dark = true) /\
       (texel data' 8 j i = Some 9 <-> dark = false)) /\
    (true = true ->
     forall i j, 1 <= i < 1 + 6 -> 1 <= j < 1 + 5 ->
       (texel data' 8 j i
        = Some (checker_colour 8 9 true (2 * (j / 2)) (2 * (i / 2)))) /\
       (1 <= i + 2 < 1 + 6 -> texel data' 8 j (i + 2) <> texel data' 8 j i) /\
       (1 <= j + 4 < 1 + 5 -> texel data' 8 (j + 4) i = texel data' 8 j i)).
Proof.
  apply (rgui_fill_rect_checkerboard (replicate 48 0) 8 6 1 1 6 5 8 9 true);
    unfold frame_buf_ok, INT_MAX, UINT_MAX, RGUI_MAX_FB_WIDTH; simpl; lia.
Defined.

(** ** Pixel formats *)

Lemma all_below_spec n P :
  all_below n P = true -> forall a, 0 <= a < Z.of_nat n -> P a = true.
Proof.
  induction n as [|n IH]; simpl; intros Hall a Ha; [lia |].
  apply andb_true_iff in Hall as [Hn Hrest].
  destruct (Z.eq_dec a (Z.of_nat n)) as [-> | Hne]; [done |].
  apply IH; [done | lia].
Qed.

Lemma channel_range col shift : 0 <= channel col shift < 256.
Proof.
  unfold channel. change 255 with (Z.ones 8). rewrite Z.land_ones by lia.
  apply Z.mod_pos_bound. lia.
Qed.

Lemma channel_blue col : Z.land col 255 = channel col 0.
Proof. unfold channel. by rewrite Z.shiftr_0_r. Qed.

Lemma shiftr_range v n k : 0 <= v < 2 ^ (n + k) -> 0 <= n -> 0 <= k ->
  0 <= Z.shiftr v k < 2 ^ n.
Proof.
  intros Hv Hn Hk. rewrite Z.shiftr_div_pow2 by done.
  rewrite Z.pow_add_r in Hv by done.
  split; [apply Z.div_pos; lia |]. apply Z.div_lt_upper_bound; lia.
Qed.

Lemma nibble_range col shift : 0 <= Z.shiftr (channel col shift) 4 < 16.
Proof. apply (shiftr_range _ 4 4); [apply channel_range | lia | lia]. Qed.

Lemma quintet_range col shift : 0 <= Z.shiftr (channel col shift) 3 < 32.
Proof. apply (shiftr_range _ 5 3); [apply channel_range | lia | lia]. Qed.

(** Packing four nibbles and taking them apart again, by evaluation of
    all 65536 cases. *)
Lemma pack4444_fields a b c d :
  0 <= a < 16 -> 0 <= b < 16 -> 0 <= c < 16 -> 0 <= d < 16 ->
  let v := wrap16 (Z.lor (Z.lor (Z.lor (Z.shiftl a 12) (Z.shiftl b 8)) (Z.shiftl c 4)) d) in
  field v 12 4 = a /\ field v 8 4 = b /\ field v 4 4 = c /\ field v 0 4 = d /\
  field v 15 1 = Z.shiftr a 3 /\ field v 12 3 = Z.land a 7 /\
  v = Z.lor (Z.lor (Z.lor (Z.shiftl a 12) (Z.shiftl b 8)) (Z.shiftl c 4)) d /\
  0 <= v < 2 ^ 16.
Proof.
  intros Ha Hb Hc Hd.
  assert (Hall : all_below 16 (fun a => all_below 16 (fun b => all_below 16 (fun c =>
            all_below 16 (fun d =>
              let v := wrap16 (Z.lor (Z.lor (Z.lor (Z.shiftl a 12) (Z.shiftl b 8))
                                            (Z.shiftl c 4)) d) in
              (field v 12 4 =? a) && (field v 8 4 =? b) && (field v 4 4 =? c)
              && (field v 0 4 =? d) && (field v 15 1 =? Z.shiftr a 3)
              && (field v 12 3 =? Z.land a 7)
              && (v =? Z.lor (Z.lor (Z.lor (Z.shiftl a 12) (Z.shiftl b 8))
                                    (Z.shiftl c 4)) d)
              && (0 <=? v) && (v <? 2 ^ 16))))) = true)
    by (vm_compute; reflexivity).
  pose proof (all_below_spec _ _ Hall a Ha) as H1. cbv beta in H1.
  pose proof (all_below_spec _ _ H1 b Hb) as H2. cbv beta in H2.
  pose proof (all_below_spec _ _ H2 c Hc) as H3. cbv beta in H3.
  pose proof (all_below_spec _ _ H3 d Hd) as H4. cbv beta in H4.
  rewrite !andb_true_iff, !Z.eqb_eq, Z.leb_le, Z.ltb_lt in H4.
  intros v. subst v. tauto.
Qed.

(** The same for the 1-5-5-5 layout. *)
Lemma pack1555_fields b g r :
  0 <= b < 32 -> 0 <= g < 32 -> 0 <= r < 32 ->
  let v := wrap16 (Z.lor (Z.lor (Z.lor (Z.shiftl 1 15) (Z.shiftl b 10)) (Z.shiftl g 5)) r) in
  field v 15 1 = 1 /\ field v 10 5 = b /\ field v 5 5 = g /\ field v 0 5 = r /\
  0 <= v < 2 ^ 16.
Proof.
  intros Hb Hg Hr.
  assert (Hall : all_below 32 (fun b => all_below 32 (fun g => all_below 32 (fun r =>
              let v := wrap16 (Z.lor (Z.lor (Z.lor (Z.shiftl 1 15) (Z.shiftl b 10))
                                            (Z.shiftl g 5)) r) in
              (field v 15 1 =? 1) && (field v 10 5 =? b) && (field v 5 5 =? g)
              && (field v 0 5 =? r) && (0 <=? v) && (v <? 2 ^ 16)))) = true)
    by (vm_compute; reflexivity).
  pose proof (all_below_spec _ _ Hall b Hb) as H1. cbv beta in H1.
  pose proof (all_below_spec _ _ H1 g Hg) as H2. cbv beta in H2.
  pose proof (all_below_spec _ _ H2 r Hr) as H3. cbv beta in H3.
  rewrite !andb_true_iff, !Z.eqb_eq, Z.leb_le, Z.ltb_lt in H3.
  intros v. subst v. tauto.
Qed.

Lemma nibble_testbit c k n :
  0 <= k -> 0 <= n ->
  Z.testbit (Z.shiftr (channel c k) 4) n = (n <? 4) && Z.testbit c (k + (4 + n)).
Proof.
  intros Hk Hn. unfold channel.
  rewrite Z.shiftr_spec, Z.land_spec, Z.shiftr_spec by lia.
  change 255 with (Z.ones 8). rewrite Z.testbit_ones_nonneg by lia.
  replace (n + 4 + k) with (k + (4 + n)) by lia.
  destruct (Z.ltb_spec (n + 4) 8), (Z.ltb_spec n 4); try lia;
    by rewrite ?andb_true_r, ?andb_false_r.
Qed.

Lemma nibble_agree c1 c2 k :
  high_nibbles_agree c1 c2 -> k = 0 \/ k = 8 \/ k = 16 \/ k = 24 ->
  Z.shiftr (channel c1 k) 4 = Z.shiftr (channel c2 k) 4.
Proof.
  intros Hagree Hk. apply Z.bits_inj'. intros n Hn.
  rewrite !nibble_testbit by lia.
  destruct (Z.ltb_spec n 4); [| done]. simpl.
  apply Hagree; [done | lia].
Qed.

(** Names the channels of the colour in the goal. *)
Ltac fold_channels :=
  repeat match goal with
         | |- context [Z.land (Z.shiftr ?col ?k) 255] =>
             change (Z.land (Z.shiftr col k) 255) with (channel col k)
         end;
  rewrite ?channel_blue.

(** C10: each of the three 4-bit-alpha converters returns the same pixel
    for two inputs that agree on bits 7-4 of the alpha, red, green and blue
    channels. *)
Theorem argb32_to_4444_high_nibbles c1 c2 :
  high_nibbles_agree c1 c2 ->
  argb32_to_abgr4444 c1 = argb32_to_abgr4444 c2 /\
  argb32_to_bgra4444 c1 = argb32_to_bgra4444 c2 /\
  argb32_to_rgba4444 c1 = argb32_to_rgba4444 c2.
Proof.
  intros Hagree.
  unfold argb32_to_abgr4444, argb32_to_bgra4444, argb32_to_rgba4444.
  fold_channels.
  rewrite (nibble_agree c1 c2 24), (nibble_agree c1 c2 16),
    (nibble_agree c1 c2 8), (nibble_agree c1 c2 0) by (done || lia).
  done.
Qed.

Lemma argb32_to_4444_high_nibbles_witness :
  argb32_to_abgr4444 0x12345678 = argb32_to_abgr4444 0x1F3A5C7E /\
  argb32_to_bgra4444 0x12345678 = argb32_to_bgra4444 0x1F3A5C7E /\
  argb32_to_rgba4444 0x12345678 = argb32_to_rgba4444 0x1F3A5C7E.
Proof.
  apply (argb32_to_4444_high_nibbles 0x12345678 0x1F3A5C7E).
  intros k i Hk Hi.
  assert (Hi' : i = 4 \/ i = 5 \/ i = 6 \/ i = 7) by lia.
  destruct Hk as [-> | [-> | [-> | ->]]], Hi' as [-> | [-> | [-> | ->]]]; reflexivity.
Defined.

Lemma byte_nibble_range v : 0 <= v < 256 -> 0 <= Z.shiftr v 4 < 16.
Proof. intros. by apply (shiftr_range _ 4 4). Qed.

(** C8 (as amended): for an input of alpha 255 no converter rescales, and
    every field of the packed pixel holds the high-order bits of its
    channel: 5 bits per colour and the alpha bit set for
    [argb32_to_abgr1555]; 4 bits per colour for [argb32_to_rgb5a3], whose
    3-bit alpha field holds 7 under a clear top bit; 4 bits per channel, hence
    alpha 15, for the three 4444 converters. *)
Theorem full_alpha_fields col :
  channel col 24 = 255 ->
  let r := channel col 16 in
  let g := channel col 8 in
  let b := channel col 0 in
  (exists v, argb32_to_abgr1555 col = Some v /\
     field v 15 1 = 1 /\ field v 10 5 = Z.shiftr b 3 /\
     field v 5 5 = Z.shiftr g 3 /\ field v 0 5 = Z.shiftr r 3) /\
  (exists v, argb32_to_rgb5a3 col = Some v /\
     field v 15 1 = 0 /\ field v 12 3 = 7 /\ field v 8 4 = Z.shiftr r 4 /\
     field v 4 4 = Z.shiftr g 4 /\ field v 0 4 = Z.shiftr b 4) /\
  (let v := argb32_to_abgr4444 col in
   field v 12 4 = 15 /\ field v 8 4 = Z.shiftr b 4 /\
   field v 4 4 = Z.shiftr g 4 /\ field v 0 4 = Z.shiftr r 4) /\
  (let v := argb32_to_bgra4444 col in
   field v 12 4 = Z.shiftr b 4 /\ field v 8 4 = Z.shiftr g 4 /\
   field v 4 4 = Z.shiftr r 4 /\ field v 0 4 = 15) /\
  (let v := argb32_to_rgba4444 col in
   field v 12 4 = Z.shiftr r 4 /\ field v 8 4 = Z.shiftr g 4 /\
   field v 4 4 = Z.shiftr b 4 /\ field v 0 4 = 15).
Proof.
  intros Ha r g b.
  pose proof (nibble_range col 16) as Hr4. pose proof (nibble_range col 8) as Hg4.
  pose proof (nibble_range col 0) as Hb4.
  pose proof (quintet_range col 16) as Hr5. pose proof (quintet_range col 8) as Hg5.
  pose proof (quintet_range col 0) as Hb5.
  fold r in Hr4, Hr5. fold g in Hg4, Hg5. fold b in Hb4, Hb5.
  unfold argb32_to_abgr1555, argb32_to_rgb5a3, argb32_to_abgr4444,
    argb32_to_bgra4444, argb32_to_rgba4444.
  fold_channels. rewrite Ha. fold r g b.
  change (255 <? 255) with false. change (Z.shiftr 255 5) with 7.
  change (Z.shiftr 255 4) with 15. cbn [mbind option_bind].
  split; [| split; [| split; [| split]]].
  - eexists. split; [reflexivity |].
    pose proof (pack1555_fields _ _ _ Hb5 Hg5 Hr5) as H. cbv zeta in H. tauto.
  - eexists. split; [reflexivity |].
    assert (H7 : 0 <= 7 < 16) by lia.
    pose proof (pack4444_fields _ _ _ _ H7 Hr4 Hg4 Hb4) as H. cbv zeta in H.
    change (Z.shiftr 7 3) with 0 in H. change (Z.land 7 7) with 7 in H. tauto.
  - assert (H15 : 0 <= 15 < 16) by lia.
    pose proof (pack4444_fields _ _ _ _ H15 Hb4 Hg4 Hr4) as H. cbv zeta in *. tauto.
  - assert (H15 : 0 <= 15 < 16) by lia.
    pose proof (pack4444_fields _ _ _ _ Hb4 Hg4 Hr4 H15) as H. cbv zeta in *. tauto.
  - assert (H15 : 0 <= 15 < 16) by lia.
    pose proof (pack4444_fields _ _ _ _ Hr4 Hg4 Hb4 H15) as H. cbv zeta in *. tauto.
Qed.

(** ARGB(255, 255, 0, 0): full red, alpha 15 under [argb32_to_rgba4444]. *)
Lemma full_alpha_fields_witness :
  let r := channel 0xFFFF0000 16 in
  let g := channel 0xFFFF0000 8 in
  let b := channel 0xFFFF0000 0 in
  (exists v, argb32_to_abgr1555 0xFFFF0000 = Some v /\
     field v 15 1 = 1 /\ field v 10 5 = Z.shiftr b 3 /\
     field v 5 5 = Z.shiftr g 3 /\ field v 0 5 = Z.shiftr r 3) /\
  (exists v, argb32_to_rgb5a3 0xFFFF0000 = Some v /\
     field v 15 1 = 0 /\ field v 12 3 = 7 /\ field v 8 4 = Z.shiftr r 4 /\
     field v 4 4 = Z.shiftr g 4 /\ field v 0 4 = Z.shiftr b 4) /\
  (let v := argb32_to_abgr4444 0xFFFF0000 in
   field v 12 4 = 15 /\ field v 8 4 = Z.shiftr b 4 /\
   field v 4 4 = Z.shiftr g 4 /\ field v 0 4 = Z.shiftr r 4) /\
  (let v := argb32_to_bgra4444 0xFFFF0000 in
   field v 12 4 = Z.shiftr b 4 /\ field v 8 4 = Z.shiftr g 4 /\
   field v 4 4 = Z.shiftr r 4 /\ field v 0 4 = 15) /\
  (let v := argb32_to_rgba4444 0xFFFF0000 in
   field v 12 4 = Z.shiftr r 4 /\ field v 8 4 = Z.shiftr g 4 /\
   field v 4 4 = Z.shiftr b 4 /\ field v 0 4 = 15).
Proof. apply (full_alpha_fields 0xFFFF0000). reflexivity. Defined.

(** The example of C8, evaluated: red 15, green 0, blue 0, alpha 15. *)
Lemma rgba4444_full_red :
  argb32_to_rgba4444 0xFFFF0000 = 0xF00F /\
  field 0xF00F 12 4 = 15 /\ field 0xF00F 8 4 = 0 /\
  field 0xF00F 4 4 = 0 /\ field 0xF00F 0 4 = 15.
Proof. vm_compute. done. Qed.

(** Against C8 as stated: under [argb32_to_rgb5a3] the same colour gets
    the alpha field 7, the largest a 3-bit field holds, and not 15: the top
    nibble of the pixel is 7. *)
Lemma rgb5a3_full_alpha_is_7 :
  argb32_to_rgb5a3 0xFFFF0000 = Some 0x7F00 /\
  field 0x7F00 12 4 = 7 /\ field 0x7F00 12 3 = 7 /\ field 0x7F00 15 1 = 0 /\
  (7 =? 15) = false.
Proof. vm_compute. done. Qed.

(** The scale factors of [argb32_to_rgb5a3] and the rescaled components,
    for every 4-bit alpha and every component value, by evaluation. *)
Lemma rgb5a3_scale_defined a4 v :
  0 <= a4 < 16 -> 0 <= v < 256 ->
  exists f u, rgb5a3_a_factor (Z.shiftr a4 1) a4 = Some f /\
    rgb5a3_scale f v = Some u /\ 0 <= u < 256.
Proof.
  intros Ha Hv.
  assert (Hall : all_below 16 (fun a4 =>
            match rgb5a3_a_factor (Z.shiftr a4 1) a4 with
            | Some f => all_below 256 (fun v =>
                match rgb5a3_scale f v with
                | Some u => (0 <=? u) && (u <? 256)
                | None => false
                end)
            | None => false
            end) = true) by (vm_compute; reflexivity).
  pose proof (all_below_spec _ _ Hall a4 Ha) as H1. cbv beta in H1.
  destruct (rgb5a3_a_factor (Z.shiftr a4 1) a4) as [f |] eqn:Ef; [| done].
  pose proof (all_below_spec _ _ H1 v Hv) as H2. cbv beta in H2.
  destruct (rgb5a3_scale f v) as [u |] eqn:Eu; [| done].
  exists f, u. split; [reflexivity |]. split; [exact Eu |]. lia.
Qed.

(** With the factor 1.0 a component passes through unchanged. *)
Lemma rgb5a3_scale_one v :
  0 <= v < 256 -> rgb5a3_scale (f32_of_Z 1) v = Some v.
Proof.
  intros Hv.
  assert (Hall : all_below 256 (fun v =>
            match rgb5a3_scale (f32_of_Z 1) v with
            | Some u => u =? v
            | None => false
            end) = true) by (vm_compute; reflexivity).
  pose proof (all_below_spec _ _ Hall v Hv) as H1. cbv beta in H1.
  destruct (rgb5a3_scale (f32_of_Z 1) v) as [u |] eqn:Eu; [| done].
  apply Z.eqb_eq in H1. by subst.
Qed.

(** C5: [argb32_to_rgb5a3] returns a 16-bit pixel for every input: no
    division by zero, no conversion of an unrepresentable value.  For an
    input of alpha 0 the correction factor is 1.0, every colour component
    passes through unscaled, and the pixel consists of the high nibbles of
    red, green and blue under a zero alpha field. *)
Theorem argb32_to_rgb5a3_total col :
  (exists v, argb32_to_rgb5a3 col = Some v /\ 0 <= v < 2 ^ 16) /\
  (channel col 24 = 0 ->
   rgb5a3_a_factor (Z.shiftr (channel col 24) 5) (Z.shiftr (channel col 24) 4)
     = Some (f32_of_Z 1) /\
   (forall v, 0 <= v < 256 -> rgb5a3_scale (f32_of_Z 1) v = Some v) /\
   argb32_to_rgb5a3 col
     = Some (Z.lor (Z.lor (Z.shiftl (Z.shiftr (channel col 16) 4) 8)
                          (Z.shiftl (Z.shiftr (channel col 8) 4) 4))
                   (Z.shiftr (channel col 0) 4))).
Proof.
  pose proof (channel_range col 24) as Ha. pose proof (channel_range col 16) as Hr.
  pose proof (channel_range col 8) as Hg. pose proof (channel_range col 0) as Hb.
  unfold argb32_to_rgb5a3. fold_channels.
  set (a := channel col 24) in *. set (r := channel col 16) in *.
  set (g := channel col 8) in *. set (b := channel col 0) in *.
  assert (Ha3 : Z.shiftr a 5 = Z.shiftr (Z.shiftr a 4) 1)
    by (rewrite Z.shiftr_shiftr by lia; done).
  pose proof (byte_nibble_range a Ha) as Ha4.
  assert (Ha3r : 0 <= Z.shiftr a 5 < 16).
  { rewrite Ha3, Z.shiftr_div_pow2 by lia. change (2 ^ 1) with 2. zmod. }
  split.
  - destruct (Z.ltb_spec a 255) as [Hlt | Hge].
    + destruct (rgb5a3_scale_defined (Z.shiftr a 4) r Ha4 Hr) as (f & r' & Hf & Hr' & Hr'r).
      destruct (rgb5a3_scale_defined (Z.shiftr a 4) g Ha4 Hg) as (f2 & g' & Hf2 & Hg' & Hg'r).
      destruct (rgb5a3_scale_defined (Z.shiftr a 4) b Ha4 Hb) as (f3 & b' & Hf3 & Hb' & Hb'r).
      rewrite Ha3, Hf in *. injection Hf2 as <-. injection Hf3 as <-.
      cbn [mbind option_bind]. rewrite Hr'. cbn [mbind option_bind].
      rewrite Hg'. cbn [mbind option_bind]. rewrite Hb'. cbn [mbind option_bind].
      eexists. split; [reflexivity |].
      rewrite <- Ha3.
      apply (pack4444_fields _ _ _ _ Ha3r (byte_nibble_range _ Hr'r)
               (byte_nibble_range _ Hg'r) (byte_nibble_range _ Hb'r)).
    + cbn [mbind option_bind]. eexists. split; [reflexivity |].
      apply (pack4444_fields _ _ _ _ Ha3r (byte_nibble_range _ Hr)
               (byte_nibble_range _ Hg) (byte_nibble_range _ Hb)).
  - intros Hzero. rewrite Hzero.
    change (Z.shiftr 0 5) with 0. change (Z.shiftr 0 4) with 0. change (0 <? 255) with true.
    split; [reflexivity |]. split; [apply rgb5a3_scale_one |].
    cbn [mbind option_bind]. change (rgb5a3_a_factor 0 0) with (Some (f32_of_Z 1)).
    cbn [mbind option_bind].
    rewrite !rgb5a3_scale_one by done. cbn [mbind option_bind].
    f_equal.
    assert (H0 : 0 <= 0 < 16) by lia.
    pose proof (pack4444_fields _ _ _ _ H0 (byte_nibble_range _ Hr)
                  (byte_nibble_range _ Hg) (byte_nibble_range _ Hb)) as H.
    cbv zeta in H. destruct H as (_ & _ & _ & _ & _ & _ & -> & _).
    change (Z.shiftl 0 12) with 0. by rewrite Z.lor_0_l.
Qed.

(** ** Floating point: comparisons and the absence of NaN *)

Lemma SFcompare_antisym x y :
  SFcompare y x = CompOpp <$> SFcompare x y.
Proof.
  destruct x as [sx | sx | | sx mx ex], y as [sy | sy | | sy my ey]; simpl; try done;
    try (by destruct sx); try (by destruct sy); try (by destruct sx, sy).
  destruct sx, sy; simpl; try done; f_equal;
    rewrite (Z.compare_antisym ex ey); destruct (ex ?= ey); simpl; try done;
    rewrite ?Pos.compare_cont_antisym; simpl; by rewrite ?CompOpp_involutive.
Qed.

Lemma SFcompare_total x y :
  is_nan x = false -> is_nan y = false -> exists c, SFcompare x y = Some c.
Proof. destruct x, y; simpl; try done; eauto. Qed.

Lemma SFltb_false_SFleb x y :
  is_nan x = false -> is_nan y = false -> SFltb x y = false -> SFleb y x = true.
Proof.
  intros Hx Hy. unfold SFltb, SFleb. rewrite (SFcompare_antisym x y).
  destruct (SFcompare_total x y Hx Hy) as [c ->]. by destruct c.
Qed.

Lemma SFleb_not_nan_l x y : SFleb x y = true -> is_nan x = false.
Proof. by destruct x. Qed.

Lemma SFleb_not_nan_r x y : SFleb x y = true -> is_nan y = false.
Proof. by destruct x, y. Qed.

Lemma SFleb_refl x : is_nan x = false -> SFleb x x = true.
Proof.
  destruct x as [s | s | | s m e]; try done; unfold SFleb; simpl; try (by destruct s).
  intros _. destruct s; rewrite Z.compare_refl, Pos.compare_cont_refl; done.
Qed.

(** A clamp [x < lo ? lo : x] followed by [x > hi ? hi : x]. *)
Lemma clamp_in_range lo hi x :
  is_nan x = false -> SFleb lo hi = true ->
  let x1 := if SFltb x lo then lo else x in
  let x2 := if SFltb hi x1 then hi else x1 in
  SFleb lo x2 = true /\ SFleb x2 hi = true.
Proof.
  intros Hx Hlohi x1 x2.
  pose proof (SFleb_not_nan_l _ _ Hlohi) as Hlo.
  pose proof (SFleb_not_nan_r _ _ Hlohi) as Hhi.
  assert (Hx1 : SFleb lo x1 = true /\ is_nan x1 = false).
  { unfold x1. destruct (SFltb x lo) eqn:E.
    - split; [by apply SFleb_refl | done].
    - split; [by apply SFltb_false_SFleb | done]. }
  destruct Hx1 as [Hlo1 Hn1]. unfold x2.
  destruct (SFltb hi x1) eqn:E.
  - split; [done | by apply SFleb_refl].
  - split; [done | by apply SFltb_false_SFleb].
Qed.

Section NoNaN.
Variables prec emax : Z.

Lemma shr_1_nonneg mrs : 0 <= shr_m mrs -> 0 <= shr_m (shr_1 mrs).
Proof. destruct mrs as [[|[p|p|]|[p|p|]] r s]; simpl; lia. Qed.

Lemma iter_shr_1_nonneg p mrs :
  0 <= shr_m mrs -> 0 <= shr_m (SpecFloat.iter_pos shr_1 p mrs).
Proof.
  revert mrs. induction p as [p IH | p IH |]; intros mrs Hm; simpl.
  - apply IH, IH. by apply shr_1_nonneg.
  - by apply IH, IH.
  - by apply shr_1_nonneg.
Qed.

Lemma shr_fexp_nonneg m e l :
  0 <= m -> 0 <= shr_m (fst (shr_fexp prec emax m e l)).
Proof.
  intros Hm. unfold shr_fexp, shr.
  assert (0 <= shr_m (shr_record_of_loc m l)) by (by destruct l as [|[]]).
  destruct (fexp prec emax (Zdigits2 m + e) - e); simpl; try done.
  by apply iter_shr_1_nonneg.
Qed.

Lemma round_nearest_even_nonneg m l : 0 <= m -> 0 <= round_nearest_even m l.
Proof. intros. destruct l as [|[]]; simpl; try done; [destruct (Z.even m) |]; lia. Qed.

Lemma binary_round_aux_not_nan sx mx ex lx :
  0 <= mx -> is_nan (binary_round_aux prec emax sx mx ex lx) = false.
Proof.
  intros Hm. unfold binary_round_aux.
  pose proof (shr_fexp_nonneg mx ex lx Hm) as H1.
  destruct (shr_fexp prec emax mx ex lx) as [mrs' e'].
  pose proof (shr_fexp_nonneg
                (round_nearest_even (shr_m mrs') (loc_of_shr_record mrs')) e' loc_Exact
                (round_nearest_even_nonneg _ _ H1)) as H2.
  destruct (shr_fexp prec emax _ e' loc_Exact) as [mrs'' e''].
  simpl in H2. destruct (shr_m mrs''); [done | | lia].
  by destruct (e'' <=? emax - prec).
Qed.

Lemma binary_round_not_nan sx mx ex :
  is_nan (binary_round prec emax sx mx ex) = false.
Proof.
  unfold binary_round. destruct (shl_align _ _ _) as [mz ez].
  by apply binary_round_aux_not_nan.
Qed.

Lemma binary_normalize_not_nan m e szero :
  is_nan (binary_normalize prec emax m e szero) = false.
Proof. destruct m; simpl; [done | |]; apply binary_round_not_nan. Qed.

Lemma SFadd_not_nan x y :
  is_nan x = false -> is_finite y = true -> is_nan (SFadd prec emax x y) = false.
Proof.
  destruct x as [sx | sx | | sx mx ex], y as [sy | sy | | sy my ey]; simpl; try done.
  - by destruct sx, sy.
  - intros _ _. apply binary_normalize_not_nan.
Qed.

Lemma SFmul_not_nan x y :
  is_nan x = false -> is_finite y = true -> is_zero y = false ->
  is_nan (SFmul prec emax x y) = false.
Proof.
  destruct x as [sx | sx | | sx mx ex], y as [sy | sy | | sy my ey]; simpl; try done.
  intros _ _ _. by apply binary_round_aux_not_nan.
Qed.

End NoNaN.

(** ** The snow effect *)

Lemma iterate_inv_Some {S : Type} (Inv : nat -> S -> Prop)
    (body : Z -> S -> option S) step :
  forall n i s s',
    Inv O s ->
    (forall k s s1, (k < n)%nat -> Inv k s ->
       body (i + Z.of_nat k * step) s = Some s1 -> Inv (Datatypes.S k) s1) ->
    iterate n i step body s = Some s' -> Inv n s'.
Proof.
  induction n as [|n IH] in Inv |- *; intros i s s' H0 Hstep Hit; simpl in Hit.
  - by injection Hit as <-.
  - destruct (body i s) as [s1 |] eqn:Hb; [| done].
    apply (IH (fun k => Inv (Datatypes.S k)) (i + step) s1 s'); [| | done].
    + apply (Hstep O s s1); [lia | done |].
      by replace (i + Z.of_nat 0 * step) with i by lia.
    + intros k s2 s3 Hk Hinv Hb3.
      apply (Hstep (Datatypes.S k) s2 s3); [lia | done |].
      rewrite <- Hb3. f_equal. rewrite Nat2Z.inj_succ. ring.
Qed.

Lemma for_loop_count_1 start stop :
  Z.of_nat (trip_count start stop 1) = Z.max 0 (stop - start).
Proof. unfold trip_count. rewrite Z.div_1_r. lia. Qed.

(** The random step of a velocity component is finite. *)
Lemma snow_delta_finite r k :
  0 <= k <= 16 ->
  is_finite (f32_mul (f32_of_Z (Z.rem r 16 - k)) (f32_lit 1 100)) = true.
Proof.
  intros Hk.
  assert (Hall : all_below 48 (fun j =>
            is_finite (f32_mul (f32_of_Z (j - 31)) (f32_lit 1 100))) = true)
    by (vm_compute; reflexivity).
  pose proof (Z.rem_bound_abs r 16) as Hrem.
  assert (0 <= Z.rem r 16 - k + 31 < Z.of_nat 48) by lia.
  pose proof (all_below_spec _ _ Hall _ H) as Hf. cbv beta in Hf.
  by replace (Z.rem r 16 - k + 31 - 31) with (Z.rem r 16 - k) in Hf by lia.
Qed.

Lemma snow_update_speed_in_range particle r1 r2 :
  is_nan (rgui_particle.c particle) = false ->
  is_nan (rgui_particle.d particle) = false ->
  snow_speed_in_range (snow_update_speed particle r1 r2) = true.
Proof.
  intros Hc Hd. unfold snow_speed_in_range, snow_update_speed.
  cbn [rgui_particle.c rgui_particle.d].
  pose proof (SFadd_not_nan 24 128 _ _ Hc (snow_delta_finite r1 9 ltac:(lia))) as Hc'.
  pose proof (SFadd_not_nan 24 128 _ _ Hd (snow_delta_finite r2 7 ltac:(lia))) as Hd'.
  destruct (clamp_in_range (SFopp (f32_lit 4 10)) (f32_lit 1 10) _ Hc') as [Hc1 Hc2];
    [by vm_compute |].
  destruct (clamp_in_range (SFopp (f32_lit 1 10)) (f32_lit 4 10) _ Hd') as [Hd1 Hd2];
    [by vm_compute |].
  unfold f32_add in *.
  by rewrite Hc1, Hc2, Hd1, Hd2.
Qed.

Lemma snow_speed_in_range_not_nan particle :
  snow_speed_in_range particle = true ->
  is_nan (rgui_particle.c particle) = false /\
  is_nan (rgui_particle.d particle) = false.
Proof.
  unfold snow_speed_in_range. rewrite !andb_true_iff.
  intros [[[_ Hc] _] Hd]. split; by eapply SFleb_not_nan_l.
Qed.

(** Neither the location update nor the reset touches the velocity. *)
Lemma snow_particle_step_speed effect W H gsf color i particle r1 r2 data
    particle' data' on_screen :
  snow_particle_step effect W H gsf color i particle r1 r2 data
    = Some (particle', data', on_screen) ->
  rgui_particle.c particle' = rgui_particle.c (snow_update_speed particle r1 r2) /\
  rgui_particle.d particle' = rgui_particle.d (snow_update_speed particle r1 r2).
Proof.
  unfold snow_particle_step. intros Hstep.
  destruct (snow_update_speed particle r1 r2) as [a b c d]. simpl in *.
  apply bind_Some in Hstep as (x & _ & Hstep).
  apply bind_Some in Hstep as (y & _ & Hstep).
  apply bind_Some in Hstep as ([d1 o] & _ & Hstep).
  injection Hstep as <- _ _. by destruct o.
Qed.

(** One call of the snow case brings every velocity into range. *)
Lemma rgui_render_particle_effect_snow_speed effect W H gsf color ps data rnd
    ps' data' rnd' :
  (forall j p, (j < Z.to_nat RGUI_NUM_PARTICLES)%nat -> ps !! j = Some p ->
     is_nan (rgui_particle.c p) = false /\ is_nan (rgui_particle.d p) = false) ->
  rgui_render_particle_effect_snow effect W H gsf color (ps, data, rnd)
    = Some (ps', data', rnd') ->
  forall j p, (j < Z.to_nat RGUI_NUM_PARTICLES)%nat -> ps' !! j = Some p ->
    snow_speed_in_range p = true.
Proof.
  intros Hnan Hrender j p Hj Hp.
  unfold rgui_render_particle_effect_snow, for_loop in Hrender.
  pose proof (for_loop_count_1 0 RGUI_NUM_PARTICLES) as Hn.
  set (n := trip_count 0 RGUI_NUM_PARTICLES 1) in *.
  pose (Inv := fun (k : nat) (st : effect_state) =>
       forall j p, st.1.1 !! j = Some p ->
         ((j < k)%nat -> snow_speed_in_range p = true) /\
         ((k <= j)%nat -> ps !! j = Some p)).
  assert (Hfinal : Inv n (ps', data', rnd')); [eapply (iterate_inv_Some Inv); [| | exact Hrender] |].
  - intros j0 p0 Hp0. split; [lia | done].
  - intros k [[ps1 d1] g1] s1 Hk Hinv Hbody. simpl in Hinv.
    rewrite Z.mul_1_r, Z.add_0_l in Hbody. cbv beta iota in Hbody.
    rewrite !Nat2Z.id in Hbody.
    apply bind_Some in Hbody as (pk & Hpk & Hbody).
    apply bind_Some in Hbody as ([[pk' d2] o] & Hstep & Hbody).
    injection Hbody as <-. simpl.
    destruct (Hinv k pk Hpk) as [_ Hold]. specialize (Hold ltac:(lia)).
    destruct (Hnan k pk) as [Hc Hd]; [unfold RGUI_NUM_PARTICLES in *; lia | done |].
    apply snow_particle_step_speed in Hstep as [Hc' Hd'].
    intros j0 p0 Hp0. simpl in Hp0.
    destruct (decide (j0 = k)) as [-> | Hne].
    + rewrite list_lookup_insert_eq in Hp0 by (by eapply lookup_lt_Some).
      injection Hp0 as <-. split; [intros _ | lia].
      pose proof (snow_update_speed_in_range pk (Z.of_N (g1 O))
                    (Z.of_N (g1 (Datatypes.S O))) Hc Hd) as Hr.
      unfold snow_speed_in_range in *. by rewrite Hc', Hd'.
    + rewrite list_lookup_insert_ne in Hp0 by done.
      destruct (Hinv j0 p0 Hp0) as [Hlt Hge]. split; intros; [apply Hlt | apply Hge]; lia.
  - apply (Hfinal j p Hp). unfold RGUI_NUM_PARTICLES in *. lia.
Qed.

Lemma snow_init_speed_not_nan r k :
  is_nan (f32_mul (f32_of_Z (Z.rem r 64 - k)) (f32_lit 1 10)) = false.
Proof.
  apply SFmul_not_nan; [apply binary_normalize_not_nan | by vm_compute | by vm_compute].
Qed.

(** The velocities [rgui_init_particle_effect] draws are numbers. *)
Lemma rgui_init_particle_effect_snow_speed W H ps rnd ps' rnd' :
  rgui_init_particle_effect_snow W H (ps, rnd) = Some (ps', rnd') ->
  forall j p, (j < Z.to_nat RGUI_NUM_PARTICLES)%nat -> ps' !! j = Some p ->
    is_nan (rgui_particle.c p) = false /\ is_nan (rgui_particle.d p) = false.
Proof.
  intros Hinit j p Hj Hp.
  unfold rgui_init_particle_effect_snow, for_loop in Hinit.
  pose proof (for_loop_count_1 0 RGUI_NUM_PARTICLES) as Hn.
  set (n := trip_count 0 RGUI_NUM_PARTICLES 1) in *.
  pose (Inv := fun (k : nat) (st : list rgui_particle_t * rng) =>
       forall j p, (j < k)%nat -> st.1 !! j = Some p ->
         is_nan (rgui_particle.c p) = false /\ is_nan (rgui_particle.d p) = false).
  assert (Hfinal : Inv n (ps', rnd')); [eapply (iterate_inv_Some Inv); [| | exact Hinit] |].
  - intros j0 p0 Hj0. lia.
  - intros k [ps1 g1] s1 Hk Hinv Hbody. simpl in Hinv.
    rewrite Z.mul_1_r, Z.add_0_l in Hbody. cbv beta iota in Hbody.
    rewrite !Nat2Z.id in Hbody.
    apply bind_Some in Hbody as (pk & Hpk & Hbody).
    destruct ((W =? 0) || (H =? 0)); [done |].
    injection Hbody as <-. simpl.
    intros j0 p0 Hj0 Hp0. simpl in Hp0.
    destruct (decide (j0 = k)) as [-> | Hne].
    + rewrite list_lookup_insert_eq in Hp0 by (by eapply lookup_lt_Some).
      injection Hp0 as <-. simpl. split; apply snow_init_speed_not_nan.
    + rewrite list_lookup_insert_ne in Hp0 by done. apply (Hinv j0 p0); [lia | done].
  - apply (Hfinal j p); [| done]. unfold RGUI_NUM_PARTICLES in *. lia.
Qed.

(** C7: after initialisation and any number [n >= 1] of update steps of a
    snow effect, whatever values [rand()] returned, the velocity of every
    particle of the pool lies in [-0.4f, 0.1f] horizontally and in
    [-0.1f, 0.4f] vertically. *)
Theorem snow_velocity_clamped effect n particles :
  snow_pool effect (S n) particles ->
  forall i particle, 0 <= i < RGUI_NUM_PARTICLES ->
    particles !! Z.to_nat i = Some particle ->
    snow_speed_in_range particle = true.
Proof.
  intros Hpool.
  assert (Hgen : forall m ps, snow_pool effect m ps ->
            forall j p, (j < Z.to_nat RGUI_NUM_PARTICLES)%nat -> ps !! j = Some p ->
              is_nan (rgui_particle.c p) = false /\ is_nan (rgui_particle.d p) = false).
  { intros m ps Hm. induction Hm as [W H ps rnd ps' rnd' Hinit
                                    | m W H gsf color ps data rnd ps' data' rnd' Hm IH Hr].
    - by eapply rgui_init_particle_effect_snow_speed.
    - intros j p Hj Hp. apply snow_speed_in_range_not_nan.
      by eapply rgui_render_particle_effect_snow_speed. }
  inversion Hpool as [| m W H gsf color ps data rnd ps' data' rnd' Hm Hr]; subst.
  intros i p Hi Hp.
  eapply rgui_render_particle_effect_snow_speed; [by apply (Hgen n) | done | | done].
  unfold RGUI_NUM_PARTICLES in *. lia.
Qed.

Lemma snow_velocity_clamped_witness :
  exists particles,
    snow_pool RGUI_PARTICLE_EFFECT_SNOW 1 particles /\
    forall i particle, 0 <= i < RGUI_NUM_PARTICLES ->
      particles !! Z.to_nat i = Some particle ->
      snow_speed_in_range particle = true.
Proof.
  let r := eval vm_compute in
    (rgui_init_particle_effect_snow 16 12 (replicate 256 still_particle, zero_rng)) in
  lazymatch r with
  | Some (?ps, ?rnd) =>
    let r2 := eval vm_compute in
      (rgui_render_particle_effect_snow RGUI_PARTICLE_EFFECT_SNOW 16 12
         (f32_of_Z 1) 7 (ps, replicate 192 0, rnd)) in
    lazymatch r2 with
    | Some (?ps', ?d', ?rnd') =>
      exists ps';
      assert (Hpool : snow_pool RGUI_PARTICLE_EFFECT_SNOW 1 ps');
      [ apply (snow_pool_render RGUI_PARTICLE_EFFECT_SNOW 0 16 12 (f32_of_Z 1) 7
                 ps (replicate 192 0) rnd ps' d' rnd');
        [ apply (snow_pool_init RGUI_PARTICLE_EFFECT_SNOW 16 12
                   (replicate 256 still_particle) zero_rng ps rnd);
          vm_compute; reflexivity
        | vm_compute; reflexivity ]
      | split; [exact Hpool
               | exact (snow_velocity_clamped RGUI_PARTICLE_EFFECT_SNOW 0 ps' Hpool)] ]
    end
  end.
Defined.


(** Against C6 as stated: a pool as [rgui_init_particle_effect] leaves it
    (all particles at (0, 0) with velocity (0, 0)), one update step at the
    nominal frame time and speed (global speed factor 1.0) on a 256 x 192
    buffer, [rand()] returning 0: particle 0 ends at (-0.09f, -0.07f), which
    is drawn at pixel (0, 0) and so is not reset.  Its position is negative
    in both coordinates. *)
Lemma snow_position_negative :
  (fst <$> rgui_init_particle_effect_snow 256 192
             (replicate 256 still_particle, corner_rng))
    = Some (replicate 256 still_particle) /\
  global_speed_factor (f32_of_Z 1) particle_effect_period = f32_of_Z 1 /\
  SFltb (f32_of_Z 0) (f32_of_Z 1) = true /\
  (st ← rgui_render_particle_effect_snow RGUI_PARTICLE_EFFECT_SNOW 256 192
          (global_speed_factor (f32_of_Z 1) particle_effect_period) 7
          (replicate 256 still_particle, replicate (Z.to_nat (256 * 192)) 0, zero_rng);
   st.1.1 !! O)
    = Some (rgui_particle.mk (S754_finite true 12079595 (-27))
                             (S754_finite true 9395241 (-27))
                             (S754_finite true 12079595 (-27))
                             (S754_finite true 9395241 (-27))) /\
  SFltb (S754_finite true 12079595 (-27)) (f32_of_Z 0) = true /\
  SFltb (S754_finite true 9395241 (-27)) (f32_of_Z 0) = true /\
  SFleb (f32_of_Z 0) (S754_finite true 12079595 (-27)) = false.
Proof. vm_compute. done. Qed.

Lemma to_int_cases n :
  INT_MIN <= n <= UINT_MAX ->
  (n <= INT_MAX /\ to_int n = n) \/ (INT_MAX < n /\ to_int n = n - 2 ^ 32).
Proof.
  unfold to_int, wrap32, INT_MIN, INT_MAX, UINT_MAX. intros Hn.
  destruct (Z.ltb_spec (n mod 2 ^ 32) (2 ^ 31)); zmod.
Qed.

Lemma to_signed_range x v : to_signed x = Some v -> INT_MIN <= v <= INT_MAX.
Proof.
  unfold to_signed. intros H. apply bind_Some in H as (t & _ & H).
  destruct (Z.leb_spec INT_MIN t), (Z.leb_spec t INT_MAX); simpl in H; try done.
  injection H as <-. lia.
Qed.

(** The flag [rgui_draw_particle] returns, without any assumption on the
    sums [x + width] and [y + height]: a sum beyond [INT_MAX] wraps to a
    negative end, which is clamped to 0. *)
Lemma rgui_draw_particle_on_screen data W H x y width height color data' on_screen :
  0 < W -> 0 < H -> W + width <= INT_MAX -> H + height <= INT_MAX ->
  INT_MIN <= x <= INT_MAX -> INT_MIN <= y <= INT_MAX ->
  0 < width -> 0 < height ->
  rgui_draw_particle data W H x y width height color = Some (data', on_screen) ->
  on_screen = true <-> (- width < x < W /\ - height < y < H).
Proof.
  intros HW HH HWw HHh Hx Hy Hw Hh Hdraw.
  unfold rgui_draw_particle in Hdraw.
  apply bind_Some in Hdraw as (d & _ & Hdraw). injection Hdraw as _ <-.
  rewrite (to_int_small W), (to_int_small H) by (unfold INT_MIN, INT_MAX in *; lia).
  rewrite !clamp_min_max.
  rewrite andb_true_iff, !Z.gtb_ltb, !Z.ltb_lt.
  destruct (to_int_cases (x + width)) as [[? ->] | [? ->]];
    [unfold INT_MIN, INT_MAX, UINT_MAX in *; lia | |];
    (destruct (to_int_cases (y + height)) as [[? ->] | [? ->]];
     [unfold INT_MIN, INT_MAX, UINT_MAX in *; lia | |]);
    unfold INT_MIN, INT_MAX, UINT_MAX in *; split; intros; lia.
Qed.

Lemma snow_particle_size_range effect i : 0 < snow_particle_size effect i <= 3.
Proof.
  unfold snow_particle_size.
  destruct effect; try lia. destruct (_ =? 0); [lia |]. destruct (_ =? 7); lia.
Qed.

(** ** The rain effect *)

(** Two runs of a loop from related states stay related, and the second
    completes whenever the first does. *)
Lemma iterate_rel {S : Type} (R : S -> S -> Prop)
    (body : Z -> S -> option S) step :
  forall n i s t s',
    R s t ->
    (forall k s t s1, (k < n)%nat -> R s t ->
       body (i + Z.of_nat k * step) s = Some s1 ->
       exists t1, body (i + Z.of_nat k * step) t = Some t1 /\ R s1 t1) ->
    iterate n i step body s = Some s' ->
    exists t', iterate n i step body t = Some t' /\ R s' t'.
Proof.
  induction n as [|n IH]; intros i s t s' HR Hstep Hit; simpl in Hit |- *.
  - injection Hit as <-. by exists t.
  - destruct (body i s) as [s1 |] eqn:Hb; [| done].
    destruct (Hstep O s t s1) as (t1 & Ht1 & HR1); [lia | done | |].
    { by replace (i + Z.of_nat 0 * step) with i by lia. }
    replace (i + Z.of_nat 0 * step) with i in Ht1 by lia. rewrite Ht1.
    apply (IH (i + step) s1 t1 s'); [done | | done].
    intros k s2 t2 s3 Hk HR2 Hb3.
    replace (i + step + Z.of_nat k * step)
      with (i + Z.of_nat (Datatypes.S k) * step)
      in * by (rewrite Nat2Z.inj_succ; ring).
    apply (Hstep (Datatypes.S k) s2 t2 s3); [lia | done | done].
Qed.

Lemma to_unsigned_range x v : to_unsigned x = Some v -> 0 <= v <= UINT_MAX.
Proof.
  unfold to_unsigned. intros H. apply bind_Some in H as (u & _ & H).
  destruct ((0 <=? u) && (u <=? UINT_MAX)) eqn:Hr; [| done].
  injection H as <-. lia.
Qed.

Lemma rain_num_drops_range fb_width n :
  rain_num_drops fb_width = Some n -> 0 <= n <= RGUI_NUM_PARTICLES.
Proof.
  unfold rain_num_drops. intros H. apply bind_Some in H as (u & Hu & H).
  apply to_unsigned_range in Hu. injection H as <-.
  unfold RGUI_NUM_PARTICLES. destruct (u <? 256) eqn:E; lia.
Qed.

(** The single precision computation of the count agrees with the exact
    one on the widths up to 1023; from 502 on both give the cap. *)
Lemma rain_num_drops_small fb_width :
  0 <= fb_width < 1024 -> rain_num_drops fb_width = Some (spec_num_drops fb_width).
Proof.
  intros Hw.
  assert (Hall : all_below 1024 (fun w =>
            match rain_num_drops w with
            | Some n => n =? spec_num_drops w
            | None => false
            end) = true) by (vm_compute; reflexivity).
  pose proof (all_below_spec _ _ Hall fb_width) as H. cbv beta in H.
  destruct (rain_num_drops fb_width) as [n |] eqn:E.
  - f_equal. apply Z.eqb_eq. apply H. lia.
  - discriminate H. lia.
Qed.

(** The rain loop leaves the particles from index [num_drops] on alone. *)
Lemma rain_render_tail fb_width fb_height global_speed_factor particle_color
    particles data rnd particles' data' rnd' num_drops :
  rain_num_drops fb_width = Some num_drops ->
  rgui_render_particle_effect_rain fb_width fb_height global_speed_factor
    particle_color (particles, data, rnd) = Some (particles', data', rnd') ->
  forall i, num_drops <= i -> particles' !! Z.to_nat i = particles !! Z.to_nat i.
Proof.
  intros Hn Hrender i Hi.
  pose proof (rain_num_drops_range _ _ Hn) as Hrange.
  unfold rgui_render_particle_effect_rain in Hrender. rewrite Hn in Hrender.
  simpl in Hrender. unfold for_loop in Hrender.
  pose (Inv := fun (k : nat) (st : effect_state) =>
    st.1.1 !! Z.to_nat i = particles !! Z.to_nat i).
  assert (Hfinal : Inv (trip_count 0 num_drops 1) (particles', data', rnd')).
  { eapply (iterate_inv_Some Inv); [| | exact Hrender]; [done |].
    intros k [[ps d] g] [[ps1 d1] g1] Hk Hinv Hbody.
    assert (Hki : Z.to_nat i <> k).
    { pose proof (for_loop_count_1 0 num_drops). lia. }
    unfold Inv in *. simpl in Hinv |- *.
    replace (0 + Z.of_nat k * 1) with (Z.of_nat k) in Hbody by lia.
    rewrite Nat2Z.id in Hbody.
    apply bind_Some in Hbody as (p & Hp & Hbody). destruct p as [a b c d0].
    apply bind_Some in Hbody as (x & Hx & Hbody).
    apply bind_Some in Hbody as (y & Hy & Hbody).
    apply bind_Some in Hbody as (h & Hh & Hbody).
    apply bind_Some in Hbody as ([d2 on_screen] & Hdraw & Hbody).
    destruct on_screen.
    - injection Hbody as <- <- <-. by rewrite list_lookup_insert_ne.
    - simpl in Hbody.
      apply bind_Some in Hbody as (q & Hq & Hbody).
      injection Hbody as <- <- <-. by rewrite list_lookup_insert_ne. }
  exact Hfinal.
Qed.

Lemma agree_below_insert n particles others k p :
  agree_below n particles others -> 0 <= Z.of_nat k < n ->
  agree_below n (<[k := p]> particles) (<[k := p]> others).
Proof.
  intros Hag Hk i Hi.
  destruct (decide (k = Z.to_nat i)) as [-> | Hne].
  - pose proof (Hag i Hi) as Hsame.
    destruct (particles !! Z.to_nat i) as [q |] eqn:Hq.
    + rewrite !list_lookup_insert_eq; [done | |].
      * by apply lookup_lt_Some in Hq.
      * by apply lookup_lt_Some in Hsame.
    + rewrite !lookup_ge_None_2; [done | |]; rewrite length_insert.
      * by apply lookup_ge_None_1 in Hq.
      * by apply lookup_ge_None_1 in Hsame.
  - rewrite !list_lookup_insert_ne by done. by apply Hag.
Qed.

(** What the rain loop draws, the random values it consumes and the
    particles it produces below [num_drops] do not depend on the particles
    from index [num_drops] on. *)
Lemma rain_render_independent fb_width fb_height global_speed_factor
    particle_color particles data rnd particles' data' rnd' num_drops others :
  rain_num_drops fb_width = Some num_drops ->
  rgui_render_particle_effect_rain fb_width fb_height global_speed_factor
    particle_color (particles, data, rnd) = Some (particles', data', rnd') ->
  agree_below num_drops particles others ->
  exists others',
    rgui_render_particle_effect_rain fb_width fb_height global_speed_factor
      particle_color (others, data, rnd) = Some (others', data', rnd') /\
    agree_below num_drops particles' others'.
Proof.
  intros Hn Hrender Hag.
  pose proof (rain_num_drops_range _ _ Hn) as Hrange.
  unfold rgui_render_particle_effect_rain in Hrender |- *. rewrite Hn in *.
  simpl in Hrender |- *. unfold for_loop in *.
  pose (R := fun (s t : effect_state) =>
    agree_below num_drops s.1.1 t.1.1 /\ s.1.2 = t.1.2 /\ s.2 = t.2).
  edestruct (iterate_rel R) as ([[qs' e'] h'] & Hq & Hag' & Hd & Hg);
    [| | exact Hrender |].
  - instantiate (1 := (others, data, rnd)). by repeat split.
  - intros k [[ps d] g] [[qs e] h] [[ps1 d1] g1] Hk (Hag1 & Hd & Hg) Hbody.
    simpl in Hag1, Hd, Hg. subst e h.
    assert (Hkn : 0 <= Z.of_nat k < num_drops).
    { pose proof (for_loop_count_1 0 num_drops). lia. }
    replace (0 + Z.of_nat k * 1) with (Z.of_nat k) in * by lia.
    rewrite Nat2Z.id in *.
    pose proof (Hag1 (Z.of_nat k) Hkn) as Hsame. rewrite Nat2Z.id in Hsame.
    apply bind_Some in Hbody as (p & Hp & Hbody). rewrite Hsame, Hp. simpl.
    destruct p as [a b c d0].
    apply bind_Some in Hbody as (x & Hx & Hbody). rewrite Hx. simpl.
    apply bind_Some in Hbody as (y & Hy & Hbody). rewrite Hy. simpl.
    apply bind_Some in Hbody as (ht & Hh & Hbody). rewrite Hh. simpl.
    apply bind_Some in Hbody as ([d2 on_screen] & Hdraw & Hbody).
    rewrite Hdraw. simpl.
    destruct on_screen.
    + injection Hbody as <- <- <-. eexists. split; [done |].
      repeat split. simpl. by apply agree_below_insert.
    + simpl in Hbody.
      apply bind_Some in Hbody as (q & Hq & Hbody). rewrite Hq. simpl.
      injection Hbody as <- <- <-. eexists. split; [done |].
      repeat split. simpl. by apply agree_below_insert.
  - simpl in Hag', Hd, Hg. subst e' h'. by exists qs'.
Qed.

(** The rain case of the initialisation leaves the particles from index
    [num_drops] on alone. *)
Lemma rain_init_tail fb_width fb_height particles rnd particles' rnd' num_drops :
  rain_num_drops fb_width = Some num_drops ->
  rgui_init_particle_effect_rain fb_width fb_height (particles, rnd)
    = Some (particles', rnd') ->
  forall i, num_drops <= i -> particles' !! Z.to_nat i = particles !! Z.to_nat i.
Proof.
  intros Hn Hinit i Hi.
  pose proof (rain_num_drops_range _ _ Hn) as Hrange.
  unfold rgui_init_particle_effect_rain in Hinit. rewrite Hn in Hinit.
  simpl in Hinit. unfold for_loop in Hinit.
  pose (Inv := fun (k : nat) (st : list rgui_particle_t * rng) =>
    st.1 !! Z.to_nat i = particles !! Z.to_nat i).
  assert (Hfinal : Inv (trip_count 0 num_drops 1) (particles', rnd')).
  { eapply (iterate_inv_Some Inv); [| | exact Hinit]; [done |].
    intros k [ps g] [ps1 g1] Hk Hinv Hbody.
    assert (Hki : Z.to_nat i <> k).
    { pose proof (for_loop_count_1 0 num_drops). lia. }
    unfold Inv in *. simpl in Hinv |- *.
    replace (0 + Z.of_nat k * 1) with (Z.of_nat k) in Hbody by lia.
    rewrite Nat2Z.id in Hbody.
    apply bind_Some in Hbody as (p & Hp & Hbody). simpl in Hbody.
    destruct (fb_height =? 0); [done |].
    apply bind_Some in Hbody as (q & Hq & Hbody).
    injection Hbody as <- <-. by rewrite list_lookup_insert_ne. }
  exact Hfinal.
Qed.

(** ** Rounding to nearest

    What [binary_round_aux] returns on a positive mantissa of at least
    [prec] digits, away from the subnormal range and from overflow. *)

Section RoundToNearest.
Variables prec emax : Z.
Hypothesis Hprec : 0 < prec.

Lemma digits2_pos_bounds p :
  2 ^ (Z.pos (digits2_pos p) - 1) <= Z.pos p < 2 ^ Z.pos (digits2_pos p).
Proof.
  induction p as [p IH | p IH |]; simpl digits2_pos.
  - rewrite Pos2Z.inj_succ. change (Z.pos p~1) with (2 * Z.pos p + 1).
    replace (Z.succ (Z.pos (digits2_pos p)) - 1)
      with (Z.succ (Z.pos (digits2_pos p) - 1)) by lia.
    rewrite !Z.pow_succ_r by lia. lia.
  - rewrite Pos2Z.inj_succ. change (Z.pos p~0) with (2 * Z.pos p).
    replace (Z.succ (Z.pos (digits2_pos p)) - 1)
      with (Z.succ (Z.pos (digits2_pos p) - 1)) by lia.
    rewrite !Z.pow_succ_r by lia. lia.
  - simpl. lia.
Qed.

Lemma Zdigits2_unique m k :
  2 ^ (k - 1) <= m < 2 ^ k -> 0 < k -> Zdigits2 m = k.
Proof.
  intros Hm Hk.
  assert (0 < m) by (pose proof (Z.pow_pos_nonneg 2 (k - 1)); lia).
  destruct m as [| p |]; try lia. simpl.
  pose proof (digits2_pos_bounds p) as Hp.
  set (d := Z.pos (digits2_pos p)) in *.
  destruct (Z.lt_trichotomy d k) as [Hlt | [Heq | Hgt]]; [| done |].
  - assert (2 ^ d <= 2 ^ (k - 1)) by (apply Z.pow_le_mono_r; lia). lia.
  - assert (2 ^ k <= 2 ^ (d - 1)) by (apply Z.pow_le_mono_r; lia). lia.
Qed.

Lemma shr_1_m mrs : 0 <= shr_m mrs -> shr_m (shr_1 mrs) = shr_m mrs / 2.
Proof.
  destruct mrs as [[|[p|p|]|[p|p|]] r s]; simpl; intros Hm; try lia; try done.
  - change (Z.pos p~1) with (2 * Z.pos p + 1). zmod.
  - change (Z.pos p~0) with (2 * Z.pos p). zmod.
Qed.

Lemma iter_shr_1_m p mrs :
  0 <= shr_m mrs ->
  shr_m (SpecFloat.iter_pos shr_1 p mrs) = shr_m mrs / 2 ^ Z.pos p.
Proof.
  revert mrs. induction p as [p IH | p IH |]; intros mrs Hm; simpl SpecFloat.iter_pos.
  - rewrite IH, IH, shr_1_m; try done.
    + rewrite !Z.div_div by (try apply Z.pow_pos_nonneg; lia).
      f_equal. change (Z.pos p~1) with (2 * Z.pos p + 1).
      replace (2 * Z.pos p + 1) with (1 + Z.pos p + Z.pos p) by lia.
      rewrite !Z.pow_add_r by lia. simpl (2 ^ 1). ring.
    + by apply shr_1_nonneg.
    + by apply iter_shr_1_nonneg, shr_1_nonneg.
  - rewrite IH, IH; try done.
    + rewrite !Z.div_div by (try apply Z.pow_pos_nonneg; lia).
      f_equal. change (Z.pos p~0) with (2 * Z.pos p).
      replace (2 * Z.pos p) with (Z.pos p + Z.pos p) by lia.
      by rewrite !Z.pow_add_r by lia.
    + by apply iter_shr_1_nonneg.
  - by rewrite shr_1_m.
Qed.

Lemma shr_spec mrs e n :
  0 <= shr_m mrs -> 0 <= n ->
  shr_m (shr mrs e n).1 = shr_m mrs / 2 ^ n /\ (shr mrs e n).2 = e + n.
Proof.
  intros Hm Hn. destruct n as [| p | p]; simpl; [| | lia].
  - rewrite Z.div_1_r. split; [done | lia].
  - split; [| done]. by apply iter_shr_1_m.
Qed.

Lemma shr_m_of_loc m l : shr_m (shr_record_of_loc m l) = m.
Proof. by destruct l as [|[]]. Qed.

Lemma round_nearest_even_cases m l :
  round_nearest_even m l = m \/ round_nearest_even m l = m + 1.
Proof. destruct l as [|[]]; simpl; auto. destruct (Z.even m); auto. Qed.

(** Rounding a positive mantissa of at least [prec] digits, in the normal
    range and below the overflow threshold: the result is the mantissa
    with its low digits dropped, or the next one. *)
Lemma binary_round_aux_cases sx mx ex lx :
  let n := Zdigits2 mx - prec in
  let E := ex + n in
  0 < mx -> 0 <= n -> emin prec emax <= E -> E + 1 <= emax - prec ->
  exists m' e',
    binary_round_aux prec emax sx mx ex lx = S754_finite sx m' e' /\
    2 ^ (prec - 1) <= Z.pos m' < 2 ^ prec /\
    ((e' = E /\ (Z.pos m' = mx / 2 ^ n \/ Z.pos m' = mx / 2 ^ n + 1)) \/
     (e' = E + 1 /\ 2 * Z.pos m' = mx / 2 ^ n + 1)) /\
    2 ^ (prec - 1) <= mx / 2 ^ n < 2 ^ prec.
Proof.
  intros n E Hmx Hn Hmin Hmax.
  assert (Hd : 2 ^ (Zdigits2 mx - 1) <= mx < 2 ^ Zdigits2 mx).
  { destruct mx as [| p |]; try lia. apply digits2_pos_bounds. }
  set (d := Zdigits2 mx) in *.
  set (M := mx / 2 ^ n).
  assert (H2n : 0 < 2 ^ n) by (apply Z.pow_pos_nonneg; lia).
  assert (HM : 2 ^ (prec - 1) <= M < 2 ^ prec).
  { unfold M. split.
    - apply Z.div_le_lower_bound; [done |].
      rewrite <- Z.pow_add_r by lia. replace (n + (prec - 1)) with (d - 1) by lia. lia.
    - apply Z.div_lt_upper_bound; [done |].
      rewrite <- Z.pow_add_r by lia. replace (n + prec) with d by lia. lia. }
  assert (Hfexp : forall m e, fexp prec emax (m + e) - e = Z.max (m - prec) (emin prec emax - e)).
  { intros m e. unfold fexp. lia. }
  unfold binary_round_aux, shr_fexp. fold d.
  rewrite Hfexp. replace (Z.max (d - prec) (emin prec emax - ex)) with n by lia.
  destruct (shr_spec (shr_record_of_loc mx lx) ex n) as [Hm1 He1];
    [rewrite shr_m_of_loc; lia | done |].
  rewrite shr_m_of_loc in Hm1. fold M in Hm1.
  destruct (shr (shr_record_of_loc mx lx) ex n) as [mrs1 e1].
  simpl in Hm1, He1. fold E in He1. subst e1. rewrite Hm1.
  set (m2 := round_nearest_even M (loc_of_shr_record mrs1)).
  assert (Hm2 : m2 = M \/ m2 = M + 1) by apply round_nearest_even_cases.
  rewrite Hfexp.
  destruct (Z_lt_dec m2 (2 ^ prec)) as [Hlt | Hge].
  - rewrite (Zdigits2_unique m2 prec) by lia.
    replace (Z.max (prec - prec) (emin prec emax - E)) with 0 by lia.
    simpl. rewrite ?shr_m_of_loc.
    destruct m2 as [| p |] eqn:Ep; try lia.
    replace (E <=? emax - prec) with true by lia.
    exists p, E. split; [done |]. split; [lia |]. split; [| exact HM]. left. split; [done | lia].
  - assert (Heq : m2 = 2 ^ prec) by lia.
    rewrite (Zdigits2_unique m2 (prec + 1)).
    2:{ rewrite Heq. replace (prec + 1 - 1) with prec by lia.
        rewrite Z.pow_add_r by lia. simpl (2 ^ 1). lia. }
    2:{ lia. }
    replace (Z.max (prec + 1 - prec) (emin prec emax - E)) with 1 by lia.
    cbn [shr fst snd SpecFloat.iter_pos].
    rewrite shr_1_m by (rewrite shr_m_of_loc; lia).
    rewrite shr_m_of_loc.
    assert (Hhalf : m2 / 2 = 2 ^ (prec - 1)).
    { rewrite Heq. replace prec with (1 + (prec - 1)) at 1 by lia.
      rewrite Z.pow_add_r by lia. simpl (2 ^ 1).
      rewrite Z.mul_comm. apply Z.div_mul. lia. }
    rewrite Hhalf.
    assert (Hpos : 0 < 2 ^ (prec - 1)) by (apply Z.pow_pos_nonneg; lia).
    destruct (2 ^ (prec - 1)) as [| p |] eqn:Ep; try lia.
    replace (E + 1 <=? emax - prec) with true by lia.
    exists p, (E + 1). split; [done |].
    assert (H2p : 2 ^ prec = 2 * Z.pos p).
    { rewrite <- Ep. replace prec with (1 + (prec - 1)) at 1 by lia.
      by rewrite Z.pow_add_r by lia. }
    split; [lia |]. split; [| exact HM]. right. split; [done |]. lia.
Qed.

End RoundToNearest.

(** ** Error bounds of the binary32 operations

    The values of positive normal binary32 numbers as rationals, and the
    relative error [eps] of a conversion, a product and a quotient. *)

Lemma Qpow2_pos e : (0 < 2 ^ e)%Q.
Proof. by apply Qpower_0_lt. Qed.

Lemma Qval_pos m e : 0 < m -> (0 < Qval m e)%Q.
Proof.
  intros Hm. unfold Qval. apply Qmult_lt_0_compat; [| apply Qpow2_pos].
  change 0%Q with (inject_Z 0). by rewrite <- Zlt_Qlt.
Qed.

Lemma Qval_le m m' e : m <= m' -> (Qval m e <= Qval m' e)%Q.
Proof.
  intros Hm. unfold Qval. apply Qmult_le_compat_r.
  - by rewrite <- Zle_Qle.
  - apply Qlt_le_weak, Qpow2_pos.
Qed.

Lemma Qval_shift m e k : 0 <= k -> (Qval m (e + k) == Qval (m * 2 ^ k) e)%Q.
Proof.
  intros Hk. unfold Qval. rewrite Qpower_plus by done.
  rewrite inject_Z_mult, Zpower_Qpower by done.
  change (inject_Z 2) with 2%Q.
  generalize (2 ^ e)%Q (2 ^ k)%Q (inject_Z m). intros a b c. ring.
Qed.

Lemma Qval_mul a e b f : (Qval a e * Qval b f == Qval (a * b) (e + f))%Q.
Proof.
  unfold Qval. rewrite Qpower_plus by done. rewrite inject_Z_mult.
  generalize (2 ^ e)%Q (2 ^ f)%Q (inject_Z a) (inject_Z b). intros p q c d. ring.
Qed.

Lemma Qval_succ m e : (Qval (m + 1) e == Qval m e + Qval 1 e)%Q.
Proof.
  unfold Qval. rewrite inject_Z_plus. generalize (2 ^ e)%Q (inject_Z m).
  intros p c. change (inject_Z 1) with 1%Q. ring.
Qed.

(** Rounding to binary32 moves a value by at most [eps] of itself. *)
Lemma round32_rel mx ex lx (v : Q) :
  let n := Zdigits2 mx - 24 in
  let E := ex + n in
  0 < mx -> 0 <= n -> -149 <= E -> E + 1 <= 104 ->
  (Qval (mx / 2 ^ n) E <= v <= Qval (mx / 2 ^ n + 1) E)%Q ->
  exists m' e',
    binary_round_aux 24 128 false mx ex lx = S754_finite false m' e' /\
    2 ^ 23 <= Z.pos m' < 2 ^ 24 /\ E <= e' <= E + 1 /\
    (v * (1 - eps) <= Qval (Z.pos m') e' <= v * (1 + eps))%Q.
Proof.
  intros n E Hmx Hn Hlo Hhi Hv.
  destruct (binary_round_aux_cases 24 128 ltac:(lia) false mx ex lx)
    as (m' & e' & Hr & Hm' & Hcases & HM); try done.
  exists m', e'. split; [done |]. split; [done |].
  fold n E in Hcases, HM.
  set (M := mx / 2 ^ n) in *.
  assert (HvalM : (Qval (Z.pos m') e' == Qval M E \/
                   Qval (Z.pos m') e' == Qval (M + 1) E)%Q).
  { destruct Hcases as [[-> [-> | ->]] | [-> H2]]; [by left | by right |].
    right. rewrite Qval_shift by lia. rewrite <- H2.
    by replace (Z.pos m' * 2 ^ 1) with (2 * Z.pos m') by lia. }
  simpl (24 - 1) in HM.
  split; [destruct Hcases as [[-> _] | [-> _]]; lia |].
  pose proof (Qval_le _ _ E (proj1 HM)) as Hbig.
  pose proof (Qval_shift 1 E 23 ltac:(lia)) as Hsh.
  replace (1 * 2 ^ 23) with (2 ^ 23) in Hsh by lia.
  assert (Hu : (Qval 1 (E + 23) == 8388608 * Qval 1 E)%Q).
  { unfold Qval. rewrite Qpower_plus by done.
    change ((2 ^ 23)%Q) with (8388608%Q). generalize (2 ^ E)%Q. intros p.
    change (inject_Z 1) with 1%Q. ring. }
  pose proof (Qval_succ M E) as Hs.
  pose proof (Qval_pos 1 E ltac:(lia)) as Hpos.
  unfold eps.
  change (24 - 1) with 23 in Hbig.
  destruct HvalM as [H | H]; lra.
Qed.

Lemma Qval_floor P e n :
  0 <= n ->
  (Qval (P / 2 ^ n) (e + n) <= Qval P e /\
   Qval (P + 1) e <= Qval (P / 2 ^ n + 1) (e + n))%Q.
Proof.
  intros Hn. rewrite !Qval_shift by done.
  assert (0 < 2 ^ n) by (apply Z.pow_pos_nonneg; lia).
  pose proof (Z.div_mod P (2 ^ n) ltac:(lia)).
  pose proof (Z.mod_pos_bound P (2 ^ n) ltac:(lia)).
  split; apply Qval_le; nia.
Qed.

Lemma pos32_digits m : 2 ^ 23 <= Z.pos m < 2 ^ 24 -> Zdigits2 (Z.pos m) = 24.
Proof. intros Hm. by apply Zdigits2_unique. Qed.

Lemma pos32_weaken x a b l u a' b' l' u' :
  pos32 x a b l u -> a' <= a -> b <= b' -> (l' <= l)%Q -> (u <= u')%Q ->
  pos32 x a' b' l' u'.
Proof.
  intros (m & e & -> & Hm & He & Hv) Ha Hb Hl Hu.
  exists m, e. repeat split; try done; try lia; lra.
Qed.

(** The product of two positive normal values. *)
Lemma f32_mul_pos32 x y a b l u a' b' l' u' :
  pos32 x a b l u -> pos32 y a' b' l' u' ->
  -149 <= a + a' + 23 -> b + b' + 25 <= 104 -> (0 <= l)%Q -> (0 <= l')%Q ->
  pos32 (f32_mul x y) (a + a' + 23) (b + b' + 25)
    (l * l' * (1 - eps)) (u * u' * (1 + eps)).
Proof.
  intros (mx & ex & -> & Hmx & Hex & Hvx) (my & ey & -> & Hmy & Hey & Hvy)
    Hlo Hhi Hl Hl'.
  unfold f32_mul, SFmul. simpl xorb.
  set (P := Z.pos (mx * my)).
  assert (HP : 2 ^ 46 <= P < 2 ^ 48).
  { unfold P. rewrite Pos2Z.inj_mul.
    change (2 ^ 46) with (2 ^ 23 * 2 ^ 23). change (2 ^ 48) with (2 ^ 24 * 2 ^ 24).
    split; [apply Z.mul_le_mono_nonneg | apply Z.mul_lt_mono_nonneg]; lia. }
  assert (Hd : exists n, Zdigits2 P - 24 = n /\ 23 <= n <= 24).
  { destruct (Z_lt_dec P (2 ^ 47)).
    - exists 23. rewrite (Zdigits2_unique P 47); [lia | | lia].
      change (47 - 1) with 46. lia.
    - exists 24. rewrite (Zdigits2_unique P 48); [lia | | lia].
      change (48 - 1) with 47. lia. }
  destruct Hd as (n & Hn & Hrange).
  pose proof (round32_rel P (ex + ey) loc_Exact (Qval P (ex + ey))) as Hr.
  cbv zeta in Hr. rewrite Hn in Hr.
  destruct Hr as (m' & e' & -> & Hm' & He' & Hv');
    [lia | lia | lia | lia | |].
  { pose proof (Qval_floor P (ex + ey) n ltac:(lia)) as [Hf1 Hf2].
    pose proof (Qval_le P (P + 1) (ex + ey) ltac:(lia)). split; lra. }
  exists m', e'. repeat split; try done; try lia.
  - pose proof (Qval_mul (Z.pos mx) ex (Z.pos my) ey) as Hmul.
    change (Z.pos mx * Z.pos my) with P in Hmul. unfold eps in *.
    assert (l * l' <= Qval (Z.pos mx) ex * Qval (Z.pos my) ey)%Q by nra.
    nra.
  - pose proof (Qval_mul (Z.pos mx) ex (Z.pos my) ey) as Hmul.
    change (Z.pos mx * Z.pos my) with P in Hmul. unfold eps in *.
    pose proof (Qval_pos (Z.pos mx) ex ltac:(lia)).
    pose proof (Qval_pos (Z.pos my) ey ltac:(lia)).
    assert (Qval (Z.pos mx) ex * Qval (Z.pos my) ey <= u * u')%Q by nra.
    nra.
Qed.

(** The quotient of a positive normal value by one of known value. *)
Lemma f32_div_pos32 x y a b l u a' b' (c : Q) :
  pos32 x a b l u -> pos32 y a' b' c c ->
  -149 <= a - b' - 24 -> b - a' - 22 <= 104 -> (0 <= l)%Q -> (0 < c)%Q ->
  pos32 (f32_div x y) (a - b' - 24) (b - a' - 22)
    (l / c * (1 - eps)) (u / c * (1 + eps)).
Proof.
  intros (mx & ex & -> & Hmx & Hex & Hvx) (my & ey & -> & Hmy & Hey & Hvy)
    Hlo Hhi Hl Hc.
  unfold f32_div, SFdiv, SFdiv_core_binary. simpl xorb.
  rewrite !pos32_digits by done.
  replace (Z.min (fexp 24 128 (24 + ex - (24 + ey))) (ex - ey))
    with (ex - ey - 24) by (unfold fexp, emin; lia).
  replace (ex - ey - (ex - ey - 24)) with 24 by lia.
  cbv iota. rewrite Z.shiftl_mul_pow2 by lia.
  set (N := Z.pos mx * 2 ^ 24).
  pose proof (Z.div_mod N (Z.pos my) ltac:(lia)) as Hdm.
  pose proof (Z.mod_pos_bound N (Z.pos my) ltac:(lia)) as Hmod.
  unfold Z.div, Z.modulo in Hdm, Hmod.
  destruct (Z.div_eucl N (Z.pos my)) as [q r].
  assert (Hq : 2 ^ 23 <= q < 2 ^ 25).
  { unfold N in Hdm. change (2 ^ 25) with (2 * 2 ^ 24).
    change (2 ^ 24) with (2 * 2 ^ 23) in *. nia. }
  assert (Hd : exists n, Zdigits2 q - 24 = n /\ 0 <= n <= 1).
  { destruct (Z_lt_dec q (2 ^ 24)).
    - exists 0. rewrite (Zdigits2_unique q 24); [lia | | lia].
      change (24 - 1) with 23. lia.
    - exists 1. rewrite (Zdigits2_unique q 25); [lia | | lia].
      change (25 - 1) with 24. lia. }
  destruct Hd as (n & Hn & Hrange).
  set (vx := Qval (Z.pos mx) ex) in *. set (vy := Qval (Z.pos my) ey) in *.
  assert (Hvy0 : (0 < vy)%Q) by (apply Qval_pos; lia).
  pose proof (round32_rel q (ex - ey - 24) (new_location (Z.pos my) r)
                (vx / vy)) as Hr.
  cbv zeta in Hr. rewrite Hn in Hr.
  destruct Hr as (m' & e' & -> & Hm' & He' & Hv'); [lia | lia | lia | lia | |].
  { pose proof (Qval_floor q (ex - ey - 24) n ltac:(lia)) as [Hf1 Hf2].
    assert (Hx : (vx == Qval N (ex - 24))%Q).
    { unfold vx, N. rewrite <- Qval_shift by lia.
      by replace (ex - 24 + 24) with ex by lia. }
    assert (Hq1 : (Qval q (ex - ey - 24) <= vx / vy)%Q).
    { apply Qle_shift_div_l; [done |]. unfold vy. rewrite Hx, Qval_mul.
      replace (ex - ey - 24 + ey) with (ex - 24) by lia.
      apply Qval_le. nia. }
    assert (Hq2 : (vx / vy <= Qval (q + 1) (ex - ey - 24))%Q).
    { apply Qle_shift_div_r; [done |]. unfold vy. rewrite Hx, Qval_mul.
      replace (ex - ey - 24 + ey) with (ex - 24) by lia.
      apply Qval_le. nia. }
    split; lra. }
  exists m', e'. repeat split; try done; try lia.
  - assert (Hcy : (vy == c)%Q) by (apply Qle_antisym; lra).
    assert (l / c <= vx / vy)%Q.
    { rewrite Hcy. unfold Qdiv. apply Qmult_le_compat_r; [lra |].
      apply Qinv_le_0_compat. lra. }
    unfold eps in *. nra.
  - assert (Hcy : (vy == c)%Q) by (apply Qle_antisym; lra).
    assert (vx / vy <= u / c)%Q.
    { rewrite Hcy. unfold Qdiv. apply Qmult_le_compat_r; [lra |].
      apply Qinv_le_0_compat. lra. }
    assert (0 <= vx / vy)%Q.
    { apply Qle_shift_div_l; [done |].
      pose proof (Qval_pos (Z.pos mx) ex ltac:(lia)) as Hvx0.
      fold vx in Hvx0. lra. }
    unfold eps in *. nra.
Qed.

Lemma iter_xO_pow m d : Z.pos (Pos.iter xO m d) = Z.pos m * 2 ^ Z.pos d.
Proof.
  induction d as [| d IH] using Pos.peano_ind.
  - simpl. lia.
  - rewrite Pos.iter_succ, Pos2Z.inj_succ, Z.pow_succ_r by lia.
    change (Z.pos (Pos.iter xO m d)~0) with (2 * Z.pos (Pos.iter xO m d)).
    rewrite IH. ring.
Qed.

(** The conversion of a positive [unsigned] value. *)
Lemma f32_of_Z_pos32 w :
  0 < w < 2 ^ 32 ->
  pos32 (f32_of_Z w) (-23) 9
    (inject_Z w * (1 - eps)) (inject_Z w * (1 + eps)).
Proof.
  intros Hw. destruct w as [| p |]; try lia.
  unfold f32_of_Z, binary_normalize, binary_round, shl_align.
  pose proof (digits2_pos_bounds p) as Hd.
  set (d := Z.pos (digits2_pos p)) in *.
  assert (Hd32 : 1 <= d <= 32).
  { split; [lia |].
    destruct (Z_le_gt_dec d 32) as [Hle | Hgt]; [done |].
    assert (2 ^ 32 <= 2 ^ (d - 1)) by (apply Z.pow_le_mono_r; lia). lia. }
  replace (fexp 24 128 (d + 0)) with (d - 24) by (unfold fexp, emin; lia).
  assert (Hw0 : (inject_Z (Z.pos p) == Qval (Z.pos p) 0)%Q).
  { unfold Qval. change (2 ^ 0)%Q with 1%Q. ring. }
  destruct (d - 24 - 0) as [| k | k] eqn:Hk.
  - pose proof (round32_rel (Z.pos p) 0 loc_Exact (Qval (Z.pos p) 0)) as Hr.
    cbv zeta in Hr. change (Zdigits2 (Z.pos p)) with d in Hr.
    replace (d - 24) with 0 in Hr by lia.
    destruct Hr as (m' & e' & -> & Hm' & He' & Hv'); [lia | lia | lia | lia | |].
    { pose proof (Qval_floor (Z.pos p) 0 0 ltac:(lia)) as [Hf1 Hf2].
      pose proof (Qval_le (Z.pos p) (Z.pos p + 1) 0 ltac:(lia)). split; lra. }
    unfold eps in *. exists m', e'. repeat split; try done; try lia; lra.
  - pose proof (round32_rel (Z.pos p) 0 loc_Exact (Qval (Z.pos p) 0)) as Hr.
    cbv zeta in Hr. change (Zdigits2 (Z.pos p)) with d in Hr.
    destruct Hr as (m' & e' & -> & Hm' & He' & Hv'); [lia | lia | lia | lia | |].
    { pose proof (Qval_floor (Z.pos p) 0 (d - 24) ltac:(lia)) as [Hf1 Hf2].
      pose proof (Qval_le (Z.pos p) (Z.pos p + 1) 0 ltac:(lia)). split; lra. }
    unfold eps in *. exists m', e'. repeat split; try done; try lia; lra.
  - set (mz := Pos.iter xO p k).
    assert (Hmz : Z.pos mz = Z.pos p * 2 ^ (24 - d)).
    { unfold mz. rewrite iter_xO_pow. f_equal. f_equal. lia. }
    assert (Hmz24 : 2 ^ 23 <= Z.pos mz < 2 ^ 24).
    { rewrite Hmz.
      replace (2 ^ 23) with (2 ^ (d - 1) * 2 ^ (24 - d))
        by (rewrite <- Z.pow_add_r by lia; f_equal; lia).
      replace (2 ^ 24) with (2 ^ d * 2 ^ (24 - d))
        by (rewrite <- Z.pow_add_r by lia; f_equal; lia).
      assert (0 < 2 ^ (24 - d)) by (apply Z.pow_pos_nonneg; lia). nia. }
    pose proof (round32_rel (Z.pos mz) (d - 24) loc_Exact (Qval (Z.pos p) 0)) as Hr.
    cbv zeta in Hr. rewrite (pos32_digits mz Hmz24) in Hr.
    change (24 - 24) with 0 in Hr. rewrite Z.add_0_r in Hr.
    destruct Hr as (m' & e' & -> & Hm' & He' & Hv'); [lia | lia | lia | lia | |].
    { assert (Hsame : (Qval (Z.pos p) 0 == Qval (Z.pos mz) (d - 24))%Q).
      { rewrite Hmz, <- Qval_shift by lia. by replace (d - 24 + (24 - d)) with 0 by lia. }
      change (2 ^ 0) with 1. rewrite Z.div_1_r.
      pose proof (Qval_le (Z.pos mz) (Z.pos mz + 1) (d - 24) ltac:(lia)).
      split; lra. }
    unfold eps in *. exists m', e'. repeat split; try done; try lia; lra.
Qed.

(** The integral part of a positive value. *)
Lemma SFtrunc_pos32 x a b l u :
  pos32 x a b l u ->
  exists v, SFtrunc x = Some v /\ (inject_Z v <= u)%Q /\ (l < inject_Z v + 1)%Q.
Proof.
  intros (m & e & -> & Hm & He & Hv). simpl. eexists. split; [done |].
  destruct (Z_le_gt_dec 0 e) as [Hge | Hlt].
  - rewrite Z.shiftl_mul_pow2 by done.
    pose proof (Qval_shift (Z.pos m) 0 e Hge) as Hs. rewrite Z.add_0_l in Hs.
    assert (Hi : forall k, (inject_Z k == Qval k 0)%Q).
    { intros k. unfold Qval. change (2 ^ 0)%Q with 1%Q. ring. }
    rewrite Hi. split; lra.
  - rewrite Z.shiftl_div_pow2 by lia.
    pose proof (Qval_floor (Z.pos m) e (- e) ltac:(lia)) as [Hf1 Hf2].
    replace (e + - e) with 0 in * by lia.
    assert (Hi : forall k, (inject_Z k == Qval k 0)%Q).
    { intros k. unfold Qval. change (2 ^ 0)%Q with 1%Q. ring. }
    pose proof (Qval_succ (Z.pos m / 2 ^ (- e)) 0) as Hs1.
    pose proof (Qval_succ (Z.pos m) e) as Hs2.
    pose proof (Qval_pos 1 e ltac:(lia)) as Hp.
    pose proof (Hi 1) as H1. change (inject_Z 1) with 1%Q in H1.
    rewrite Hi. split; lra.
Qed.

(** ** The number of rain drops *)

(** From a width of 1024 on the single precision product is at least 256
    and its conversion to [unsigned] is defined, up to the largest width. *)
Lemma rain_num_drops_large fb_width :
  1024 <= fb_width <= UINT_MAX -> rain_num_drops fb_width = Some RGUI_NUM_PARTICLES.
Proof.
  intros Hw. unfold UINT_MAX in Hw.
  pose proof (f32_of_Z_pos32 fb_width ltac:(lia)) as H1.
  apply (pos32_weaken _ _ _ _ _ (-23) 9
           (1024 * (1 - eps)) (4294967295 * (1 + eps))) in H1; try lia.
  2:{ assert (inject_Z 1024 <= inject_Z fb_width)%Q by (rewrite <- Zle_Qle; lia).
      change (inject_Z 1024) with 1024%Q in *. unfold eps. lra. }
  2:{ assert (inject_Z fb_width <= inject_Z 4294967295)%Q by (rewrite <- Zle_Qle; lia).
      change (inject_Z 4294967295) with 4294967295%Q in *. unfold eps. lra. }
  assert (H426 : pos32 (f32_of_Z RGUI_MAX_FB_WIDTH) (-15) (-15) 426 426).
  { exists 13959168%positive, (-15). repeat split; try done;
      by apply Qle_bool_imp_le. }
  assert (H085 : pos32 (f32_lit 85 100) (-24) (-24)
                   (14260634 # 16777216) (14260634 # 16777216)).
  { exists 14260634%positive, (-24). repeat split; try done;
      by apply Qle_bool_imp_le. }
  assert (H256 : pos32 (f32_of_Z RGUI_NUM_PARTICLES) (-15) (-15) 256 256).
  { exists 8388608%positive, (-15). repeat split; try done;
      by apply Qle_bool_imp_le. }
  pose proof (f32_div_pos32 _ _ _ _ _ _ _ _ _ H1 H426) as H2.
  specialize (H2 ltac:(lia) ltac:(lia)
                 ltac:(by apply Qle_bool_imp_le) ltac:(done)).
  pose proof (f32_mul_pos32 _ _ _ _ _ _ _ _ _ _ H085 H2) as H3.
  specialize (H3 ltac:(lia) ltac:(lia)
                 ltac:(by apply Qle_bool_imp_le) ltac:(by apply Qle_bool_imp_le)).
  pose proof (f32_mul_pos32 _ _ _ _ _ _ _ _ _ _ H3 H256) as H4.
  specialize (H4 ltac:(lia) ltac:(lia)
                 ltac:(by apply Qle_bool_imp_le) ltac:(by apply Qle_bool_imp_le)).
  apply (pos32_weaken _ _ _ _ _ (-25) 13 256 4294967295) in H4;
    [| lia | lia | by apply Qle_bool_imp_le | by apply Qle_bool_imp_le].
  destruct (SFtrunc_pos32 _ _ _ _ _ H4) as (v & Hv & Hhi & Hlo).
  unfold rain_num_drops, to_unsigned. rewrite Hv. simpl.
  change 4294967295%Q with (inject_Z 4294967295) in Hhi.
  rewrite <- Zle_Qle in Hhi.
  assert (Hlo' : (inject_Z 256 < inject_Z (v + 1))%Q).
  { rewrite inject_Z_plus. exact Hlo. }
  rewrite <- Zlt_Qlt in Hlo'.
  replace ((0 <=? v) && (v <=? UINT_MAX)) with true by (unfold UINT_MAX; lia).
  simpl. unfold RGUI_NUM_PARTICLES.
  by replace (v <? 256) with false by lia.
Qed.

(** The number of active drops is the one of the exact computation, for
    every width. *)
Lemma rain_num_drops_spec fb_width :
  0 <= fb_width <= UINT_MAX ->
  rain_num_drops fb_width = Some (spec_num_drops fb_width).
Proof.
  intros Hw. destruct (Z_lt_dec fb_width 1024) as [Hlt | Hge].
  - apply rain_num_drops_small. lia.
  - rewrite rain_num_drops_large by lia. f_equal.
    unfold spec_num_drops, RGUI_NUM_PARTICLES, RGUI_MAX_FB_WIDTH.
    assert (256 <= 85 * fb_width * 256 / (100 * 426)).
    { apply Z.div_le_lower_bound; lia. }
    lia.
Qed.

(** ** Border, background and cursor *)

Lemma painted_frame_buf_ok W H d d' P f :
  frame_buf_ok d W H -> painted W H d d' P f -> frame_buf_ok d' W H.
Proof. intros Hok [Hl _]. by eapply frame_buf_ok_length. Qed.

Lemma in_rect_spec x y width height row col :
  in_rect x y width height row col = true <->
  x <= col < x + width /\ y <= row < y + height.
Proof.
  unfold in_rect.
  destruct (Z.leb_spec x col), (Z.ltb_spec col (x + width)), (Z.leb_spec y row),
    (Z.ltb_spec row (y + height)); simpl; split; intros; try done; lia.
Qed.

Lemma in_rect_eq x y w h x' y' w' h' row col :
  (x <= col < x + w /\ y <= row < y + h <->
   x' <= col < x' + w' /\ y' <= row < y' + h') ->
  in_rect x y w h row col = in_rect x' y' w' h' row col.
Proof.
  intros Hiff. apply eq_true_iff_eq. by rewrite !in_rect_spec.
Qed.

Lemma in_rect_false x y width height row col :
  ~ (x <= col < x + width /\ y <= row < y + height) ->
  in_rect x y width height row col = false.
Proof.
  intros Hout. destruct (in_rect x y width height row col) eqn:E; [| done].
  by apply in_rect_spec in E.
Qed.

(** [rgui_render_border] on a buffer of at least 10 x 10 texels: every
    access is in bounds, the bars get the dither pattern of the border
    colours and the shadow its colour on top of them. *)
Lemma rgui_render_border_painted rgui data fb_width fb_height :
  frame_buf_ok data fb_width fb_height ->
  10 <= fb_width <= RGUI_MAX_FB_WIDTH -> 10 <= fb_height ->
  exists data',
    rgui_render_border rgui data fb_width fb_height = Some data' /\
    painted fb_width fb_height data data'
      (border_texels rgui fb_width fb_height)
      (border_colour rgui fb_width fb_height).
Proof.
  intros Hok HW HH. pose proof Hok as (_ & HHmax & _ & _).
  unfold RGUI_MAX_FB_WIDTH, INT_MAX in *.
  unfold rgui_render_border.
  rewrite (wrap32_small (fb_width - 10)), (wrap32_small (fb_height - 10)),
    (wrap32_small (fb_width - 5)), (wrap32_small (fb_height - 5))
    by (unfold UINT_MAX; lia).
  set (dark := rgui_colors.border_dark_color (rgui.colors rgui)).
  set (light := rgui_colors.border_light_color (rgui.colors rgui)).
  set (thick := rgui.border_thickness rgui).
  destruct (rgui_fill_rect_painted data fb_width fb_height 5 5 (fb_width - 10) 5
              dark light thick) as (d1 & E1 & P1);
    [done | unfold RGUI_MAX_FB_WIDTH, UINT_MAX; lia ..|].
  rewrite E1. cbn [mbind option_bind].
  pose proof (painted_frame_buf_ok _ _ _ _ _ _ Hok P1) as Hok1.
  destruct (rgui_fill_rect_painted d1 fb_width fb_height 5 (fb_height - 10)
              (fb_width - 10) 5 dark light thick) as (d2 & E2 & P2);
    [done | unfold RGUI_MAX_FB_WIDTH, UINT_MAX; lia ..|].
  rewrite E2. cbn [mbind option_bind].
  pose proof (painted_frame_buf_ok _ _ _ _ _ _ Hok1 P2) as Hok2.
  destruct (rgui_fill_rect_painted d2 fb_width fb_height 5 5 5 (fb_height - 10)
              dark light thick) as (d3 & E3 & P3);
    [done | unfold RGUI_MAX_FB_WIDTH, UINT_MAX; lia ..|].
  rewrite E3. cbn [mbind option_bind].
  pose proof (painted_frame_buf_ok _ _ _ _ _ _ Hok2 P3) as Hok3.
  destruct (rgui_fill_rect_painted d3 fb_width fb_height (fb_width - 10) 5 5
              (fb_height - 10) dark light thick) as (d4 & E4 & P4);
    [done | unfold RGUI_MAX_FB_WIDTH, UINT_MAX; lia ..|].
  rewrite E4. cbn [mbind option_bind].
  pose proof (painted_frame_buf_ok _ _ _ _ _ _ Hok3 P4) as Hok4.
  pose proof (painted_trans _ _ _ _ _ _ _ _ _
                (painted_trans _ _ _ _ _ _ _ _ _
                   (painted_trans _ _ _ _ _ _ _ _ _ P1 P2) P3) P4) as Pbars.
  assert (Hbars : painted fb_width fb_height data d4
            (border_bars fb_width fb_height) (checker_colour dark light thick)).
  { eapply painted_ext; [exact Pbars | |].
    - intros r c _ _. reflexivity.
    - intros r c _ _ _. cbv beta.
      by destruct (in_rect (fb_width - 10) 5 5 (fb_height - 10) r c),
        (in_rect 5 5 5 (fb_height - 10) r c),
        (in_rect 5 (fb_height - 10) (fb_width - 10) 5 r c). }
  clear Pbars P1 P2 P3 P4 E1 E2 E3 E4.
  unfold border_texels, border_colour. fold dark light thick.
  destruct (rgui.shadow_enable rgui).
  2:{ exists d4. split; [done |]. eapply painted_ext; [exact Hbars | |].
      - intros r c _ _. by rewrite orb_false_r.
      - done. }
  set (shadow := rgui_colors.shadow_color (rgui.colors rgui)).
  destruct (rgui_color_rect_painted d4 fb_width fb_height 10 10 1
              (wrap32 (fb_height - 20)) shadow) as (d5 & E5 & P5); [done | lia | lia |].
  rewrite E5. cbn [mbind option_bind].
  pose proof (painted_frame_buf_ok _ _ _ _ _ _ Hok4 P5) as Hok5.
  destruct (rgui_color_rect_painted d5 fb_width fb_height 10 10
              (wrap32 (fb_width - 20)) 1 shadow) as (d6 & E6 & P6); [done | lia | lia |].
  rewrite E6. cbn [mbind option_bind].
  pose proof (painted_frame_buf_ok _ _ _ _ _ _ Hok5 P6) as Hok6.
  destruct (rgui_color_rect_painted d6 fb_width fb_height (fb_width - 5) 6 1
              (fb_height - 10) shadow) as (d7 & E7 & P7); [done | lia | lia |].
  rewrite E7. cbn [mbind option_bind].
  pose proof (painted_frame_buf_ok _ _ _ _ _ _ Hok6 P7) as Hok7.
  destruct (rgui_color_rect_painted d7 fb_width fb_height 6 (fb_height - 5)
              (fb_width - 10) 1 shadow) as (d8 & E8 & P8); [done | lia | lia |].
  rewrite E8. exists d8. split; [done |].
  assert (Hw20 : wrap32 (10 + wrap32 (fb_width - 20)) = fb_width - 10).
  { unfold wrap32. zmod. }
  assert (Hh20 : wrap32 (10 + wrap32 (fb_height - 20)) = fb_height - 10).
  { unfold wrap32. zmod. }
  rewrite Hh20 in P5. rewrite Hw20 in P6.
  rewrite (wrap32_small (10 + 1)), (wrap32_small (fb_width - 5 + 1)),
    (wrap32_small (6 + (fb_height - 10))), (wrap32_small (6 + (fb_width - 10))),
    (wrap32_small (fb_height - 5 + 1)) in * by (unfold UINT_MAX; lia).
  pose proof (painted_trans _ _ _ _ _ _ _ _ _
                (painted_trans _ _ _ _ _ _ _ _ _
                   (painted_trans _ _ _ _ _ _ _ _ _
                      (painted_trans _ _ _ _ _ _ _ _ _ Hbars P5) P6) P7) P8) as Pall.
  eapply painted_ext; [exact Pall | |]; cbv beta.
  - intros r c Hr Hc. unfold border_shadow. simpl.
    rewrite (in_rect_eq 10 10 1 (fb_height - 20) (Z.min 10 fb_width) (Z.min 10 fb_height)
               (Z.min (10 + 1) fb_width - Z.min 10 fb_width)
               (Z.min (fb_height - 10) fb_height - Z.min 10 fb_height) r c) by lia.
    rewrite (in_rect_eq 10 10 (fb_width - 20) 1 (Z.min 10 fb_width) (Z.min 10 fb_height)
               (Z.min (fb_width - 10) fb_width - Z.min 10 fb_width)
               (Z.min (10 + 1) fb_height - Z.min 10 fb_height) r c) by lia.
    rewrite (in_rect_eq (fb_width - 5) 6 1 (fb_height - 10)
               (Z.min (fb_width - 5) fb_width) (Z.min 6 fb_height)
               (Z.min (fb_width - 5 + 1) fb_width - Z.min (fb_width - 5) fb_width)
               (Z.min (6 + (fb_height - 10)) fb_height - Z.min 6 fb_height) r c) by lia.
    rewrite (in_rect_eq 6 (fb_height - 5) (fb_width - 10) 1
               (Z.min 6 fb_width) (Z.min (fb_height - 5) fb_height)
               (Z.min (6 + (fb_width - 10)) fb_width - Z.min 6 fb_width)
               (Z.min (fb_height - 5 + 1) fb_height - Z.min (fb_height - 5) fb_height) r c)
      by lia.
    by rewrite !orb_assoc.
  - intros r c Hr Hc _. unfold border_shadow. simpl.
    rewrite (in_rect_eq 10 10 1 (fb_height - 20) (Z.min 10 fb_width) (Z.min 10 fb_height)
               (Z.min (10 + 1) fb_width - Z.min 10 fb_width)
               (Z.min (fb_height - 10) fb_height - Z.min 10 fb_height) r c) by lia.
    rewrite (in_rect_eq 10 10 (fb_width - 20) 1 (Z.min 10 fb_width) (Z.min 10 fb_height)
               (Z.min (fb_width - 10) fb_width - Z.min 10 fb_width)
               (Z.min (10 + 1) fb_height - Z.min 10 fb_height) r c) by lia.
    rewrite (in_rect_eq (fb_width - 5) 6 1 (fb_height - 10)
               (Z.min (fb_width - 5) fb_width) (Z.min 6 fb_height)
               (Z.min (fb_width - 5 + 1) fb_width - Z.min (fb_width - 5) fb_width)
               (Z.min (6 + (fb_height - 10)) fb_height - Z.min 6 fb_height) r c) by lia.
    rewrite (in_rect_eq 6 (fb_height - 5) (fb_width - 10) 1
               (Z.min 6 fb_width) (Z.min (fb_height - 5) fb_height)
               (Z.min (6 + (fb_width - 10)) fb_width - Z.min 6 fb_width)
               (Z.min (fb_height - 5 + 1) fb_height - Z.min (fb_height - 5) fb_height) r c)
      by lia.
    by destruct (in_rect _ _ _ _ r c), (in_rect _ _ _ _ r c), (in_rect _ _ _ _ r c),
      (in_rect _ _ _ _ r c).
Qed.

(** X3: [rgui_render_border] on a frame buffer of at least 10 x 10 texels
    and at most [RGUI_MAX_FB_WIDTH] wide stays in bounds and sets exactly
    the four bars of the border, to the dither pattern of the two border
    colours, and, with shadows enabled, the four lines of the drop shadow
    on top of them; the area inside the shadow is left as it was. *)
Theorem rgui_render_border_spec rgui data fb_width fb_height :
  frame_buf_ok data fb_width fb_height ->
  10 <= fb_width <= RGUI_MAX_FB_WIDTH -> 10 <= fb_height ->
  exists data',
    rgui_render_border rgui data fb_width fb_height = Some data' /\
    painted fb_width fb_height data data'
      (border_texels rgui fb_width fb_height)
      (border_colour rgui fb_width fb_height) /\
    forall row col, 11 <= col < fb_width - 10 -> 11 <= row < fb_height - 10 ->
      texel data' fb_width row col = texel data fb_width row col.
Proof.
  intros Hok HW HH.
  destruct (rgui_render_border_painted rgui data fb_width fb_height Hok HW HH)
    as (data' & Hcall & Hp).
  exists data'. split; [done |]. split; [done |].
  intros row col Hc Hr. destruct Hp as [_ Hp]. rewrite Hp by lia.
  replace (border_texels rgui fb_width fb_height row col) with false; [done |].
  unfold border_texels, border_bars, border_shadow.
  rewrite !in_rect_false by lia. by rewrite andb_false_r.
Qed.

(** X4: [rgui_cache_background], when no wallpaper is shown and the buffer
    has the size of the display, overwrites every texel of the background
    buffer: with the border colours where the border is, if it is enabled,
    and with the chequer pattern of the two background colours everywhere
    else.  Nothing of the previous contents is left. *)
Theorem rgui_cache_background_spec rgui data fb_width fb_height :
  frame_buf_ok data fb_width fb_height ->
  fb_width <= RGUI_MAX_FB_WIDTH ->
  (rgui.border_enable rgui = true -> 10 <= fb_width /\ 10 <= fb_height) ->
  rgui.show_wallpaper rgui = false ->
  exists data',
    rgui_cache_background rgui fb_width fb_height (2 * fb_width)
      (frame_buf.mk (Some data) fb_width fb_height)
      = Some (frame_buf.mk (Some data') fb_width fb_height) /\
    length data' = length data /\
    forall row col, 0 <= row < fb_height -> 0 <= col < fb_width ->
      texel data' fb_width row col
        = Some (background_colour rgui fb_width fb_height row col).
Proof.
  intros Hok HWmax Hborder Hwall. pose proof Hok as (HW & HH & _ & _).
  unfold rgui_cache_background. rewrite Hwall. cbn [frame_buf.data frame_buf.width frame_buf.height].
  rewrite !Z.eqb_refl. rewrite Z.shiftl_mul_pow2 by lia. change (2 ^ 1) with 2.
  rewrite wrap32_small by (unfold RGUI_MAX_FB_WIDTH, UINT_MAX in *; lia).
  replace (2 * fb_width =? fb_width * 2) with true by lia.
  cbn [negb orb].
  destruct (rgui_fill_rect_painted data fb_width fb_height 0 0 fb_width fb_height
              (rgui_colors.bg_dark_color (rgui.colors rgui))
              (rgui_colors.bg_light_color (rgui.colors rgui))
              (rgui.bg_thickness rgui)) as (d1 & E1 & P1);
    [done | done | unfold INT_MAX, UINT_MAX in *; lia ..|].
  rewrite E1. cbn [mbind option_bind].
  pose proof (painted_frame_buf_ok _ _ _ _ _ _ Hok P1) as Hok1.
  unfold background_colour.
  destruct (rgui.border_enable rgui) eqn:Hen.
  - destruct Hborder as [HW10 HH10]; [done |].
    destruct (rgui_render_border_painted rgui d1 fb_width fb_height Hok1)
      as (d2 & E2 & P2); [lia | lia |].
    rewrite E2. cbn [mbind option_bind]. exists d2. split; [done |].
    destruct P1 as [Hl1 Hp1], P2 as [Hl2 Hp2]. split; [congruence |].
    intros row col Hr Hc. rewrite Hp2, Hp1 by done.
    rewrite (proj2 (in_rect_spec 0 0 fb_width fb_height row col)) by lia.
    cbn [andb]. by destruct (border_texels rgui fb_width fb_height row col).
  - cbn [mbind option_bind]. exists d1. split; [done |].
    destruct P1 as [Hl1 Hp1]. split; [done |].
    intros row col Hr Hc. rewrite Hp1 by done.
    by rewrite (proj2 (in_rect_spec 0 0 fb_width fb_height row col)) by lia.
Qed.

Lemma rgui_cache_background_spec_witness :
  exists data',
    rgui_cache_background
      (rgui.set_shadow_enable true
       (rgui.set_border_enable true
       (rgui.set_colors example_colors
       rgui.zeroed)))
      12 12 (2 * 12) (frame_buf.mk (Some (replicate 144 0)) 12 12)
      = Some (frame_buf.mk (Some data') 12 12) /\
    length data' = length (replicate 144 0) /\
    forall row col, 0 <= row < 12 -> 0 <= col < 12 ->
      texel data' 12 row col
        = Some (background_colour
                  (rgui.set_shadow_enable true
                   (rgui.set_border_enable true
                   (rgui.set_colors example_colors
                   rgui.zeroed))) 12 12 row col).
Proof.
  apply (rgui_cache_background_spec
           (rgui.set_shadow_enable true
            (rgui.set_border_enable true
            (rgui.set_colors example_colors
            rgui.zeroed))) (replicate 144 0) 12 12);
    unfold frame_buf_ok, INT_MAX, UINT_MAX, RGUI_MAX_FB_WIDTH; simpl; lia.
Defined.

Lemma rgui_render_border_spec_witness :
  exists data',
    rgui_render_border
      (rgui.set_shadow_enable true
       (rgui.set_border_enable true
       (rgui.set_colors example_colors
       rgui.zeroed))) (replicate 576 0) 24 24 = Some data' /\
    painted 24 24 (replicate 576 0) data'
      (border_texels
         (rgui.set_shadow_enable true
          (rgui.set_border_enable true
          (rgui.set_colors example_colors
          rgui.zeroed))) 24 24)
      (border_colour
         (rgui.set_shadow_enable true
          (rgui.set_border_enable true
          (rgui.set_colors example_colors
          rgui.zeroed))) 24 24) /\
    forall row col, 11 <= col < 24 - 10 -> 11 <= row < 24 - 10 ->
      texel data' 24 row col = texel (replicate 576 0) 24 row col.
Proof.
  apply (rgui_render_border_spec
           (rgui.set_shadow_enable true
            (rgui.set_border_enable true
            (rgui.set_colors example_colors
            rgui.zeroed))) (replicate 576 0) 24 24);
    unfold frame_buf_ok, INT_MAX, UINT_MAX, RGUI_MAX_FB_WIDTH; simpl; lia.
Defined.

Lemma wrap32_int n :
  INT_MIN <= n <= INT_MAX ->
  (0 <= n /\ wrap32 n = n) \/ (n < 0 /\ wrap32 n = n + 2 ^ 32).
Proof. unfold INT_MIN, INT_MAX, wrap32. intros. zmod. Qed.

Lemma wrap32_sub n k :
  INT_MIN <= n <= INT_MAX -> 0 <= k < 2 ^ 31 ->
  (k <= n /\ wrap32 (n - k) = n - k) \/
  (n < k /\ wrap32 (n - k) = n - k + 2 ^ 32).
Proof. unfold INT_MIN, INT_MAX, wrap32. intros. zmod. Qed.

Lemma wrap32_succ n k :
  0 <= n < 2 ^ 32 -> 0 <= k < 2 ^ 31 ->
  (n + k < 2 ^ 32 /\ wrap32 (n + k) = n + k) \/
  (2 ^ 32 <= n + k /\ wrap32 (n + k) = n + k - 2 ^ 32).
Proof. unfold wrap32. intros. zmod. Qed.

(** [rgui_color_rect] called with [int] coordinates: a negative coordinate
    becomes a huge unsigned one, and nothing is drawn. *)
Lemma rgui_color_rect_int data fb_width fb_height x y width height color :
  frame_buf_ok data fb_width fb_height ->
  INT_MIN <= x <= INT_MAX -> INT_MIN <= y <= INT_MAX ->
  0 <= width < 2 ^ 31 -> 0 <= height < 2 ^ 31 ->
  exists data',
    rgui_color_rect data fb_width fb_height (wrap32 x) (wrap32 y) width height color
      = Some data' /\
    painted fb_width fb_height data data'
      (fun r c => (0 <=? x) && (0 <=? y) && in_rect x y width height r c)
      (fun _ _ => color).
Proof.
  intros Hok Hx Hy Hw Hh. pose proof Hok as (HW & HH & _ & _).
  assert (Hrange : forall n, 0 <= wrap32 n < 2 ^ 32)
    by (intros n; unfold wrap32; apply Z.mod_pos_bound; lia).
  destruct (rgui_color_rect_painted data fb_width fb_height (wrap32 x) (wrap32 y)
              width height color) as (d1 & E1 & P1);
    [done | apply Hrange | apply Hrange |].
  exists d1. split; [done |].
  eapply painted_ext; [exact P1 | | done].
  intros r c Hr Hc.
  pose proof (wrap32_int x Hx) as Hwx. pose proof (wrap32_int y Hy) as Hwy.
  pose proof (wrap32_succ (wrap32 x) width (Hrange x) Hw) as Hx1.
  pose proof (wrap32_succ (wrap32 y) height (Hrange y) Hh) as Hy1.
  unfold INT_MIN, INT_MAX in *. clear P1 E1 Hok Hrange.
  destruct Hwx as [[Hx0 Ex] | [Hx0 Ex]], Hwy as [[Hy0 Ey] | [Hy0 Ey]];
    rewrite Ex, Ey in *.
  - replace (0 <=? x) with true by lia. replace (0 <=? y) with true by lia.
    cbn [andb].
    destruct Hx1 as [[_ Ex1] | [? _]]; [| lia].
    destruct Hy1 as [[_ Ey1] | [? _]]; [| lia].
    rewrite Ex1, Ey1. apply in_rect_eq. lia.
  - replace (0 <=? y) with false by lia. rewrite andb_false_r. cbn [andb].
    symmetry. apply in_rect_false.
    destruct Hy1 as [[_ Ey1] | [_ Ey1]]; rewrite Ey1; lia.
  - replace (0 <=? x) with false by lia. cbn [andb].
    symmetry. apply in_rect_false.
    destruct Hx1 as [[_ Ex1] | [_ Ex1]]; rewrite Ex1; lia.
  - replace (0 <=? x) with false by lia. cbn [andb].
    symmetry. apply in_rect_false.
    destruct Hx1 as [[_ Ex1] | [_ Ex1]]; rewrite Ex1; lia.
Qed.

(** X5: [rgui_blit_cursor] never leaves the frame buffer, wherever the
    pointer is: it draws the vertical bar of the cross, 11 texels high and
    clipped at the bottom edge, if the pointer is at least 5 texels below the
    top edge, and the horizontal bar, 11 texels wide and clipped at the right
    edge, if it is at least 5 texels right of the left edge.  Closer to the
    top or left edge the bar is not drawn at all. *)
Theorem rgui_blit_cursor_spec rgui data fb_width fb_height :
  frame_buf_ok data fb_width fb_height ->
  INT_MIN + 5 <= rgui.pointer_x rgui <= INT_MAX ->
  INT_MIN + 5 <= rgui.pointer_y rgui <= INT_MAX ->
  exists data',
    rgui_blit_cursor rgui fb_width fb_height
      (frame_buf.mk (Some data) fb_width fb_height)
      = Some (frame_buf.mk (Some data') fb_width fb_height) /\
    painted fb_width fb_height data data'
      (cursor_texels (rgui.pointer_x rgui) (rgui.pointer_y rgui))
      (fun _ _ => rgui_colors.normal_color (rgui.colors rgui)).
Proof.
  intros Hok Hx Hy.
  unfold rgui_blit_cursor. cbn [frame_buf.data frame_buf.width frame_buf.height].
  set (x := rgui.pointer_x rgui) in *. set (y := rgui.pointer_y rgui) in *.
  set (color := rgui_colors.normal_color (rgui.colors rgui)).
  destruct (rgui_color_rect_int data fb_width fb_height x (y - 5) 1 11 color)
    as (d1 & E1 & P1); [done | lia .. |].
  rewrite E1. cbn [mbind option_bind].
  pose proof (painted_frame_buf_ok _ _ _ _ _ _ Hok P1) as Hok1.
  destruct (rgui_color_rect_int d1 fb_width fb_height (x - 5) y 11 1 color)
    as (d2 & E2 & P2); [done | lia .. |].
  rewrite E2. cbn [mbind option_bind]. exists d2. split; [done |].
  pose proof (painted_trans _ _ _ _ _ _ _ _ _ P1 P2) as Pall.
  eapply painted_ext; [exact Pall | |].
  2:{ intros r c _ _ _. cbv beta.
      match goal with |- context [if ?b then _ else _] => by destruct b end. }
  intros r c Hr Hc. cbv beta. unfold cursor_texels.
  replace (0 <=? y - 5) with (5 <=? y) by lia.
  by replace (0 <=? x - 5) with (5 <=? x) by lia.
Qed.

Lemma rgui_blit_cursor_spec_witness :
  exists data',
    rgui_blit_cursor
      (rgui.set_shadow_enable true
       (rgui.set_border_enable true
       (rgui.set_pointer_y 7
       (rgui.set_pointer_x 3
       (rgui.set_colors example_colors
       rgui.zeroed)))))
      16 12 (frame_buf.mk (Some (replicate 192 0)) 16 12)
      = Some (frame_buf.mk (Some data') 16 12) /\
    painted 16 12 (replicate 192 0) data' (cursor_texels 3 7) (fun _ _ => 2).
Proof.
  apply (rgui_blit_cursor_spec
           (rgui.set_shadow_enable true
            (rgui.set_border_enable true
            (rgui.set_pointer_y 7
            (rgui.set_pointer_x 3
            (rgui.set_colors example_colors
            rgui.zeroed))))) (replicate 192 0) 16 12);
    unfold frame_buf_ok, INT_MIN, INT_MAX, UINT_MAX; simpl; lia.
Defined.

(** ** Loops that fill an array *)

(** A loop whose iteration [b] stores [g b] at index [idx b]. *)
Lemma store_loop (body : Z -> list Z -> option (list Z)) (idx g : Z -> Z) B d :
  (forall b d1, 0 <= b < B -> body b d1 = array_store d1 (idx b) (g b)) ->
  (forall b, 0 <= b < B -> 0 <= idx b < Z.of_nat (length d)) ->
  (forall b b', 0 <= b < B -> 0 <= b' < B -> idx b = idx b' -> b = b') ->
  exists d',
    for_loop 0 B 1 body d = Some d' /\
    length d' = length d /\
    (forall b, 0 <= b < B -> d' !! Z.to_nat (idx b) = Some (g b)) /\
    (forall i, (forall b, 0 <= b < B -> i <> Z.to_nat (idx b)) -> d' !! i = d !! i).
Proof.
  intros Hbody Hidx Hinj. unfold for_loop.
  pose proof (for_loop_count_1 0 B) as Hn.
  set (n := trip_count 0 B 1) in *.
  destruct (iterate_inv
    (fun k d' =>
       length d' = length d /\
       (forall b, 0 <= b < Z.of_nat k -> d' !! Z.to_nat (idx b) = Some (g b)) /\
       (forall i, (forall b, 0 <= b < Z.of_nat k -> i <> Z.to_nat (idx b)) ->
          d' !! i = d !! i))
    body 1 n 0 d) as (d' & Hit & Hl & Hset & Hrest).
  - split; [done |]. split; [intros; lia | done].
  - intros k d1 Hk (Hl & Hset & Hrest).
    replace (0 + Z.of_nat k * 1) with (Z.of_nat k) by lia.
    assert (HkB : 0 <= Z.of_nat k < B) by lia.
    rewrite Hbody by done.
    destruct (array_store_lookup d1 (idx (Z.of_nat k)) (g (Z.of_nat k)))
      as (d2 & -> & Hl2 & Hnew & Hold); [rewrite Hl; by apply Hidx |].
    exists d2. split; [done |]. split; [congruence |]. split.
    + intros b Hb. destruct (Z.eq_dec b (Z.of_nat k)) as [-> | Hne]; [done |].
      rewrite Hold; [apply Hset; lia |].
      intros Heq. apply Hne, Hinj; [lia | lia |].
      pose proof (Hidx b ltac:(lia)). pose proof (Hidx (Z.of_nat k) HkB). lia.
    + intros i Hi. rewrite Hold; [apply Hrest; intros b Hb; apply Hi; lia |].
      apply Hi. lia.
  - exists d'. split; [done |]. split; [done |]. split.
    + intros b Hb. apply Hset. lia.
    + intros i Hi. apply Hrest. intros b Hb. apply Hi. lia.
Qed.

(** Two nested loops whose iteration [(a, b)] stores [g a b] at index
    [idx a b]. *)
Lemma store_loops (body : Z -> Z -> list Z -> option (list Z))
    (idx g : Z -> Z -> Z) A B d :
  (forall a b d1, 0 <= a < A -> 0 <= b < B ->
     body a b d1 = array_store d1 (idx a b) (g a b)) ->
  (forall a b, 0 <= a < A -> 0 <= b < B -> 0 <= idx a b < Z.of_nat (length d)) ->
  (forall a b a' b', 0 <= a < A -> 0 <= b < B -> 0 <= a' < A -> 0 <= b' < B ->
     idx a b = idx a' b' -> a = a' /\ b = b') ->
  exists d',
    for_loop 0 A 1 (fun a d => for_loop 0 B 1 (fun b d => body a b d) d) d = Some d' /\
    length d' = length d /\
    (forall a b, 0 <= a < A -> 0 <= b < B ->
       d' !! Z.to_nat (idx a b) = Some (g a b)) /\
    (forall i, (forall a b, 0 <= a < A -> 0 <= b < B -> i <> Z.to_nat (idx a b)) ->
       d' !! i = d !! i).
Proof.
  intros Hbody Hidx Hinj. unfold for_loop at 1.
  pose proof (for_loop_count_1 0 A) as Hn.
  set (n := trip_count 0 A 1) in *.
  destruct (iterate_inv
    (fun k d' =>
       length d' = length d /\
       (forall a b, 0 <= a < Z.of_nat k -> 0 <= b < B ->
          d' !! Z.to_nat (idx a b) = Some (g a b)) /\
       (forall i, (forall a b, 0 <= a < Z.of_nat k -> 0 <= b < B ->
                     i <> Z.to_nat (idx a b)) -> d' !! i = d !! i))
    (fun a d => for_loop 0 B 1 (fun b d => body a b d) d) 1 n 0 d)
    as (d' & Hit & Hl & Hset & Hrest).
  - split; [done |]. split; [intros; lia | done].
  - intros k d1 Hk (Hl & Hset & Hrest).
    replace (0 + Z.of_nat k * 1) with (Z.of_nat k) by lia.
    assert (HkA : 0 <= Z.of_nat k < A) by lia.
    destruct (store_loop (fun b d => body (Z.of_nat k) b d) (idx (Z.of_nat k))
                (g (Z.of_nat k)) B d1) as (d2 & Hloop & Hl2 & Hnew & Hold).
    + intros b d3 Hb. by apply Hbody.
    + intros b Hb. rewrite Hl. by apply Hidx.
    + intros b b' Hb Hb' Heq. by apply (Hinj (Z.of_nat k) b (Z.of_nat k) b').
    + exists d2. split; [done |]. split; [congruence |]. split.
      * intros a b Ha Hb. destruct (Z.eq_dec a (Z.of_nat k)) as [-> | Hne];
          [by apply Hnew |].
        rewrite Hold; [apply Hset; lia |].
        intros b' Hb' Heq. apply Hne.
        apply (Hinj a b (Z.of_nat k) b'); [lia | done | done | done |].
        pose proof (Hidx a b ltac:(lia) Hb). pose proof (Hidx (Z.of_nat k) b' HkA Hb').
        lia.
      * intros i Hi. rewrite Hold; [apply Hrest; intros a b Ha Hb; apply Hi; lia |].
        intros b Hb. apply Hi; lia.
  - exists d'. split; [done |]. split; [done |]. split.
    + intros a b Ha Hb. apply Hset; lia.
    + intros i Hi. apply Hrest. intros a b Ha Hb. apply Hi; lia.
Qed.

Lemma grid_index_inj W x y x' y' :
  0 <= x < W -> 0 <= x' < W -> x + y * W = x' + y' * W -> x = x' /\ y = y'.
Proof.
  intros Hx Hx' Heq.
  destruct (offset_inj W y x y' x' Hx Hx'); [lia | done].
Qed.

Lemma grid_index_bound W H x y :
  0 <= x < W -> 0 <= y < H -> 0 <= y * W /\ x + y * W < W * H.
Proof. intros Hx Hy. split; nia. Qed.

(** X6: [process_wallpaper] on an image at least as large as the background
    buffer reads and writes in bounds, and stores at every texel [(x, y)] of
    the buffer the converted pixel [(x + x_crop_offset, y + y_crop_offset)]
    of the image, where the crop offsets are half the excess of the image
    over the buffer: the central part of the image is kept.  It then shows
    the wallpaper and asks for a redraw. *)
Theorem process_wallpaper_spec convert rgui pixels image_width image_height
    data width height :
  frame_buf_ok data width height ->
  width <= image_width <= UINT_MAX -> height <= image_height <= UINT_MAX ->
  image_width * image_height <= UINT_MAX ->
  Z.of_nat (length pixels) = image_width * image_height ->
  Forall (fun pixel => is_Some (convert pixel)) pixels ->
  let x_crop_offset := (image_width - width) / 2 in
  let y_crop_offset := (image_height - height) / 2 in
  exists data',
    process_wallpaper convert rgui
      (texture_image.mk image_width image_height (Some pixels))
      (frame_buf.mk (Some data) width height)
      = Some (rgui.set_force_redraw true (rgui.set_show_wallpaper true rgui),
              frame_buf.mk (Some data') width height) /\
    length data' = length data /\
    x_crop_offset + width <= image_width /\
    y_crop_offset + height <= image_height /\
    forall x y, 0 <= x < width -> 0 <= y < height ->
      exists pixel,
        pixel_at pixels image_width (x + x_crop_offset) (y + y_crop_offset)
          = Some pixel /\
        Some <$> texel data' width y x = Some (convert pixel).
Proof.
  intros Hok HW HH Himg Hlen Hconv xo yo.
  pose proof Hok as (HW0 & HH0 & HWH & Hdlen).
  assert (Hxo : 0 <= xo /\ xo + width <= image_width) by (unfold xo; zmod).
  assert (Hyo : 0 <= yo /\ yo + height <= image_height) by (unfold yo; zmod).
  unfold process_wallpaper.
  cbn [texture_image.pixels texture_image.width texture_image.height
       frame_buf.data frame_buf.width frame_buf.height].
  replace ((image_width <? width) || (image_height <? height)) with false
    by (symmetry; apply orb_false_intro; lia).
  rewrite !Z.shiftr_div_pow2 by lia. change (2 ^ 1) with 2.
  rewrite (wrap32_small (image_width - width)), (wrap32_small (image_height - height))
    by (unfold UINT_MAX in *; lia).
  fold xo yo.
  set (src_index := fun x y => x + xo + (y + yo) * image_width).
  assert (Hsrc : forall x y, 0 <= x < width -> 0 <= y < height ->
            0 <= (y + yo) * image_width /\
            0 <= src_index x y < image_width * image_height).
  { intros x y Hx Hy. unfold src_index.
    pose proof (grid_index_bound image_width image_height (x + xo) (y + yo)
                  ltac:(lia) ltac:(lia)). lia. }
  set (g := fun x y =>
    default 0 (pixels !! Z.to_nat (src_index x y) ≫= convert)).
  assert (Hcell : forall x y, 0 <= x < width -> 0 <= y < height ->
            exists pixel v, pixels !! Z.to_nat (src_index x y) = Some pixel /\
              convert pixel = Some v /\ g x y = v).
  { intros x y Hx Hy. destruct (Hsrc x y Hx Hy) as [_ Hi].
    destruct (lookup_lt_is_Some_2 pixels (Z.to_nat (src_index x y))) as [p Hp]; [lia |].
    destruct (Forall_lookup_1 _ _ _ _ Hconv Hp) as [v Hv].
    exists p, v. unfold g. rewrite Hp. simpl. by rewrite Hv. }
  destruct (store_loops
    (fun x y data =>
       pixel ← pixels !! Z.to_nat
                  (wrap32 (wrap32 (x + xo) + wrap32 (wrap32 (y + yo) * image_width)));
       texel ← convert pixel;
       array_store data (wrap32 (x + wrap32 (y * width))) texel)
    (fun x y => x + y * width) g width height data)
    as (data' & Hloop & Hl' & Hset & _).
  - intros x y d1 Hx Hy.
    destruct (Hsrc x y Hx Hy) as [Hrow Hi]. unfold src_index in Hi.
    destruct (grid_index_bound width height x y Hx Hy) as [Hrow' Hi'].
    rewrite (wrap32_small (x + xo)), (wrap32_small (y + yo)) by (unfold UINT_MAX in *; lia).
    rewrite (wrap32_small ((y + yo) * image_width)) by (unfold UINT_MAX in *; lia).
    rewrite (wrap32_small (y * width)) by (unfold UINT_MAX in *; lia).
    rewrite (wrap32_small (x + y * width)) by (unfold UINT_MAX in *; lia).
    rewrite wrap32_small by (unfold UINT_MAX in *; lia). fold (src_index x y).
    destruct (Hcell x y Hx Hy) as (p & v & -> & Hv & <-).
    cbn [mbind option_bind]. by rewrite Hv.
  - intros x y Hx Hy. pose proof (grid_index_bound width height x y Hx Hy). lia.
  - intros x y x' y' Hx Hy Hx' Hy' Heq. by apply (grid_index_inj width).
  - rewrite Hloop. cbn [mbind option_bind].
    exists data'. split; [reflexivity |].
    repeat (split; [done || lia |]).
    intros x y Hx Hy. destruct (Hcell x y Hx Hy) as (p & v & Hp & Hv & Hg).
    exists p. split.
    + unfold pixel_at. rewrite <- Hp. f_equal. unfold src_index. lia.
    + unfold texel. replace (y * width + x) with (x + y * width) by lia.
      rewrite (Hset x y Hx Hy), Hg, Hv. done.
Qed.

Lemma process_wallpaper_spec_witness :
  exists data',
    process_wallpaper (fun col => Some (argb32_to_rgba4444 col))
      rgui.zeroed
      (texture_image.mk 4 3 (Some (replicate 12 0xFFFF0000)))
      (frame_buf.mk (Some (replicate 4 0)) 2 2)
      = Some (rgui.set_force_redraw true (rgui.set_show_wallpaper true rgui.zeroed),
              frame_buf.mk (Some data') 2 2) /\
    length data' = length (replicate 4 0) /\
    (4 - 2) / 2 + 2 <= 4 /\ (3 - 2) / 2 + 2 <= 3 /\
    forall x y, 0 <= x < 2 -> 0 <= y < 2 ->
      exists pixel,
        pixel_at (replicate 12 0xFFFF0000) 4 (x + (4 - 2) / 2) (y + (3 - 2) / 2)
          = Some pixel /\
        Some <$> texel data' 2 y x = Some (Some (argb32_to_rgba4444 pixel)).
Proof.
  apply (process_wallpaper_spec (fun col => Some (argb32_to_rgba4444 col))
           rgui.zeroed
           (replicate 12 0xFFFF0000) 4 3 (replicate 4 0) 2 2);
    try (unfold frame_buf_ok, INT_MAX, UINT_MAX; simpl; lia).
  apply Forall_forall. intros p _. by eexists.
Defined.

(** ** Nearest neighbour downscaling *)

(** The source coordinate of the fixed point resampling lies in the
    source, also when [size << 16] wraps around. *)
Lemma nearest_src_in_bounds size dst_size x :
  1 <= size <= UINT_MAX -> 0 <= x < dst_size ->
  0 <= Z.shiftr (wrap32 (x * (wrap32 (Z.shiftl size 16) / dst_size))) 16 < size.
Proof.
  intros Hs Hx. unfold UINT_MAX in Hs.
  rewrite Z.shiftr_div_pow2, Z.shiftl_mul_pow2 by lia.
  set (ratio := wrap32 (size * 2 ^ 16) / dst_size).
  assert (Hw : 0 <= wrap32 (x * ratio) < 2 ^ 32)
    by (unfold wrap32; apply Z.mod_pos_bound; lia).
  destruct (Z_lt_dec size (2 ^ 16)) as [Hsmall | Hbig].
  - assert (Hr : 0 <= ratio /\ ratio * dst_size <= size * 2 ^ 16).
    { unfold ratio. rewrite wrap32_small by (unfold UINT_MAX; lia).
      split; [apply Z.div_pos; lia |]. rewrite Z.mul_comm. apply Z.mul_div_le. lia. }
    assert (Hxr : 0 <= x * ratio < size * 2 ^ 16) by nia.
    rewrite wrap32_small by (unfold UINT_MAX; lia).
    split; [apply Z.div_pos; lia | apply Z.div_lt_upper_bound; lia].
  - split; [apply Z.div_pos; lia |].
    apply Z.div_lt_upper_bound; lia.
Qed.

(** Below 65536 columns (or rows) the coordinate picked is the
    proportional one, rounded down, or the one before it. *)
Lemma nearest_src_proportional size dst_size x :
  1 <= size < 2 ^ 16 -> 0 <= x < dst_size -> dst_size <= 2 ^ 16 ->
  let x_src := Z.shiftr (wrap32 (x * (wrap32 (Z.shiftl size 16) / dst_size))) 16 in
  x * size / dst_size - 1 <= x_src <= x * size / dst_size.
Proof.
  intros Hs Hx Hd x_src. subst x_src.
  rewrite Z.shiftr_div_pow2, Z.shiftl_mul_pow2 by lia.
  rewrite (wrap32_small (size * 2 ^ 16)) by (unfold UINT_MAX; lia).
  set (ratio := size * 2 ^ 16 / dst_size).
  assert (Hr : 0 <= ratio /\ ratio * dst_size <= size * 2 ^ 16 /\
               size * 2 ^ 16 < (ratio + 1) * dst_size).
  { unfold ratio. split; [apply Z.div_pos; lia |].
    pose proof (Z.div_mod (size * 2 ^ 16) dst_size ltac:(lia)).
    pose proof (Z.mod_pos_bound (size * 2 ^ 16) dst_size ltac:(lia)). lia. }
  assert (Hxr : 0 <= x * ratio < size * 2 ^ 16) by nia.
  rewrite wrap32_small by (unfold UINT_MAX; lia).
  set (s := x * ratio / 2 ^ 16).
  assert (Hsr : s * 2 ^ 16 <= x * ratio < (s + 1) * 2 ^ 16).
  { unfold s.
    pose proof (Z.div_mod (x * ratio) (2 ^ 16) ltac:(lia)).
    pose proof (Z.mod_pos_bound (x * ratio) (2 ^ 16) ltac:(lia)). lia. }
  set (q := x * size / dst_size).
  assert (Hq : q * dst_size <= x * size < (q + 1) * dst_size).
  { unfold q.
    pose proof (Z.div_mod (x * size) dst_size ltac:(lia)).
    pose proof (Z.mod_pos_bound (x * size) dst_size ltac:(lia)). lia. }
  change (2 ^ 16) with 65536 in *.
  split.
  - assert (x * size * 65536 < (s + 2) * dst_size * 65536) by nia.
    assert (q * dst_size < (s + 2) * dst_size) by nia.
    assert (q < s + 2) by nia. lia.
  - assert (s * dst_size * 65536 <= x * size * 65536) by nia.
    assert (s * dst_size < (q + 1) * dst_size) by nia.
    assert (s < q + 1) by nia. lia.
Qed.

(** The output size of [downscale_thumbnail]: within the limits, and
    filling one of them. *)
Lemma downscale_dims max_width max_height w h (ratio_gt : bool) :
  1 <= max_width -> 1 <= max_height ->
  let height := wrap32 (h * max_width) / w in
  let height := if height <? 1 then 1 else height in
  let height := if height >? max_height then max_height else height in
  let width := wrap32 (w * max_height) / h in
  let width := if width <? 1 then 1 else width in
  let width := if width >? max_width then max_width else width in
  let dims := if ratio_gt then (max_width, height) else (width, max_height) in
  1 <= dims.1 <= max_width /\ 1 <= dims.2 <= max_height /\
  (dims.1 = max_width \/ dims.2 = max_height).
Proof.
  intros Hmw Hmh. cbv zeta.
  destruct ratio_gt; cbn [fst snd].
  - destruct (Z.ltb_spec (wrap32 (h * max_width) / w) 1);
      [destruct (Z.gtb_spec 1 max_height) | destruct (Z.gtb_spec (wrap32 (h * max_width) / w) max_height)];
      lia.
  - destruct (Z.ltb_spec (wrap32 (w * max_height) / h) 1);
      [destruct (Z.gtb_spec 1 max_width) | destruct (Z.gtb_spec (wrap32 (w * max_height) / h) max_width)];
      lia.
Qed.

(** The resampling loops of [downscale_thumbnail]. *)
Lemma nearest_loops src w h width height :
  1 <= w <= UINT_MAX -> 1 <= h <= UINT_MAX -> w * h <= UINT_MAX ->
  Z.of_nat (length src) = w * h ->
  1 <= width -> 1 <= height -> width * height <= UINT_MAX ->
  let x_ratio := wrap32 (Z.shiftl w 16) / width in
  let y_ratio := wrap32 (Z.shiftl h 16) / height in
  exists pixels,
    for_loop 0 height 1 (fun y_dst pixels =>
      let y_src := Z.shiftr (wrap32 (y_dst * y_ratio)) 16 in
      for_loop 0 width 1 (fun x_dst pixels =>
        let x_src := Z.shiftr (wrap32 (x_dst * x_ratio)) 16 in
        pixel ← src !! Z.to_nat (wrap32 (wrap32 (y_src * w) + x_src));
        array_store pixels (wrap32 (wrap32 (y_dst * width) + x_dst)) pixel)
        pixels) (replicate (Z.to_nat (wrap32 (width * height))) 0)
    = Some pixels /\
    Z.of_nat (length pixels) = width * height /\
    forall x y, 0 <= x < width -> 0 <= y < height ->
      exists x_src y_src pixel,
        0 <= x_src < w /\ 0 <= y_src < h /\
        pixel_at src w x_src y_src = Some pixel /\
        pixel_at pixels width x y = Some pixel /\
        (w < 2 ^ 16 -> width <= 2 ^ 16 -> x * w / width - 1 <= x_src <= x * w / width) /\
        (h < 2 ^ 16 -> height <= 2 ^ 16 -> y * h / height - 1 <= y_src <= y * h / height).
Proof.
  intros Hw Hh Hwh Hlen Hdw Hdh Hprod x_ratio y_ratio.
  rewrite (wrap32_small (width * height)) by nia.
  set (x_src := fun x => Z.shiftr (wrap32 (x * x_ratio)) 16).
  set (y_src := fun y => Z.shiftr (wrap32 (y * y_ratio)) 16).
  set (g := fun y x => default 0 (src !! Z.to_nat (y_src y * w + x_src x))).
  assert (Hsrc : forall x y, 0 <= x < width -> 0 <= y < height ->
            0 <= x_src x < w /\ 0 <= y_src y < h /\
            exists p, src !! Z.to_nat (y_src y * w + x_src x) = Some p).
  { intros x y Hx Hy.
    pose proof (nearest_src_in_bounds w width x Hw Hx) as Hxs.
    pose proof (nearest_src_in_bounds h height y Hh Hy) as Hys.
    fold x_ratio in Hxs. fold y_ratio in Hys. fold (x_src x) in Hxs. fold (y_src y) in Hys.
    split; [done |]. split; [done |].
    pose proof (grid_index_bound w h (x_src x) (y_src y) Hxs Hys).
    apply lookup_lt_is_Some_2. lia. }
  destruct (store_loops
    (fun y_dst x_dst pixels =>
       pixel ← src !! Z.to_nat
                  (wrap32 (wrap32 (Z.shiftr (wrap32 (y_dst * y_ratio)) 16 * w)
                           + Z.shiftr (wrap32 (x_dst * x_ratio)) 16));
       array_store pixels (wrap32 (wrap32 (y_dst * width) + x_dst)) pixel)
    (fun y x => y * width + x) g height width
    (replicate (Z.to_nat (width * height)) 0))
    as (pixels & Hloop & Hl' & Hset & _).
  - intros y x d1 Hy Hx.
    destruct (Hsrc x y Hx Hy) as (Hxs & Hys & p & Hp).
    fold (x_src x) (y_src y).
    pose proof (grid_index_bound w h (x_src x) (y_src y) Hxs Hys).
    pose proof (grid_index_bound width height x y Hx Hy).
    rewrite (wrap32_small (y_src y * w)) by (unfold UINT_MAX in *; lia).
    rewrite (wrap32_small (y_src y * w + x_src x)) by (unfold UINT_MAX in *; lia).
    rewrite (wrap32_small (y * width)) by (unfold UINT_MAX in *; lia).
    rewrite (wrap32_small (y * width + x)) by (unfold UINT_MAX in *; lia).
    unfold g. rewrite Hp. reflexivity.
  - intros y x Hy Hx. rewrite length_replicate.
    pose proof (grid_index_bound width height x y Hx Hy). lia.
  - intros y x y' x' Hy Hx Hy' Hx' Heq.
    destruct (grid_index_inj width x y x' y' Hx Hx'); [lia | done].
  - exists pixels. split; [exact Hloop |].
    split; [rewrite Hl', length_replicate; nia |].
    intros x y Hx Hy. destruct (Hsrc x y Hx Hy) as (Hxs & Hys & p & Hp).
    exists (x_src x), (y_src y), p.
    split; [done |]. split; [done |]. split; [exact Hp |].
    split; [unfold pixel_at; rewrite (Hset y x Hy Hx); unfold g; by rewrite Hp |].
    split; intros Hsmall Hdst.
    + apply (nearest_src_proportional w width x); lia.
    + apply (nearest_src_proportional h height y); lia.
Qed.

(** [downscale_thumbnail] with the nearest neighbour downscaler. *)
Lemma downscale_thumbnail_point_aux scaler max_width max_height src w h :
  1 <= w <= UINT_MAX -> 1 <= h <= UINT_MAX -> w * h <= UINT_MAX ->
  Z.of_nat (length src) = w * h ->
  1 <= max_width -> 1 <= max_height -> max_width * max_height <= UINT_MAX ->
  exists width height pixels,
    downscale_thumbnail RGUI_THUMB_SCALE_POINT true scaler max_width max_height
      (texture_image.mk w h (Some src))
      = Some (true, texture_image.mk width height (Some pixels)) /\
    1 <= width <= max_width /\ 1 <= height <= max_height /\
    (width = max_width \/ height = max_height) /\
    Z.of_nat (length pixels) = width * height /\
    forall x y, 0 <= x < width -> 0 <= y < height ->
      exists x_src y_src pixel,
        0 <= x_src < w /\ 0 <= y_src < h /\
        pixel_at src w x_src y_src = Some pixel /\
        pixel_at pixels width x y = Some pixel /\
        (w < 2 ^ 16 -> width <= 2 ^ 16 -> x * w / width - 1 <= x_src <= x * w / width) /\
        (h < 2 ^ 16 -> height <= 2 ^ 16 -> y * h / height - 1 <= y_src <= y * h / height).
Proof.
  intros Hw Hh Hwh Hlen Hmw Hmh Hmax.
  unfold downscale_thumbnail.
  cbn [texture_image.width texture_image.height texture_image.pixels].
  replace (w =? 0) with false by lia. replace (h =? 0) with false by lia.
  pose proof (downscale_dims max_width max_height w h
                (SFltb (f32_div (f32_of_Z max_width) (f32_of_Z max_height))
                       (f32_div (f32_of_Z w) (f32_of_Z h)))
                ltac:(lia) ltac:(lia)) as Hdims.
  cbv zeta in Hdims.
  destruct (SFltb (f32_div (f32_of_Z max_width) (f32_of_Z max_height))
                  (f32_div (f32_of_Z w) (f32_of_Z h)));
    cbn [mbind option_bind fst snd negb] in *;
    destruct Hdims as (Hdw & Hdh & Hfill).
  - set (height := if (if wrap32 (h * max_width) / w <? 1 then 1
                       else wrap32 (h * max_width) / w) >? max_height
                   then max_height
                   else if wrap32 (h * max_width) / w <? 1 then 1
                        else wrap32 (h * max_width) / w) in *.
    replace ((max_width =? 0) || (height =? 0)) with false
      by (symmetry; apply orb_false_intro; lia).
    destruct (nearest_loops src w h max_width height Hw Hh Hwh Hlen)
      as (pixels & Hloop & Hrest); [lia | lia | nia |].
    cbv zeta in Hloop. rewrite Hloop. cbn [mbind option_bind].
    by exists max_width, height, pixels.
  - set (width := if (if wrap32 (w * max_height) / h <? 1 then 1
                      else wrap32 (w * max_height) / h) >? max_width
                  then max_width
                  else if wrap32 (w * max_height) / h <? 1 then 1
                       else wrap32 (w * max_height) / h) in *.
    replace ((width =? 0) || (max_height =? 0)) with false
      by (symmetry; apply orb_false_intro; lia).
    destruct (nearest_loops src w h width max_height Hw Hh Hwh Hlen)
      as (pixels & Hloop & Hrest); [lia | lia | nia |].
    cbv zeta in Hloop. rewrite Hloop. cbn [mbind option_bind].
    by exists width, max_height, pixels.
Qed.

(** X7: nearest neighbour downscaling ([RGUI_THUMB_SCALE_POINT]) of an
    image of at least one pixel to limits of at least one pixel: the
    output is between 1 x 1 and the limits and fills one of them, every
    pixel of it is a pixel of the source, read in bounds, and where the
    source has fewer than 65536 columns (rows) and the output at most
    65536, the column (row) read is the proportional one, rounded down, or
    the one before it. *)
Theorem downscale_thumbnail_point scaler max_width max_height src w h :
  1 <= w <= UINT_MAX -> 1 <= h <= UINT_MAX -> w * h <= UINT_MAX ->
  Z.of_nat (length src) = w * h ->
  1 <= max_width -> 1 <= max_height -> max_width * max_height <= UINT_MAX ->
  exists width height pixels,
    downscale_thumbnail RGUI_THUMB_SCALE_POINT true scaler max_width max_height
      (texture_image.mk w h (Some src))
      = Some (true, texture_image.mk width height (Some pixels)) /\
    1 <= width <= max_width /\ 1 <= height <= max_height /\
    (width = max_width \/ height = max_height) /\
    Z.of_nat (length pixels) = width * height /\
    forall x y, 0 <= x < width -> 0 <= y < height ->
      exists x_src y_src pixel,
        0 <= x_src < w /\ 0 <= y_src < h /\
        pixel_at src w x_src y_src = Some pixel /\
        pixel_at pixels width x y = Some pixel /\
        (w < 2 ^ 16 -> width <= 2 ^ 16 -> x * w / width - 1 <= x_src <= x * w / width) /\
        (h < 2 ^ 16 -> height <= 2 ^ 16 -> y * h / height - 1 <= y_src <= y * h / height).
Proof. apply downscale_thumbnail_point_aux. Qed.

Lemma downscale_thumbnail_point_witness :
  exists width height pixels,
    downscale_thumbnail RGUI_THUMB_SCALE_POINT true (fun _ _ _ _ => None) 2 2
      (texture_image.mk 4 3 (Some (replicate 12 7)))
      = Some (true, texture_image.mk width height (Some pixels)) /\
    1 <= width <= 2 /\ 1 <= height <= 2 /\
    (width = 2 \/ height = 2) /\
    Z.of_nat (length pixels) = width * height /\
    forall x y, 0 <= x < width -> 0 <= y < height ->
      exists x_src y_src pixel,
        0 <= x_src < 4 /\ 0 <= y_src < 3 /\
        pixel_at (replicate 12 7) 4 x_src y_src = Some pixel /\
        pixel_at pixels width x y = Some pixel /\
        (4 < 2 ^ 16 -> width <= 2 ^ 16 -> x * 4 / width - 1 <= x_src <= x * 4 / width) /\
        (3 < 2 ^ 16 -> height <= 2 ^ 16 -> y * 3 / height - 1 <= y_src <= y * 3 / height).
Proof.
  apply (downscale_thumbnail_point (fun _ _ _ _ => None) 2 2 (replicate 12 7) 4 3);
    unfold UINT_MAX; simpl; lia.
Defined.

(** ** Thumbnails *)

(** The loops of [process_thumbnail] that convert the image into the
    thumbnail buffer. *)
Lemma thumbnail_copy_loops (convert : Z -> option Z) pixels data width height :
  0 <= width -> 0 <= height -> width * height <= UINT_MAX ->
  Z.of_nat (length pixels) = width * height ->
  width * height <= Z.of_nat (length data) ->
  Forall (fun pixel => is_Some (convert pixel)) pixels ->
  exists data',
    for_loop 0 width 1 (fun x data =>
      for_loop 0 height 1 (fun y data =>
        pixel ← pixels !! Z.to_nat (wrap32 (x + wrap32 (y * width)));
        texel ← convert pixel;
        array_store data (wrap32 (x + wrap32 (y * width))) texel) data) data
    = Some data' /\
    length data' = length data /\
    (forall x y, 0 <= x < width -> 0 <= y < height ->
       exists pixel,
         pixel_at pixels width x y = Some pixel /\
         Some <$> pixel_at data' width x y = Some (convert pixel)) /\
    (forall i, width * height <= Z.of_nat i -> data' !! i = data !! i).
Proof.
  intros Hw Hh Hwh Hlen Hdata Hconv.
  set (g := fun x y => default 0 (pixels !! Z.to_nat (x + y * width) ≫= convert)).
  assert (Hcell : forall x y, 0 <= x < width -> 0 <= y < height ->
            exists pixel v, pixels !! Z.to_nat (x + y * width) = Some pixel /\
              convert pixel = Some v /\ g x y = v).
  { intros x y Hx Hy. pose proof (grid_index_bound width height x y Hx Hy).
    destruct (lookup_lt_is_Some_2 pixels (Z.to_nat (x + y * width))) as [p Hp]; [lia |].
    destruct (Forall_lookup_1 _ _ _ _ Hconv Hp) as [v Hv].
    exists p, v. unfold g. rewrite Hp. simpl. by rewrite Hv. }
  destruct (store_loops
    (fun x y data =>
       pixel ← pixels !! Z.to_nat (wrap32 (x + wrap32 (y * width)));
       texel ← convert pixel;
       array_store data (wrap32 (x + wrap32 (y * width))) texel)
    (fun x y => x + y * width) g width height data)
    as (data' & Hloop & Hl' & Hset & Hrest).
  - intros x y d1 Hx Hy.
    pose proof (grid_index_bound width height x y Hx Hy).
    rewrite (wrap32_small (y * width)) by (unfold UINT_MAX in *; lia).
    rewrite (wrap32_small (x + y * width)) by (unfold UINT_MAX in *; lia).
    destruct (Hcell x y Hx Hy) as (p & v & -> & Hv & <-).
    cbn [mbind option_bind]. by rewrite Hv.
  - intros x y Hx Hy. pose proof (grid_index_bound width height x y Hx Hy). lia.
  - intros x y x' y' Hx Hy Hx' Hy' Heq. by apply (grid_index_inj width).
  - exists data'. split; [exact Hloop |]. split; [exact Hl' |]. split.
    + intros x y Hx Hy. destruct (Hcell x y Hx Hy) as (p & v & Hp & Hv & Hg).
      exists p. unfold pixel_at. replace (y * width + x) with (x + y * width) by lia.
      split; [exact Hp |]. by rewrite (Hset x y Hx Hy), Hg, Hv.
    + intros i Hi. apply Hrest. intros x y Hx Hy.
      pose proof (grid_index_bound width height x y Hx Hy). lia.
Qed.

(** X8: [process_thumbnail] leaves everything but the counter as it is when
    there is nothing to show: when more than one image is queued (only the
    counter drops, by one), when the image has no pixels or no columns or
    rows, and when the thumbnail has no buffer. *)
Theorem process_thumbnail_skips convert thumbnail_downscaler calloc_ok scaler
    rgui thumbnail queue_size image_src :
  0 <= queue_size ->
  1 < queue_size \/ texture_image.pixels image_src = None \/
  texture_image.width image_src < 1 \/ texture_image.height image_src < 1 \/
  thumbnail.data thumbnail = None ->
  process_thumbnail convert thumbnail_downscaler calloc_ok scaler rgui thumbnail
    queue_size image_src
  = Some (rgui, thumbnail, Z.max 0 (queue_size - 1)).
Proof.
  intros Hq Hskip. unfold process_thumbnail.
  destruct (Z.gtb_spec queue_size 0) as [Hpos | Hzero].
  - replace (Z.max 0 (queue_size - 1)) with (queue_size - 1) by lia.
    destruct (Z.gtb_spec (queue_size - 1) 0) as [| Hone]; [done |].
    destruct Hskip as [? | [-> | [Hw | [Hh | Hd]]]]; [lia | done | | |].
    + destruct (texture_image.pixels image_src), (thumbnail.data thumbnail); try done.
      by replace (texture_image.width image_src <? 1) with true by lia.
    + destruct (texture_image.pixels image_src), (thumbnail.data thumbnail); try done.
      replace (texture_image.height image_src <? 1) with true by lia.
      by rewrite orb_true_r.
    + rewrite Hd. by destruct (texture_image.pixels image_src).
  - replace queue_size with 0 by lia. cbn [Z.gtb Z.compare Z.max Z.sub Z.add Z.opp].
    change (Z.max 0 (-1)) with 0.
    destruct Hskip as [? | [-> | [Hw | [Hh | Hd]]]]; [lia | done | | |].
    + destruct (texture_image.pixels image_src), (thumbnail.data thumbnail); try done.
      by replace (texture_image.width image_src <? 1) with true by lia.
    + destruct (texture_image.pixels image_src), (thumbnail.data thumbnail); try done.
      replace (texture_image.height image_src <? 1) with true by lia.
      by rewrite orb_true_r.
    + rewrite Hd. by destruct (texture_image.pixels image_src).
Qed.

Lemma process_thumbnail_skips_witness :
  process_thumbnail (fun col => Some (argb32_to_rgba4444 col)) RGUI_THUMB_SCALE_POINT
    true (fun _ _ _ _ => None)
    rgui.zeroed
    (thumbnail.mk (Some (replicate 4 0)) 2 2 0 0 false) 3
    (texture_image.mk 1 1 (Some [0xFFFFFFFF]))
  = Some (rgui.zeroed,
          thumbnail.mk (Some (replicate 4 0)) 2 2 0 0 false, Z.max 0 (3 - 1)).
Proof.
  apply (process_thumbnail_skips (fun col => Some (argb32_to_rgba4444 col))
           RGUI_THUMB_SCALE_POINT true (fun _ _ _ _ => None)
           rgui.zeroed
           (thumbnail.mk (Some (replicate 4 0)) 2 2 0 0 false) 3
           (texture_image.mk 1 1 (Some [0xFFFFFFFF]))); [lia | left; lia].
Defined.

(** X9: [process_thumbnail], called for the last image queued, on an image
    that fits the thumbnail: the image is not scaled (whatever the scaler
    set), the thumbnail takes its size and becomes valid, its buffer holds
    the converted pixels in rows of the image's width (not of the maximum
    width) and is unchanged behind them, and a redraw is asked for. *)
Theorem process_thumbnail_fits convert thumbnail_downscaler calloc_ok scaler rgui
    data max_width max_height width0 height0 valid0 queue_size src w h :
  0 <= queue_size <= 1 ->
  1 <= w <= max_width -> 1 <= h <= max_height ->
  max_width * max_height <= UINT_MAX ->
  Z.of_nat (length data) = max_width * max_height ->
  Z.of_nat (length src) = w * h ->
  Forall (fun pixel => is_Some (convert pixel)) src ->
  exists data',
    process_thumbnail convert thumbnail_downscaler calloc_ok scaler rgui
      (thumbnail.mk (Some data) max_width max_height width0 height0 valid0)
      queue_size (texture_image.mk w h (Some src))
    = Some (rgui.set_force_redraw true rgui,
            thumbnail.mk (Some data') max_width max_height w h true, 0) /\
    length data' = length data /\
    (forall x y, 0 <= x < w -> 0 <= y < h ->
       exists pixel,
         pixel_at src w x y = Some pixel /\
         Some <$> pixel_at data' w x y = Some (convert pixel)) /\
    (forall i, w * h <= Z.of_nat i -> data' !! i = data !! i).
Proof.
  intros Hq Hw Hh Hmax Hdata Hsrc Hconv.
  destruct (thumbnail_copy_loops convert src data w h)
    as (data' & Hloop & Hl & Hcells & Hrest); [lia | lia | nia | done | nia | done |].
  unfold process_thumbnail.
  cbn [texture_image.pixels texture_image.width texture_image.height
       thumbnail.data thumbnail.max_width thumbnail.max_height].
  replace (if queue_size >? 0 then queue_size - 1 else queue_size) with 0
    by (destruct (Z.gtb_spec queue_size 0); lia).
  cbn [Z.gtb Z.compare].
  replace ((w <? 1) || (h <? 1)) with false by (symmetry; apply orb_false_intro; lia).
  replace ((w >? max_width) || (h >? max_height)) with false
    by (symmetry; apply orb_false_intro; lia).
  cbn [mbind option_bind texture_image.pixels texture_image.width texture_image.height].
  rewrite Hloop. cbn [mbind option_bind].
  by exists data'.
Qed.

Lemma process_thumbnail_fits_witness :
  exists data',
    process_thumbnail (fun col => Some (argb32_to_rgba4444 col)) RGUI_THUMB_SCALE_SINC
      true (fun _ _ _ _ => None)
      rgui.zeroed
      (thumbnail.mk (Some (replicate 12 0)) 4 3 0 0 false) 1
      (texture_image.mk 2 2 (Some (replicate 4 0xFFFF0000)))
    = Some (rgui.set_force_redraw true rgui.zeroed,
            thumbnail.mk (Some data') 4 3 2 2 true, 0) /\
    length data' = length (replicate 12 0) /\
    (forall x y, 0 <= x < 2 -> 0 <= y < 2 ->
       exists pixel,
         pixel_at (replicate 4 0xFFFF0000) 2 x y = Some pixel /\
         Some <$> pixel_at data' 2 x y = Some (Some (argb32_to_rgba4444 pixel))) /\
    (forall i, 2 * 2 <= Z.of_nat i -> data' !! i = replicate 12 0 !! i).
Proof.
  apply (process_thumbnail_fits (fun col => Some (argb32_to_rgba4444 col))
           RGUI_THUMB_SCALE_SINC true (fun _ _ _ _ => None)
           rgui.zeroed
           (replicate 12 0) 4 3 0 0 false 1 (replicate 4 0xFFFF0000) 2 2);
    try (unfold UINT_MAX; simpl; lia).
  apply Forall_forall. intros p _. by eexists.
Defined.

(** X10: [process_thumbnail] with the nearest neighbour downscaler, called
    for the last image queued on an image of any size: the thumbnail
    becomes valid with a size between 1 x 1 and its limits, its buffer
    keeps its length, every one of its cells is the conversion of a pixel
    of the image, and a redraw is asked for. *)
Theorem process_thumbnail_point convert scaler rgui data max_width max_height
    width0 height0 valid0 queue_size src w h :
  0 <= queue_size <= 1 ->
  1 <= w <= UINT_MAX -> 1 <= h <= UINT_MAX -> w * h <= UINT_MAX ->
  Z.of_nat (length src) = w * h ->
  Forall (fun pixel => is_Some (convert pixel)) src ->
  1 <= max_width -> 1 <= max_height -> max_width * max_height <= UINT_MAX ->
  Z.of_nat (length data) = max_width * max_height ->
  exists data' width height,
    process_thumbnail convert RGUI_THUMB_SCALE_POINT true scaler rgui
      (thumbnail.mk (Some data) max_width max_height width0 height0 valid0)
      queue_size (texture_image.mk w h (Some src))
    = Some (rgui.set_force_redraw true rgui,
            thumbnail.mk (Some data') max_width max_height width height true, 0) /\
    1 <= width <= max_width /\ 1 <= height <= max_height /\
    length data' = length data /\
    forall x y, 0 <= x < width -> 0 <= y < height ->
      exists x_src y_src pixel,
        0 <= x_src < w /\ 0 <= y_src < h /\
        pixel_at src w x_src y_src = Some pixel /\
        Some <$> pixel_at data' width x y = Some (convert pixel).
Proof.
  intros Hq Hw Hh Hwh Hsrc Hconv Hmw Hmh Hmax Hdata.
  assert (Hcopy : forall pixels width height,
            1 <= width <= max_width -> 1 <= height <= max_height ->
            Z.of_nat (length pixels) = width * height ->
            (forall x y, 0 <= x < width -> 0 <= y < height ->
               exists x_src y_src pixel,
                 0 <= x_src < w /\ 0 <= y_src < h /\
                 pixel_at src w x_src y_src = Some pixel /\
                 pixel_at pixels width x y = Some pixel) ->
            exists data',
              for_loop 0 width 1 (fun x data =>
                for_loop 0 height 1 (fun y data =>
                  pixel ← pixels !! Z.to_nat (wrap32 (x + wrap32 (y * width)));
                  texel ← convert pixel;
                  array_store data (wrap32 (x + wrap32 (y * width))) texel) data) data
              = Some data' /\
              length data' = length data /\
              forall x y, 0 <= x < width -> 0 <= y < height ->
                exists x_src y_src pixel,
                  0 <= x_src < w /\ 0 <= y_src < h /\
                  pixel_at src w x_src y_src = Some pixel /\
                  Some <$> pixel_at data' width x y = Some (convert pixel)).
  { intros pixels width height Hwd Hhd Hlen Hfrom.
    destruct (thumbnail_copy_loops convert pixels data width height)
      as (data' & Hloop & Hl & Hcells & _); [lia | lia | nia | done | nia | |].
    - apply Forall_lookup_2. intros i p Hp.
      assert (Hi : Z.of_nat i < width * height)
        by (apply lookup_lt_Some in Hp; lia).
      destruct (Hfrom (Z.of_nat i mod width) (Z.of_nat i / width))
        as (x_src & y_src & p' & _ & _ & Hp' & Hpi).
      { apply Z.mod_pos_bound; lia. }
      { split; [apply Z.div_pos; lia | apply Z.div_lt_upper_bound; lia]. }
      unfold pixel_at in Hpi.
      replace (Z.of_nat i / width * width + Z.of_nat i mod width) with (Z.of_nat i)
        in Hpi by (pose proof (Z.div_mod (Z.of_nat i) width ltac:(lia)); lia).
      rewrite Nat2Z.id, Hp in Hpi. injection Hpi as ->.
      unfold pixel_at in Hp'.
      exact (Forall_lookup_1 _ _ _ _ Hconv Hp').
    - exists data'. split; [exact Hloop |]. split; [exact Hl |].
      intros x y Hx Hy.
      destruct (Hfrom x y Hx Hy) as (x_src & y_src & p & Hxs & Hys & Hp & Hpi).
      destruct (Hcells x y Hx Hy) as (p' & Hp' & Hd).
      exists x_src, y_src, p. rewrite Hpi in Hp'. injection Hp' as <-. done. }
  unfold process_thumbnail.
  cbn [texture_image.pixels texture_image.width texture_image.height
       thumbnail.data thumbnail.max_width thumbnail.max_height].
  replace (if queue_size >? 0 then queue_size - 1 else queue_size) with 0
    by (destruct (Z.gtb_spec queue_size 0); lia).
  cbn [Z.gtb Z.compare].
  replace ((w <? 1) || (h <? 1)) with false by (symmetry; apply orb_false_intro; lia).
  destruct ((w >? max_width) || (h >? max_height)) eqn:Hbig.
  - destruct (downscale_thumbnail_point_aux scaler max_width max_height src w h
                Hw Hh Hwh Hsrc Hmw Hmh Hmax)
      as (width & height & pixels & -> & Hwd & Hhd & _ & Hlen & Hfrom).
    cbn [mbind option_bind texture_image.pixels texture_image.width
         texture_image.height].
    destruct (Hcopy pixels width height Hwd Hhd Hlen) as (data' & -> & Hl & Hcells).
    { intros x y Hx Hy.
      destruct (Hfrom x y Hx Hy) as (xs & ys & p & ? & ? & ? & ? & _).
      by exists xs, ys, p. }
    cbn [mbind option_bind]. by exists data', width, height.
  - apply orb_false_elim in Hbig as [Hbw Hbh].
    cbn [mbind option_bind texture_image.pixels texture_image.width
         texture_image.height].
    destruct (Hcopy src w h ltac:(lia) ltac:(lia) Hsrc) as (data' & -> & Hl & Hcells).
    { intros x y Hx Hy.
      destruct (lookup_lt_is_Some_2 src (Z.to_nat (y * w + x))) as [p Hp].
      { pose proof (grid_index_bound w h x y Hx Hy). lia. }
      by exists x, y, p. }
    cbn [mbind option_bind]. exists data', w, h.
    split; [reflexivity |]. split; [lia |]. split; [lia |]. done.
Qed.

Lemma process_thumbnail_point_witness :
  exists data' width height,
    process_thumbnail (fun col => Some (argb32_to_rgba4444 col)) RGUI_THUMB_SCALE_POINT
      true (fun _ _ _ _ => None)
      rgui.zeroed
      (thumbnail.mk (Some (replicate 4 0)) 2 2 0 0 false) 1
      (texture_image.mk 4 3 (Some (replicate 12 0xFFFF0000)))
    = Some (rgui.set_force_redraw true rgui.zeroed,
            thumbnail.mk (Some data') 2 2 width height true, 0) /\
    1 <= width <= 2 /\ 1 <= height <= 2 /\
    length data' = length (replicate 4 0) /\
    forall x y, 0 <= x < width -> 0 <= y < height ->
      exists x_src y_src pixel,
        0 <= x_src < 4 /\ 0 <= y_src < 3 /\
        pixel_at (replicate 12 0xFFFF0000) 4 x_src y_src = Some pixel /\
        Some <$> pixel_at data' width x y = Some (Some (argb32_to_rgba4444 pixel)).
Proof.
  apply (process_thumbnail_point (fun col => Some (argb32_to_rgba4444 col))
           (fun _ _ _ _ => None)
           rgui.zeroed
           (replicate 4 0) 2 2 0 0 false 1 (replicate 12 0xFFFF0000) 4 3);
    try (unfold UINT_MAX; simpl; lia).
  apply Forall_forall. intros p _. by eexists.
Defined.

(** ** Background and fullscreen thumbnail *)

Lemma memcpy_painted d W H row col src src_off n (f : Z -> Z) :
  frame_buf_ok d W H -> 0 <= row < H -> 0 <= col -> 0 <= n -> col + n <= W ->
  0 <= src_off -> src_off + n <= Z.of_nat (length src) ->
  (forall c, col <= c < col + n -> src !! Z.to_nat (c - col + src_off) = Some (f c)) ->
  exists d', memcpy d (row * W + col) src src_off (n * sizeof_uint16_t) = Some d' /\
    painted W H d d' (fun r c => (r =? row) && (col <=? c) && (c <? col + n))
      (fun _ c => f c).
Proof.
  intros Hok Hrow Hcol Hn Hcn Hso Hsn Hsrc.
  destruct (memcpy_row_painted d W H row col src src_off n f Hok Hrow Hcol Hn Hcn
              Hso Hsn Hsrc) as (d' & Hd' & Hp).
  exists d'. split; [| exact Hp]. rewrite <- Hd'.
  destruct Hok as (HW & HH & HWH & Hlen).
  unfold memcpy, memcpy_row, texel_offset.
  rewrite (row_offset_small W H) by lia.
  rewrite Z.div_mul by done.
  assert (0 <= row * W) by nia.
  assert (row * W + W <= W * H) by nia.
  replace ((0 <=? row * W + col) && (row * W + col + n <=? Z.of_nat (length d))
           && (0 <=? src_off) && (src_off + n <=? Z.of_nat (length src)))
    with true by (symmetry; repeat (apply andb_true_intro; split); lia).
  replace ((0 <=? row) && (row <? H) && (0 <=? col) && (col + n <=? W)
           && (row * W + col + n <=? Z.of_nat (length d)) && (0 <=? src_off)
           && (src_off + n <=? Z.of_nat (length src)))
    with true by (symmetry; repeat (apply andb_true_intro; split); lia).
  reflexivity.
Qed.

(** A loop whose iteration [k] sets the columns selected by [P] of row
    [y0 + k]. *)
Lemma rows_painted d W H (body : Z -> list Z -> option (list Z)) y0 n
    (P : Z -> bool) (f : Z -> Z -> Z) :
  frame_buf_ok d W H ->
  (forall k s, 0 <= k < n -> frame_buf_ok s W H ->
     exists s', body k s = Some s' /\
       painted W H s s' (fun r c => (r =? y0 + k) && P c) f) ->
  exists d', for_loop 0 n 1 body d = Some d' /\
    painted W H d d' (fun r c => (y0 <=? r) && (r <? y0 + n) && P c) f.
Proof.
  intros Hok Hbody. unfold for_loop.
  pose proof (for_loop_count_1 0 n) as Hn.
  set (m := trip_count 0 n 1) in *.
  destruct (iterate_inv
    (fun k d' => painted W H d d'
       (fun r c => (y0 <=? r) && (r <? y0 + Z.of_nat k) && P c) f)
    body 1 m 0 d) as (d' & Hit & Hinv).
  - eapply painted_ext; [apply painted_refl | | done].
    intros r c _ _.
    destruct (Z.leb_spec y0 r), (Z.ltb_spec r (y0 + Z.of_nat 0)); simpl; lia.
  - intros k s Hk Hinv.
    replace (0 + Z.of_nat k * 1) with (Z.of_nat k) by lia.
    destruct (Hbody (Z.of_nat k) s) as (s' & Hs' & Hp); [lia | |].
    { eapply frame_buf_ok_length; [done | apply Hinv]. }
    exists s'. split; [done |].
    eapply painted_ext; [eapply painted_trans; [apply Hinv | apply Hp] | |].
    + intros r c _ _. cbv beta. rewrite Nat2Z.inj_succ.
      destruct (P c); rewrite ?andb_false_r, ?andb_true_r; [| done].
      destruct (Z.leb_spec y0 r), (Z.ltb_spec r (y0 + Z.succ (Z.of_nat k))),
        (Z.ltb_spec r (y0 + Z.of_nat k)), (Z.eqb_spec r (y0 + Z.of_nat k));
        simpl; lia.
    + intros r c _ _ _. simpl.
      destruct ((r =? y0 + Z.of_nat k) && P c); reflexivity.
  - exists d'. split; [done |].
    eapply painted_ext; [apply Hinv | | done].
    intros r c _ _. cbv beta.
    destruct (P c); rewrite ?andb_false_r, ?andb_true_r; [| done].
    destruct (Z.leb_spec y0 r), (Z.ltb_spec r (y0 + n)),
      (Z.ltb_spec r (y0 + Z.of_nat m)); simpl; lia.
Qed.

(** [rgui_color_rect] on a rectangle given without wrap-around. *)
Lemma rgui_color_rect_rect data fb_width fb_height x y width height color :
  frame_buf_ok data fb_width fb_height -> 0 <= x -> 0 <= y ->
  0 <= width -> 0 <= height -> x + width <= UINT_MAX -> y + height <= UINT_MAX ->
  exists data',
    rgui_color_rect data fb_width fb_height x y width height color = Some data' /\
    painted fb_width fb_height data data' (in_rect x y width height)
      (fun _ _ => color).
Proof.
  intros Hok Hx Hy Hw Hh Hxw Hyh.
  destruct (rgui_color_rect_painted data fb_width fb_height x y width height color
              Hok Hx Hy) as (data' & Hd' & Hp).
  exists data'. split; [exact Hd' |].
  eapply painted_ext; [exact Hp | | done].
  intros r c Hr Hc. cbv zeta.
  rewrite !wrap32_small by lia.
  apply in_rect_eq. lia.
Qed.

(** X11: [rgui_render_background] makes the frame buffer a copy of the
    background buffer when the display reports the size of the frame
    buffer, and leaves it alone otherwise; the size of the background
    buffer is not looked at, it only has to be long enough. *)
Theorem rgui_render_background_spec fb_width fb_height fb_pitch data background
    width height b_width b_height :
  frame_buf_ok data width height ->
  width * height <= Z.of_nat (length background) ->
  rgui_render_background fb_width fb_height fb_pitch
    (frame_buf.mk (Some data) width height)
    (frame_buf.mk (Some background) b_width b_height)
  = Some (frame_buf.mk
            (Some (if (fb_width =? width) && (fb_height =? height)
                      && (fb_pitch =? 2 * width)
                   then take (Z.to_nat (width * height)) background
                   else data)) width height).
Proof.
  intros (HW & HH & HWH & Hlen) Hb. unfold rgui_render_background.
  cbn [frame_buf.data frame_buf.width frame_buf.height].
  rewrite Z.shiftl_mul_pow2 by lia. change (2 ^ 1) with 2.
  rewrite (wrap32_small (width * 2)) by (unfold UINT_MAX, INT_MAX in *; lia).
  replace (width * 2) with (2 * width) by lia.
  destruct (fb_width =? width), (fb_height =? height), (fb_pitch =? 2 * width);
    cbn [negb orb andb]; try done.
  rewrite (wrap32_small (width * height)) by nia.
  unfold memcpy, sizeof_uint16_t, wrap64.
  rewrite Z.mod_small by (unfold UINT_MAX in *; nia).
  rewrite Z.div_mul by done.
  replace ((0 <=? 0) && (0 + width * height <=? Z.of_nat (length data)) && (0 <=? 0)
           && (0 + width * height <=? Z.of_nat (length background)))
    with true by (symmetry; repeat (apply andb_true_intro; split); lia).
  cbn [mbind option_bind]. do 3 f_equal.
  change (Z.to_nat 0) with 0%nat. rewrite take_0, drop_0. cbn [app].
  rewrite drop_ge by lia. by rewrite app_nil_r.
Qed.

Lemma rgui_render_background_spec_witness :
  rgui_render_background 2 2 4 (frame_buf.mk (Some [1; 2; 3; 4]) 2 2)
    (frame_buf.mk (Some [5; 6; 7; 8; 9]) 0 0)
  = Some (frame_buf.mk
            (Some (if (2 =? 2) && (2 =? 2) && (4 =? 2 * 2)
                   then take (Z.to_nat (2 * 2)) [5; 6; 7; 8; 9]
                   else [1; 2; 3; 4])) 2 2).
Proof.
  apply (rgui_render_background_spec 2 2 4 [1; 2; 3; 4] [5; 6; 7; 8; 9] 2 2 0 0);
    unfold frame_buf_ok, INT_MAX, UINT_MAX; simpl; lia.
Defined.

(** An image centred in, or cropped to, a buffer. *)
Lemma centred_cropped size fb_size :
  0 <= size -> 0 <= fb_size ->
  let fb_offset := centred_offset size fb_size in
  let offset := cropped_offset size fb_size in
  let shown := Z.min size fb_size in
  0 <= fb_offset /\ fb_offset + shown <= fb_size /\
  0 <= offset /\ offset + shown <= size /\
  (size <= fb_size -> offset = 0) /\ (fb_size <= size -> fb_offset = 0).
Proof.
  intros Hs Hf. cbv zeta. unfold centred_offset, cropped_offset.
  destruct (Z.le_gt_cases size fb_size).
  - rewrite (Z.max_r 0 (fb_size - size)), (Z.max_l 0 (size - fb_size)) by lia.
    change (0 / 2) with 0. rewrite Z.min_l by lia.
    pose proof (Z.div_mod (fb_size - size) 2 ltac:(lia)).
    pose proof (Z.mod_pos_bound (fb_size - size) 2 ltac:(lia)). lia.
  - rewrite (Z.max_l 0 (fb_size - size)), (Z.max_r 0 (size - fb_size)) by lia.
    change (0 / 2) with 0. rewrite Z.min_r by lia.
    pose proof (Z.div_mod (size - fb_size) 2 ltac:(lia)).
    pose proof (Z.mod_pos_bound (size - fb_size) 2 ltac:(lia)). lia.
Qed.

Lemma centred_offsets_code size fb_size :
  0 <= size <= UINT_MAX -> 0 <= fb_size <= UINT_MAX ->
  (if size <=? fb_size
   then (0, Z.shiftr (wrap32 (fb_size - size)) 1, size)
   else (Z.shiftr (wrap32 (size - fb_size)) 1, 0, fb_size))
  = (cropped_offset size fb_size, centred_offset size fb_size, Z.min size fb_size).
Proof.
  intros Hs Hf. unfold centred_offset, cropped_offset.
  rewrite !Z.shiftr_div_pow2 by lia. change (2 ^ 1) with 2.
  destruct (Z.leb_spec size fb_size).
  - rewrite (Z.max_r 0 (fb_size - size)), (Z.max_l 0 (size - fb_size)) by lia.
    rewrite wrap32_small, Z.min_l by lia. reflexivity.
  - rewrite (Z.max_l 0 (fb_size - size)), (Z.max_r 0 (size - fb_size)) by lia.
    rewrite wrap32_small, Z.min_r by lia. reflexivity.
Qed.

(** An optional call of [rgui_color_rect]. *)
Lemma rgui_color_rect_if (cond : bool) data fb_width fb_height x y width height color :
  frame_buf_ok data fb_width fb_height ->
  (cond = true -> 0 <= x /\ 0 <= y /\ 0 <= width /\ 0 <= height /\
                  x + width <= UINT_MAX /\ y + height <= UINT_MAX) ->
  exists data',
    (if cond
     then rgui_color_rect data fb_width fb_height x y width height color
     else Some data) = Some data' /\
    painted fb_width fb_height data data'
      (fun r c => cond && in_rect x y width height r c) (fun _ _ => color).
Proof.
  intros Hok Hc. destruct cond.
  - destruct (Hc eq_refl) as (? & ? & ? & ? & ? & ?).
    by apply rgui_color_rect_rect.
  - exists data. split; [done |].
    eapply painted_ext; [apply painted_refl | done | done].
Qed.

(** X12: [rgui_render_fs_thumbnail] on a frame buffer of at least 2 x 2
    texels: every access is in bounds; a thumbnail that fits is centred, a
    larger one is cropped to its centre; the drop shadow, if enabled, is
    drawn to the right of and below a thumbnail that is smaller than the
    buffer; every other texel is left as it was. *)
Theorem rgui_render_fs_thumbnail_spec rgui fb_width fb_height data thumb
    max_width max_height t_width t_height :
  frame_buf_ok data fb_width fb_height -> 2 <= fb_width -> 2 <= fb_height ->
  0 <= t_width <= INT_MAX -> 0 <= t_height <= INT_MAX ->
  t_width * t_height <= UINT_MAX ->
  t_width * t_height <= Z.of_nat (length thumb) ->
  exists data',
    rgui_render_fs_thumbnail rgui fb_width fb_height (2 * fb_width)
      (thumbnail.mk (Some thumb) max_width max_height t_width t_height true)
      (frame_buf.mk (Some data) fb_width fb_height)
    = Some (frame_buf.mk (Some data') fb_width fb_height) /\
    length data' = length data /\
    forall row col, 0 <= row < fb_height -> 0 <= col < fb_width ->
      texel data' fb_width row col =
        if rgui.shadow_enable rgui
           && fs_thumbnail_shadow fb_width fb_height t_width t_height row col
        then Some (rgui_colors.shadow_color (rgui.colors rgui))
        else if fs_thumbnail_texels fb_width fb_height t_width t_height row col
        then pixel_at thumb t_width
               (col - centred_offset t_width fb_width
                + cropped_offset t_width fb_width)
               (row - centred_offset t_height fb_height
                + cropped_offset t_height fb_height)
        else texel data fb_width row col.
Proof.
  intros Hok HW2 HH2 Htw Hth Hprod Hthumb.
  pose proof Hok as (HW & HH & HWH & Hlen).
  unfold rgui_render_fs_thumbnail.
  cbn [thumbnail.is_valid thumbnail.data thumbnail.width thumbnail.height
       frame_buf.data frame_buf.width frame_buf.height].
  rewrite (centred_offsets_code t_width fb_width),
    (centred_offsets_code t_height fb_height)
    by (unfold UINT_MAX, INT_MAX in *; lia).
  cbn iota.
  pose proof (centred_cropped t_width fb_width ltac:(lia) ltac:(lia)) as Hcx.
  pose proof (centred_cropped t_height fb_height ltac:(lia) ltac:(lia)) as Hcy.
  cbv zeta in Hcx, Hcy.
  unfold fs_thumbnail_shadow, fs_thumbnail_texels. cbv zeta.
  set (fx := centred_offset t_width fb_width) in *.
  set (tx := cropped_offset t_width fb_width) in *.
  set (fy := centred_offset t_height fb_height) in *.
  set (ty := cropped_offset t_height fb_height) in *.
  set (w := Z.min t_width fb_width) in *.
  set (h := Z.min t_height fb_height) in *.
  destruct Hcx as (Hfx0 & Hfx1 & Htx0 & Htx1 & Htx2 & Hfx2).
  destruct Hcy as (Hfy0 & Hfy1 & Hty0 & Hty1 & Hty2 & Hfy2).
  assert (Hw0 : 0 <= w) by (unfold w; lia).
  assert (Hh0 : 0 <= h) by (unfold h; lia).
  rewrite Z.shiftr_div_pow2 by lia. change (2 ^ 1) with 2.
  replace (2 * fb_width / 2) with fb_width by (rewrite Z.mul_comm, Z.div_mul; lia).
  set (f := fun r c =>
    default 0 (thumb !! Z.to_nat ((r - fy + ty) * t_width + (c - fx + tx)))).
  assert (Hcell : forall r c, fy <= r < fy + h -> fx <= c < fx + w ->
            pixel_at thumb t_width (c - fx + tx) (r - fy + ty) = Some (f r c)).
  { intros r c Hr Hc. unfold pixel_at, f.
    pose proof (grid_index_bound t_width t_height (c - fx + tx) (r - fy + ty)
                  ltac:(lia) ltac:(lia)).
    destruct (lookup_lt_is_Some_2 thumb
                (Z.to_nat ((r - fy + ty) * t_width + (c - fx + tx)))) as [p Hp];
      [lia |].
    by rewrite Hp. }
  (* the copy *)
  destruct (rows_painted data fb_width fb_height
    (fun y data =>
       memcpy data (wrap64 (wrap32 (y + fy) * fb_width) + fx) thumb
         (tx + wrap32 (wrap32 (y + ty) * t_width))
         (wrap64 (w * sizeof_uint16_t)))
    fy h (fun c => (fx <=? c) && (c <? fx + w)) f Hok)
    as (data1 & -> & Hp1).
  { intros k s Hk Hs.
    assert (0 <= (k + ty) * t_width /\
            (k + ty) * t_width + t_width <= t_width * t_height) by nia.
    assert (0 <= (k + fy) * fb_width /\
            (k + fy) * fb_width + fb_width <= fb_width * fb_height) by nia.
    rewrite (wrap32_small (k + fy)), (wrap32_small (k + ty))
      by (unfold UINT_MAX, INT_MAX in *; lia).
    rewrite (wrap32_small ((k + ty) * t_width)) by (unfold UINT_MAX in *; lia).
    unfold wrap64. rewrite !Z.mod_small by (unfold UINT_MAX, INT_MAX, sizeof_uint16_t in *; lia).
    destruct (memcpy_painted s fb_width fb_height (k + fy) fx thumb
                (tx + (k + ty) * t_width) w (f (k + fy)) Hs)
      as (s' & Hs' & Hp); try lia.
    { intros c Hc. rewrite <- (Hcell (k + fy) c) by lia.
      unfold pixel_at. f_equal. lia. }
    exists s'. split; [exact Hs' |].
    eapply painted_ext; [exact Hp | |].
    - intros r c _ _. cbv beta. rewrite andb_assoc. do 3 f_equal. lia.
    - intros r c _ _ Hin. cbv beta in Hin |- *.
      apply andb_true_iff in Hin as [Hin _]. apply andb_true_iff in Hin as [Hin _].
      apply Z.eqb_eq in Hin. by subst r. }
  cbn [mbind option_bind].
  pose proof (painted_frame_buf_ok _ _ _ _ _ _ Hok Hp1) as Hok1.
  set (shadow_color := rgui_colors.shadow_color (rgui.colors rgui)).
  (* the shadow *)
  assert (Hshadow : exists data',
    (if rgui.shadow_enable rgui then
       data ←
         (if t_width <? fb_width then
            rgui_color_rect data1 fb_width fb_height
              (wrap32 (fx + t_width)) (wrap32 (fy + 2))
              (if wrap32 (fb_width - t_width) >? 2 then 2
               else wrap32 (fb_width - t_width))
              (if wrap32 (t_height + 2) <? fb_height then t_height
               else wrap32 (fb_height - 2)) shadow_color
          else Some data1);
       (if t_height <? fb_height then
          rgui_color_rect data fb_width fb_height
            (wrap32 (fx + 2)) (wrap32 (fy + t_height))
            (if wrap32 (t_width + 2) <? fb_width then t_width
             else wrap32 (fb_width - 2))
            (if wrap32 (fb_height - t_height) >? 2 then 2
             else wrap32 (fb_height - t_height)) shadow_color
        else Some data)
     else Some data1) = Some data' /\
    painted fb_width fb_height data1 data'
      (fun r c => rgui.shadow_enable rgui &&
         (((t_width <? fb_width)
           && in_rect (fx + t_width) (fy + 2) (Z.min 2 (fb_width - t_width))
                (if t_height + 2 <? fb_height then t_height else fb_height - 2) r c)
          || ((t_height <? fb_height)
              && in_rect (fx + 2) (fy + t_height)
                   (if t_width + 2 <? fb_width then t_width else fb_width - 2)
                   (Z.min 2 (fb_height - t_height)) r c)))
      (fun _ _ => shadow_color)).
  { destruct (rgui.shadow_enable rgui).
    2: { exists data1. split; [done |].
         eapply painted_ext; [apply painted_refl | done | done]. }
    rewrite (wrap32_small (fx + t_width)), (wrap32_small (fy + 2)),
      (wrap32_small (t_height + 2)), (wrap32_small (fb_height - 2)),
      (wrap32_small (fx + 2)), (wrap32_small (fy + t_height)),
      (wrap32_small (t_width + 2)), (wrap32_small (fb_width - 2))
      by (unfold UINT_MAX, INT_MAX in *; lia).
    assert (Hsw : (t_width <? fb_width) = true ->
              (if wrap32 (fb_width - t_width) >? 2 then 2
               else wrap32 (fb_width - t_width)) = Z.min 2 (fb_width - t_width)).
    { intros Hlt. apply Z.ltb_lt in Hlt.
      rewrite wrap32_small by (unfold UINT_MAX, INT_MAX in *; lia).
      destruct (Z.gtb_spec (fb_width - t_width) 2); lia. }
    assert (Hsh : (t_height <? fb_height) = true ->
              (if wrap32 (fb_height - t_height) >? 2 then 2
               else wrap32 (fb_height - t_height)) = Z.min 2 (fb_height - t_height)).
    { intros Hlt. apply Z.ltb_lt in Hlt.
      rewrite wrap32_small by (unfold UINT_MAX, INT_MAX in *; lia).
      destruct (Z.gtb_spec (fb_height - t_height) 2); lia. }
    destruct (rgui_color_rect_if (t_width <? fb_width) data1 fb_width fb_height
                (fx + t_width) (fy + 2) (Z.min 2 (fb_width - t_width))
                (if t_height + 2 <? fb_height then t_height else fb_height - 2)
                shadow_color Hok1) as (data2 & Hd2 & Hp2).
    { intros Hlt. apply Z.ltb_lt in Hlt.
      destruct (Z.ltb_spec (t_height + 2) fb_height);
        unfold UINT_MAX, INT_MAX in *; lia. }
    pose proof (painted_frame_buf_ok _ _ _ _ _ _ Hok1 Hp2) as Hok2.
    destruct (rgui_color_rect_if (t_height <? fb_height) data2 fb_width fb_height
                (fx + 2) (fy + t_height)
                (if t_width + 2 <? fb_width then t_width else fb_width - 2)
                (Z.min 2 (fb_height - t_height))
                shadow_color Hok2) as (data3 & Hd3 & Hp3).
    { intros Hlt. apply Z.ltb_lt in Hlt.
      destruct (Z.ltb_spec (t_width + 2) fb_width);
        unfold UINT_MAX, INT_MAX in *; lia. }
    exists data3. split.
    - destruct (t_width <? fb_width) eqn:E1.
      + rewrite (Hsw eq_refl), Hd2. cbn [mbind option_bind].
        destruct (t_height <? fb_height) eqn:E2; [by rewrite (Hsh eq_refl) | done].
      + injection Hd2 as <-. cbn [mbind option_bind].
        destruct (t_height <? fb_height) eqn:E2; [by rewrite (Hsh eq_refl) | done].
    - eapply painted_ext; [eapply painted_trans; [exact Hp2 | exact Hp3] | done |].
      intros r c _ _ _. cbv beta.
      by destruct ((t_height <? fb_height) && _). }
  destruct Hshadow as (data' & -> & Hp').
  cbn [mbind option_bind].
  exists data'. split; [reflexivity |].
  destruct (painted_trans _ _ _ _ _ _ _ _ _ Hp1 Hp') as [Hl Hpt].
  split; [exact Hl |].
  intros row col Hrow Hcol. rewrite (Hpt row col Hrow Hcol).
  fold shadow_color.
  match goal with |- context [rgui.shadow_enable rgui && ?s] =>
    destruct (rgui.shadow_enable rgui && s) end.
  { by rewrite orb_true_r. }
  rewrite orb_false_r.
  replace (in_rect fx fy w h row col)
    with ((fy <=? row) && (row <? fy + h) && ((fx <=? col) && (col <? fx + w)))
    by (unfold in_rect; destruct (fy <=? row), (row <? fy + h), (fx <=? col),
          (col <? fx + w); reflexivity).
  destruct ((fy <=? row) && (row <? fy + h) && ((fx <=? col) && (col <? fx + w)))
    eqn:Hin; [| done].
  symmetry. apply Hcell.
  - destruct (Z.leb_spec fy row), (Z.ltb_spec row (fy + h)); simpl in Hin; try done; lia.
  - destruct (Z.leb_spec fx col), (Z.ltb_spec col (fx + w)); simpl in Hin;
      rewrite ?andb_false_r in Hin; try done; lia.
Qed.

Lemma rgui_render_fs_thumbnail_spec_witness :
  exists data',
    rgui_render_fs_thumbnail
      (rgui.set_show_fs_thumbnail true
       (rgui.set_shadow_enable true
       (rgui.set_border_enable true
       (rgui.set_colors example_colors
       rgui.zeroed)))) 8 6 (2 * 8)
      (thumbnail.mk (Some (replicate 12 7)) 8 6 4 3 true)
      (frame_buf.mk (Some (replicate 48 0)) 8 6)
    = Some (frame_buf.mk (Some data') 8 6) /\
    length data' = length (replicate 48 0) /\
    forall row col, 0 <= row < 6 -> 0 <= col < 8 ->
      texel data' 8 row col =
        if rgui.shadow_enable
             (rgui.set_show_fs_thumbnail true
              (rgui.set_shadow_enable true
              (rgui.set_border_enable true
              (rgui.set_colors example_colors
              rgui.zeroed))))
           && fs_thumbnail_shadow 8 6 4 3 row col
        then Some (rgui_colors.shadow_color
                     (rgui.colors
                        (rgui.set_show_fs_thumbnail true
                         (rgui.set_shadow_enable true
                         (rgui.set_border_enable true
                         (rgui.set_colors example_colors
                         rgui.zeroed))))))
        else if fs_thumbnail_texels 8 6 4 3 row col
        then pixel_at (replicate 12 7) 4
               (col - centred_offset 4 8 + cropped_offset 4 8)
               (row - centred_offset 3 6 + cropped_offset 3 6)
        else texel (replicate 48 0) 8 row col.
Proof.
  apply (rgui_render_fs_thumbnail_spec
           (rgui.set_show_fs_thumbnail true
            (rgui.set_shadow_enable true
            (rgui.set_border_enable true
            (rgui.set_colors example_colors
            rgui.zeroed)))) 8 6 (replicate 48 0) (replicate 12 7) 8 6 4 3);
    unfold frame_buf_ok, INT_MAX, UINT_MAX; simpl; lia.
Defined.

(** ** Quotients of binary32 values and their comparison *)

(** The quotient of two positive normal values is within [eps] of the
    quotient of their values. *)
Lemma f32_div_value mx ex my ey :
  2 ^ 23 <= Z.pos mx < 2 ^ 24 -> 2 ^ 23 <= Z.pos my < 2 ^ 24 ->
  -149 <= ex - ey - 24 -> ex - ey - 22 <= 104 ->
  exists m e,
    f32_div (S754_finite false mx ex) (S754_finite false my ey)
      = S754_finite false m e /\
    2 ^ 23 <= Z.pos m < 2 ^ 24 /\
    (Qval (Z.pos mx) ex * (1 - eps) <= Qval (Z.pos m) e * Qval (Z.pos my) ey /\
     Qval (Z.pos m) e * Qval (Z.pos my) ey <= Qval (Z.pos mx) ex * (1 + eps))%Q.
Proof.
  intros Hmx Hmy Hlo Hhi.
  unfold f32_div, SFdiv, SFdiv_core_binary. simpl xorb.
  rewrite !pos32_digits by done.
  replace (Z.min (fexp 24 128 (24 + ex - (24 + ey))) (ex - ey))
    with (ex - ey - 24) by (unfold fexp, emin; lia).
  replace (ex - ey - (ex - ey - 24)) with 24 by lia.
  cbv iota. rewrite Z.shiftl_mul_pow2 by lia.
  set (N := Z.pos mx * 2 ^ 24).
  pose proof (Z.div_mod N (Z.pos my) ltac:(lia)) as Hdm.
  pose proof (Z.mod_pos_bound N (Z.pos my) ltac:(lia)) as Hmod.
  unfold Z.div, Z.modulo in Hdm, Hmod.
  destruct (Z.div_eucl N (Z.pos my)) as [q r].
  assert (Hq : 2 ^ 23 <= q < 2 ^ 25).
  { unfold N in Hdm. change (2 ^ 25) with (2 * 2 ^ 24).
    change (2 ^ 24) with (2 * 2 ^ 23) in *. nia. }
  assert (Hd : exists n, Zdigits2 q - 24 = n /\ 0 <= n <= 1).
  { destruct (Z_lt_dec q (2 ^ 24)).
    - exists 0. rewrite (Zdigits2_unique q 24); [lia | | lia].
      change (24 - 1) with 23. lia.
    - exists 1. rewrite (Zdigits2_unique q 25); [lia | | lia].
      change (25 - 1) with 24. lia. }
  destruct Hd as (n & Hn & Hrange).
  set (vx := Qval (Z.pos mx) ex) in *. set (vy := Qval (Z.pos my) ey) in *.
  assert (Hvy0 : (0 < vy)%Q) by (apply Qval_pos; lia).
  assert (Hvx0 : (0 < vx)%Q) by (apply Qval_pos; lia).
  pose proof (round32_rel q (ex - ey - 24) (new_location (Z.pos my) r)
                (vx / vy)) as Hr.
  cbv zeta in Hr. rewrite Hn in Hr.
  destruct Hr as (m' & e' & -> & Hm' & He' & Hv'); [lia | lia | lia | lia | |].
  { pose proof (Qval_floor q (ex - ey - 24) n ltac:(lia)) as [Hf1 Hf2].
    assert (Hx : (vx == Qval N (ex - 24))%Q).
    { unfold vx, N. rewrite <- Qval_shift by lia.
      by replace (ex - 24 + 24) with ex by lia. }
    assert (Hq1 : (Qval q (ex - ey - 24) <= vx / vy)%Q).
    { apply Qle_shift_div_l; [done |]. unfold vy. rewrite Hx, Qval_mul.
      replace (ex - ey - 24 + ey) with (ex - 24) by lia.
      apply Qval_le. nia. }
    assert (Hq2 : (vx / vy <= Qval (q + 1) (ex - ey - 24))%Q).
    { apply Qle_shift_div_r; [done |]. unfold vy. rewrite Hx, Qval_mul.
      replace (ex - ey - 24 + ey) with (ex - 24) by lia.
      apply Qval_le. nia. }
    split; lra. }
  exists m', e'. split; [done |]. split; [done |].
  assert (Hquot : (vx / vy * vy == vx)%Q) by (field; lra).
  set (v := Qval (Z.pos m') e') in *.
  set (qv := (vx / vy)%Q) in *.
  unfold eps in *.
  destruct Hv' as [Hv1 Hv2].
  split.
  - assert (qv * (1 - (1 # 8388608)) * vy <= v * vy)%Q
      by (apply Qmult_le_compat_r; lra).
    assert (qv * (1 - (1 # 8388608)) * vy == vx * (1 - (1 # 8388608)))%Q
      by (rewrite <- Hquot; ring).
    lra.
  - assert (v * vy <= qv * (1 + (1 # 8388608)) * vy)%Q
      by (apply Qmult_le_compat_r; lra).
    assert (qv * (1 + (1 # 8388608)) * vy == vx * (1 + (1 # 8388608)))%Q
      by (rewrite <- Hquot; ring).
    lra.
Qed.

(** Larger exponents give larger values. *)
Lemma Qval_exp_lt m1 e1 m2 e2 :
  2 ^ 23 <= m1 < 2 ^ 24 -> 2 ^ 23 <= m2 < 2 ^ 24 -> e1 < e2 ->
  (Qval m1 e1 < Qval m2 e2)%Q.
Proof.
  intros H1 H2 He.
  pose proof (Qval_shift m2 e1 (e2 - e1) ltac:(lia)) as Hs.
  replace (e1 + (e2 - e1)) with e2 in Hs by lia.
  rewrite Hs. unfold Qval.
  apply Qmult_lt_compat_r; [apply Qpow2_pos |].
  rewrite <- Zlt_Qlt.
  assert (2 ^ 1 <= 2 ^ (e2 - e1)) by (apply Z.pow_le_mono_r; lia).
  change (2 ^ 1) with 2 in *. change (2 ^ 24) with (2 * 2 ^ 23) in *. nia.
Qed.

(** [<] on positive normal values is [<] on their values. *)
Lemma SFltb_value m1 e1 m2 e2 :
  2 ^ 23 <= Z.pos m1 < 2 ^ 24 -> 2 ^ 23 <= Z.pos m2 < 2 ^ 24 ->
  if SFltb (S754_finite false m1 e1) (S754_finite false m2 e2)
  then (Qval (Z.pos m1) e1 < Qval (Z.pos m2) e2)%Q
  else (Qval (Z.pos m2) e2 <= Qval (Z.pos m1) e1)%Q.
Proof.
  intros H1 H2. unfold SFltb, SFcompare.
  destruct (Z.compare_spec e1 e2) as [-> | Hlt | Hgt].
  - change (Pos.compare_cont Eq m1 m2) with (Pos.compare m1 m2).
    destruct (Pos.compare_spec m1 m2) as [-> | Hlt | Hgt].
    + apply Qle_refl.
    + unfold Qval. apply Qmult_lt_compat_r; [apply Qpow2_pos |].
      rewrite <- Zlt_Qlt. lia.
    + apply Qval_le. lia.
  - by apply Qval_exp_lt.
  - apply Qlt_le_weak. by apply Qval_exp_lt.
Qed.

(** The binary32 quotient of two converted positive integers. *)
Lemma ratio_value w h :
  0 < w < 2 ^ 32 -> 0 < h < 2 ^ 32 ->
  exists m e,
    f32_div (f32_of_Z w) (f32_of_Z h) = S754_finite false m e /\
    2 ^ 23 <= Z.pos m < 2 ^ 24 /\
    (inject_Z w * ((1 - eps) * (1 - eps))
       <= Qval (Z.pos m) e * (inject_Z h * (1 + eps)) /\
     Qval (Z.pos m) e * (inject_Z h * (1 - eps))
       <= inject_Z w * ((1 + eps) * (1 + eps)))%Q.
Proof.
  intros Hw Hh.
  destruct (f32_of_Z_pos32 w Hw) as (mw & ew & -> & Hmw & Hew & Hvw).
  destruct (f32_of_Z_pos32 h Hh) as (mh & eh & -> & Hmh & Heh & Hvh).
  destruct (f32_div_value mw ew mh eh Hmw Hmh ltac:(lia) ltac:(lia))
    as (m & e & -> & Hm & Hv1 & Hv2).
  exists m, e. split; [done |]. split; [done |].
  pose proof (Qval_pos (Z.pos m) e ltac:(lia)) as Hv0.
  set (v := Qval (Z.pos m) e) in *.
  set (vw := Qval (Z.pos mw) ew) in *. set (vh := Qval (Z.pos mh) eh) in *.
  set (W := inject_Z w) in *. set (H := inject_Z h) in *.
  unfold eps in *.
  split.
  - assert (v * vh <= v * (H * (1 + (1 # 8388608))))%Q.
    { rewrite !(Qmult_comm v). apply Qmult_le_compat_r; lra. }
    lra.
  - assert (v * (H * (1 - (1 # 8388608))) <= v * vh)%Q.
    { rewrite !(Qmult_comm v). apply Qmult_le_compat_r; lra. }
    lra.
Qed.

(** Two such quotients in rational terms: if the first is found not to
    exceed the second, the cross products are as close as three roundings
    allow. *)
Lemma quotients_close (W H FW FH va vb : Q) :
  (0 < W -> 0 < H -> 0 < FW -> 0 < FH -> 0 < va -> 0 < vb ->
   FW * ((1 - eps) * (1 - eps)) <= vb * (FH * (1 + eps)) ->
   va * (H * (1 - eps)) <= W * ((1 + eps) * (1 + eps)) ->
   vb <= va ->
   FW * H * ((1 - eps) * (1 - eps) * (1 - eps))
     <= W * FH * ((1 + eps) * (1 + eps) * (1 + eps)))%Q.
Proof.
  intros HW HH HFW HFH Hva Hvb Hb Ha Hcmp.
  set (c := (1 - eps)%Q) in *. set (d := (1 + eps)%Q) in *.
  assert (Hc : (0 < c)%Q) by (unfold c, eps; lra).
  assert (Hd : (0 < d)%Q) by (unfold d, eps; lra).
  assert (HHc : (0 <= H * c)%Q) by (apply Qmult_le_0_compat; lra).
  assert (HFd : (0 <= FH * d)%Q) by (apply Qmult_le_0_compat; lra).
  assert (T1 : (FW * (c * c) * (H * c) <= vb * (FH * d) * (H * c))%Q)
    by (apply Qmult_le_compat_r; done).
  assert (T2 : (vb * (FH * d * (H * c)) <= va * (FH * d * (H * c)))%Q)
    by (apply Qmult_le_compat_r; [done | by apply Qmult_le_0_compat]).
  assert (T3 : (va * (H * c) * (FH * d) <= W * (d * d) * (FH * d))%Q)
    by (apply Qmult_le_compat_r; done).
  lra.
Qed.

(** What the comparison of two such quotients says about the integers,
    for values up to [2 ^ 16]: the one found smaller is not larger by as
    much as to change an integer quotient by one. *)
Lemma ratio_compare w h fw fh :
  0 < w <= 2 ^ 16 -> 0 < h <= 2 ^ 16 -> 0 < fw <= 2 ^ 16 -> 0 < fh <= 2 ^ 16 ->
  if SFltb (f32_div (f32_of_Z fw) (f32_of_Z fh)) (f32_div (f32_of_Z w) (f32_of_Z h))
  then h * fw < w * fh + w
  else w * fh < h * fw + h.
Proof.
  intros Hw Hh Hfw Hfh.
  destruct (ratio_value w h ltac:(lia) ltac:(lia)) as (ma & ea & -> & Hma & Ha1 & Ha2).
  destruct (ratio_value fw fh ltac:(lia) ltac:(lia))
    as (mb & eb & -> & Hmb & Hb1 & Hb2).
  pose proof (SFltb_value mb eb ma ea Hmb Hma) as Hcmp.
  pose proof (Qval_pos (Z.pos ma) ea ltac:(lia)) as Hva0.
  pose proof (Qval_pos (Z.pos mb) eb ltac:(lia)) as Hvb0.
  set (va := Qval (Z.pos ma) ea) in *. set (vb := Qval (Z.pos mb) eb) in *.
  assert (Hbound : forall n, 0 < n <= 2 ^ 16 -> (1 <= inject_Z n <= 65536)%Q).
  { intros n Hn.
    split; [change 1%Q with (inject_Z 1) | change 65536%Q with (inject_Z 65536)];
      rewrite <- Zle_Qle; lia. }
  pose proof (Hbound w Hw) as HW. pose proof (Hbound h Hh) as HH.
  pose proof (Hbound fw Hfw) as HFW. pose proof (Hbound fh Hfh) as HFH.
  destruct (SFltb (S754_finite false mb eb) (S754_finite false ma ea)).
  - destruct (Z_lt_ge_dec (h * fw) (w * fh + w)) as [| Hge]; [done | exfalso].
    assert (HgeQ : (inject_Z w * inject_Z fh + inject_Z w
                    <= inject_Z h * inject_Z fw)%Q)
      by (rewrite <- !inject_Z_mult, <- inject_Z_plus, <- Zle_Qle; lia).
    pose proof (quotients_close (inject_Z w) (inject_Z h) (inject_Z fw) (inject_Z fh)
                  va vb ltac:(lra) ltac:(lra) ltac:(lra) ltac:(lra) Hva0 Hvb0
                  Hb1 Ha2 ltac:(lra)) as Hclose.
    set (W := inject_Z w) in *. set (H := inject_Z h) in *.
    set (FW := inject_Z fw) in *. set (FH := inject_Z fh) in *.
    assert (T4 : (W * FH <= W * 65536)%Q)
      by (rewrite !(Qmult_comm W); apply Qmult_le_compat_r; lra).
    assert (T6 : ((W * FH + W) * ((1 - eps) * (1 - eps) * (1 - eps))
                  <= FW * H * ((1 - eps) * (1 - eps) * (1 - eps)))%Q)
      by (apply Qmult_le_compat_r; [lra | done]).
    assert (HWF : (0 < W * FH)%Q) by (apply Qmult_lt_0_compat; lra).
    unfold eps in *. lra.
  - destruct (Z_lt_ge_dec (w * fh) (h * fw + h)) as [| Hge]; [done | exfalso].
    assert (HgeQ : (inject_Z h * inject_Z fw + inject_Z h
                    <= inject_Z w * inject_Z fh)%Q)
      by (rewrite <- !inject_Z_mult, <- inject_Z_plus, <- Zle_Qle; lia).
    pose proof (quotients_close (inject_Z fw) (inject_Z fh) (inject_Z w) (inject_Z h)
                  vb va ltac:(lra) ltac:(lra) ltac:(lra) ltac:(lra) Hvb0 Hva0
                  Ha1 Hb2 Hcmp) as Hclose.
    set (W := inject_Z w) in *. set (H := inject_Z h) in *.
    set (FW := inject_Z fw) in *. set (FH := inject_Z fh) in *.
    assert (T4 : (H * FW <= H * 65536)%Q)
      by (rewrite !(Qmult_comm H); apply Qmult_le_compat_r; lra).
    assert (T6 : ((H * FW + H) * ((1 - eps) * (1 - eps) * (1 - eps))
                  <= W * FH * ((1 - eps) * (1 - eps) * (1 - eps)))%Q)
      by (apply Qmult_le_compat_r; [lra | done]).
    assert (HWF : (0 < H * FW)%Q) by (apply Qmult_lt_0_compat; lra).
    unfold eps in *. lra.
Qed.

(** ** The menu viewport *)

(** A length that fits a screen, centred in it. *)
Lemma centred_in_screen size full :
  1 <= size <= full -> full < 2 ^ 16 ->
  let x := to_int (wrap32 (full - size) / 2) in
  x = (full - size) / 2 /\ 0 <= x /\ x + size <= full.
Proof.
  intros Hs Hf. cbv zeta.
  rewrite wrap32_small by (unfold UINT_MAX; lia).
  assert (0 <= (full - size) / 2 <= full - size).
  { split; [apply Z.div_pos; lia |].
    pose proof (Z.div_mod (full - size) 2 ltac:(lia)).
    pose proof (Z.mod_pos_bound (full - size) 2 ltac:(lia)). lia. }
  unfold to_int. rewrite wrap32_small by (unfold UINT_MAX; lia).
  destruct (Z.ltb_spec ((full - size) / 2) (2 ^ 31)); lia.
Qed.

(** The aspect-correct size: one side of the screen, and the other one
    scaled by the ratio of the frame buffer, is inside the screen. *)
Lemma aspect_correct_size fb_width fb_height full_width full_height :
  1 <= fb_width < 2 ^ 16 -> 1 <= fb_height < 2 ^ 16 ->
  1 <= full_width < 2 ^ 16 -> 1 <= full_height < 2 ^ 16 ->
  let size :=
    if SFltb (f32_div (f32_of_Z full_width) (f32_of_Z full_height))
             (f32_div (f32_of_Z fb_width) (f32_of_Z fb_height))
    then (full_width, wrap32 (fb_height * full_width) / fb_width)
    else (wrap32 (fb_width * full_height) / fb_height, full_height) in
  0 <= size.1 <= full_width /\ 0 <= size.2 <= full_height /\
  (size = (full_width, fb_height * full_width / fb_width) \/
   size = (fb_width * full_height / fb_height, full_height)).
Proof.
  intros Hw Hh Hfw Hfh. cbv zeta.
  pose proof (ratio_compare fb_width fb_height full_width full_height
                ltac:(lia) ltac:(lia) ltac:(lia) ltac:(lia)) as Hcmp.
  assert (fb_height * full_width < 2 ^ 32 /\ fb_width * full_height < 2 ^ 32)
    as [Hp1 Hp2] by (change (2 ^ 32) with (2 ^ 16 * 2 ^ 16); split; nia).
  rewrite !wrap32_small by (unfold UINT_MAX; nia).
  destruct (SFltb _ _); cbn [fst snd].
  - assert (0 <= fb_height * full_width / fb_width) by (apply Z.div_pos; nia).
    assert (fb_height * full_width / fb_width < full_height + 1)
      by (apply Z.div_lt_upper_bound; lia).
    split; [lia |]. split; [lia |]. by left.
  - assert (0 <= fb_width * full_height / fb_height) by (apply Z.div_pos; nia).
    assert (fb_width * full_height / fb_height < full_width + 1)
      by (apply Z.div_lt_upper_bound; lia).
    split; [lia |]. split; [lia |]. by right.
Qed.

(** The viewport [rgui_update_menu_viewport] selects lies in the screen. *)
Lemma menu_viewport_in_screen ASPECT_RATIO_CUSTOM aspect_ratio_lock
    fb_width fb_height vp rgui :
  1 <= fb_width < 2 ^ 16 -> 1 <= fb_height < 2 ^ 16 ->
  1 <= video_viewport.full_width vp < 2 ^ 16 ->
  1 <= video_viewport.full_height vp < 2 ^ 16 ->
  let settings :=
    rgui.menu_video_settings
      (rgui_update_menu_viewport ASPECT_RATIO_CUSTOM aspect_ratio_lock
         fb_width fb_height vp rgui) in
  let viewport := rgui_video_settings.viewport settings in
  rgui_video_settings.aspect_ratio_idx settings = ASPECT_RATIO_CUSTOM /\
  viewport_in_screen viewport vp /\
  video_viewport.x viewport
    = (video_viewport.full_width vp - video_viewport.width viewport) / 2 /\
  video_viewport.y viewport
    = (video_viewport.full_height vp - video_viewport.height viewport) / 2.
Proof.
  intros Hw Hh Hfw Hfh. cbv zeta.
  unfold rgui_update_menu_viewport.
  set (full_width := video_viewport.full_width vp) in *.
  set (full_height := video_viewport.full_height vp) in *.
  replace ((fb_width >? 0) && (fb_height >? 0) && (full_width >? 0)
           && (full_height >? 0)) with true
    by (symmetry; repeat (apply andb_true_intro; split); lia).
  pose proof (aspect_correct_size fb_width fb_height full_width full_height
                Hw Hh Hfw Hfh) as Haspect.
  cbv zeta in Haspect.
  set (old_width := video_viewport.width
                      (rgui_video_settings.viewport (rgui.menu_video_settings rgui))).
  set (old_height := video_viewport.height
                       (rgui_video_settings.viewport (rgui.menu_video_settings rgui))).
  set (scale := if full_width / fb_width <=? full_height / fb_height
                then full_width / fb_width else full_height / fb_height).
  assert (Hscale : 0 < scale ->
            1 <= scale * fb_width <= full_width /\
            1 <= scale * fb_height <= full_height).
  { intros Hs.
    pose proof (Z.mul_div_le full_width fb_width ltac:(lia)).
    pose proof (Z.mul_div_le full_height fb_height ltac:(lia)).
    unfold scale in *.
    destruct (Z.leb_spec (full_width / fb_width) (full_height / fb_height)); nia. }
  set (aspect := if SFltb _ _ then _ else _) in *.
  match goal with
  | |- context [let '(width, height) := ?p in _] => set (size := p)
  end.
  assert (Hsize : 1 <= size.1 <= full_width /\ 1 <= size.2 <= full_height).
  { unfold size. destruct aspect as [aw ah]. cbn [fst snd] in Haspect.
    destruct aspect_ratio_lock; cbn [negb].
    - destruct (Z.ltb_spec aw 1), (Z.ltb_spec ah 1); cbn [fst snd]; lia.
    - destruct (Z.ltb_spec aw 1), (Z.ltb_spec ah 1); cbn [fst snd]; lia.
    - destruct (Z.gtb_spec scale 0) as [Hs | Hs]; cbn [negb].
      + destruct (Hscale Hs).
        rewrite !wrap32_small by (unfold UINT_MAX; lia).
        destruct (Z.ltb_spec (scale * fb_width) 1),
          (Z.ltb_spec (scale * fb_height) 1); cbn [fst snd]; lia.
      + destruct (Z.ltb_spec aw 1), (Z.ltb_spec ah 1); cbn [fst snd]; lia.
    - destruct (Z.ltb_spec full_width 1), (Z.ltb_spec full_height 1);
        cbn [fst snd]; lia. }
  destruct size as [width height]. cbn [fst snd] in Hsize.
  destruct Hsize as [Hwidth Hheight].
  destruct (centred_in_screen width full_width Hwidth ltac:(lia)) as (Ex & Hx0 & Hx1).
  destruct (centred_in_screen height full_height Hheight ltac:(lia))
    as (Ey & Hy0 & Hy1).
  cbv zeta in Ex, Hx0, Hx1, Ey, Hy0, Hy1.
  unfold viewport_in_screen.
  cbn [rgui.menu_video_settings rgui.set_menu_video_settings
       rgui_video_settings.viewport rgui_video_settings.aspect_ratio_idx
       video_viewport.x video_viewport.y video_viewport.width video_viewport.height].
  fold full_width full_height.
  repeat split; try done; lia.
Qed.

(** X13: for frame buffers and screens of less than 65536 texels a side,
    [rgui_update_menu_viewport] selects the custom aspect ratio and a
    viewport that lies in the screen, centred, whatever the lock: the
    rounding of the two aspect ratios never makes the scaled side longer
    than the screen. *)
Theorem rgui_update_menu_viewport_in_screen ASPECT_RATIO_CUSTOM aspect_ratio_lock
    fb_width fb_height vp rgui :
  1 <= fb_width < 2 ^ 16 -> 1 <= fb_height < 2 ^ 16 ->
  1 <= video_viewport.full_width vp < 2 ^ 16 ->
  1 <= video_viewport.full_height vp < 2 ^ 16 ->
  let settings :=
    rgui.menu_video_settings
      (rgui_update_menu_viewport ASPECT_RATIO_CUSTOM aspect_ratio_lock
         fb_width fb_height vp rgui) in
  let viewport := rgui_video_settings.viewport settings in
  rgui_video_settings.aspect_ratio_idx settings = ASPECT_RATIO_CUSTOM /\
  viewport_in_screen viewport vp /\
  video_viewport.x viewport
    = (video_viewport.full_width vp - video_viewport.width viewport) / 2 /\
  video_viewport.y viewport
    = (video_viewport.full_height vp - video_viewport.height viewport) / 2.
Proof. apply menu_viewport_in_screen. Qed.

Lemma rgui_update_menu_viewport_in_screen_witness :
  let settings :=
    rgui.menu_video_settings
      (rgui_update_menu_viewport 22 RGUI_ASPECT_RATIO_LOCK_FIT_SCREEN 320 240
         (video_viewport.mk 0 0 0 0 1920 1080) rgui.zeroed) in
  let viewport := rgui_video_settings.viewport settings in
  rgui_video_settings.aspect_ratio_idx settings = 22 /\
  viewport_in_screen viewport (video_viewport.mk 0 0 0 0 1920 1080) /\
  video_viewport.x viewport
    = (video_viewport.full_width (video_viewport.mk 0 0 0 0 1920 1080)
       - video_viewport.width viewport) / 2 /\
  video_viewport.y viewport
    = (video_viewport.full_height (video_viewport.mk 0 0 0 0 1920 1080)
       - video_viewport.height viewport) / 2.
Proof.
  apply (rgui_update_menu_viewport_in_screen 22 RGUI_ASPECT_RATIO_LOCK_FIT_SCREEN
           320 240 (video_viewport.mk 0 0 0 0 1920 1080) rgui.zeroed);
    simpl; lia.
Defined.

(** X14: the size [rgui_update_menu_viewport] selects, for frame buffers and
    screens of less than 65536 texels a side.  With the integer lock and a
    screen not smaller than the frame buffer it is the largest integer
    multiple of the frame buffer that fits the screen; when it fills the
    screen it is the screen; in any other case it has the width or the
    height of the screen, and the other side is that of the frame buffer
    scaled by the same factor, rounded down but at least 1. *)
Theorem rgui_update_menu_viewport_size ASPECT_RATIO_CUSTOM aspect_ratio_lock
    fb_width fb_height vp rgui :
  1 <= fb_width < 2 ^ 16 -> 1 <= fb_height < 2 ^ 16 ->
  1 <= video_viewport.full_width vp < 2 ^ 16 ->
  1 <= video_viewport.full_height vp < 2 ^ 16 ->
  let full_width := video_viewport.full_width vp in
  let full_height := video_viewport.full_height vp in
  let viewport :=
    rgui_video_settings.viewport
      (rgui.menu_video_settings
         (rgui_update_menu_viewport ASPECT_RATIO_CUSTOM aspect_ratio_lock
            fb_width fb_height vp rgui)) in
  let width := video_viewport.width viewport in
  let height := video_viewport.height viewport in
  match aspect_ratio_lock with
  | RGUI_ASPECT_RATIO_LOCK_FILL_SCREEN => width = full_width /\ height = full_height
  | RGUI_ASPECT_RATIO_LOCK_INTEGER =>
      if (fb_width <=? full_width) && (fb_height <=? full_height)
      then exists scale,
             1 <= scale /\ width = scale * fb_width /\ height = scale * fb_height /\
             (full_width < (scale + 1) * fb_width \/
              full_height < (scale + 1) * fb_height)
      else (width = full_width /\
            height = Z.max 1 (fb_height * full_width / fb_width)) \/
           (height = full_height /\
            width = Z.max 1 (fb_width * full_height / fb_height))
  | _ =>
      (width = full_width /\
       height = Z.max 1 (fb_height * full_width / fb_width)) \/
      (height = full_height /\
       width = Z.max 1 (fb_width * full_height / fb_height))
  end.
Proof.
  intros Hw Hh Hfw Hfh. cbv zeta.
  unfold rgui_update_menu_viewport.
  set (full_width := video_viewport.full_width vp) in *.
  set (full_height := video_viewport.full_height vp) in *.
  replace ((fb_width >? 0) && (fb_height >? 0) && (full_width >? 0)
           && (full_height >? 0)) with true
    by (symmetry; repeat (apply andb_true_intro; split); lia).
  pose proof (aspect_correct_size fb_width fb_height full_width full_height
                Hw Hh Hfw Hfh) as Haspect.
  cbv zeta in Haspect.
  set (old_width := video_viewport.width
                      (rgui_video_settings.viewport (rgui.menu_video_settings rgui))).
  set (old_height := video_viewport.height
                       (rgui_video_settings.viewport (rgui.menu_video_settings rgui))).
  set (scale := if full_width / fb_width <=? full_height / fb_height
                then full_width / fb_width else full_height / fb_height).
  set (aspect := if SFltb _ _ then _ else _) in *.
  assert (Haspect' :
    let width := if aspect.1 <? 1 then 1 else aspect.1 in
    let height := if aspect.2 <? 1 then 1 else aspect.2 in
    (width = full_width /\ height = Z.max 1 (fb_height * full_width / fb_width)) \/
    (height = full_height /\ width = Z.max 1 (fb_width * full_height / fb_height))).
  { cbv zeta. destruct Haspect as (Ha1 & Ha2 & [-> | ->]); cbn [fst snd] in *.
    - left. destruct (Z.ltb_spec full_width 1),
        (Z.ltb_spec (fb_height * full_width / fb_width) 1); lia.
    - right. destruct (Z.ltb_spec full_height 1),
        (Z.ltb_spec (fb_width * full_height / fb_height) 1); lia. }
  cbv zeta in Haspect'.
  destruct aspect as [aw ah]. cbn [fst snd] in Haspect'.
  destruct aspect_ratio_lock; cbn [negb]; try exact Haspect'.
  - (* integer scaling *)
    pose proof (Z.mul_div_le full_width fb_width ltac:(lia)) as Hdw.
    pose proof (Z.mul_div_le full_height fb_height ltac:(lia)) as Hdh.
    pose proof (Z.mul_succ_div_gt full_width fb_width ltac:(lia)) as Hsw.
    pose proof (Z.mul_succ_div_gt full_height fb_height ltac:(lia)) as Hsh.
    assert (Hqw : 0 <= full_width / fb_width) by (apply Z.div_pos; lia).
    assert (Hqh : 0 <= full_height / fb_height) by (apply Z.div_pos; lia).
    destruct (Z.leb_spec fb_width full_width) as [Hfitw | Hfitw];
      destruct (Z.leb_spec fb_height full_height) as [Hfith | Hfith];
      cbn [andb].
    + assert (Hscale : 1 <= scale).
      { assert (1 <= full_width / fb_width)
          by (apply Z.div_le_lower_bound; lia).
        assert (1 <= full_height / fb_height)
          by (apply Z.div_le_lower_bound; lia).
        unfold scale.
        destruct (Z.leb_spec (full_width / fb_width) (full_height / fb_height)); lia. }
      replace (scale >? 0) with true by lia.
      assert (scale * fb_width <= full_width /\ scale * fb_height <= full_height)
        as [Hsw' Hsh'].
      { unfold scale in *.
        destruct (Z.leb_spec (full_width / fb_width) (full_height / fb_height)); nia. }
      rewrite !wrap32_small by (unfold UINT_MAX; nia).
      cbn [negb rgui.menu_video_settings rgui.set_menu_video_settings
           rgui_video_settings.viewport video_viewport.width video_viewport.height].
      assert (1 <= scale * fb_width /\ 1 <= scale * fb_height) as [Hpw Hph]
        by (split; nia).
      exists scale. split; [done |].
      split; [destruct (Z.ltb_spec (scale * fb_width) 1); lia |].
      split; [destruct (Z.ltb_spec (scale * fb_height) 1); lia |].
      unfold scale.
      destruct (Z.leb_spec (full_width / fb_width) (full_height / fb_height));
        [left | right]; lia.
    + assert (full_height / fb_height = 0) as Hz by (apply Z.div_small; lia).
      assert (scale = 0) as ->.
      { unfold scale. rewrite Hz.
        destruct (Z.leb_spec (full_width / fb_width) 0); lia. }
      exact Haspect'.
    + assert (full_width / fb_width = 0) as Hz by (apply Z.div_small; lia).
      assert (scale = 0) as ->.
      { unfold scale. rewrite Hz.
        destruct (Z.leb_spec 0 (full_height / fb_height)); lia. }
      exact Haspect'.
    + assert (full_width / fb_width = 0) as Hz by (apply Z.div_small; lia).
      assert (scale = 0) as ->.
      { unfold scale. rewrite Hz.
        destruct (Z.leb_spec 0 (full_height / fb_height)); lia. }
      exact Haspect'.
  - (* fill screen *)
    cbn [rgui.menu_video_settings rgui.set_menu_video_settings
         rgui_video_settings.viewport video_viewport.width video_viewport.height].
    destruct (Z.ltb_spec full_width 1), (Z.ltb_spec full_height 1); lia.
Qed.

Lemma rgui_update_menu_viewport_size_witness :
  let full_width := video_viewport.full_width (video_viewport.mk 0 0 0 0 1920 1080) in
  let full_height := video_viewport.full_height (video_viewport.mk 0 0 0 0 1920 1080) in
  let viewport :=
    rgui_video_settings.viewport
      (rgui.menu_video_settings
         (rgui_update_menu_viewport 22 RGUI_ASPECT_RATIO_LOCK_INTEGER 320 240
            (video_viewport.mk 0 0 0 0 1920 1080) rgui.zeroed)) in
  let width := video_viewport.width viewport in
  let height := video_viewport.height viewport in
  if (320 <=? full_width) && (240 <=? full_height)
  then exists scale,
         1 <= scale /\ width = scale * 320 /\ height = scale * 240 /\
         (full_width < (scale + 1) * 320 \/ full_height < (scale + 1) * 240)
  else (width = full_width /\ height = Z.max 1 (240 * full_width / 320)) \/
       (height = full_height /\ width = Z.max 1 (320 * full_height / 240)).
Proof.
  apply (rgui_update_menu_viewport_size 22 RGUI_ASPECT_RATIO_LOCK_INTEGER 320 240
           (video_viewport.mk 0 0 0 0 1920 1080) rgui.zeroed);
    simpl; lia.
Defined.

(** ** Drawing a particle *)

(** [rgui_draw_particle] on a rectangle whose far corner is an [int]: the
    call completes, sets the texels of the rectangle that lie in the
    buffer, and returns whether there is one. *)
Lemma rgui_draw_particle_painted data fb_width fb_height x y width height color :
  frame_buf_ok data fb_width fb_height ->
  INT_MIN <= x <= INT_MAX -> INT_MIN <= y <= INT_MAX ->
  0 <= width <= UINT_MAX -> 0 <= height <= UINT_MAX ->
  x + width <= INT_MAX -> y + height <= INT_MAX ->
  exists data',
    rgui_draw_particle data fb_width fb_height x y width height color
      = Some (data', (Z.max x 0 <? Z.min (x + width) fb_width)
                     && (Z.max y 0 <? Z.min (y + height) fb_height)) /\
    painted fb_width fb_height data data' (in_rect x y width height)
      (fun _ _ => color).
Proof.
  intros Hok Hx Hy Hw Hh Hxw Hyh.
  pose proof Hok as (HW & HH & HWH & Hlen).
  unfold rgui_draw_particle.
  rewrite (to_int_small fb_width), (to_int_small fb_height),
    (to_int_small (x + width)), (to_int_small (y + height))
    by (unfold INT_MIN, INT_MAX in *; lia).
  rewrite !clamp_min_max.
  set (x_start := Z.min (Z.max x 0) fb_width).
  set (y_start := Z.min (Z.max y 0) fb_height).
  set (x_end := Z.min (Z.max (x + width) 0) fb_width).
  set (y_end := Z.min (Z.max (y + height) 0) fb_height).
  rewrite !wrap32_small
    by (subst x_start y_start x_end y_end; unfold UINT_MAX, INT_MAX in *; lia).
  destruct (poke_rect_painted data fb_width fb_height x_start x_end y_start y_end color)
    as (d' & Hd' & Hp);
    [done | subst x_start; lia | subst x_end; lia | subst y_start; lia | subst y_end; lia |].
  rewrite Hd'. simpl. exists d'. split.
  - do 2 f_equal. unfold x_start, y_start, x_end, y_end.
    destruct (Z.ltb_spec (Z.max x 0) (Z.min (x + width) fb_width)),
      (Z.ltb_spec (Z.max y 0) (Z.min (y + height) fb_height)),
      (Z.gtb_spec (Z.min (Z.max (x + width) 0) fb_width) (Z.min (Z.max x 0) fb_width)),
      (Z.gtb_spec (Z.min (Z.max (y + height) 0) fb_height) (Z.min (Z.max y 0) fb_height));
      simpl; try done; lia.
  - eapply painted_ext; [apply Hp | | done].
    intros r c Hr Hc. unfold in_rect, x_start, y_start, x_end, y_end.
    destruct (Z.leb_spec x c), (Z.ltb_spec c (x + width)), (Z.leb_spec y r),
      (Z.ltb_spec r (y + height)), (Z.leb_spec (Z.min (Z.max x 0) fb_width) c),
      (Z.ltb_spec c (Z.min (Z.max x 0) fb_width
                     + (Z.min (Z.max (x + width) 0) fb_width
                        - Z.min (Z.max x 0) fb_width))),
      (Z.leb_spec (Z.min (Z.max y 0) fb_height) r),
      (Z.ltb_spec r (Z.min (Z.max y 0) fb_height
                     + (Z.min (Z.max (y + height) 0) fb_height
                        - Z.min (Z.max y 0) fb_height)));
      simpl; lia.
Qed.

(** ** The rain drops that are updated and drawn *)

Section RainDrops.
Local Arguments f32_of_Z : simpl never.
Local Arguments Nat.mul : simpl never.

Lemma rain_resets_app W H ps qs :
  rain_resets W H (ps ++ qs) = (rain_resets W H ps + rain_resets W H qs)%nat.
Proof. induction ps as [| p ps IH]; simpl; [done |]. rewrite IH. lia. Qed.

Lemma rain_new_drop_Some fb_width b r1 r2 r3 :
  3 <= fb_width -> 0 <= r2 ->
  is_Some (rain_new_drop fb_width b r1 r2 r3).
Proof.
  intros HW Hr2. unfold rain_new_drop.
  assert (0 < fb_width / 3) by (apply Z.div_str_pos; lia).
  destruct (Z.eqb_spec (fb_width / 3) 0); [lia |].
  assert (Hrem : 0 <= Z.rem r2 60 < 60) by (apply Z.rem_bound_pos; lia).
  assert (Hw : wrap32 (Z.rem r2 60) = Z.rem r2 60)
    by (apply wrap32_small; unfold UINT_MAX; lia).
  rewrite Hw.
  destruct (lookup_lt_is_Some_2 weights (Z.to_nat (Z.rem r2 60))) as [w Hlk].
  { change (length weights) with 60%nat. lia. }
  rewrite Hlk. simpl. by eexists.
Qed.

(** The loop of the update step on a pool whose first [num_drops] drops
    can be drawn. *)
Lemma rain_render_spec fb_width fb_height global_speed_factor particle_color
    particles data rnd num_drops :
  rain_num_drops fb_width = Some num_drops ->
  frame_buf_ok data fb_width fb_height -> 3 <= fb_width ->
  num_drops <= Z.of_nat (length particles) ->
  (forall i p, 0 <= i < num_drops -> particles !! Z.to_nat i = Some p ->
     rain_drop_drawable p = true) ->
  exists particles' data' rnd',
    rgui_render_particle_effect_rain fb_width fb_height global_speed_factor
      particle_color (particles, data, rnd) = Some (particles', data', rnd') /\
    length particles' = length particles /\
    painted fb_width fb_height data data'
      (fun row col => existsb (fun p => rain_drop_covers p row col)
                        (take (Z.to_nat num_drops) particles))
      (fun _ _ => particle_color) /\
    (forall i p, 0 <= i < num_drops -> particles !! Z.to_nat i = Some p ->
       particles' !! Z.to_nat i
       = rain_drop_after fb_width fb_height global_speed_factor rnd
           (take (Z.to_nat i) particles) p) /\
    (forall i, num_drops <= i ->
       particles' !! Z.to_nat i = particles !! Z.to_nat i) /\
    (forall j, rnd' j
       = rnd (j + 3 * rain_resets fb_width fb_height
                        (take (Z.to_nat num_drops) particles))%nat).
Proof.
  intros Hn Hok HW Hlen Hdrawable.
  pose proof (rain_num_drops_range _ _ Hn) as Hrange.
  unfold rgui_render_particle_effect_rain. rewrite Hn. simpl. unfold for_loop.
  pose proof (for_loop_count_1 0 num_drops) as Hcount.
  set (N := trip_count 0 num_drops 1) in *.
  assert (HN : N = Z.to_nat num_drops) by lia.
  set (covered := fun (k : nat) (row col : Z) =>
    existsb (fun p => rain_drop_covers p row col) (take k particles)).
  set (resets := fun (k : nat) => rain_resets fb_width fb_height (take k particles)).
  pose (Inv := fun (k : nat) (st : effect_state) =>
    length st.1.1 = length particles /\
    painted fb_width fb_height data st.1.2 (covered k) (fun _ _ => particle_color) /\
    (forall i p, (i < k)%nat -> particles !! i = Some p ->
       st.1.1 !! i = rain_drop_after fb_width fb_height global_speed_factor rnd
                       (take i particles) p) /\
    (forall i, (k <= i)%nat -> st.1.1 !! i = particles !! i) /\
    (forall j, st.2 j = rnd (j + 3 * resets k)%nat)).
  destruct (iterate_inv Inv
    (fun i (st : effect_state) =>
       let '(particles, data, rnd) := st in
       particle ← particles !! Z.to_nat i;
       let '(rgui_particle.mk a b c d) := particle in
       x ← to_signed a;
       y ← to_signed b;
       height ← to_unsigned c;
       '(data, on_screen) ← rgui_draw_particle data fb_width fb_height x y
                               2 height particle_color;
       let b := f32_add b (f32_mul d global_speed_factor) in
       if (on_screen : bool) then
         Some (<[Z.to_nat i := rgui_particle.mk a b c d]> particles, data, rnd)
       else
         let '(r1, rnd) := rand rnd in
         let '(r2, rnd) := rand rnd in
         let '(r3, rnd) := rand rnd in
         particle ← rain_new_drop fb_width (f32_of_Z 0) r1 r2 r3;
         Some (<[Z.to_nat i := particle]> particles, data, rnd))
    1 N 0 (particles, data, rnd)) as ([[ps' d'] g'] & Hrun & Hfinal).
  - (* the invariant holds at the start *)
    unfold Inv. simpl. split; [done |]. split.
    { eapply painted_ext; [apply painted_refl | | done].
      intros r c _ _. done. }
    split; [intros; lia |]. split; [done |].
    intros j. unfold resets. simpl. f_equal. lia.
  - (* one iteration *)
    intros k [[ps dk] g] Hk (Hl & Hpaint & Hbelow & Habove & Hrnd).
    simpl in Hl, Hpaint, Hbelow, Habove, Hrnd.
    replace (0 + Z.of_nat k * 1) with (Z.of_nat k) by lia.
    rewrite Nat2Z.id.
    destruct (lookup_lt_is_Some_2 particles k) as [p Hp]; [lia |].
    rewrite (Habove k), Hp by lia. simpl.
    pose proof (Hdrawable (Z.of_nat k) p) as Hd.
    rewrite Nat2Z.id in Hd. specialize (Hd ltac:(lia) Hp).
    assert (Htake : take (Datatypes.S k) particles = take k particles ++ [p])
      by (by apply take_S_r).
    assert (Hcov : forall r c, covered (Datatypes.S k) r c
                     = covered k r c || rain_drop_covers p r c).
    { intros r c. unfold covered. rewrite Htake, existsb_app. simpl.
      by rewrite orb_false_r. }
    assert (Hres : resets (Datatypes.S k)
                   = (resets k + if rain_drop_on_screen fb_width fb_height p
                                 then 0 else 1)%nat).
    { unfold resets. rewrite Htake, rain_resets_app. simpl. lia. }
    assert (Hafter : rain_drop_after fb_width fb_height global_speed_factor rnd
                       (take k particles) p
                     = if rain_drop_on_screen fb_width fb_height p then
                         Some (rgui_particle.mk (rgui_particle.a p)
                                 (f32_add (rgui_particle.b p)
                                    (f32_mul (rgui_particle.d p) global_speed_factor))
                                 (rgui_particle.c p) (rgui_particle.d p))
                       else rain_new_drop fb_width (f32_of_Z 0)
                              (Z.of_N (g O)) (Z.of_N (g (Datatypes.S O)))
                              (Z.of_N (g (Datatypes.S (Datatypes.S O))))).
    { unfold rain_drop_after. fold (resets k). rewrite !Hrnd.
      destruct (rain_drop_on_screen fb_width fb_height p); [done |].
      by replace (0 + 3 * resets k)%nat with (3 * resets k)%nat by lia. }
    unfold rain_drop_covers in Hcov.
    unfold rain_drop_on_screen in Hres, Hafter.
    unfold rain_drop_drawable in Hd.
    destruct p as [a b c d]. simpl in *.
    destruct (to_signed a) as [x |] eqn:Hx; [| done].
    destruct (to_signed b) as [y |] eqn:Hy; [| done].
    destruct (to_unsigned c) as [height |] eqn:Hh; [| done].
    simpl.
    apply andb_prop in Hd as [Hxw Hyh].
    apply Z.leb_le in Hxw. apply Z.leb_le in Hyh.
    destruct (rgui_draw_particle_painted dk fb_width fb_height x y 2 height
                particle_color) as (dk' & Hdraw & Hpart);
      [eapply painted_frame_buf_ok; [exact Hok | exact Hpaint]
      | by eapply to_signed_range | by eapply to_signed_range
      | unfold UINT_MAX; lia | by eapply to_unsigned_range | done | done |].
    rewrite Hdraw. simpl.
    assert (Hpaint' : painted fb_width fb_height data dk' (covered (Datatypes.S k))
                        (fun _ _ => particle_color)).
    { eapply painted_ext; [eapply painted_trans; [exact Hpaint | exact Hpart] | |].
      - intros row col _ _. by rewrite Hcov.
      - intros row col _ _ _. simpl. by destruct (in_rect _ _ _ _ _ _). }
    destruct ((Z.max x 0 <? Z.min (x + 2) fb_width)
              && (Z.max y 0 <? Z.min (y + height) fb_height)) eqn:Hon.
    + eexists. split; [reflexivity |].
      unfold Inv. simpl. split; [by rewrite length_insert |].
      split; [exact Hpaint' |]. split; [| split].
      * intros i q Hi Hq. destruct (decide (i = k)) as [-> | Hne].
        -- rewrite list_lookup_insert_eq by lia.
           rewrite Hp in Hq. injection Hq as <-. by rewrite Hafter.
        -- rewrite list_lookup_insert_ne by done. apply Hbelow; [lia | done].
      * intros i Hi. rewrite list_lookup_insert_ne by lia. apply Habove. lia.
      * intros j. rewrite Hrnd, Hres. f_equal. lia.
    + destruct (rain_new_drop_Some fb_width (f32_of_Z 0) (Z.of_N (g O))
                  (Z.of_N (g (Datatypes.S O)))
                  (Z.of_N (g (Datatypes.S (Datatypes.S O))))) as [q Hq];
        [done | lia |].
      rewrite Hq. simpl.
      eexists. split; [reflexivity |].
      unfold Inv. simpl. split; [by rewrite length_insert |].
      split; [exact Hpaint' |]. split; [| split].
      * intros i q' Hi Hq'. destruct (decide (i = k)) as [-> | Hne].
        -- rewrite list_lookup_insert_eq by lia.
           rewrite Hp in Hq'. injection Hq' as <-. by rewrite Hafter.
        -- rewrite list_lookup_insert_ne by done. apply Hbelow; [lia | done].
      * intros i Hi. rewrite list_lookup_insert_ne by lia. apply Habove. lia.
      * intros j. rewrite !Hrnd, Hres. f_equal. lia.
  - (* after the loop *)
    destruct Hfinal as (Hl & Hpaint & Hbelow & Habove & Hrnd).
    simpl in Hl, Hpaint, Hbelow, Habove, Hrnd.
    exists ps', d', g'. split; [exact Hrun |]. split; [done |].
    split; [by rewrite <- HN |]. split; [| split].
    + intros i p Hi Hp. apply Hbelow; [lia | done].
    + intros i Hi. apply Habove. lia.
    + intros j. rewrite Hrnd. unfold resets. by rewrite HN.
Qed.

(** The loop of the initialisation. *)
Lemma rain_init_spec fb_width fb_height particles rnd num_drops :
  rain_num_drops fb_width = Some num_drops ->
  3 <= fb_width -> 0 < fb_height ->
  num_drops <= Z.of_nat (length particles) ->
  exists particles' rnd',
    rgui_init_particle_effect_rain fb_width fb_height (particles, rnd)
      = Some (particles', rnd') /\
    length particles' = length particles /\
    (forall i, 0 <= i < num_drops ->
       is_Some (particles' !! Z.to_nat i) /\
       particles' !! Z.to_nat i
       = rain_drop_initial fb_width fb_height rnd (Z.to_nat i)) /\
    (forall i, num_drops <= i ->
       particles' !! Z.to_nat i = particles !! Z.to_nat i) /\
    (forall j, rnd' j = rnd (j + 4 * Z.to_nat num_drops)%nat).
Proof.
  intros Hn HW HH Hlen.
  pose proof (rain_num_drops_range _ _ Hn) as Hrange.
  unfold rgui_init_particle_effect_rain. rewrite Hn. simpl. unfold for_loop.
  pose proof (for_loop_count_1 0 num_drops) as Hcount.
  set (N := trip_count 0 num_drops 1) in *.
  assert (HN : N = Z.to_nat num_drops) by lia.
  pose (Inv := fun (k : nat) (st : list rgui_particle_t * rng) =>
    length st.1 = length particles /\
    (forall i, (i < k)%nat ->
       is_Some (st.1 !! i) /\
       st.1 !! i = rain_drop_initial fb_width fb_height rnd i) /\
    (forall i, (k <= i)%nat -> st.1 !! i = particles !! i) /\
    (forall j, st.2 j = rnd (j + 4 * k)%nat)).
  destruct (iterate_inv Inv
    (fun i (st : list rgui_particle_t * rng) =>
       let '(particles, rnd) := st in
       particle ← particles !! Z.to_nat i;
       let '(r1, rnd) := rand rnd in
       let '(r2, rnd) := rand rnd in
       let '(r3, rnd) := rand rnd in
       let '(r4, rnd) := rand rnd in
       if fb_height =? 0 then None else
       particle ← rain_new_drop fb_width (f32_of_Z (r2 mod fb_height)) r1 r3 r4;
       Some (<[Z.to_nat i := particle]> particles, rnd))
    1 N 0 (particles, rnd)) as ([ps' g'] & Hrun & Hfinal).
  - unfold Inv. simpl. split; [done |]. split; [intros; lia |]. split; [done |].
    intros j. f_equal. lia.
  - intros k [ps g] Hk (Hl & Hbelow & Habove & Hrnd).
    simpl in Hl, Hbelow, Habove, Hrnd.
    replace (0 + Z.of_nat k * 1) with (Z.of_nat k) by lia.
    rewrite Nat2Z.id.
    destruct (lookup_lt_is_Some_2 particles k) as [p Hp]; [lia |].
    rewrite (Habove k), Hp by lia. simpl.
    destruct (Z.eqb_spec fb_height 0); [lia |].
    destruct (rain_new_drop_Some fb_width
                (f32_of_Z (Z.of_N (g (Datatypes.S O)) mod fb_height))
                (Z.of_N (g O)) (Z.of_N (g (Datatypes.S (Datatypes.S O))))
                (Z.of_N (g (Datatypes.S (Datatypes.S (Datatypes.S O))))))
      as [q Hq]; [done | lia |].
    rewrite Hq. simpl.
    eexists. split; [reflexivity |].
    unfold Inv. simpl. split; [by rewrite length_insert |]. split; [| split].
    + intros i Hi. destruct (decide (i = k)) as [-> | Hne].
      * rewrite list_lookup_insert_eq by lia. split; [by eexists |].
        rewrite <- Hq. unfold rain_drop_initial. rewrite !Hrnd.
        by replace (0 + 4 * k)%nat with (4 * k)%nat by lia.
      * rewrite list_lookup_insert_ne by done. apply Hbelow. lia.
    + intros i Hi. rewrite list_lookup_insert_ne by lia. apply Habove. lia.
    + intros j. rewrite Hrnd. f_equal. lia.
  - destruct Hfinal as (Hl & Hbelow & Habove & Hrnd).
    simpl in Hl, Hbelow, Habove, Hrnd.
    exists ps', g'. split; [exact Hrun |]. split; [done |]. split; [| split].
    + intros i Hi. apply Hbelow. lia.
    + intros i Hi. apply Habove. lia.
    + intros j. rewrite Hrnd. by rewrite HN.
Qed.

End RainDrops.

(** C9: the rain effect works on [num_drops] particles, where [num_drops]
    is min(256, trunc(0.85 * (fb_width / 426) * 256)) for every [unsigned]
    width (the single precision computation of the code gives the value of
    the exact formula, and its conversion to [unsigned] is always defined);
    a width of 426 gives 217 drops and a width of 213 gives 108.  An update
    step on a pool whose first [num_drops] drops can be drawn completes;
    it draws every drop below [num_drops] -- the frame buffer afterwards
    is the one before with the texels of these drops' rectangles in the
    particle colour -- and updates every one of them: a drop on screen has
    fallen by its speed, a drop off screen is a fresh drop at the top, made
    from the next three values of [rand()].  The initialisation replaces
    every drop below [num_drops] by a fresh one from four values of
    [rand()].  Both leave the particles from [num_drops] on as they are,
    and the frame buffer, the random values consumed and the active
    particles after a step are the same whatever these particles are. *)
Theorem rain_active_drops :
  (forall fb_width, 0 <= fb_width <= UINT_MAX ->
     rain_num_drops fb_width = Some (spec_num_drops fb_width)) /\
  rain_num_drops 426 = Some 217 /\
  rain_num_drops 213 = Some 108 /\
  (forall fb_width fb_height global_speed_factor particle_color
          particles data rnd num_drops,
     rain_num_drops fb_width = Some num_drops ->
     frame_buf_ok data fb_width fb_height -> 3 <= fb_width ->
     num_drops <= Z.of_nat (length particles) ->
     (forall i p, 0 <= i < num_drops -> particles !! Z.to_nat i = Some p ->
        rain_drop_drawable p = true) ->
     exists particles' data' rnd',
       rgui_render_particle_effect_rain fb_width fb_height global_speed_factor
         particle_color (particles, data, rnd) = Some (particles', data', rnd') /\
       length particles' = length particles /\
       painted fb_width fb_height data data'
         (fun row col => existsb (fun p => rain_drop_covers p row col)
                           (take (Z.to_nat num_drops) particles))
         (fun _ _ => particle_color) /\
       (forall i p, 0 <= i < num_drops -> particles !! Z.to_nat i = Some p ->
          particles' !! Z.to_nat i
          = rain_drop_after fb_width fb_height global_speed_factor rnd
              (take (Z.to_nat i) particles) p) /\
       (forall i, num_drops <= i ->
          particles' !! Z.to_nat i = particles !! Z.to_nat i) /\
       (forall j, rnd' j
          = rnd (j + 3 * rain_resets fb_width fb_height
                           (take (Z.to_nat num_drops) particles))%nat)) /\
  (forall fb_width fb_height particles rnd num_drops,
     rain_num_drops fb_width = Some num_drops ->
     3 <= fb_width -> 0 < fb_height ->
     num_drops <= Z.of_nat (length particles) ->
     exists particles' rnd',
       rgui_init_particle_effect_rain fb_width fb_height (particles, rnd)
         = Some (particles', rnd') /\
       length particles' = length particles /\
       (forall i, 0 <= i < num_drops ->
          is_Some (particles' !! Z.to_nat i) /\
          particles' !! Z.to_nat i
          = rain_drop_initial fb_width fb_height rnd (Z.to_nat i)) /\
       (forall i, num_drops <= i ->
          particles' !! Z.to_nat i = particles !! Z.to_nat i) /\
       (forall j, rnd' j = rnd (j + 4 * Z.to_nat num_drops)%nat)) /\
  (forall fb_width fb_height global_speed_factor particle_color
          particles data rnd particles' data' rnd' num_drops,
     rain_num_drops fb_width = Some num_drops ->
     rgui_render_particle_effect_rain fb_width fb_height global_speed_factor
       particle_color (particles, data, rnd) = Some (particles', data', rnd') ->
     (forall i, num_drops <= i ->
        particles' !! Z.to_nat i = particles !! Z.to_nat i) /\
     (forall others, agree_below num_drops particles others ->
        exists others',
          rgui_render_particle_effect_rain fb_width fb_height
            global_speed_factor particle_color (others, data, rnd)
            = Some (others', data', rnd') /\
          agree_below num_drops particles' others')) /\
  (forall fb_width fb_height particles rnd particles' rnd' num_drops,
     rain_num_drops fb_width = Some num_drops ->
     rgui_init_particle_effect_rain fb_width fb_height (particles, rnd)
       = Some (particles', rnd') ->
     forall i, num_drops <= i ->
       particles' !! Z.to_nat i = particles !! Z.to_nat i).
Proof.
  split; [exact rain_num_drops_spec |].
  split; [by vm_compute |]. split; [by vm_compute |].
  split; [exact rain_render_spec |]. split; [exact rain_init_spec |]. split.
  - intros W H gsf color ps data rnd ps' data' rnd' n Hn Hrender. split.
    + by eapply rain_render_tail.
    + intros others Hag. by eapply rain_render_independent.
  - intros W H ps rnd ps' rnd' n Hn Hinit. by eapply rain_init_tail.
Qed.

Lemma rain_active_drops_witness :
  exists particles' data' rnd',
    rgui_render_particle_effect_rain 16 12 (f32_of_Z 1) 7
      (replicate 256 falling_drop, replicate 192 0, zero_rng)
      = Some (particles', data', rnd') /\
    length particles' = length (replicate 256 falling_drop) /\
    painted 16 12 (replicate 192 0) data'
      (fun row col => existsb (fun p => rain_drop_covers p row col)
                        (take (Z.to_nat 8) (replicate 256 falling_drop)))
      (fun _ _ => 7) /\
    (forall i p, 0 <= i < 8 ->
       replicate 256 falling_drop !! Z.to_nat i = Some p ->
       particles' !! Z.to_nat i
       = rain_drop_after 16 12 (f32_of_Z 1) zero_rng
           (take (Z.to_nat i) (replicate 256 falling_drop)) p) /\
    (forall i, 8 <= i ->
       particles' !! Z.to_nat i = replicate 256 falling_drop !! Z.to_nat i) /\
    (forall j, rnd' j
       = zero_rng (j + 3 * rain_resets 16 12
                             (take (Z.to_nat 8) (replicate 256 falling_drop)))%nat).
Proof.
  apply (proj1 (proj2 (proj2 (proj2 rain_active_drops)))
           16 12 (f32_of_Z 1) 7 (replicate 256 falling_drop) (replicate 192 0)
           zero_rng 8).
  - by vm_compute.
  - unfold frame_buf_ok, INT_MAX, UINT_MAX. simpl. lia.
  - lia.
  - rewrite length_replicate. lia.
  - intros i p _ Hp. apply lookup_replicate in Hp as [-> _]. by vm_compute.
Defined.

(** ** Values of floating-point numbers *)

Lemma Qval_lt m m' e : m < m' -> (Qval m e < Qval m' e)%Q.
Proof.
  intros Hm. unfold Qval. apply Qmult_lt_compat_r; [apply Qpow2_pos |].
  by rewrite <- Zlt_Qlt.
Qed.

Lemma Qval_le_inv m m' e : (Qval m e <= Qval m' e)%Q -> m <= m'.
Proof.
  intros H. destruct (Z_le_gt_dec m m') as [| Hgt]; [done |].
  apply Z.gt_lt, (Qval_lt _ _ e), Qlt_not_le in Hgt. done.
Qed.

Lemma Qval_lt_inv m m' e : (Qval m e < Qval m' e)%Q -> m < m'.
Proof.
  intros H. destruct (Z_lt_ge_dec m m') as [| Hge]; [done |].
  apply Z.ge_le, (Qval_le _ _ e), Qle_not_lt in Hge. done.
Qed.

Lemma Qval_add a b e : (Qval a e + Qval b e == Qval (a + b) e)%Q.
Proof.
  unfold Qval. rewrite inject_Z_plus.
  generalize (2 ^ e)%Q (inject_Z a) (inject_Z b). intros p c d. ring.
Qed.

Lemma Qval_opp a e : (Qval (- a) e == - Qval a e)%Q.
Proof.
  unfold Qval. rewrite inject_Z_opp.
  generalize (2 ^ e)%Q (inject_Z a). intros p c. ring.
Qed.

Lemma Qval_0 e : (Qval 0 e == 0)%Q.
Proof. unfold Qval. change (inject_Z 0) with 0%Q. ring. Qed.

Lemma Qval_int n : (Qval n 0 == inject_Z n)%Q.
Proof. unfold Qval. change (2 ^ 0)%Q with 1%Q. ring. Qed.

Lemma Qval_nonneg m e : 0 <= m -> (0 <= Qval m e)%Q.
Proof. intros Hm. rewrite <- (Qval_0 e). by apply Qval_le. Qed.

(** A larger exponent gives a larger value. *)
Lemma Qval_exp_le m e e' : 0 <= m -> e <= e' -> (Qval m e <= Qval m e')%Q.
Proof.
  intros Hm He.
  pose proof (Qval_shift m e (e' - e) ltac:(lia)) as Hs.
  replace (e + (e' - e)) with e' in Hs by lia. rewrite Hs.
  apply Qval_le.
  assert (0 < 2 ^ (e' - e)) by (apply Z.pow_pos_nonneg; lia). nia.
Qed.

(** The same value at a smaller exponent. *)
Lemma Qval_align m e e' : e' <= e -> (Qval m e == Qval (m * 2 ^ (e - e')) e')%Q.
Proof.
  intros He. rewrite <- Qval_shift by lia. by replace (e' + (e - e')) with e by lia.
Qed.

(** A value bounded by a mantissa of [P] digits has no more digits above
    the point than the bound. *)
Lemma Qval_digits_le a ea b eb P :
  0 < a -> 0 < b < 2 ^ P -> 0 <= P -> (Qval a ea <= Qval b eb)%Q ->
  Zdigits2 a + ea <= P + eb.
Proof.
  intros Ha Hb HP Hle.
  assert (Hd : 2 ^ (Zdigits2 a - 1) <= a < 2 ^ Zdigits2 a).
  { destruct a as [| p |]; try lia. apply digits2_pos_bounds. }
  assert (Hdpos : 0 < Zdigits2 a) by (destruct a; simpl; lia).
  destruct (Z_le_gt_dec (Zdigits2 a + ea) (P + eb)) as [| Hgt]; [done |].
  exfalso. apply (Qle_not_lt _ _ Hle).
  apply Qlt_le_trans with (Qval (2 ^ P) eb); [apply Qval_lt; lia |].
  apply Qle_trans with (Qval (2 ^ (Zdigits2 a - 1)) ea); [| apply Qval_le; lia].
  pose proof (Qval_shift 1 eb P HP) as H1.
  pose proof (Qval_shift 1 ea (Zdigits2 a - 1) ltac:(lia)) as H2.
  rewrite !Z.mul_1_l in H1, H2. rewrite <- H1, <- H2.
  apply Qval_exp_le; lia.
Qed.

(** ** Rounding an exact value

    [binary_round_aux] at [loc_Exact], for every positive mantissa and
    every exponent: the result is a zero, an infinity or a number of the
    format; a mantissa that fits is kept as it is; and rounding does not
    pass a number of the format that bounds the value from above. *)

Section RoundExact.
Variables prec emax : Z.
Hypothesis Hprec : 0 < prec.

Lemma mod_pow_split a p q :
  0 <= p -> 0 <= q -> a mod 2 ^ (p + q) = 0 ->
  a mod 2 ^ p = 0 /\ (a / 2 ^ p) mod 2 ^ q = 0.
Proof.
  intros Hp Hq H. rewrite Z.pow_add_r in H by done.
  assert (0 < 2 ^ p) by (apply Z.pow_pos_nonneg; lia).
  assert (0 < 2 ^ q) by (apply Z.pow_pos_nonneg; lia).
  pose proof (Z.div_mod a (2 ^ p * 2 ^ q) ltac:(lia)) as Ha.
  rewrite H, Z.add_0_r in Ha.
  set (k := a / (2 ^ p * 2 ^ q)) in *.
  assert (Ha' : a = k * 2 ^ q * 2 ^ p) by (rewrite Ha at 1; ring).
  split.
  - rewrite Ha'. by apply Z.mod_mul; lia.
  - rewrite Ha', Z.div_mul by lia. apply Z.mod_mul; lia.
Qed.

Lemma shr_1_exact m :
  0 <= m -> m mod 2 = 0 ->
  shr_1 (Build_shr_record m false false) = Build_shr_record (m / 2) false false.
Proof.
  intros Hm Hmod. destruct m as [| [p | p |] | p]; try lia; simpl.
  - done.
  - exfalso. change (Z.pos p~1) with (2 * Z.pos p + 1) in Hmod. zmod.
  - f_equal. change (Z.pos p~0) with (2 * Z.pos p). zmod.
  - done.
Qed.

Lemma iter_shr_1_exact p m :
  0 <= m -> m mod 2 ^ Z.pos p = 0 ->
  SpecFloat.iter_pos shr_1 p (Build_shr_record m false false)
  = Build_shr_record (m / 2 ^ Z.pos p) false false.
Proof.
  revert m. induction p as [p IH | p IH |]; intros m Hm Hmod; cbn [SpecFloat.iter_pos].
  - change (Z.pos p~1) with (2 * Z.pos p + 1) in *.
    replace (2 * Z.pos p + 1) with (1 + (Z.pos p + Z.pos p)) in * by lia.
    apply mod_pow_split in Hmod as [H1 H2]; [| lia | lia].
    apply mod_pow_split in H2 as [H2 H3]; [| lia | lia].
    change (2 ^ 1) with 2 in *.
    assert (0 < 2 ^ Z.pos p) by (apply Z.pow_pos_nonneg; lia).
    rewrite shr_1_exact, IH, IH; try done.
    + f_equal. rewrite !Z.div_div by lia. f_equal.
      rewrite !Z.pow_add_r by lia. change (2 ^ 1) with 2. ring.
    + apply Z.div_pos; [apply Z.div_pos; lia | lia].
    + apply Z.div_pos; lia.
  - change (Z.pos p~0) with (2 * Z.pos p) in *.
    replace (2 * Z.pos p) with (Z.pos p + Z.pos p) in * by lia.
    apply mod_pow_split in Hmod as [H1 H2]; [| lia | lia].
    assert (0 < 2 ^ Z.pos p) by (apply Z.pow_pos_nonneg; lia).
    rewrite IH, IH; try done.
    + f_equal. rewrite !Z.div_div by lia. f_equal.
      by rewrite !Z.pow_add_r by lia.
    + apply Z.div_pos; lia.
  - change (2 ^ 1) with 2 in *. by apply shr_1_exact.
Qed.

Lemma fexp_shift m e :
  fexp prec emax (m + e) - e = Z.max (m - prec) (emin prec emax - e).
Proof. unfold fexp. lia. Qed.

Lemma shr_none mrs e n : n <= 0 -> shr mrs e n = (mrs, e).
Proof. intros Hn. destruct n; [done | lia | done]. Qed.

Lemma Zdigits2_bounds m :
  0 < m -> 2 ^ (Zdigits2 m - 1) <= m < 2 ^ Zdigits2 m /\ 0 < Zdigits2 m.
Proof.
  intros Hm. destruct m as [| p |]; try lia. split; [apply digits2_pos_bounds | done].
Qed.

Lemma Zdigits2_le m k : 0 < m < 2 ^ k -> 0 <= k -> Zdigits2 m <= k.
Proof.
  intros Hm Hk. destruct (Zdigits2_bounds m) as [Hd Hpos]; [lia |].
  destruct (Z_le_gt_dec (Zdigits2 m) k) as [| Hgt]; [done |].
  assert (2 ^ k <= 2 ^ (Zdigits2 m - 1)) by (apply Z.pow_le_mono_r; lia). lia.
Qed.

Lemma binary_round_aux_exact sx mx ex :
  0 < mx ->
  exists m2 e2,
    0 <= m2 < 2 ^ prec /\ emin prec emax <= e2 /\
    binary_round_aux prec emax sx mx ex loc_Exact
      = match m2 with
        | Z.pos p =>
            if e2 <=? emax - prec then S754_finite sx p e2 else S754_infinity sx
        | _ => S754_zero sx
        end /\
    (Z.max (Zdigits2 mx - prec) (emin prec emax - ex) <= 0 -> m2 = mx /\ e2 = ex) /\
    (forall U eU, 0 < U < 2 ^ prec -> emin prec emax <= eU -> ex <= eU ->
       (Qval mx ex <= Qval U eU)%Q -> (Qval m2 e2 <= Qval U eU)%Q /\ e2 <= eU).
Proof.
  intros Hmx.
  destruct (Zdigits2_bounds mx Hmx) as [Hd Hdpos].
  set (d := Zdigits2 mx) in *.
  unfold binary_round_aux, shr_fexp. fold d. rewrite fexp_shift.
  set (n := Z.max (d - prec) (emin prec emax - ex)).
  destruct (Z_le_gt_dec n 0) as [Hn | Hn].
  - (* the mantissa fits *)
    rewrite shr_none by done.
    cbn [shr_record_of_loc shr_m loc_of_shr_record round_nearest_even].
    fold d. rewrite fexp_shift. fold n. rewrite shr_none by done.
    cbn [shr_record_of_loc shr_m].
    assert (mx < 2 ^ prec).
    { assert (2 ^ d <= 2 ^ prec) by (apply Z.pow_le_mono_r; lia). lia. }
    exists mx, ex. split; [lia |]. split; [lia |].
    split; [by destruct mx |]. split; [done |].
    intros U eU HU HeU Hex Hval. done.
  - (* [n] digits are dropped *)
    assert (H2n : 0 < 2 ^ n) by (apply Z.pow_pos_nonneg; lia).
    set (M := mx / 2 ^ n).
    assert (HM : 0 <= M < 2 ^ prec).
    { unfold M. split; [apply Z.div_pos; lia |].
      apply Z.div_lt_upper_bound; [done |].
      rewrite <- Z.pow_add_r by lia.
      assert (2 ^ d <= 2 ^ (n + prec)) by (apply Z.pow_le_mono_r; lia). lia. }
    destruct (shr_spec (shr_record_of_loc mx loc_Exact) ex n) as [Hm1 He1];
      [simpl; lia | lia |].
    assert (Hexact : mx mod 2 ^ n = 0 ->
              loc_of_shr_record (shr (shr_record_of_loc mx loc_Exact) ex n).1 = loc_Exact).
    { intros Hmod. destruct n as [| p | p]; try lia.
      cbn [shr shr_record_of_loc fst]. by rewrite iter_shr_1_exact by lia. }
    destruct (shr (shr_record_of_loc mx loc_Exact) ex n) as [mrs1 e1].
    cbn [fst snd] in Hm1, He1, Hexact. cbn [shr_record_of_loc shr_m] in Hm1.
    fold M in Hm1. subst e1. rewrite Hm1.
    set (m2 := round_nearest_even M (loc_of_shr_record mrs1)).
    assert (Hm2 : m2 = M \/ m2 = M + 1) by apply round_nearest_even_cases.
    assert (Hm2' : mx mod 2 ^ n = 0 -> m2 = M).
    { intros Hmod. unfold m2. by rewrite Hexact. }
    clearbody m2. clear Hexact Hm1 mrs1.
    set (e1 := ex + n).
    assert (He1 : emin prec emax <= e1) by (unfold e1; lia).
    assert (Hkey : forall U eU, 0 < U < 2 ^ prec -> emin prec emax <= eU ->
              (Qval mx ex <= Qval U eU)%Q ->
              e1 <= eU /\ m2 <= U * 2 ^ (eU - e1)).
    { intros U eU HU HeU Hval.
      assert (He : e1 <= eU).
      { pose proof (Qval_digits_le mx ex U eU prec Hmx HU ltac:(lia) Hval).
        fold d in H. unfold e1. lia. }
      split; [done |].
      assert (0 < 2 ^ (eU - e1)) by (apply Z.pow_pos_nonneg; lia).
      assert (Hle : mx <= U * 2 ^ (eU - e1) * 2 ^ n).
      { apply (Qval_le_inv _ _ ex). rewrite <- Qval_shift by lia. fold e1.
        by rewrite <- Qval_align by lia. }
      set (U' := U * 2 ^ (eU - e1)) in *.
      assert (M <= U') by (unfold M; apply Z.div_le_upper_bound; lia).
      destruct Hm2 as [-> | ->]; [done |].
      destruct (Z.eq_dec M U') as [Heq | Hne]; [| lia].
      assert (Hmod : mx mod 2 ^ n = 0).
      { pose proof (Z.div_mod mx (2 ^ n) ltac:(lia)) as Hdm. fold M in Hdm.
        pose proof (Z.mod_pos_bound mx (2 ^ n) H2n). nia. }
      specialize (Hm2' Hmod). lia. }
    fold e1. rewrite fexp_shift.
    destruct (Z_lt_ge_dec m2 (2 ^ prec)) as [Hlt | Hge].
    + (* no carry *)
      assert (Hn2 : Z.max (Zdigits2 m2 - prec) (emin prec emax - e1) <= 0).
      { destruct (Z.eq_dec m2 0) as [-> | Hne]; [simpl; lia |].
        pose proof (Zdigits2_le m2 prec ltac:(lia) ltac:(lia)). lia. }
      rewrite shr_none by done. cbn [shr_record_of_loc shr_m].
      exists m2, e1. split; [lia |]. split; [done |].
      split; [destruct m2; [done | done | lia] |]. split; [lia |].
      intros U eU HU HeU Hex Hval.
      destruct (Hkey U eU HU HeU Hval) as [He Hle]. split; [| done].
      rewrite (Qval_align U eU e1) by done. by apply Qval_le.
    + (* the mantissa was rounded up to [2 ^ prec] *)
      assert (Heq : m2 = 2 ^ prec) by lia.
      assert (H2p : 2 ^ prec = 2 * 2 ^ (prec - 1)).
      { replace prec with (1 + (prec - 1)) at 1 by lia.
        by rewrite Z.pow_add_r by lia. }
      assert (Hpos : 0 < 2 ^ (prec - 1)) by (apply Z.pow_pos_nonneg; lia).
      rewrite (Zdigits2_unique m2 (prec + 1)).
      2:{ rewrite Heq. replace (prec + 1 - 1) with prec by lia.
          rewrite Z.pow_add_r by lia. change (2 ^ 1) with 2. lia. }
      2:{ lia. }
      replace (Z.max (prec + 1 - prec) (emin prec emax - e1)) with 1 by lia.
      cbn [shr fst snd SpecFloat.iter_pos].
      rewrite shr_1_m by (rewrite shr_m_of_loc; lia).
      rewrite shr_m_of_loc.
      assert (Hhalf : m2 / 2 = 2 ^ (prec - 1)).
      { rewrite Heq, H2p, Z.mul_comm. apply Z.div_mul. lia. }
      rewrite Hhalf.
      exists (2 ^ (prec - 1)), (e1 + 1). split; [lia |]. split; [lia |].
      split; [by destruct (2 ^ (prec - 1)) |]. split; [lia |].
      intros U eU HU HeU Hex Hval.
      destruct (Hkey U eU HU HeU Hval) as [He Hle].
      assert (e1 + 1 <= eU).
      { destruct (Z.eq_dec e1 eU) as [<- | Hne]; [| lia].
        rewrite Z.sub_diag in Hle. simpl in Hle. lia. }
      split; [| done].
      rewrite (Qval_align U eU e1) by done.
      rewrite (Qval_shift _ e1 1) by lia. change (2 ^ 1) with 2.
      apply Qval_le. lia.
Qed.

Lemma Zdigits2_shift m k :
  0 < m -> 0 <= k -> Zdigits2 (m * 2 ^ k) = Zdigits2 m + k.
Proof.
  intros Hm Hk. destruct (Zdigits2_bounds m Hm) as [Hd Hpos].
  assert (0 < 2 ^ k) by (apply Z.pow_pos_nonneg; lia).
  apply Zdigits2_unique; [| lia].
  replace (Zdigits2 m + k - 1) with (Zdigits2 m - 1 + k) by lia.
  rewrite !Z.pow_add_r by lia. nia.
Qed.

(** [binary_round]: the same, after the mantissa has been aligned. *)
Lemma binary_round_exact sx mx ex :
  exists m2 e2,
    0 <= m2 < 2 ^ prec /\ emin prec emax <= e2 /\
    binary_round prec emax sx mx ex
      = match m2 with
        | Z.pos p =>
            if e2 <=? emax - prec then S754_finite sx p e2 else S754_infinity sx
        | _ => S754_zero sx
        end /\
    (Z.pos mx < 2 ^ prec -> emin prec emax <= ex ->
       0 < m2 /\ (Qval m2 e2 == Qval (Z.pos mx) ex)%Q /\ e2 <= ex) /\
    (forall U eU, 0 < U < 2 ^ prec -> emin prec emax <= eU ->
       (Qval (Z.pos mx) ex <= Qval U eU)%Q ->
       (Qval m2 e2 <= Qval U eU)%Q /\ e2 <= eU).
Proof.
  destruct (Zdigits2_bounds (Z.pos mx) ltac:(lia)) as [Hd Hdpos].
  unfold binary_round, shl_align.
  change (Z.pos (digits2_pos mx)) with (Zdigits2 (Z.pos mx)).
  set (d := Zdigits2 (Z.pos mx)) in *.
  set (ex' := fexp prec emax (d + ex)).
  assert (Hex' : ex' = Z.max (d + ex - prec) (emin prec emax)) by done.
  assert (Hbound : forall U eU, 0 < U < 2 ^ prec -> emin prec emax <= eU ->
            (Qval (Z.pos mx) ex <= Qval U eU)%Q -> ex' <= eU).
  { intros U eU HU HeU Hval.
    pose proof (Qval_digits_le (Z.pos mx) ex U eU prec ltac:(lia) HU ltac:(lia) Hval).
    fold d in H. lia. }
  destruct (ex' - ex) as [| p | p] eqn:Hdiff.
  - (* already aligned *)
    destruct (binary_round_aux_exact sx (Z.pos mx) ex ltac:(lia))
      as (m2 & e2 & Hm2 & He2 & Hr & Hfit & Htrans).
    fold d in Hfit.
    exists m2, e2. split; [done |]. split; [done |]. split; [done |]. split.
    + intros Hmx Hex. destruct Hfit as [-> ->]; [lia |]. split; [lia |]. split; [done | lia].
    + intros U eU HU HeU Hval. apply Htrans; try done.
      specialize (Hbound U eU HU HeU Hval). lia.
  - (* too many digits *)
    destruct (binary_round_aux_exact sx (Z.pos mx) ex ltac:(lia))
      as (m2 & e2 & Hm2 & He2 & Hr & Hfit & Htrans).
    exists m2, e2. split; [done |]. split; [done |]. split; [done |]. split.
    + intros Hmx Hex.
      pose proof (Zdigits2_le (Z.pos mx) prec ltac:(lia) ltac:(lia)). fold d in H. lia.
    + intros U eU HU HeU Hval. apply Htrans; try done.
      specialize (Hbound U eU HU HeU Hval). lia.
  - (* shifted to the left *)
    set (k := Z.pos p).
    assert (Hk : ex = ex' + k) by lia.
    assert (H2k : 0 < 2 ^ k) by (apply Z.pow_pos_nonneg; lia).
    destruct (binary_round_aux_exact sx (Z.pos (Pos.iter xO mx p)) ex' ltac:(lia))
      as (m2 & e2 & Hm2 & He2 & Hr & Hfit & Htrans).
    rewrite iter_xO_pow in Hfit, Htrans. fold k in Hfit, Htrans.
    rewrite Zdigits2_shift in Hfit by lia. fold d in Hfit.
    destruct Hfit as [-> ->]; [lia |].
    assert (Hsame : (Qval (Z.pos mx * 2 ^ k) ex' == Qval (Z.pos mx) ex)%Q).
    { rewrite Hk. by rewrite Qval_shift by lia. }
    exists (Z.pos mx * 2 ^ k), ex'. split; [done |]. split; [done |].
    split; [done |]. split.
    + intros Hmx Hex. split; [lia |]. split; [done | lia].
    + intros U eU HU HeU Hval.
      specialize (Hbound U eU HU HeU Hval).
      split; [by rewrite Hsame | done].
Qed.

End RoundExact.

Lemma SFmag_nonneg x : (0 <= SFmag x)%Q.
Proof. destruct x; simpl; try apply Qle_refl. by apply Qval_nonneg. Qed.

Lemma SF2Q_finite s m e :
  (SF2Q (S754_finite s m e) == if s then - Qval (Z.pos m) e else Qval (Z.pos m) e)%Q.
Proof. destruct s; simpl; [apply Qval_opp | reflexivity]. Qed.

Lemma SF2Q_bounds x : (- SFmag x <= SF2Q x <= SFmag x)%Q.
Proof.
  destruct x as [| | | s m e]; try (simpl; split; apply Qle_refl).
  pose proof (Qval_nonneg (Z.pos m) e ltac:(lia)).
  rewrite SF2Q_finite. simpl SFmag. destruct s; split; lra.
Qed.

Section FormatOps.
Variables prec emax : Z.
Hypothesis Hprec : 0 < prec.

(** The three shapes of a rounded result, when an upper bound of the
    format is known. *)
Lemma round_result_bounded sx m2 e2 U eU :
  0 <= m2 < 2 ^ prec -> emin prec emax <= e2 -> e2 <= eU -> eU <= emax - prec ->
  (Qval m2 e2 <= Qval U eU)%Q ->
  let r := match m2 with
           | Z.pos p =>
               if e2 <=? emax - prec then S754_finite sx p e2 else S754_infinity sx
           | _ => S754_zero sx
           end in
  format_finite prec emax r = true /\ (SFmag r <= Qval U eU)%Q /\
  (SF2Q r == Qval (cond_Zopp sx m2) e2)%Q /\
  (r = S754_zero sx \/ exists m e, r = S754_finite sx m e).
Proof.
  intros Hm2 He2 HeU Hmax Hval r. unfold r.
  destruct m2 as [| p | p]; [| | lia].
  - simpl. split; [done |]. split.
    + rewrite <- (Qval_0 e2). exact Hval.
    + split; [| by left]. destruct sx; simpl; by rewrite Qval_0.
  - destruct (Z.leb_spec e2 (emax - prec)); [| lia].
    split; [| split; [done | split; [reflexivity | right; by eexists _, _]]].
    simpl. repeat (apply andb_true_intro; split); lia.
Qed.

Lemma binary_round_bounded sx mx ex U eU :
  0 < U < 2 ^ prec -> emin prec emax <= eU <= emax - prec ->
  (Qval (Z.pos mx) ex <= Qval U eU)%Q ->
  let r := binary_round prec emax sx mx ex in
  format_finite prec emax r = true /\ (SFmag r <= Qval U eU)%Q /\
  (r = S754_zero sx \/ exists m e, r = S754_finite sx m e).
Proof.
  intros HU HeU Hval r. unfold r.
  destruct (binary_round_exact prec emax Hprec sx mx ex)
    as (m2 & e2 & Hm2 & He2 & -> & _ & Htrans).
  destruct (Htrans U eU HU ltac:(lia) Hval) as [Hle Hee].
  destruct (round_result_bounded sx m2 e2 U eU) as (H1 & H2 & _ & H4); try done; lia.
Qed.

Lemma binary_normalize_bounded S e szero U eU :
  0 < U < 2 ^ prec -> emin prec emax <= eU <= emax - prec ->
  (Qval (Z.abs S) e <= Qval U eU)%Q ->
  let r := binary_normalize prec emax S e szero in
  format_finite prec emax r = true /\ (SFmag r <= Qval U eU)%Q /\
  (0 <= S -> (0 <= SF2Q r)%Q) /\ (S <= 0 -> (SF2Q r <= 0)%Q).
Proof.
  intros HU HeU Hval r. unfold r, binary_normalize.
  destruct S as [| p | p].
  - simpl. split; [done |]. split; [| split; intros; apply Qle_refl].
    rewrite <- (Qval_0 e). exact Hval.
  - destruct (binary_round_bounded false p e U eU HU HeU Hval) as (H1 & H2 & H3).
    split; [done |]. split; [done |]. split; [| lia].
    intros _. destruct H3 as [-> | (m & e' & ->)]; [apply Qle_refl |].
    simpl. apply Qval_nonneg. lia.
  - destruct (binary_round_bounded true p e U eU HU HeU Hval) as (H1 & H2 & H3).
    split; [done |]. split; [done |]. split; [lia |].
    intros _. destruct H3 as [-> | (m & e' & ->)]; [apply Qle_refl |].
    rewrite SF2Q_finite.
    pose proof (Qval_nonneg (Z.pos m) e' ltac:(lia)). lra.
Qed.

(** A positive integer of at most [prec] digits is converted exactly. *)
Lemma binary_normalize_exact S e szero :
  0 < S < 2 ^ prec -> emin prec emax <= e <= emax - prec ->
  exists m' e',
    binary_normalize prec emax S e szero = S754_finite false m' e' /\
    (Qval (Z.pos m') e' == Qval S e)%Q /\
    Z.pos m' < 2 ^ prec /\ emin prec emax <= e' <= emax - prec.
Proof.
  intros HS He. destruct S as [| p | p]; try lia. unfold binary_normalize.
  destruct (binary_round_exact prec emax Hprec false p e)
    as (m2 & e2 & Hm2 & He2 & -> & Hexact & _).
  destruct Hexact as (Hpos & Hsame & Hee); [lia | lia |].
  destruct m2 as [| q | q]; try lia.
  destruct (Z.leb_spec e2 (emax - prec)); [| lia].
  exists q, e2. split; [done |]. split; [done |]. lia.
Qed.

Lemma shl_align_fst mx ex ez :
  ez <= ex -> Z.pos (shl_align mx ex ez).1 = Z.pos mx * 2 ^ (ex - ez).
Proof.
  intros He. unfold shl_align.
  destruct (ez - ex) as [| p | p] eqn:Hd; simpl.
  - replace (ex - ez) with 0 by lia. lia.
  - lia.
  - rewrite iter_xO_pow. f_equal. f_equal. lia.
Qed.

(** The sum of two finite numbers is the rounding of their exact sum. *)
Lemma SFadd_finite sx mx ex sy my ey :
  exists S,
    SFadd prec emax (S754_finite sx mx ex) (S754_finite sy my ey)
      = binary_normalize prec emax S (Z.min ex ey) false /\
    (Qval S (Z.min ex ey)
       == SF2Q (S754_finite sx mx ex) + SF2Q (S754_finite sy my ey))%Q /\
    (Qval (Z.abs S) (Z.min ex ey)
       <= SFmag (S754_finite sx mx ex) + SFmag (S754_finite sy my ey))%Q.
Proof.
  set (ez := Z.min ex ey).
  set (A := Z.pos mx * 2 ^ (ex - ez)).
  set (D := Z.pos my * 2 ^ (ey - ez)).
  exists (cond_Zopp sx A + cond_Zopp sy D).
  assert (HA : (Qval A ez == Qval (Z.pos mx) ex)%Q)
    by (unfold A; symmetry; apply Qval_align; lia).
  assert (HD : (Qval D ez == Qval (Z.pos my) ey)%Q)
    by (unfold D; symmetry; apply Qval_align; lia).
  assert (0 < A) by (unfold A; assert (0 < 2 ^ (ex - ez)) by (apply Z.pow_pos_nonneg; lia); lia).
  assert (0 < D) by (unfold D; assert (0 < 2 ^ (ey - ez)) by (apply Z.pow_pos_nonneg; lia); lia).
  split; [| split].
  - unfold SFadd. fold ez. by rewrite !shl_align_fst by lia.
  - rewrite <- Qval_add, !SF2Q_finite.
    destruct sx, sy; simpl cond_Zopp; rewrite ?Qval_opp, HA, HD; reflexivity.
  - simpl SFmag. rewrite <- HA, <- HD, Qval_add. apply Qval_le.
    destruct sx, sy; simpl cond_Zopp; lia.
Qed.

End FormatOps.

(** ** Single precision sums, products and conversions of bounded values *)

Lemma finite32_inv x :
  finite32 x = true ->
  match x with
  | S754_zero _ => True
  | S754_finite _ m e => Z.pos m < 2 ^ 24 /\ -149 <= e <= 104
  | _ => False
  end.
Proof.
  destruct x as [| | | s m e]; simpl; try done.
  unfold finite32, format_finite, emin.
  rewrite !andb_true_iff, Z.ltb_lt, !Z.leb_le. lia.
Qed.

Lemma f32_add_bounded x y U eU :
  finite32 x = true -> finite32 y = true ->
  0 < U < 2 ^ 24 -> -149 <= eU <= 104 ->
  (SFmag x + SFmag y <= Qval U eU)%Q ->
  finite32 (f32_add x y) = true /\ (SFmag (f32_add x y) <= Qval U eU)%Q.
Proof.
  intros Hx Hy HU HeU Hval.
  pose proof (SFmag_nonneg x). pose proof (SFmag_nonneg y).
  destruct x as [sx | | | sx mx ex], y as [sy | | | sy my ey]; try done.
  - split; [by destruct sx, sy |].
    apply Qle_trans with (SFmag (S754_zero sx) + SFmag (S754_zero sy))%Q; [| done].
    destruct sx, sy; simpl; lra.
  - split; [done |]. simpl in *. lra.
  - split; [done |]. simpl in *. lra.
  - destruct (SFadd_finite 24 128 sx mx ex sy my ey) as (S & Hadd & _ & Habs).
    unfold f32_add. rewrite Hadd.
    destruct (binary_normalize_bounded 24 128 ltac:(lia) S (Z.min ex ey) false U eU)
      as (H1 & H2 & _); [done | done | | done].
    eapply Qle_trans; [exact Habs | exact Hval].
Qed.

(** The sum of two finite [float]s is not a NaN, and a [float] when it is
    finite. *)
Lemma f32_add_class x y :
  finite32 x = true -> finite32 y = true ->
  match f32_add x y with
  | S754_nan => False
  | S754_finite _ m e => Z.pos m < 2 ^ 24 /\ -149 <= e <= 104
  | _ => True
  end.
Proof.
  intros Hx Hy.
  destruct x as [sx | | | sx mx ex], y as [sy | | | sy my ey]; try done.
  - by destruct sx, sy.
  - by apply finite32_inv in Hy.
  - by apply finite32_inv in Hx.
  - destruct (SFadd_finite 24 128 sx mx ex sy my ey) as (S & Hadd & _ & _).
    unfold f32_add. rewrite Hadd. unfold binary_normalize.
    destruct S as [| p | p]; [done | |].
    + destruct (binary_round_exact 24 128 ltac:(lia) false p (Z.min ex ey))
        as (m2 & e2 & Hm2 & He2 & -> & _ & _).
      destruct m2 as [| q | q]; [done | | done].
      destruct (Z.leb_spec e2 (128 - 24)); [| done]. unfold emin in He2. lia.
    + destruct (binary_round_exact 24 128 ltac:(lia) true p (Z.min ex ey))
        as (m2 & e2 & Hm2 & He2 & -> & _ & _).
      destruct m2 as [| q | q]; [done | | done].
      destruct (Z.leb_spec e2 (128 - 24)); [| done]. unfold emin in He2. lia.
Qed.

(** The product of a finite [float] and one of magnitude at most 0.4f. *)
Lemma f32_mul_bounded x y :
  finite32 x = true -> finite32 y = true ->
  (SFmag y <= Qval 13421773 (-25))%Q ->
  finite32 (f32_mul x y) = true /\ (SFmag (f32_mul x y) <= Qval 13421773 103)%Q.
Proof.
  intros Hx Hy Hval.
  assert (Hpos : (0 <= Qval 13421773 103)%Q) by (apply Qval_nonneg; lia).
  destruct x as [sx | | | sx mx ex], y as [sy | | | sy my ey]; try done.
  apply finite32_inv in Hx, Hy. simpl in Hval.
  unfold f32_mul, SFmul.
  destruct (binary_round_aux_exact 24 128 ltac:(lia) (xorb sx sy)
              (Z.pos (mx * my)) (ex + ey) ltac:(lia))
    as (m2 & e2 & Hm2 & He2 & -> & _ & Htrans).
  assert (Hey : ey <= -2).
  { pose proof (Qval_digits_le (Z.pos my) ey 13421773 (-25) 24
                  ltac:(lia) ltac:(lia) ltac:(lia) Hval) as Hd.
    assert (0 < Zdigits2 (Z.pos my)) by done. lia. }
  destruct (Htrans 13421773 103) as [Hle Hee]; [lia | unfold emin; lia | lia | |].
  { rewrite Pos2Z.inj_mul, <- Qval_mul.
    rewrite (Qval_align 13421773 103 79) by lia.
    replace (13421773 * 2 ^ (103 - 79)) with (2 ^ 24 * 13421773) by lia.
    replace 79 with (104 + -25) by lia. rewrite <- Qval_mul.
    apply Qmult_le_compat_nonneg.
    - split; [apply Qval_nonneg; lia |].
      apply Qle_trans with (Qval (2 ^ 24) ex); [apply Qval_le; lia |].
      apply Qval_exp_le; lia.
    - split; [apply Qval_nonneg; lia | done]. }
  destruct (round_result_bounded 24 128 ltac:(lia) (xorb sx sy) m2 e2 13421773 103)
    as (H1 & H2 & _); try done; lia.
Qed.

(** [(float)n] for a non-negative integer below [2 ^ 24] is exact. *)
Lemma f32_of_Z_exact n :
  0 <= n < 2 ^ 24 ->
  finite32 (f32_of_Z n) = true /\ (SF2Q (f32_of_Z n) == inject_Z n)%Q /\
  (SFmag (f32_of_Z n) == inject_Z n)%Q.
Proof.
  intros Hn. destruct (Z.eq_dec n 0) as [-> | Hne]; [done |].
  destruct (binary_normalize_exact 24 128 ltac:(lia) n 0 false)
    as (m & e & Hr & Hval & Hm & He); [lia | unfold emin; lia |].
  unfold f32_of_Z. rewrite Hr. rewrite Qval_int in Hval.
  split; [| by simpl].
  simpl. repeat (apply andb_true_intro; split); lia.
Qed.

(** ** The position of a snow particle *)

(** The wrap of a coordinate: [(float)fmod((double)s, (double)size)] is a
    finite [float] of magnitude at most [size]. *)
Lemma snow_wrap_bounded s size :
  finite32 s = true -> 0 < size < 2 ^ 24 ->
  let r := f32_of_f64 (fmod (f64_of_f32 s) (f64_of_Z size)) in
  finite32 r = true /\ (SFmag r <= inject_Z size)%Q.
Proof.
  intros Hs Hsize r. unfold r.
  assert (Hnonneg : (0 <= inject_Z size)%Q).
  { change 0%Q with (inject_Z 0). rewrite <- Zle_Qle. lia. }
  destruct (binary_normalize_exact 53 1024 ltac:(lia) size 0 false)
    as (my & ey & Hy & Hyval & Hmy & Hey); [lia | unfold emin; lia |].
  unfold f64_of_Z. rewrite Hy. rewrite Qval_int in Hyval.
  destruct s as [sz | | | ss ms es]; try done.
  apply finite32_inv in Hs. unfold f64_of_f32.
  destruct (binary_round_exact 53 1024 ltac:(lia) ss ms es)
    as (m2 & e2 & Hm2 & He2 & -> & Hexact & _).
  destruct Hexact as (Hpos & Hsame & Hee); [lia | unfold emin; lia |].
  destruct m2 as [| q | q]; try lia.
  destruct (Z.leb_spec e2 (1024 - 53)); [| lia].
  unfold fmod.
  set (e := Z.min e2 ey).
  rewrite !Z.shiftl_mul_pow2 by lia.
  set (Y := Z.pos my * 2 ^ (ey - e)).
  set (X := Z.pos q * 2 ^ (e2 - e)).
  assert (0 < Y).
  { unfold Y. assert (0 < 2 ^ (ey - e)) by (apply Z.pow_pos_nonneg; lia). lia. }
  assert (0 <= X).
  { unfold X. assert (0 < 2 ^ (e2 - e)) by (apply Z.pow_pos_nonneg; lia). lia. }
  pose proof (Z.rem_bound_pos X Y ltac:(lia) ltac:(lia)) as Hrem.
  destruct (binary_normalize_bounded 53 1024 ltac:(lia)
              (cond_Zopp ss (Z.rem X Y)) e ss (Z.pos my) ey)
    as (F1 & F2 & _); [lia | unfold emin in *; lia | |].
  { replace (Z.abs (cond_Zopp ss (Z.rem X Y))) with (Z.rem X Y)
      by (destruct ss; simpl; lia).
    rewrite (Qval_align (Z.pos my) ey e) by lia. apply Qval_le. fold Y. lia. }
  destruct (binary_normalize 53 1024 (cond_Zopp ss (Z.rem X Y)) e ss)
    as [sz | | | s' m' e']; try done.
  unfold f32_of_f64. simpl in F2.
  destruct (binary_round_bounded 24 128 ltac:(lia) s' m' e' size 0)
    as (G1 & G2 & _); [lia | unfold emin; lia | rewrite Qval_int; lra |].
  rewrite Qval_int in G2. done.
Qed.

(** [(int)x] for a finite [float] of magnitude at most [W]: the conversion
    is defined, and an integer above [-k] comes from a value above [-k]. *)
Lemma to_signed_bounded x W :
  finite32 x = true -> (SFmag x <= inject_Z W)%Q -> 0 <= W <= INT_MAX ->
  exists v, to_signed x = Some v /\ - W <= v <= W /\
    (forall k, 0 < k -> - k < v -> (- inject_Z k < SF2Q x)%Q).
Proof.
  intros Hx Hmag HW. unfold INT_MAX in HW.
  destruct x as [sz | | | s m e]; try done.
  - exists 0. split; [done |]. split; [lia |].
    intros k Hk _. simpl.
    assert (0 < inject_Z k)%Q by (change 0%Q with (inject_Z 0); by rewrite <- Zlt_Qlt).
    lra.
  - simpl in Hmag.
    set (t := Z.shiftl (Z.pos m) e).
    assert (Ht : 0 <= t /\ (Qval t 0 <= Qval (Z.pos m) e)%Q /\
                 (Qval (Z.pos m) e < Qval (t + 1) 0)%Q).
    { destruct (Z_le_gt_dec 0 e) as [He | He].
      - unfold t. rewrite Z.shiftl_mul_pow2 by done.
        assert (0 < 2 ^ e) by (apply Z.pow_pos_nonneg; lia).
        rewrite (Qval_align (Z.pos m) e 0) by done. rewrite Z.sub_0_r.
        split; [lia |]. split; [apply Qle_refl | apply Qval_lt; lia].
      - unfold t. rewrite Z.shiftl_div_pow2 by lia.
        assert (H2 : 0 < 2 ^ (- e)) by (apply Z.pow_pos_nonneg; lia).
        pose proof (Z.div_mod (Z.pos m) (2 ^ (- e)) ltac:(lia)) as Hdm.
        pose proof (Z.mod_pos_bound (Z.pos m) (2 ^ (- e)) H2) as Hmod.
        set (u := Z.pos m / 2 ^ (- e)) in *.
        assert (0 <= u) by (apply Z.div_pos; lia).
        rewrite (Qval_align u 0 e), (Qval_align (u + 1) 0 e) by lia.
        rewrite Z.sub_0_l.
        split; [done |]. split; [apply Qval_le; nia | apply Qval_lt; nia]. }
    destruct Ht as (Ht0 & Hlo & Hhi).
    assert (HtW : t <= W).
    { apply (Qval_le_inv _ _ 0). rewrite (Qval_int W). lra. }
    exists (cond_Zopp s t). split; [| split].
    + unfold to_signed, SFtrunc. fold t. simpl.
      unfold INT_MIN, INT_MAX.
      destruct (Z.leb_spec (- 2 ^ 31) (cond_Zopp s t)),
        (Z.leb_spec (cond_Zopp s t) (2 ^ 31 - 1)); simpl; try done;
        destruct s; simpl in *; lia.
    + destruct s; simpl; lia.
    + intros k Hk Hv. rewrite SF2Q_finite.
      pose proof (Qval_nonneg (Z.pos m) e ltac:(lia)).
      assert (0 < inject_Z k)%Q by (change 0%Q with (inject_Z 0); by rewrite <- Zlt_Qlt).
      destruct s; [| lra]. simpl in Hv.
      assert (Hk1 : (Qval (t + 1) 0 <= inject_Z k)%Q).
      { rewrite Qval_int, <- Zle_Qle. lia. }
      lra.
Qed.

(** The reset of a coordinate: a negative value is moved up by [size]. *)
Lemma snow_reset_bounded x size :
  finite32 x = true -> (SFmag x <= inject_Z size)%Q -> 0 < size < 2 ^ 24 ->
  let r := if SFltb x (f32_of_Z 0) then f32_add x (f32_of_Z size) else x in
  finite32 r = true /\ (0 <= SF2Q r <= inject_Z size)%Q /\
  (SFmag r <= inject_Z size)%Q.
Proof.
  intros Hx Hmag Hsize r. unfold r.
  change (f32_of_Z 0) with (S754_zero false).
  assert (Hnonneg : (0 <= inject_Z size)%Q).
  { change 0%Q with (inject_Z 0). rewrite <- Zle_Qle. lia. }
  destruct x as [sz | | | s m e]; try done.
  destruct s.
  - (* negative *)
    change (SFltb (S754_finite true m e) (S754_zero false)) with true.
    cbv iota.
    destruct (binary_normalize_exact 24 128 ltac:(lia) size 0 false)
      as (mw & ew & Hw & Hwval & Hmw & Hew); [lia | unfold emin; lia |].
    unfold f32_of_Z. rewrite Hw. rewrite Qval_int in Hwval.
    destruct (SFadd_finite 24 128 true m e false mw ew) as (S & Hadd & Hsum & _).
    unfold f32_add. rewrite Hadd.
    rewrite !SF2Q_finite, Hwval in Hsum. simpl in Hmag.
    assert (HS : 0 <= S).
    { apply (Qval_le_inv _ _ (Z.min e ew)). rewrite Qval_0, Hsum. lra. }
    pose proof (Qval_nonneg (Z.pos m) e ltac:(lia)).
    destruct (binary_normalize_bounded 24 128 ltac:(lia) S (Z.min e ew) false size 0)
      as (H1 & H2 & H3 & _); [lia | unfold emin; lia | |].
    { rewrite Z.abs_eq by done. rewrite Hsum, Qval_int. lra. }
    rewrite Qval_int in H2.
    split; [done |]. split; [| done]. split; [by apply H3 |].
    eapply Qle_trans; [apply SF2Q_bounds | done].
  - change (SFltb (S754_finite false m e) (S754_zero false)) with false.
    cbv iota. simpl in Hmag |- *.
    split; [done |]. split; [| done]. split; [apply Qval_nonneg; lia | done].
Qed.

(** *** The clamp of the velocity *)

Lemma f32_lit_4_10 : f32_lit 4 10 = S754_finite false 13421773 (-25).
Proof. by vm_compute. Qed.

Lemma f32_lit_1_10 : f32_lit 1 10 = S754_finite false 13421773 (-27).
Proof. by vm_compute. Qed.

Lemma SFltb_pos_false m1 e1 m2 e2 :
  SFltb (S754_finite false m1 e1) (S754_finite false m2 e2) = false ->
  e2 < e1 \/ (e2 = e1 /\ Z.pos m2 <= Z.pos m1).
Proof.
  unfold SFltb, SFcompare.
  destruct (Z.compare_spec e1 e2) as [-> | Hlt | Hgt]; [| done | lia].
  change (Pos.compare_cont Eq m1 m2) with (Pos.compare m1 m2).
  destruct (Pos.compare_spec m1 m2); [lia | done | lia].
Qed.

Lemma SFltb_neg_false m1 e1 m2 e2 :
  SFltb (S754_finite true m1 e1) (S754_finite true m2 e2) = false ->
  e1 < e2 \/ (e1 = e2 /\ Z.pos m1 <= Z.pos m2).
Proof.
  unfold SFltb, SFcompare.
  destruct (Z.compare_spec e1 e2) as [-> | Hlt | Hgt]; [| lia | done].
  change (Pos.compare_cont Eq m1 m2) with (Pos.compare m1 m2).
  destruct (Pos.compare_spec m1 m2); simpl; [lia | lia | done].
Qed.

Lemma slow_bound m e E :
  0 < m < 2 ^ 24 -> E <= -25 -> e < E \/ (e = E /\ m <= 13421773) ->
  (Qval m e <= Qval 13421773 (-25))%Q.
Proof.
  intros Hm HE [Hlt | [-> Hle]].
  - apply Qle_trans with (Qval m (-26)); [apply Qval_exp_le; lia |].
    rewrite (Qval_align 13421773 (-25) (-26)) by lia. apply Qval_le. lia.
  - apply Qle_trans with (Qval 13421773 E); [by apply Qval_le |].
    apply Qval_exp_le; lia.
Qed.

Lemma clamp_slow32 s elo ehi :
  match s with
  | S754_nan => False
  | S754_finite _ m e => Z.pos m < 2 ^ 24 /\ -149 <= e <= 104
  | _ => True
  end ->
  elo = -25 \/ elo = -27 -> ehi = -25 \/ ehi = -27 ->
  let lo := S754_finite true 13421773 elo in
  let hi := S754_finite false 13421773 ehi in
  let c1 := if SFltb s lo then lo else s in
  slow32 (if SFltb hi c1 then hi else c1).
Proof.
  intros Hs Hlo Hhi lo hi c1.
  assert (Hslow_lo : slow32 lo).
  { split; [unfold finite32, format_finite, emin; destruct Hlo as [-> | ->]; done |].
    simpl. apply Qval_exp_le; lia. }
  assert (Hslow_hi : slow32 hi).
  { split; [unfold finite32, format_finite, emin; destruct Hhi as [-> | ->]; done |].
    simpl. apply Qval_exp_le; lia. }
  assert (Hhl : SFltb hi lo = false) by done.
  unfold c1.
  destruct s as [sz | [] | | [] m e].
  - (* a zero *)
    change (SFltb (S754_zero sz) lo) with false. cbv iota.
    change (SFltb hi (S754_zero sz)) with false. cbv iota.
    split; [done |]. simpl. apply Qval_nonneg. lia.
  - (* minus infinity *)
    change (SFltb (S754_infinity true) lo) with true. cbv iota.
    by rewrite Hhl.
  - (* plus infinity *)
    change (SFltb (S754_infinity false) lo) with false. cbv iota.
    by change (SFltb hi (S754_infinity false)) with true.
  - done.
  - (* negative *)
    destruct (SFltb (S754_finite true m e) lo) eqn:Hlt; [by rewrite Hhl |].
    change (SFltb hi (S754_finite true m e)) with false. cbv iota.
    apply SFltb_neg_false in Hlt.
    split.
    + unfold finite32, format_finite, emin.
      repeat (apply andb_true_intro; split); lia.
    + simpl. apply (slow_bound (Z.pos m) e elo); lia.
  - (* positive *)
    change (SFltb (S754_finite false m e) lo) with false. cbv iota.
    destruct (SFltb hi (S754_finite false m e)) eqn:Hlt; [done |].
    apply SFltb_pos_false in Hlt.
    split.
    + unfold finite32, format_finite, emin.
      repeat (apply andb_true_intro; split); lia.
    + simpl. apply (slow_bound (Z.pos m) e ehi); lia.
Qed.

Lemma snow_delta_finite32 r k :
  0 <= k <= 16 ->
  finite32 (f32_mul (f32_of_Z (Z.rem r 16 - k)) (f32_lit 1 100)) = true.
Proof.
  intros Hk.
  assert (Hall : all_below 48 (fun j =>
            finite32 (f32_mul (f32_of_Z (j - 31)) (f32_lit 1 100))) = true)
    by (vm_compute; reflexivity).
  pose proof (Z.rem_bound_abs r 16) as Hrem.
  assert (0 <= Z.rem r 16 - k + 31 < Z.of_nat 48) by lia.
  pose proof (all_below_spec _ _ Hall (Z.rem r 16 - k + 31) ltac:(lia)) as Hj.
  cbv beta in Hj. by replace (Z.rem r 16 - k + 31 - 31) with (Z.rem r 16 - k) in Hj by lia.
Qed.

(** The velocity after "Update particle 'speed'" is a finite [float] of
    magnitude at most 0.4f in either component; the position is not
    touched. *)
Lemma snow_update_speed_slow p r1 r2 :
  finite32 (rgui_particle.c p) = true -> finite32 (rgui_particle.d p) = true ->
  let p' := snow_update_speed p r1 r2 in
  rgui_particle.a p' = rgui_particle.a p /\
  rgui_particle.b p' = rgui_particle.b p /\
  slow32 (rgui_particle.c p') /\ slow32 (rgui_particle.d p').
Proof.
  intros Hc Hd p'. unfold p', snow_update_speed.
  cbn [rgui_particle.a rgui_particle.b rgui_particle.c rgui_particle.d].
  rewrite f32_lit_4_10, f32_lit_1_10. cbn [SFopp negb].
  split; [done |]. split; [done |]. split.
  - apply (clamp_slow32 _ (-25) (-27)); [| by left | by right].
    apply f32_add_class; [done | apply snow_delta_finite32; lia].
  - apply (clamp_slow32 _ (-27) (-25)); [| by right | by left].
    apply f32_add_class; [done | apply snow_delta_finite32; lia].
Qed.

(** "Update particle location", one coordinate: the result is a finite
    [float] of magnitude at most [size], whatever the finite speed
    factor. *)
Lemma snow_move_bounded gsf pos vel size :
  finite32 gsf = true -> finite32 pos = true ->
  (SFmag pos <= inject_Z (2 ^ 24))%Q -> slow32 vel -> 0 < size < 2 ^ 24 ->
  let r := f32_of_f64 (fmod (f64_of_f32 (f32_add pos (f32_mul gsf vel)))
                            (f64_of_Z size)) in
  finite32 r = true /\ (SFmag r <= inject_Z size)%Q.
Proof.
  intros Hgsf Hpos Hmag [Hvel Hslow] Hsize.
  destruct (f32_mul_bounded gsf vel Hgsf Hvel Hslow) as [Hd Hmd].
  destruct (f32_add_bounded pos (f32_mul gsf vel) (2 ^ 24 - 1) 103) as [Hs _];
    [done | done | lia | lia | |].
  { replace (2 ^ 24 - 1) with (13421773 + 3355442) by lia.
    rewrite <- Qval_add.
    assert (inject_Z (2 ^ 24) <= Qval 3355442 103)%Q.
    { rewrite (Qval_align 3355442 103 0) by lia. rewrite Qval_int, <- Zle_Qle. lia. }
    lra. }
  by apply snow_wrap_bounded.
Qed.

(** One iteration of the snow loop on a particle in order: it completes,
    and leaves the particle in order at a position above [-size] and at
    most the size of the buffer in either coordinate. *)
Lemma snow_particle_step_bounded effect fb_width fb_height gsf color i p r1 r2 data :
  frame_buf_ok data fb_width fb_height ->
  0 < fb_width < 2 ^ 24 -> 0 < fb_height < 2 ^ 24 ->
  finite32 gsf = true -> snow_particle_ok p ->
  exists p' data' on_screen,
    snow_particle_step effect fb_width fb_height gsf color i p r1 r2 data
      = Some (p', data', on_screen) /\
    frame_buf_ok data' fb_width fb_height /\
    snow_particle_ok p' /\
    snow_position_bounded fb_width fb_height (snow_particle_size effect i) p'.
Proof.
  intros Hok HW HH Hgsf (Ha & Hb & Hc & Hd & Hma & Hmb).
  destruct (snow_update_speed_slow p r1 r2 Hc Hd) as (Ea & Eb & Hc1 & Hd1).
  unfold snow_particle_step.
  destruct (snow_update_speed p r1 r2) as [a1 b1 c1 d1].
  cbn [rgui_particle.a rgui_particle.b rgui_particle.c rgui_particle.d] in *.
  subst a1 b1. unfold snow_update_location.
  destruct (snow_move_bounded gsf (rgui_particle.a p) c1 fb_width) as [Ha2 Hma2];
    try done.
  destruct (snow_move_bounded gsf (rgui_particle.b p) d1 fb_height) as [Hb2 Hmb2];
    try done.
  set (a2 := f32_of_f64 (fmod (f64_of_f32 (f32_add (rgui_particle.a p)
                                             (f32_mul gsf c1)))
                              (f64_of_Z fb_width))) in *.
  set (b2 := f32_of_f64 (fmod (f64_of_f32 (f32_add (rgui_particle.b p)
                                             (f32_mul gsf d1)))
                              (f64_of_Z fb_height))) in *.
  clearbody a2 b2.
  cbn [rgui_particle.a rgui_particle.b].
  destruct (to_signed_bounded a2 fb_width Ha2 Hma2) as (x & Hx & Hxr & Hxlow);
    [unfold INT_MAX; lia |].
  destruct (to_signed_bounded b2 fb_height Hb2 Hmb2) as (y & Hy & Hyr & Hylow);
    [unfold INT_MAX; lia |].
  rewrite Hx, Hy. cbn [mbind option_bind].
  pose proof (snow_particle_size_range effect i) as Hsize.
  set (size := snow_particle_size effect i) in *.
  destruct (rgui_draw_particle_painted data fb_width fb_height x y size size color)
    as (data' & Hdraw & Hp);
    [done | unfold INT_MIN, INT_MAX; lia | unfold INT_MIN, INT_MAX; lia
     | unfold UINT_MAX; lia | unfold UINT_MAX; lia
     | unfold INT_MAX; lia | unfold INT_MAX; lia |].
  rewrite Hdraw. cbn [mbind option_bind].
  assert (Hok' : frame_buf_ok data' fb_width fb_height)
    by (by eapply painted_frame_buf_ok).
  assert (HWQ : (inject_Z fb_width <= inject_Z (2 ^ 24))%Q) by (rewrite <- Zle_Qle; lia).
  assert (HHQ : (inject_Z fb_height <= inject_Z (2 ^ 24))%Q) by (rewrite <- Zle_Qle; lia).
  assert (Hc1' : finite32 c1 = true) by apply Hc1.
  assert (Hd1' : finite32 d1 = true) by apply Hd1.
  assert (Hsz : (0 < inject_Z size)%Q).
  { change 0%Q with (inject_Z 0). rewrite <- Zlt_Qlt. lia. }
  destruct ((Z.max x 0 <? Z.min (x + size) fb_width)
            && (Z.max y 0 <? Z.min (y + size) fb_height)) eqn:Hon.
  - (* drawn on screen: the particle stays where it is *)
    apply andb_prop in Hon as [Hxon Hyon].
    apply Z.ltb_lt in Hxon. apply Z.ltb_lt in Hyon.
    eexists _, _, _. split; [reflexivity |]. split; [done |].
    unfold snow_position_bounded.
    cbn [rgui_particle.a rgui_particle.b].
    pose proof (SF2Q_bounds a2). pose proof (SF2Q_bounds b2).
    pose proof (Hxlow size ltac:(lia) ltac:(lia)).
    pose proof (Hylow size ltac:(lia) ltac:(lia)).
    split; [| split; [lra | split; [lra |]]].
    + repeat split; try done; cbn [rgui_particle.a rgui_particle.b]; lra.
    + right. exists x, y. repeat split; try done; lia.
  - (* off screen: the reset *)
    eexists _, _, _. split; [reflexivity |]. split; [done |].
    unfold snow_reset.
    destruct (snow_reset_bounded a2 fb_width Ha2 Hma2 HW) as (Ha3 & Hva3 & Hma3).
    destruct (snow_reset_bounded b2 fb_height Hb2 Hmb2 HH) as (Hb3 & Hvb3 & Hmb3).
    unfold snow_position_bounded.
    cbn [rgui_particle.a rgui_particle.b].
    split; [| split; [lra | split; [lra |]]].
    + repeat split; try done; cbn [rgui_particle.a rgui_particle.b]; lra.
    + left. split; lra.
Qed.

Lemma snow_init_speed_finite32 r k :
  0 <= k <= 48 ->
  finite32 (f32_mul (f32_of_Z (Z.rem r 64 - k)) (f32_lit 1 10)) = true.
Proof.
  intros Hk.
  assert (Hall : all_below 175 (fun j =>
            finite32 (f32_mul (f32_of_Z (j - 111)) (f32_lit 1 10))) = true)
    by (vm_compute; reflexivity).
  pose proof (Z.rem_bound_abs r 64) as Hrem.
  assert (0 <= Z.rem r 64 - k + 111 < Z.of_nat 175) by lia.
  pose proof (all_below_spec _ _ Hall (Z.rem r 64 - k + 111) ltac:(lia)) as Hj.
  cbv beta in Hj.
  by replace (Z.rem r 64 - k + 111 - 111) with (Z.rem r 64 - k) in Hj by lia.
Qed.

(** The initialisation leaves every snow particle in order. *)
Lemma rgui_init_particle_effect_snow_ok fb_width fb_height particles rnd
    particles' rnd' :
  0 < fb_width < 2 ^ 24 -> 0 < fb_height < 2 ^ 24 ->
  rgui_init_particle_effect_snow fb_width fb_height (particles, rnd)
    = Some (particles', rnd') ->
  forall i p, 0 <= i < RGUI_NUM_PARTICLES ->
    particles' !! Z.to_nat i = Some p -> snow_particle_ok p.
Proof.
  intros HW HH Hinit i p Hi Hp.
  unfold rgui_init_particle_effect_snow, for_loop in Hinit.
  pose proof (for_loop_count_1 0 RGUI_NUM_PARTICLES) as Hcount.
  set (N := trip_count 0 RGUI_NUM_PARTICLES 1) in *.
  pose (Inv := fun (k : nat) (st : list rgui_particle_t * rng) =>
    forall j q, (j < k)%nat -> st.1 !! j = Some q -> snow_particle_ok q).
  assert (Hfinal : Inv N (particles', rnd')).
  { eapply (iterate_inv_Some Inv); [| | exact Hinit]; [intros j q Hj; lia |].
    intros k [ps g] [ps1 g1] Hk Hinv Hbody.
    replace (0 + Z.of_nat k * 1) with (Z.of_nat k) in Hbody by lia.
    rewrite Nat2Z.id in Hbody.
    apply bind_Some in Hbody as (pk & Hpk & Hbody).
    cbn [rand fst snd] in Hbody.
    destruct ((fb_width =? 0) || (fb_height =? 0)); [done |].
    injection Hbody as <- <-.
    intros j q Hj Hq. cbn [fst] in Hq.
    destruct (decide (j = k)) as [-> | Hne].
    - rewrite list_lookup_insert_eq in Hq by (by eapply lookup_lt_Some).
      injection Hq as <-.
      destruct (f32_of_Z_exact (Z.of_N (g O) mod fb_width)) as (Ha & _ & Hma).
      { pose proof (Z.mod_pos_bound (Z.of_N (g O)) fb_width ltac:(lia)). lia. }
      destruct (f32_of_Z_exact (Z.of_N (g (Datatypes.S O)) mod fb_height))
        as (Hb & _ & Hmb).
      { pose proof (Z.mod_pos_bound (Z.of_N (g (Datatypes.S O))) fb_height ltac:(lia)).
        lia. }
      pose proof (Z.mod_pos_bound (Z.of_N (g O)) fb_width ltac:(lia)).
      pose proof (Z.mod_pos_bound (Z.of_N (g (Datatypes.S O))) fb_height ltac:(lia)).
      repeat split; cbn [rgui_particle.a rgui_particle.b rgui_particle.c rgui_particle.d];
        try done;
        try (apply snow_init_speed_finite32; lia).
      + rewrite Hma, <- Zle_Qle. lia.
      + rewrite Hmb, <- Zle_Qle. lia.
    - rewrite list_lookup_insert_ne in Hq by done.
      apply (Hinv j q); [lia | done]. }
  apply (Hfinal (Z.to_nat i) p); [lia | done].
Qed.

(** The snow loop on a pool in order. *)
Lemma rgui_render_particle_effect_snow_bounded effect fb_width fb_height
    global_speed_factor particle_color particles data rnd :
  frame_buf_ok data fb_width fb_height ->
  0 < fb_width < 2 ^ 24 -> 0 < fb_height < 2 ^ 24 ->
  finite32 global_speed_factor = true ->
  RGUI_NUM_PARTICLES <= Z.of_nat (length particles) ->
  (forall i p, 0 <= i < RGUI_NUM_PARTICLES ->
     particles !! Z.to_nat i = Some p -> snow_particle_ok p) ->
  exists particles' data' rnd',
    rgui_render_particle_effect_snow effect fb_width fb_height
      global_speed_factor particle_color (particles, data, rnd)
      = Some (particles', data', rnd') /\
    forall i, 0 <= i < RGUI_NUM_PARTICLES ->
      exists p', particles' !! Z.to_nat i = Some p' /\ snow_particle_ok p' /\
        snow_position_bounded fb_width fb_height (snow_particle_size effect i) p'.
Proof.
  intros Hok HW HH Hgsf Hlen Hpool.
  unfold rgui_render_particle_effect_snow, for_loop.
  pose proof (for_loop_count_1 0 RGUI_NUM_PARTICLES) as Hcount.
  set (N := trip_count 0 RGUI_NUM_PARTICLES 1) in *.
  assert (HN : Z.of_nat N = RGUI_NUM_PARTICLES) by (unfold RGUI_NUM_PARTICLES in *; lia).
  pose (Inv := fun (k : nat) (st : effect_state) =>
    length st.1.1 = length particles /\
    frame_buf_ok st.1.2 fb_width fb_height /\
    (forall j, (j < k)%nat ->
       exists p', st.1.1 !! j = Some p' /\ snow_particle_ok p' /\
         snow_position_bounded fb_width fb_height
           (snow_particle_size effect (Z.of_nat j)) p') /\
    (forall j, (k <= j)%nat -> st.1.1 !! j = particles !! j)).
  destruct (iterate_inv Inv
    (fun i (st : effect_state) =>
       let '(particles, data, rnd) := st in
       particle ← particles !! Z.to_nat i;
       let '(r1, rnd) := rand rnd in
       let '(r2, rnd) := rand rnd in
       '(particle, data, on_screen) ← snow_particle_step effect fb_width fb_height
           global_speed_factor particle_color i particle r1 r2 data;
       Some (<[Z.to_nat i := particle]> particles, data, rnd))
    1 N 0 (particles, data, rnd)) as ([[ps' d'] g'] & Hrun & Hfinal).
  - unfold Inv. cbn [fst snd]. split; [done |]. split; [done |].
    split; [intros; lia | done].
  - intros k [[ps dk] g] Hk (Hl & Hokk & Hbelow & Habove).
    cbn [fst snd] in Hl, Hokk, Hbelow, Habove.
    replace (0 + Z.of_nat k * 1) with (Z.of_nat k) by lia.
    rewrite Nat2Z.id.
    destruct (lookup_lt_is_Some_2 particles k) as [p Hp]; [lia |].
    rewrite (Habove k), Hp by lia. cbn [mbind option_bind rand fst snd].
    pose proof (Hpool (Z.of_nat k) p) as Hpk.
    rewrite Nat2Z.id in Hpk. specialize (Hpk ltac:(lia) Hp).
    destruct (snow_particle_step_bounded effect fb_width fb_height
                global_speed_factor particle_color (Z.of_nat k) p
                (Z.of_N (g O)) (Z.of_N (g (Datatypes.S O))) dk)
      as (p' & dk' & on & Hstep & Hok' & Hp' & Hpos); try done.
    rewrite Hstep. cbn [mbind option_bind].
    eexists. split; [reflexivity |].
    unfold Inv. cbn [fst snd]. split; [by rewrite length_insert |].
    split; [done |]. split.
    + intros j Hj. destruct (decide (j = k)) as [-> | Hne].
      * exists p'. rewrite list_lookup_insert_eq by lia. done.
      * rewrite list_lookup_insert_ne by done. apply Hbelow. lia.
    + intros j Hj. rewrite list_lookup_insert_ne by lia. apply Habove. lia.
  - destruct Hfinal as (_ & _ & Hbelow & _). cbn [fst snd] in Hbelow.
    exists ps', d', g'. split; [exact Hrun |].
    intros i Hi. destruct (Hbelow (Z.to_nat i) ltac:(lia)) as (p' & Hp' & Hrest).
    exists p'. split; [done |]. by rewrite Z2Nat.id in Hrest by lia.
Qed.

(** C6 (as amended): [rgui_init_particle_effect] leaves every snow particle
    in order: its fields are finite [float]s and its position is within
    [2 ^ 24] of the origin.  An update step of a snow effect on such a
    pool, on a buffer of fewer than [2 ^ 24] texels in each direction and
    for every finite speed factor, completes and leaves every particle in
    order again, at a position (a, b) with [-size < a <= fb_width] and
    [-size < b <= fb_height], where [size] is the size of the particle (1,
    2 or 3 texels): [fmod] keeps the sign of its first argument, so a
    coordinate may be negative, but only while the texel the particle is
    drawn at is less than [size] outside the buffer; a particle drawn off
    screen is moved into [0, fb_width] x [0, fb_height]. *)
Theorem snow_position_after_step :
  (forall fb_width fb_height particles rnd particles' rnd',
     0 < fb_width < 2 ^ 24 -> 0 < fb_height < 2 ^ 24 ->
     rgui_init_particle_effect_snow fb_width fb_height (particles, rnd)
       = Some (particles', rnd') ->
     forall i p, 0 <= i < RGUI_NUM_PARTICLES ->
       particles' !! Z.to_nat i = Some p -> snow_particle_ok p) /\
  (forall effect fb_width fb_height global_speed_factor particle_color
          particles data rnd,
     frame_buf_ok data fb_width fb_height ->
     0 < fb_width < 2 ^ 24 -> 0 < fb_height < 2 ^ 24 ->
     finite32 global_speed_factor = true ->
     RGUI_NUM_PARTICLES <= Z.of_nat (length particles) ->
     (forall i p, 0 <= i < RGUI_NUM_PARTICLES ->
        particles !! Z.to_nat i = Some p -> snow_particle_ok p) ->
     exists particles' data' rnd',
       rgui_render_particle_effect_snow effect fb_width fb_height
         global_speed_factor particle_color (particles, data, rnd)
         = Some (particles', data', rnd') /\
       forall i, 0 <= i < RGUI_NUM_PARTICLES ->
         exists p', particles' !! Z.to_nat i = Some p' /\ snow_particle_ok p' /\
           snow_position_bounded fb_width fb_height
             (snow_particle_size effect i) p').
Proof.
  split.
  - exact rgui_init_particle_effect_snow_ok.
  - exact rgui_render_particle_effect_snow_bounded.
Qed.

Lemma snow_position_after_step_witness :
  exists particles' data' rnd',
    rgui_render_particle_effect_snow RGUI_PARTICLE_EFFECT_SNOW 16 12
      (f32_of_Z 1) 7 (replicate 256 still_particle, replicate 192 0, zero_rng)
      = Some (particles', data', rnd') /\
    forall i, 0 <= i < RGUI_NUM_PARTICLES ->
      exists p', particles' !! Z.to_nat i = Some p' /\ snow_particle_ok p' /\
        snow_position_bounded 16 12
          (snow_particle_size RGUI_PARTICLE_EFFECT_SNOW i) p'.
Proof.
  apply (proj2 snow_position_after_step RGUI_PARTICLE_EFFECT_SNOW 16 12
           (f32_of_Z 1) 7 (replicate 256 still_particle) (replicate 192 0) zero_rng).
  - unfold frame_buf_ok, INT_MAX, UINT_MAX. simpl. lia.
  - lia.
  - lia.
  - by vm_compute.
  - rewrite length_replicate. unfold RGUI_NUM_PARTICLES. lia.
  - intros i p _ Hp. apply lookup_replicate in Hp as [-> _].
    repeat split; try (by vm_compute).
Defined.
